(** * Tru11 / TBug11: the 68HC11 bootstrap protocol engine

    A shallow embedding of the host-side protocol code of the two command
    line programs of the repository (tru11/main.cpp and tbug11/main.cpp):
    the chunked transfer primitives, the two echo checks, the bootstrap
    control-program download, the talker command framing, the EEPROM
    programming sequences and the S-record reading and writing loops.

    Conventions of the embedding.
    - [uint8_t], [uint16_t] and [uint32_t] values are integers of [Z]; a
      conversion to a narrower type is written out with [u8], [u16], [u32].
    - A [cl_my_buf] buffer is a [list Z] of bytes and a [uint8_t *] into it is
      an offset; [peek] reads, [poke] and [store] write.
    - The serial port is the interface [serial_com]: any deterministic
      transport is an instance.  A computation of the monad [M] gives, with
      its outcome, the list of the [write_port] and [read_port] calls it
      made, each with its reply, and of its [Sleep] calls.
    - C++ exceptions are the [Throw] outcome of the monad [M]; a [while]
      loop whose progress depends on a configured chunk size takes fuel. *)

From Stdlib Require Import String Ascii Bool ZArith List Lia.
Import ListNotations.
Local Open Scope Z_scope.

(** ** Machine integers and buffers *)

Definition u8 (z : Z) : Z := z mod 256.
Definition u16 (z : Z) : Z := z mod 65536.
Definition u32 (z : Z) : Z := z mod 4294967296.

(** [(uint8_t)~b] *)
Definition u8_not (b : Z) : Z := u8 (Z.lnot b).

Definition is_u8 (b : Z) : Prop := 0 <= b < 256.

(** [buf[i]]; reading past the allocation (undefined in C++) gives 0. *)
Definition peek (buf : list Z) (i : Z) : Z := nth (Z.to_nat i) buf 0.

(** The [len] bytes at [buf + p], as [write_port(buf + p, len)] sees them. *)
Definition slice (buf : list Z) (p len : Z) : list Z :=
  map (fun k => peek buf (p + Z.of_nat k)) (seq 0 (Z.to_nat len)).

(** [memcpy(buf + p, bs, |bs|)], clipped to the allocation. *)
Definition store (buf : list Z) (p : Z) (bs : list Z) : list Z :=
  firstn (Z.to_nat p) buf
  ++ firstn (length buf - Z.to_nat p) bs
  ++ skipn (Z.to_nat p + length bs) buf.

(** [buf[i] = v] *)
Definition poke (buf : list Z) (i : Z) (v : Z) : list Z := store buf i [v].

Definition Zsum (l : list Z) : Z := fold_right Z.add 0 l.

(** ** Exceptions *)

Inductive tru_exception : Type :=
| APP_ERROR_TX_FAIL (chunklen xferredlen : Z)
| APP_ERROR_RX_FAIL (chunklen xferredlen : Z)
| APP_ERROR_ECHO (tx rx : Z)            (* the two values given to the message *)
| APP_ERROR_TALKER_TOO_BIG (max : Z)
| SERIAL_COM_ERROR (code : Z)           (* thrown by the transport itself *)
| STD_OUT_OF_RANGE.                     (* std::string::substr, pos > size() *)

(** Only [STD_OUT_OF_RANGE] is not a [tru_exception] of the program. *)
Definition is_tru_exception (e : tru_exception) : bool :=
  match e with STD_OUT_OF_RANGE => false | _ => true end.

Inductive outcome (A : Type) : Type :=
| Done (a : A)
| Throw (e : tru_exception)
| OutOfFuel.
Arguments Done {A} a.
Arguments Throw {A} e.
Arguments OutOfFuel {A}.

(** ** The serial transport *)

Inductive reply (A : Type) : Type :=
| Ret (a : A)
| Raise (code : Z).
Arguments Ret {A} a.
Arguments Raise {A} code.

(** [write_port] answers with the transferred count, [read_port] with the
    bytes it delivered (their number is the transferred count). *)
Class serial_com (port : Type) : Type := {
  write_port : port -> list Z -> port * reply Z;
  read_port : port -> Z -> port * reply (list Z)
}.

Inductive event : Type :=
| EvWrite (bytes : list Z) (r : reply Z)
| EvRead (len : Z) (r : reply (list Z))
| EvSleep (ms : Z).

Definition is_write (ev : event) : bool :=
  match ev with EvWrite _ _ => true | _ => false end.

Definition is_read (ev : event) : bool :=
  match ev with EvRead _ _ => true | _ => false end.

(** The size a transport call asked for. *)
Definition ev_size (ev : event) : Z :=
  match ev with
  | EvWrite bs _ => Z.of_nat (length bs)
  | EvRead len _ => len
  | EvSleep _ => 0
  end.

(** The call moved exactly the number of bytes asked for.  The count of
    a write is the one the code compares: what [write_port] returned, as
    the [uint32_t xferredlen] holds it. *)
Definition complete (ev : event) : bool :=
  match ev with
  | EvWrite bs (Ret n) => u32 n =? Z.of_nat (length bs)
  | EvRead len (Ret bs) => Z.of_nat (length bs) =? len
  | EvSleep _ => true
  | _ => false
  end.

(** A write that returned a count other than the one asked for, as the
    [uint32_t xferredlen] holds it. *)
Definition short_write (ev : event) : bool :=
  match ev with
  | EvWrite bs (Ret n) => negb (u32 n =? Z.of_nat (length bs))
  | _ => false
  end.

(** All bytes handed to [write_port], in order. *)
Fixpoint written (evs : list event) : list Z :=
  match evs with
  | [] => []
  | EvWrite bs _ :: evs' => bs ++ written evs'
  | _ :: evs' => written evs'
  end.

(** All bytes delivered by [read_port], in order. *)
Fixpoint received (evs : list event) : list Z :=
  match evs with
  | [] => []
  | EvRead _ (Ret bs) :: evs' => bs ++ received evs'
  | _ :: evs' => received evs'
  end.

(** The number of bytes asked of [read_port]. *)
Fixpoint requested (evs : list event) : Z :=
  match evs with
  | [] => 0
  | EvRead len _ :: evs' => len + requested evs'
  | _ :: evs' => requested evs'
  end.

(** The chunk sizes of a transfer of [remaining] bytes with chunk size [B]:
    [min(remaining, B)] first, then the sizes of the rest. *)
Fixpoint chunk_sizes (fuel : nat) (remaining B : Z) : list Z :=
  match fuel with
  | O => []
  | S fuel' =>
      if remaining <=? 0 then []
      else
        let chunklen := if remaining >? B then B else remaining in
        chunklen :: chunk_sizes fuel' (remaining - chunklen) B
  end.

(** ** Strings: [std::string::substr] and [strtoul(_, NULL, 16)] *)

Definition size (s : string) : Z := Z.of_nat (String.length s).

(** [s.substr(pos, n)]: throws [std::out_of_range] when [pos > s.size()]. *)
Definition substr (s : string) (pos n : Z) : option string :=
  if pos >? size s then None
  else Some (String.substring (Z.to_nat pos) (Z.to_nat n) s).

Definition hex_digit (c : ascii) : option Z :=
  let n := Z.of_nat (nat_of_ascii c) in
  if (48 <=? n) && (n <=? 57) then Some (n - 48)
  else if (65 <=? n) && (n <=? 70) then Some (n - 55)
  else if (97 <=? n) && (n <=? 102) then Some (n - 87)
  else None.

Definition isspace (c : ascii) : bool :=
  let n := Z.of_nat (nat_of_ascii c) in
  (n =? 32) || ((9 <=? n) && (n <=? 13)).

Fixpoint skip_space (s : string) : string :=
  match s with
  | String c s' => if isspace c then skip_space s' else s
  | EmptyString => s
  end.

(** The longest run of hexadecimal digits, as a number. *)
Fixpoint hex_digits (s : string) (acc : Z) : Z :=
  match s with
  | String c s' =>
      match hex_digit c with
      | Some d => hex_digits s' (16 * acc + d)
      | None => acc
      end
  | EmptyString => acc
  end.

(** An optional [0x] or [0X] is skipped when a digit follows it. *)
Definition skip_0x (s : string) : string :=
  match s with
  | String "0" (String x (String c s')) =>
      if (Ascii.eqb x "x" || Ascii.eqb x "X")%bool
      then match hex_digit c with Some _ => String c s' | None => s end
      else s
  | _ => s
  end.

(** [strtoul(s.c_str(), NULL, 16)]: white space, an optional sign, an
    optional [0x], then digits; no digit gives 0.  A leading [-] negates the
    value in [unsigned long]; every use converts the result to [uint8_t] or
    [uint16_t], so the negation is kept in [Z].  The strings given to it have
    at most four characters, which cannot overflow. *)
Definition strtoul16 (s : string) : Z :=
  match skip_space s with
  | String "-" s' => - hex_digits (skip_0x s') 0
  | String "+" s' => hex_digits (skip_0x s') 0
  | s' => hex_digits (skip_0x s') 0
  end.

(** [line_str.substr(0, 2) == "S1"] and [line_str.compare(0, 2, "S1") == 0] *)
Definition is_S1 (line : string) : bool :=
  String.eqb (String.substring 0 2 line) "S1".

(** Modelled from the spec: [string_utils_ns::to_string_right_hex_up] of
    to_string.h, which is not part of the sources.  The value in upper-case
    hexadecimal, filled on the left with ['0'] up to [width] characters (the
    fill character of every call). *)
Definition hex_char (d : Z) : ascii :=
  ascii_of_nat (Z.to_nat (if d <? 10 then 48 + d else 55 + d)).

Fixpoint hex_up (fuel : nat) (v width : Z) (acc : string) : string :=
  match fuel with
  | O => acc
  | S fuel' =>
      let acc' := String (hex_char (v mod 16)) acc in
      if (v / 16 =? 0) && (width <=? 1) then acc'
      else hex_up fuel' (v / 16) (width - 1) acc'
  end.

Definition to_string_right_hex_up (v width : Z) : string :=
  hex_up 16 v width "".

(** ** Parameters and constants *)

Record cl_my_params : Type := {
  serial_rxbuf_size : Z;
  serial_txbuf_size : Z;
  serial_prog_txbuf_size : Z;       (* tru11 only *)
  srec_datalen : Z;
  verify_config : bool;
  full_file_name : string;
  from_addr : Z;
  to_addr : Z
}.

Definition BOOTLOADER_MAX_BYTE_COUNT : Z := 256.
Definition TALKER_MAX_BYTE_COUNT : Z := 256.
Definition SREC_ADDR_CHECKSUM_COUNT : Z := 3.
Definition HC11_CONFIG_ADDR : Z := 0x103f.

(** [alloc_buf]: the allocation is not initialised; [init] is what it holds. *)
Definition alloc_buf (init : list Z) (len : Z) : list Z :=
  firstn (Z.to_nat len) (init ++ repeat 0 (Z.to_nat len)).

(** ** The S-record writer of [readmem] (identical in tru11 and tbug11) *)

(** The variables of [readmem] that build the output: the lines written to
    [out_file] so far, [srec_line], [srec_addr_str], [datacount] and
    [checksum].  [cl_my_file] is not part of the sources: a [write_file] is
    taken to append its string to the file. *)
Record srec_writer : Type := {
  out_file : list string;
  srec_line : string;
  srec_addr_str : string;
  datacount : Z;
  checksum : Z
}.

Definition CRLF : string := String (ascii_of_nat 13) (String (ascii_of_nat 10) "").

(** The S1 line that [readmem] assembles from its variables. *)
Definition s1_record (e : srec_writer) (checksum : Z) : string :=
  ("S1"
   ++ to_string_right_hex_up (u16 (datacount e + SREC_ADDR_CHECKSUM_COUNT)) 2
   ++ srec_addr_str e
   ++ srec_line e
   ++ to_string_right_hex_up (u16 checksum) 2
   ++ CRLF)%string.

(** Before the loop: the S0 header is written, the checksum starts with the
    two address bytes. *)
Definition srec_begin (arg_params : cl_my_params) : srec_writer :=
  let checksum := 0 in
  let checksum := u8 (checksum + Z.land (Z.shiftr (from_addr arg_params) 8) 0xff) in
  let checksum := u8 (checksum + Z.land (from_addr arg_params) 0xff) in
  {| out_file := [("S0030000FC" ++ CRLF)%string];
     srec_line := "";
     srec_addr_str := to_string_right_hex_up (u16 (from_addr arg_params)) 4;
     datacount := 0;
     checksum := checksum |}.

(** Inside the loop, under [if(arg_params->full_file_name.size() > 0)]:
    the byte [b] read from address [addr] is added to the line; a full line
    is written.  [srec_bytecount] is [uint8_t], the comparison is in [int]. *)
Definition srec_byte (arg_params : cl_my_params) (addr b : Z) (e : srec_writer)
  : srec_writer :=
  let srec_bytecount := u8 (SREC_ADDR_CHECKSUM_COUNT + srec_datalen arg_params) in
  let e := {| out_file := out_file e;
              srec_line := (srec_line e ++ to_string_right_hex_up (u16 b) 2)%string;
              srec_addr_str := srec_addr_str e;
              datacount := u8 (datacount e + 1);
              checksum := u8 (checksum e + b) |} in
  if datacount e =? srec_bytecount - SREC_ADDR_CHECKSUM_COUNT then
    let checksum := u8 (checksum e + (datacount e + SREC_ADDR_CHECKSUM_COUNT)) in
    let checksum := u8 (Z.lnot checksum) in
    let line := s1_record e checksum in
    let checksum := 0 in
    let checksum := u8 (checksum + Z.land (Z.shiftr (addr + 1) 8) 0xff) in
    let checksum := u8 (checksum + Z.land (addr + 1) 0xff) in
    {| out_file := out_file e ++ [line];
       srec_line := "";
       srec_addr_str := to_string_right_hex_up (u16 (addr + 1)) 4;
       datacount := 0;
       checksum := checksum |}
  else e.

(** After the loop: the bytes left are written as a last S1 line, then the
    S9 line. *)
Definition srec_end (e : srec_writer) : list string :=
  let out :=
    if datacount e >? 0 then
      let checksum := u8 (checksum e + (datacount e + SREC_ADDR_CHECKSUM_COUNT)) in
      let checksum := u8 (Z.lnot checksum) in
      out_file e ++ [s1_record e checksum]
    else out_file e in
  out ++ [("S9030000FC" ++ CRLF)%string].

(** ** The monad: port state, transport calls, exceptions, fuel *)

Section Engine.

Context {port : Type} {SC : serial_com port}.

(** A computation starts from a state of the port and gives the state it
    leaves the port in, the transport calls it made, and its outcome. *)
Definition M (A : Type) : Type := port -> port * list event * outcome A.

Definition ret {A} (a : A) : M A := fun d => (d, [], Done a).

Definition bind {A B} (m : M A) (k : A -> M B) : M B :=
  fun d =>
    match m d with
    | (d1, evs1, Done a) =>
        let '(d2, evs2, r) := k a d1 in (d2, evs1 ++ evs2, r)
    | (d1, evs1, Throw e) => (d1, evs1, Throw e)
    | (d1, evs1, OutOfFuel) => (d1, evs1, OutOfFuel)
    end.

Definition throw {A} (e : tru_exception) : M A := fun d => (d, [], Throw e).

Definition out_of_fuel {A} : M A := fun d => (d, [], OutOfFuel).

(** [try{ m }catch(tru_exception &ex){ (void)ex; }] *)
Definition try_catch_ignore (m : M unit) : M unit :=
  fun d =>
    match m d with
    | (d1, evs1, Throw e) =>
        if is_tru_exception e then (d1, evs1, Done tt) else (d1, evs1, Throw e)
    | r => r
    end.

(** [Sleep(ms)] *)
Definition sleep (ms : Z) : M unit := fun d => (d, [EvSleep ms], Done tt).

(** A pure computation that may throw. *)
Definition lift {A} (r : outcome A) : M A := fun d => (d, [], r).

Definition port_write (bs : list Z) : M Z :=
  fun d =>
    let (d', r) := write_port d bs in
    (d', [EvWrite bs r],
     match r with
     | Ret n => Done n
     | Raise c => Throw (SERIAL_COM_ERROR c)
     end).

Definition port_read (len : Z) : M (list Z) :=
  fun d =>
    let (d', r) := read_port d len in
    (d', [EvRead len r],
     match r with
     | Ret bs => Done bs
     | Raise c => Throw (SERIAL_COM_ERROR c)
     end).

Local Notation "x <- m ;; k" := (bind m (fun x => k))
  (at level 100, m at next level, right associativity).
Local Notation "m ;;; k" := (bind m (fun _ => k))
  (at level 100, right associativity).

(** ** Chunked transfer (identical in tru11 and tbug11) *)

(** [tx_chunk]: [B] is [arg_params->serial_txbuf_size], [txbuf_p] the offset
    of [arg_txbuf].  Here and in the transfers below, what [write_port]
    returns is stored in the [uint32_t xferredlen]: it is that 32-bit value
    that is compared and that the exception holds. *)
Fixpoint tx_chunk (fuel : nat) (B : Z) (txbuf : list Z) (txbuf_p remaining : Z)
  : M unit :=
  if remaining =? 0 then ret tt
  else
    match fuel with
    | O => out_of_fuel
    | S fuel' =>
        let chunklen := if remaining >? B then B else remaining in
        count <- port_write (slice txbuf txbuf_p chunklen) ;;
        let xferredlen := u32 count in
        if negb (xferredlen =? chunklen)
        then throw (APP_ERROR_TX_FAIL chunklen xferredlen)
        else tx_chunk fuel' B txbuf (txbuf_p + chunklen) (remaining - chunklen)
    end.

(** [rx_chunk]: [B] is [arg_params->serial_rxbuf_size]; the result is the
    receive buffer after the transfer. *)
Fixpoint rx_chunk (fuel : nat) (B : Z) (rxbuf : list Z) (rxbuf_p remaining : Z)
  : M (list Z) :=
  if remaining =? 0 then ret rxbuf
  else
    match fuel with
    | O => out_of_fuel
    | S fuel' =>
        let chunklen := if remaining >? B then B else remaining in
        bs <- port_read chunklen ;;
        let xferredlen := Z.of_nat (length bs) in
        if negb (xferredlen =? chunklen)
        then throw (APP_ERROR_RX_FAIL chunklen xferredlen)
        else rx_chunk fuel' B (store rxbuf rxbuf_p bs)
                      (rxbuf_p + chunklen) (remaining - chunklen)
    end.

(** [verify_echo]: the loop over [i], [n] iterations left. *)
Fixpoint verify_echo_loop (n : nat) (txbuf : list Z) (tp : Z)
  (rxbuf : list Z) (rp : Z) (i : Z) : outcome unit :=
  match n with
  | O => Done tt
  | S n' =>
      if negb (peek txbuf (tp + i) =? peek rxbuf (rp + i))
      then Throw (APP_ERROR_ECHO (peek txbuf (tp + i)) (peek rxbuf (rp + i)))
      else verify_echo_loop n' txbuf tp rxbuf rp (i + 1)
  end.

Definition verify_echo (txbuf : list Z) (tp : Z) (rxbuf : list Z) (rp : Z)
  (arg_len : Z) : outcome unit :=
  verify_echo_loop (Z.to_nat arg_len) txbuf tp rxbuf rp 0.

(** [txrx_chunk_control_program]: every chunk is written, read back and
    compared; for the last byte of the last chunk the read and the comparison
    sit in a [try] whose [catch] ignores the exception.  The receive buffer
    is not read again after the last chunk. *)
Fixpoint txrx_chunk_control_program (fuel : nat) (arg_params : cl_my_params)
  (txbuf : list Z) (txbuf_p : Z) (rxbuf : list Z) (rxbuf_p : Z)
  (remaining : Z) : M unit :=
  if remaining =? 0 then ret tt
  else
    match fuel with
    | O => out_of_fuel
    | S fuel' =>
        let chunklen :=
          if remaining >? serial_txbuf_size arg_params
          then serial_txbuf_size arg_params else remaining in
        let remaining := remaining - chunklen in
        count <- port_write (slice txbuf txbuf_p chunklen) ;;
        let xferredlen := u32 count in
        if negb (xferredlen =? chunklen)
        then throw (APP_ERROR_TX_FAIL chunklen xferredlen)
        else
          rxbuf' <-
            (if remaining =? 0 then
               if chunklen =? 1 then
                 try_catch_ignore
                   (bs <- port_read chunklen ;;
                    lift (verify_echo txbuf txbuf_p
                            (store rxbuf rxbuf_p bs) rxbuf_p chunklen)) ;;;
                 ret rxbuf
               else
                 rxbuf1 <- rx_chunk fuel (serial_rxbuf_size arg_params)
                             rxbuf rxbuf_p (chunklen - 1) ;;
                 lift (verify_echo txbuf txbuf_p rxbuf1 rxbuf_p (chunklen - 1)) ;;;
                 try_catch_ignore
                   (bs <- port_read 1 ;;
                    lift (verify_echo txbuf txbuf_p
                            (store rxbuf1 (rxbuf_p + chunklen - 1) bs)
                            (rxbuf_p + chunklen - 1) 1)) ;;;
                 ret rxbuf1
             else
               rxbuf1 <- rx_chunk fuel (serial_rxbuf_size arg_params)
                           rxbuf rxbuf_p chunklen ;;
               lift (verify_echo txbuf txbuf_p rxbuf1 rxbuf_p chunklen) ;;;
               ret rxbuf1) ;;
          txrx_chunk_control_program fuel' arg_params
            txbuf (txbuf_p + chunklen) rxbuf' (rxbuf_p + chunklen) remaining
    end.

(** [send_control_program], reading the file: the loop over the data bytes
    of one record, [n] iterations left.  The state is the transmit buffer,
    [txbuf_p] and [byte_index]. *)
Fixpoint talker_data_loop (n : nat) (line_str : string) (pad_index : Z)
  (st : list Z * Z * Z) : outcome (list Z * Z * Z) :=
  match n with
  | O => Done st
  | S n' =>
      let '(txbuf, txbuf_p, byte_index) := st in
      if byte_index =? BOOTLOADER_MAX_BYTE_COUNT
      then Throw (APP_ERROR_TALKER_TOO_BIG BOOTLOADER_MAX_BYTE_COUNT)
      else
        match substr line_str (2 * pad_index + 8) 2 with
        | None => Throw STD_OUT_OF_RANGE
        | Some s =>
            talker_data_loop n' line_str (pad_index + 1)
              (poke txbuf txbuf_p (u8 (strtoul16 s)), txbuf_p + 1, byte_index + 1)
        end
  end.

(** The body of the [do ... while(!talker_file.eof())] loop. *)
Definition talker_line (line_str : string) (st : list Z * Z * Z)
  : outcome (list Z * Z * Z) :=
  if size line_str >? 8 then
    if is_S1 line_str then
      match substr line_str 2 2 with
      | None => Throw STD_OUT_OF_RANGE
      | Some s =>
          let srec_bytecount := u8 (strtoul16 s) in
          if (srec_bytecount >? 0) && (srec_bytecount >=? (size line_str - 4) / 2)
          then
            if srec_bytecount >? SREC_ADDR_CHECKSUM_COUNT then
              talker_data_loop
                (Z.to_nat (u8 (srec_bytecount - SREC_ADDR_CHECKSUM_COUNT)))
                line_str 0 st
            else Done st
          else Done st
      end
    else Done st
  else Done st.

(** The file is the list of the strings that [read_file_line] yields until
    [eof()] holds. *)
Fixpoint talker_file_loop (talker_file : list string) (st : list Z * Z * Z)
  : outcome (list Z * Z * Z) :=
  match talker_file with
  | [] => Done st
  | line_str :: rest =>
      match talker_line line_str st with
      | Done st' => talker_file_loop rest st'
      | r => r
      end
  end.

(** The padding loop, [n] iterations left. *)
Fixpoint talker_pad_loop (n : nat) (st : list Z * Z * Z) : list Z * Z * Z :=
  match n with
  | O => st
  | S n' =>
      let '(txbuf, txbuf_p, byte_index) := st in
      talker_pad_loop n' (poke txbuf txbuf_p 0, txbuf_p + 1, byte_index + 1)
  end.

(** [send_control_program] of tru11; [tx0] and [rx0] are what the two fresh
    buffers hold.  The tbug11 version ends with a [Sleep(75)] more, see
    [TBug11.send_control_program]. *)
Definition send_control_program (fuel : nat) (arg_params : cl_my_params)
  (talker_file : list string) (tx0 rx0 : list Z) : M unit :=
  let txbuf :=
    alloc_buf tx0 (if serial_txbuf_size arg_params >? BOOTLOADER_MAX_BYTE_COUNT
                   then serial_txbuf_size arg_params
                   else BOOTLOADER_MAX_BYTE_COUNT) in
  let rxbuf :=
    alloc_buf rx0 (if serial_rxbuf_size arg_params >? BOOTLOADER_MAX_BYTE_COUNT
                   then serial_rxbuf_size arg_params
                   else BOOTLOADER_MAX_BYTE_COUNT) in
  st <- lift (talker_file_loop talker_file (txbuf, 0, 0)) ;;
  let '(_, _, byte_index0) := st in
  let '(txbuf, _, byte_index) :=
    talker_pad_loop (Z.to_nat (BOOTLOADER_MAX_BYTE_COUNT - byte_index0)) st in
  let txbyte := 0xff in
  tx_chunk fuel (serial_txbuf_size arg_params) [txbyte] 0 1 ;;;
  txrx_chunk_control_program fuel arg_params txbuf 0 rxbuf 0 byte_index.

End Engine.

Arguments M port A : clear implicits.

Notation "x <- m ;; k" := (bind m (fun x => k))
  (at level 100, m at next level, right associativity).
Notation "m ;;; k" := (bind m (fun _ => k))
  (at level 100, right associativity).

(** The tallies an operation reports: [total_databytes], [mismatch_count]
    and [ignore_count]. *)
Record tally : Type := {
  total_databytes : Z;
  mismatch_count : Z;
  ignore_count : Z
}.

(** ** tbug11/main.cpp *)

Module TBug11.

Definition TALKER_ERASE_PROG_DELAY : Z := 0.
Definition TALKER_READ_CMD : Z := 0x01.
Definition TALKER_WRITE_CMD : Z := 0x41.

Inductive talker_echo_e : Type :=
| TALKER_ECHO_IGNORE
| TALKER_ECHO_VERIFY_COM
| TALKER_ECHO_VERIFY.

(** [verify_echo_com]: the loop over [i], [n] iterations left. *)
Fixpoint verify_echo_com_loop (n : nat) (txbuf : list Z) (tp : Z)
  (rxbuf : list Z) (rp : Z) (i : Z) : outcome unit :=
  match n with
  | O => Done tt
  | S n' =>
      if negb (peek txbuf (tp + i) =? u8_not (peek rxbuf (rp + i)))
      then Throw (APP_ERROR_ECHO (peek txbuf (tp + i))
                                 (u8_not (peek rxbuf (rp + i))))
      else verify_echo_com_loop n' txbuf tp rxbuf rp (i + 1)
  end.

Definition verify_echo_com (txbuf : list Z) (tp : Z) (rxbuf : list Z) (rp : Z)
  (arg_len : Z) : outcome unit :=
  verify_echo_com_loop (Z.to_nat arg_len) txbuf tp rxbuf rp 0.

Section Ops.

Context {port : Type} {SC : serial_com port}.

(** [txrx_chunk]; the result is the receive buffer after the transfer. *)
Fixpoint txrx_chunk (fuel : nat) (arg_params : cl_my_params)
  (txbuf : list Z) (txbuf_p : Z) (rxbuf : list Z) (rxbuf_p : Z)
  (remaining : Z) (arg_echo_check : talker_echo_e) : M port (list Z) :=
  if remaining =? 0 then ret rxbuf
  else
    match fuel with
    | O => out_of_fuel
    | S fuel' =>
        let chunklen :=
          if remaining >? serial_txbuf_size arg_params
          then serial_txbuf_size arg_params else remaining in
        count <- port_write (slice txbuf txbuf_p chunklen) ;;
        let xferredlen := u32 count in
        if negb (xferredlen =? chunklen)
        then throw (APP_ERROR_TX_FAIL chunklen xferredlen)
        else
          rxbuf <- rx_chunk fuel (serial_rxbuf_size arg_params)
                     rxbuf rxbuf_p chunklen ;;
          lift (match arg_echo_check with
                | TALKER_ECHO_VERIFY =>
                    verify_echo txbuf txbuf_p rxbuf rxbuf_p chunklen
                | TALKER_ECHO_VERIFY_COM =>
                    verify_echo_com txbuf txbuf_p rxbuf rxbuf_p chunklen
                | TALKER_ECHO_IGNORE => Done tt
                end) ;;;
          txrx_chunk fuel' arg_params txbuf (txbuf_p + chunklen)
            rxbuf (rxbuf_p + chunklen) (remaining - chunklen) arg_echo_check
    end.

(** [send_control_program] of tbug11: the download, then [Sleep(75)] for
    the boot ROM to time out.  In tru11 the caller sleeps. *)
Definition send_control_program (fuel : nat) (arg_params : cl_my_params)
  (talker_file : list string) (tx0 rx0 : list Z) : M port unit :=
  send_control_program fuel arg_params talker_file tx0 rx0 ;;;
  sleep 75.

(** [writemem_byte]; the two local arrays are not initialised in the source,
    every element is written before it is read. *)
Definition writemem_byte (fuel : nat) (arg_params : cl_my_params)
  (arg_addr value : Z) : M port unit :=
  let txbuf := [0; 0; 0] in
  let rxbuf := [0] in
  let txbuf := poke txbuf 0 TALKER_WRITE_CMD in
  rxbuf <- txrx_chunk fuel arg_params txbuf 0 rxbuf 0 1 TALKER_ECHO_VERIFY_COM ;;
  let txbuf := poke txbuf 0 1 in
  let txbuf := poke txbuf 1 (u8 (Z.land (Z.shiftr arg_addr 8) 0xff)) in
  let txbuf := poke txbuf 2 (u8 (Z.land arg_addr 0xff)) in
  tx_chunk fuel (serial_txbuf_size arg_params) txbuf 0 3 ;;;
  let txbuf := poke txbuf 0 value in
  rxbuf <- txrx_chunk fuel arg_params txbuf 0 rxbuf 0 1 TALKER_ECHO_VERIFY ;;
  ret tt.

(** [if(TALKER_ERASE_PROG_DELAY != 0) Sleep(TALKER_ERASE_PROG_DELAY);] *)
Definition erase_prog_delay : M port unit :=
  if negb (TALKER_ERASE_PROG_DELAY =? 0) then sleep TALKER_ERASE_PROG_DELAY
  else ret tt.

Definition eeprom_prog_byte (fuel : nat) (arg_params : cl_my_params)
  (address byte : Z) : M port unit :=
  writemem_byte fuel arg_params 0x103b 0x02 ;;;
  writemem_byte fuel arg_params address byte ;;;
  writemem_byte fuel arg_params 0x103b 0x03 ;;;
  erase_prog_delay ;;;
  writemem_byte fuel arg_params 0x103b 0x00.

Definition eeprom_bulk_erase (fuel : nat) (arg_params : cl_my_params)
  (address byte : Z) : M port unit :=
  writemem_byte fuel arg_params 0x103b 0x06 ;;;
  writemem_byte fuel arg_params address byte ;;;
  writemem_byte fuel arg_params 0x103b 0x07 ;;;
  erase_prog_delay ;;;
  writemem_byte fuel arg_params 0x103b 0x00.

Definition eeprom_byte_erase (fuel : nat) (arg_params : cl_my_params)
  (address byte : Z) : M port unit :=
  writemem_byte fuel arg_params 0x103b 0x16 ;;;
  writemem_byte fuel arg_params address byte ;;;
  writemem_byte fuel arg_params 0x103b 0x17 ;;;
  erase_prog_delay ;;;
  writemem_byte fuel arg_params 0x103b 0x00.

(** [readmem]: the block under [if(chunklen == 0)], one talker read
    command.  The state is [chunklen], [remaining], the transmit buffer, the
    receive buffer and [rxbuf_p]. *)
Definition readmem_command (fuel : nat) (arg_params : cl_my_params)
  (addr remaining : Z) (txbuf rxbuf : list Z) : M port (Z * Z * list Z * list Z * Z) :=
  let chunklen :=
    if remaining >? TALKER_MAX_BYTE_COUNT then TALKER_MAX_BYTE_COUNT else remaining in
  let rxbuf_p := 0 in
  let txbuf := poke txbuf 0 TALKER_READ_CMD in
  rxbuf <- txrx_chunk fuel arg_params txbuf 0 rxbuf rxbuf_p 1 TALKER_ECHO_VERIFY_COM ;;
  let txbuf := poke txbuf 0 (u8 chunklen) in
  let txbuf := poke txbuf 1 (u8 (Z.land (Z.shiftr addr 8) 0xff)) in
  let txbuf := poke txbuf 2 (u8 (Z.land addr 0xff)) in
  tx_chunk fuel (serial_txbuf_size arg_params) txbuf 0 3 ;;;
  rxbuf <- txrx_chunk fuel arg_params txbuf 0 rxbuf rxbuf_p chunklen TALKER_ECHO_IGNORE ;;
  let remaining := remaining - chunklen in
  ret (chunklen, remaining, txbuf, rxbuf, rxbuf_p).

(** [readmem]: the [for] loop over [i], [n] iterations left. *)
Fixpoint readmem_loop (n : nat) (fuel : nat) (arg_params : cl_my_params)
  (e : srec_writer) (addr chunklen remaining : Z)
  (txbuf rxbuf : list Z) (rxbuf_p : Z) : M port srec_writer :=
  match n with
  | O => ret e
  | S n' =>
      st <- (if chunklen =? 0
             then readmem_command fuel arg_params addr remaining txbuf rxbuf
             else ret (chunklen, remaining, txbuf, rxbuf, rxbuf_p)) ;;
      let '(chunklen, remaining, txbuf, rxbuf, rxbuf_p) := st in
      let e :=
        if size (full_file_name arg_params) >? 0
        then srec_byte arg_params addr (peek rxbuf rxbuf_p) e
        else e in
      readmem_loop n' fuel arg_params e (u16 (addr + 1)) (u32 (chunklen - 1))
        remaining txbuf rxbuf (rxbuf_p + 1)
  end.

(** [readmem]; the result is what was written to [out_file]. *)
Definition readmem (fuel : nat) (arg_params : cl_my_params) (tx0 rx0 : list Z)
  : M port (list string) :=
  let txbuf :=
    alloc_buf tx0 (if serial_txbuf_size arg_params >? BOOTLOADER_MAX_BYTE_COUNT
                   then serial_txbuf_size arg_params
                   else BOOTLOADER_MAX_BYTE_COUNT) in
  let rxbuf :=
    alloc_buf rx0 (if serial_rxbuf_size arg_params >? BOOTLOADER_MAX_BYTE_COUNT
                   then serial_rxbuf_size arg_params
                   else BOOTLOADER_MAX_BYTE_COUNT) in
  let e := srec_begin arg_params in
  let remaining := u32 (to_addr arg_params - from_addr arg_params + 1) in
  let addr := u16 (from_addr arg_params) in
  e <- readmem_loop (Z.to_nat (u32 (to_addr arg_params - from_addr arg_params + 1)))
         fuel arg_params e addr 0 remaining txbuf rxbuf 0 ;;
  ret (if size (full_file_name arg_params) >? 0 then srec_end e else out_file e).

(** [readmem_verify]: the loop over the data bytes of one line, [n]
    iterations left.  The state is [srec_addr], [rxbuf_p], the two counts of
    the line and the two counts of the file. *)
Fixpoint verify_data_loop (n : nat) (arg_params : cl_my_params)
  (line_str : string) (rxbuf : list Z) (i : Z)
  (st : Z * Z * (Z * Z) * (Z * Z)) : outcome (Z * Z * (Z * Z) * (Z * Z)) :=
  match n with
  | O => Done st
  | S n' =>
      let '(srec_addr, rxbuf_p, (line_mismatch_count, line_ignore_count),
            (mismatch_count, ignore_count)) := st in
      if negb (verify_config arg_params) && (srec_addr =? HC11_CONFIG_ADDR) then
        verify_data_loop n' arg_params line_str rxbuf (i + 1)
          (u16 (srec_addr + 1), rxbuf_p + 1,
           (line_mismatch_count, u32 (line_ignore_count + 1)),
           (mismatch_count, u32 (ignore_count + 1)))
      else
        match substr line_str (2 * i + 8) 2 with
        | None => Throw STD_OUT_OF_RANGE
        | Some s =>
            let file_byte := u8 (strtoul16 s) in
            if negb (peek rxbuf rxbuf_p =? file_byte) then
              verify_data_loop n' arg_params line_str rxbuf (i + 1)
                (u16 (srec_addr + 1), rxbuf_p + 1,
                 (u32 (line_mismatch_count + 1), line_ignore_count),
                 (u32 (mismatch_count + 1), ignore_count))
            else
              verify_data_loop n' arg_params line_str rxbuf (i + 1)
                (u16 (srec_addr + 1), rxbuf_p + 1,
                 (line_mismatch_count, line_ignore_count),
                 (mismatch_count, ignore_count))
        end
  end.

(** [readmem_verify]: the body of the [do ... while(!in_file.eof())] loop. *)
Definition readmem_verify_line (fuel : nat) (arg_params : cl_my_params)
  (line_str : string) (txbuf rxbuf : list Z) (t : tally)
  : M port (list Z * list Z * tally) :=
  if size line_str >=? 8 then
    if is_S1 line_str then
      s4 <- lift (match substr line_str 4 4 with
                  | Some s => Done s | None => Throw STD_OUT_OF_RANGE end) ;;
      let srec_addr := u16 (strtoul16 s4) in
      s2 <- lift (match substr line_str 2 2 with
                  | Some s => Done s | None => Throw STD_OUT_OF_RANGE end) ;;
      let srec_datacount := u8 (u8 (strtoul16 s2) - SREC_ADDR_CHECKSUM_COUNT) in
      let total_databytes := u32 (total_databytes t + srec_datacount) in
      let rxbuf_p := 0 in
      let txbuf := poke txbuf 0 TALKER_READ_CMD in
      rxbuf <- txrx_chunk fuel arg_params txbuf 0 rxbuf rxbuf_p 1
                 TALKER_ECHO_VERIFY_COM ;;
      let txbuf := poke txbuf 0 (u8 srec_datacount) in
      let txbuf := poke txbuf 1 (u8 (Z.land (Z.shiftr srec_addr 8) 0xff)) in
      let txbuf := poke txbuf 2 (u8 (Z.land srec_addr 0xff)) in
      tx_chunk fuel (serial_txbuf_size arg_params) txbuf 0 3 ;;;
      rxbuf <- txrx_chunk fuel arg_params txbuf 0 rxbuf rxbuf_p srec_datacount
                 TALKER_ECHO_IGNORE ;;
      st <- lift (verify_data_loop (Z.to_nat srec_datacount) arg_params line_str
                    rxbuf 0
                    (srec_addr, rxbuf_p, (0, 0),
                     (mismatch_count t, ignore_count t))) ;;
      let '(_, _, _, (mismatch_count, ignore_count)) := st in
      ret (txbuf, rxbuf,
           {| total_databytes := total_databytes;
              mismatch_count := mismatch_count;
              ignore_count := ignore_count |})
    else ret (txbuf, rxbuf, t)
  else ret (txbuf, rxbuf, t).

Fixpoint readmem_verify_loop (fuel : nat) (arg_params : cl_my_params)
  (in_file : list string) (txbuf rxbuf : list Z) (t : tally) : M port tally :=
  match in_file with
  | [] => ret t
  | line_str :: rest =>
      st <- readmem_verify_line fuel arg_params line_str txbuf rxbuf t ;;
      let '(txbuf, rxbuf, t) := st in
      readmem_verify_loop fuel arg_params rest txbuf rxbuf t
  end.

(** [readmem_verify]; the file is the list of the strings that
    [read_file_line] yields until [eof()] holds. *)
Definition readmem_verify (fuel : nat) (arg_params : cl_my_params)
  (in_file : list string) (tx0 rx0 : list Z) : M port tally :=
  let txbuf :=
    alloc_buf tx0 (if serial_txbuf_size arg_params >? BOOTLOADER_MAX_BYTE_COUNT
                   then serial_txbuf_size arg_params
                   else BOOTLOADER_MAX_BYTE_COUNT) in
  let rxbuf :=
    alloc_buf rx0 (if serial_rxbuf_size arg_params >? BOOTLOADER_MAX_BYTE_COUNT
                   then serial_rxbuf_size arg_params
                   else BOOTLOADER_MAX_BYTE_COUNT) in
  readmem_verify_loop fuel arg_params in_file txbuf rxbuf
    {| total_databytes := 0; mismatch_count := 0; ignore_count := 0 |}.

(** [write_ee]: the loop over the data bytes of one line, [n] iterations
    left. *)
Fixpoint write_ee_data_loop (n : nat) (fuel : nat) (arg_params : cl_my_params)
  (line_str : string) (i srec_addr : Z) : M port unit :=
  match n with
  | O => ret tt
  | S n' =>
      s <- lift (match substr line_str (2 * i + 8) 2 with
                 | Some s => Done s | None => Throw STD_OUT_OF_RANGE end) ;;
      let txbyte := u8 (strtoul16 s) in
      (if srec_addr =? HC11_CONFIG_ADDR
       then eeprom_bulk_erase fuel arg_params srec_addr txbyte
       else eeprom_byte_erase fuel arg_params srec_addr txbyte) ;;;
      eeprom_prog_byte fuel arg_params srec_addr txbyte ;;;
      write_ee_data_loop n' fuel arg_params line_str (i + 1) (u16 (srec_addr + 1))
  end.

(** [write_ee]: the body of the [do ... while(!in_file.eof())] loop. *)
Definition write_ee_line (fuel : nat) (arg_params : cl_my_params)
  (line_str : string) : M port unit :=
  if size line_str >=? 8 then
    if is_S1 line_str then
      s2 <- lift (match substr line_str 2 2 with
                  | Some s => Done s | None => Throw STD_OUT_OF_RANGE end) ;;
      let srec_datacount := u8 (u8 (strtoul16 s2) - SREC_ADDR_CHECKSUM_COUNT) in
      s4 <- lift (match substr line_str 4 4 with
                  | Some s => Done s | None => Throw STD_OUT_OF_RANGE end) ;;
      let srec_addr := u16 (strtoul16 s4) in
      write_ee_data_loop (Z.to_nat srec_datacount) fuel arg_params line_str 0 srec_addr
    else ret tt
  else ret tt.

Fixpoint write_ee (fuel : nat) (arg_params : cl_my_params)
  (in_file : list string) : M port unit :=
  match in_file with
  | [] => ret tt
  | line_str :: rest =>
      write_ee_line fuel arg_params line_str ;;;
      write_ee fuel arg_params rest
  end.

End Ops.

End TBug11.

(** ** tru11/main.cpp *)

Module Tru11.

Definition TALKER_READ_CMD : Z := 0x01.
Definition TALKER_WRITE_CMD : Z := 0x02.
Definition TALKER_WRITE_EE_CMD : Z := 0x03.
Definition TALKER_WRITE_E_CMD : Z := 0x04.
Definition TALKER_WRITE_E20_CMD : Z := 0x05.

Section Ops.

Context {port : Type} {SC : serial_com port}.

(** [txrx_chunk]; the result is the receive buffer after the transfer. *)
Fixpoint txrx_chunk (fuel : nat) (arg_params : cl_my_params)
  (txbuf : list Z) (txbuf_p : Z) (rxbuf : list Z) (rxbuf_p : Z)
  (remaining : Z) (arg_verify_echo : bool) : M port (list Z) :=
  if remaining =? 0 then ret rxbuf
  else
    match fuel with
    | O => out_of_fuel
    | S fuel' =>
        let chunklen :=
          if remaining >? serial_txbuf_size arg_params
          then serial_txbuf_size arg_params else remaining in
        count <- port_write (slice txbuf txbuf_p chunklen) ;;
        let xferredlen := u32 count in
        if negb (xferredlen =? chunklen)
        then throw (APP_ERROR_TX_FAIL chunklen xferredlen)
        else
          rxbuf <- rx_chunk fuel (serial_rxbuf_size arg_params)
                     rxbuf rxbuf_p chunklen ;;
          lift (if arg_verify_echo
                then verify_echo txbuf txbuf_p rxbuf rxbuf_p chunklen
                else Done tt) ;;;
          txrx_chunk fuel' arg_params txbuf (txbuf_p + chunklen)
            rxbuf (rxbuf_p + chunklen) (remaining - chunklen) arg_verify_echo
    end.

(** [txrx_chunk_write] *)
Fixpoint txrx_chunk_write (fuel : nat) (arg_params : cl_my_params)
  (txbuf : list Z) (txbuf_p : Z) (rxbuf : list Z) (rxbuf_p : Z)
  (remaining : Z) (arg_is_prog : bool) : M port (list Z) :=
  if remaining =? 0 then ret rxbuf
  else
    match fuel with
    | O => out_of_fuel
    | S fuel' =>
        let chunklen :=
          if arg_is_prog then
            if remaining >? serial_prog_txbuf_size arg_params
            then serial_prog_txbuf_size arg_params else remaining
          else
            if remaining >? serial_txbuf_size arg_params
            then serial_txbuf_size arg_params else remaining in
        let remaining := remaining - chunklen in
        count <- port_write (slice txbuf txbuf_p chunklen) ;;
        let xferredlen := u32 count in
        if negb (xferredlen =? chunklen)
        then throw (APP_ERROR_TX_FAIL chunklen xferredlen)
        else
          rxbuf <- rx_chunk fuel (serial_rxbuf_size arg_params)
                     rxbuf rxbuf_p chunklen ;;
          txrx_chunk_write fuel' arg_params txbuf (txbuf_p + chunklen)
            rxbuf (rxbuf_p + chunklen) remaining arg_is_prog
    end.

(** [readmem]: the loop over the bytes of one chunk, [n] iterations left. *)
Fixpoint readmem_data_loop (n : nat) (arg_params : cl_my_params)
  (rxbuf : list Z) (e : srec_writer) (addr rxbuf_p : Z)
  : srec_writer * Z * Z :=
  match n with
  | O => (e, addr, rxbuf_p)
  | S n' =>
      let e :=
        if size (full_file_name arg_params) >? 0
        then srec_byte arg_params addr (peek rxbuf rxbuf_p) e
        else e in
      readmem_data_loop n' arg_params rxbuf e (u16 (addr + 1)) (rxbuf_p + 1)
  end.

(** [readmem]: the [while(remaining)] loop, one talker read command for
    each round. *)
Fixpoint readmem_loop (fuel : nat) (arg_params : cl_my_params)
  (e : srec_writer) (addr remaining : Z) (txbuf rxbuf : list Z)
  : M port srec_writer :=
  if remaining =? 0 then ret e
  else
    match fuel with
    | O => out_of_fuel
    | S fuel' =>
        let chunklen :=
          if remaining >? TALKER_MAX_BYTE_COUNT
          then TALKER_MAX_BYTE_COUNT else remaining in
        let rxbuf_p := 0 in
        let txbuf := poke txbuf 0 TALKER_READ_CMD in
        rxbuf <- txrx_chunk fuel arg_params txbuf 0 rxbuf rxbuf_p 1 true ;;
        let txbuf := poke txbuf 0 (u8 chunklen) in
        let txbuf := poke txbuf 1 (u8 (Z.land (Z.shiftr addr 8) 0xff)) in
        let txbuf := poke txbuf 2 (u8 (Z.land addr 0xff)) in
        tx_chunk fuel (serial_txbuf_size arg_params) txbuf 0 3 ;;;
        rxbuf <- rx_chunk fuel (serial_rxbuf_size arg_params)
                   rxbuf rxbuf_p chunklen ;;
        let remaining := remaining - chunklen in
        let '(e, addr, _) :=
          readmem_data_loop (Z.to_nat chunklen) arg_params rxbuf e addr rxbuf_p in
        readmem_loop fuel' arg_params e addr remaining txbuf rxbuf
    end.

(** [readmem]; the result is what was written to [out_file]. *)
Definition readmem (fuel : nat) (arg_params : cl_my_params) (tx0 rx0 : list Z)
  : M port (list string) :=
  let txbuf :=
    alloc_buf tx0 (if serial_txbuf_size arg_params >? BOOTLOADER_MAX_BYTE_COUNT
                   then serial_txbuf_size arg_params
                   else BOOTLOADER_MAX_BYTE_COUNT) in
  let rxbuf :=
    alloc_buf rx0 (if serial_rxbuf_size arg_params >? BOOTLOADER_MAX_BYTE_COUNT
                   then serial_rxbuf_size arg_params
                   else BOOTLOADER_MAX_BYTE_COUNT) in
  let e := srec_begin arg_params in
  let remaining := u32 (to_addr arg_params - from_addr arg_params + 1) in
  let addr := u16 (from_addr arg_params) in
  e <- readmem_loop fuel arg_params e addr remaining txbuf rxbuf ;;
  ret (if size (full_file_name arg_params) >? 0 then srec_end e else out_file e).

(** [readmem_verify]: the loop over the data bytes of one line, [n]
    iterations left.  The state is [srec_addr], [rxbuf_p], the two counts of
    the line and the two counts of the file. *)
Fixpoint verify_data_loop (n : nat) (arg_params : cl_my_params)
  (line_str : string) (rxbuf : list Z) (i : Z)
  (st : Z * Z * (Z * Z) * (Z * Z)) : outcome (Z * Z * (Z * Z) * (Z * Z)) :=
  match n with
  | O => Done st
  | S n' =>
      let '(srec_addr, rxbuf_p, (line_mismatch_count, line_ignore_count),
            (mismatch_count, ignore_count)) := st in
      if negb (verify_config arg_params) && (srec_addr =? HC11_CONFIG_ADDR) then
        verify_data_loop n' arg_params line_str rxbuf (i + 1)
          (u16 (srec_addr + 1), rxbuf_p + 1,
           (line_mismatch_count, u32 (line_ignore_count + 1)),
           (mismatch_count, u32 (ignore_count + 1)))
      else
        match substr line_str (2 * i + 8) 2 with
        | None => Throw STD_OUT_OF_RANGE
        | Some s =>
            let file_byte := u8 (strtoul16 s) in
            if negb (peek rxbuf rxbuf_p =? file_byte) then
              verify_data_loop n' arg_params line_str rxbuf (i + 1)
                (u16 (srec_addr + 1), rxbuf_p + 1,
                 (u32 (line_mismatch_count + 1), line_ignore_count),
                 (u32 (mismatch_count + 1), ignore_count))
            else
              verify_data_loop n' arg_params line_str rxbuf (i + 1)
                (u16 (srec_addr + 1), rxbuf_p + 1,
                 (line_mismatch_count, line_ignore_count),
                 (mismatch_count, ignore_count))
        end
  end.

(** [readmem_verify]: the body of the [do ... while(!in_file.eof())] loop. *)
Definition readmem_verify_line (fuel : nat) (arg_params : cl_my_params)
  (line_str : string) (txbuf rxbuf : list Z) (t : tally)
  : M port (list Z * list Z * tally) :=
  if size line_str >=? 8 then
    if is_S1 line_str then
      s4 <- lift (match substr line_str 4 4 with
                  | Some s => Done s | None => Throw STD_OUT_OF_RANGE end) ;;
      let srec_addr := u16 (strtoul16 s4) in
      s2 <- lift (match substr line_str 2 2 with
                  | Some s => Done s | None => Throw STD_OUT_OF_RANGE end) ;;
      let srec_datacount := u8 (u8 (strtoul16 s2) - SREC_ADDR_CHECKSUM_COUNT) in
      let rxbuf_p := 0 in
      let txbuf := poke txbuf 0 TALKER_READ_CMD in
      rxbuf <- txrx_chunk fuel arg_params txbuf 0 rxbuf rxbuf_p 1 true ;;
      let txbuf := poke txbuf 0 (u8 srec_datacount) in
      let txbuf := poke txbuf 1 (u8 (Z.land (Z.shiftr srec_addr 8) 0xff)) in
      let txbuf := poke txbuf 2 (u8 (Z.land srec_addr 0xff)) in
      tx_chunk fuel (serial_txbuf_size arg_params) txbuf 0 3 ;;;
      rxbuf <- rx_chunk fuel (serial_rxbuf_size arg_params)
                 rxbuf rxbuf_p srec_datacount ;;
      st <- lift (verify_data_loop (Z.to_nat srec_datacount) arg_params line_str
                    rxbuf 0
                    (srec_addr, rxbuf_p, (0, 0),
                     (mismatch_count t, ignore_count t))) ;;
      let '(_, _, _, (mismatch_count, ignore_count)) := st in
      ret (txbuf, rxbuf,
           {| total_databytes := u32 (total_databytes t + srec_datacount);
              mismatch_count := mismatch_count;
              ignore_count := ignore_count |})
    else ret (txbuf, rxbuf, t)
  else ret (txbuf, rxbuf, t).

Fixpoint readmem_verify_loop (fuel : nat) (arg_params : cl_my_params)
  (in_file : list string) (txbuf rxbuf : list Z) (t : tally) : M port tally :=
  match in_file with
  | [] => ret t
  | line_str :: rest =>
      st <- readmem_verify_line fuel arg_params line_str txbuf rxbuf t ;;
      let '(txbuf, rxbuf, t) := st in
      readmem_verify_loop fuel arg_params rest txbuf rxbuf t
  end.

(** [readmem_verify]; the file is the list of the strings that
    [read_file_line] yields until [eof()] holds. *)
Definition readmem_verify (fuel : nat) (arg_params : cl_my_params)
  (in_file : list string) (tx0 rx0 : list Z) : M port tally :=
  let txbuf :=
    alloc_buf tx0 (if serial_txbuf_size arg_params >? BOOTLOADER_MAX_BYTE_COUNT
                   then serial_txbuf_size arg_params
                   else BOOTLOADER_MAX_BYTE_COUNT) in
  let rxbuf :=
    alloc_buf rx0 (if serial_rxbuf_size arg_params >? BOOTLOADER_MAX_BYTE_COUNT
                   then serial_rxbuf_size arg_params
                   else BOOTLOADER_MAX_BYTE_COUNT) in
  readmem_verify_loop fuel arg_params in_file txbuf rxbuf
    {| total_databytes := 0; mismatch_count := 0; ignore_count := 0 |}.

(** [writemem_file]: the loop that fills the transmit buffer from the data
    bytes of one line, [n] iterations left. *)
Fixpoint write_fill_loop (n : nat) (line_str : string) (i : Z)
  (txbuf : list Z) (txbuf_p : Z) : outcome (list Z) :=
  match n with
  | O => Done txbuf
  | S n' =>
      match substr line_str (2 * i + 8) 2 with
      | None => Throw STD_OUT_OF_RANGE
      | Some s =>
          write_fill_loop n' line_str (i + 1)
            (poke txbuf txbuf_p (u8 (strtoul16 s))) (txbuf_p + 1)
      end
  end.

(** [writemem_file]: the loop that compares what was sent with what came
    back, [n] iterations left.  The state is [srec_addr], the two counts of
    the line and the two counts of the file. *)
Fixpoint write_check_loop (n : nat) (arg_params : cl_my_params)
  (txbuf rxbuf : list Z) (i : Z) (st : Z * (Z * Z) * (Z * Z))
  : Z * (Z * Z) * (Z * Z) :=
  match n with
  | O => st
  | S n' =>
      let '(srec_addr, (line_mismatch_count, line_ignore_count),
            (mismatch_count, ignore_count)) := st in
      if negb (verify_config arg_params) && (srec_addr =? HC11_CONFIG_ADDR) then
        write_check_loop n' arg_params txbuf rxbuf (i + 1)
          (u16 (srec_addr + 1),
           (line_mismatch_count, u32 (line_ignore_count + 1)),
           (mismatch_count, u32 (ignore_count + 1)))
      else if negb (peek txbuf i =? peek rxbuf i) then
        write_check_loop n' arg_params txbuf rxbuf (i + 1)
          (u16 (srec_addr + 1),
           (u32 (line_mismatch_count + 1), line_ignore_count),
           (u32 (mismatch_count + 1), ignore_count))
      else
        write_check_loop n' arg_params txbuf rxbuf (i + 1)
          (u16 (srec_addr + 1),
           (line_mismatch_count, line_ignore_count),
           (mismatch_count, ignore_count))
  end.

(** [writemem_file]: the body of the [do ... while(!in_file.eof())] loop;
    [arg_write_cmd_code] is a [uint8_t]. *)
Definition writemem_file_line (fuel : nat) (arg_params : cl_my_params)
  (arg_write_cmd_code : Z) (line_str : string) (txbuf rxbuf : list Z) (t : tally)
  : M port (list Z * list Z * tally) :=
  if size line_str >=? 8 then
    if is_S1 line_str then
      s2 <- lift (match substr line_str 2 2 with
                  | Some s => Done s | None => Throw STD_OUT_OF_RANGE end) ;;
      let srec_datacount := u8 (u8 (strtoul16 s2) - SREC_ADDR_CHECKSUM_COUNT) in
      s4 <- lift (match substr line_str 4 4 with
                  | Some s => Done s | None => Throw STD_OUT_OF_RANGE end) ;;
      let srec_addr := u16 (strtoul16 s4) in
      let txbuf := poke txbuf 0 arg_write_cmd_code in
      rxbuf <- txrx_chunk fuel arg_params txbuf 0 rxbuf 0 1 true ;;
      let txbuf := poke txbuf 0 (u8 srec_datacount) in
      let txbuf := poke txbuf 1 (u8 (Z.land (Z.shiftr srec_addr 8) 0xff)) in
      let txbuf := poke txbuf 2 (u8 (Z.land srec_addr 0xff)) in
      tx_chunk fuel (serial_txbuf_size arg_params) txbuf 0 3 ;;;
      txbuf <- lift (write_fill_loop (Z.to_nat srec_datacount) line_str 0 txbuf 0) ;;
      rxbuf <- txrx_chunk_write fuel arg_params txbuf 0 rxbuf 0 srec_datacount
                 (negb (arg_write_cmd_code =? TALKER_WRITE_CMD)) ;;
      let '(_, _, (mismatch_count, ignore_count)) :=
        write_check_loop (Z.to_nat srec_datacount) arg_params txbuf rxbuf 0
          (srec_addr, (0, 0), (mismatch_count t, ignore_count t)) in
      ret (txbuf, rxbuf,
           {| total_databytes := u32 (total_databytes t + srec_datacount);
              mismatch_count := mismatch_count;
              ignore_count := ignore_count |})
    else ret (txbuf, rxbuf, t)
  else ret (txbuf, rxbuf, t).

Fixpoint writemem_file_loop (fuel : nat) (arg_params : cl_my_params)
  (arg_write_cmd_code : Z) (in_file : list string) (txbuf rxbuf : list Z)
  (t : tally) : M port tally :=
  match in_file with
  | [] => ret t
  | line_str :: rest =>
      st <- writemem_file_line fuel arg_params arg_write_cmd_code line_str
              txbuf rxbuf t ;;
      let '(txbuf, rxbuf, t) := st in
      writemem_file_loop fuel arg_params arg_write_cmd_code rest txbuf rxbuf t
  end.

(** [writemem_file] *)
Definition writemem_file (fuel : nat) (arg_params : cl_my_params)
  (arg_write_cmd_code : Z) (in_file : list string) (tx0 rx0 : list Z)
  : M port tally :=
  let txbuf :=
    alloc_buf tx0 (if serial_txbuf_size arg_params >? BOOTLOADER_MAX_BYTE_COUNT
                   then serial_txbuf_size arg_params
                   else BOOTLOADER_MAX_BYTE_COUNT) in
  let rxbuf :=
    alloc_buf rx0 (if serial_rxbuf_size arg_params >? BOOTLOADER_MAX_BYTE_COUNT
                   then serial_rxbuf_size arg_params
                   else BOOTLOADER_MAX_BYTE_COUNT) in
  writemem_file_loop fuel arg_params arg_write_cmd_code in_file txbuf rxbuf
    {| total_databytes := 0; mismatch_count := 0; ignore_count := 0 |}.

End Ops.

End Tru11.

(** ** Simulated transports *)

(** A transport that follows a script: each [write_port] takes the next
    write reply (a complete transfer when the script is over), each
    [read_port] the next read reply (no byte when the script is over). *)
Record scripted : Type := Scripted {
  write_script : list (reply Z);
  read_script : list (reply (list Z))
}.

#[export] Instance scripted_serial_com : serial_com scripted := {
  write_port s bs :=
    match write_script s with
    | [] => (s, Ret (Z.of_nat (length bs)))
    | r :: ws => (Scripted ws (read_script s), r)
    end;
  read_port s len :=
    match read_script s with
    | [] => (s, Ret [])
    | r :: rs => (Scripted (write_script s) rs, r)
    end
}.

(** The bootstrap loader as a transport: the first byte written is the
    synchronisation byte, every byte after it comes back. *)
Record bootloader : Type := Bootloader { synced : bool; echoes : list Z }.

#[export] Instance bootloader_serial_com : serial_com bootloader := {
  write_port s bs :=
    (Bootloader (synced s || negb (length bs =? 0)%nat)
                (echoes s ++ (if synced s then bs else tl bs)),
     Ret (Z.of_nat (length bs)));
  read_port s len :=
    (Bootloader (synced s) (skipn (Z.to_nat len) (echoes s)),
     Ret (firstn (Z.to_nat len) (echoes s)))
}.

(** A transport on which every byte written comes back. *)
Record echoing : Type := Echoing { fifo : list Z }.

#[export] Instance echoing_serial_com : serial_com echoing := {
  write_port s bs := (Echoing (fifo s ++ bs), Ret (Z.of_nat (length bs)));
  read_port s len :=
    (Echoing (skipn (Z.to_nat len) (fifo s)), Ret (firstn (Z.to_nat len) (fifo s)))
}.

(** The parameters the constructor of [cl_my_params] sets, and the same
    with other chunk sizes. *)
Definition default_params : cl_my_params :=
  {| serial_rxbuf_size := 256;
     serial_txbuf_size := 256;
     serial_prog_txbuf_size := 2;
     srec_datalen := 16;
     verify_config := false;
     full_file_name := "";
     from_addr := 0;
     to_addr := 0 |}.

Definition with_chunk_sizes (p : cl_my_params) (rx tx : Z) : cl_my_params :=
  {| serial_rxbuf_size := rx;
     serial_txbuf_size := tx;
     serial_prog_txbuf_size := serial_prog_txbuf_size p;
     srec_datalen := srec_datalen p;
     verify_config := verify_config p;
     full_file_name := full_file_name p;
     from_addr := from_addr p;
     to_addr := to_addr p |}.

(** An S1 line with sixteen data bytes, and files made of such lines. *)
Definition s1_line16 : string :=
  "S1130000000102030405060708090A0B0C0D0E0F74".

Definition talker_file_of (lines : nat) : list string := repeat s1_line16 lines.

(** The parameters of a [read] command line: address range and file. *)
Definition read_params (from to : Z) (file : string) : cl_my_params :=
  {| serial_rxbuf_size := 256;
     serial_txbuf_size := 256;
     serial_prog_txbuf_size := 2;
     srec_datalen := 16;
     verify_config := false;
     full_file_name := file;
     from_addr := from;
     to_addr := to |}.

(** The sum of the [n] hexadecimal byte fields of an S-record line that
    follow its two-character type. *)
Definition srec_field_sum (n : nat) (line : string) : Z :=
  Zsum (map (fun k => strtoul16 (String.substring (2 * k + 2) 2 line)) (seq 0 n)).

(** A talker that answers every [writemem_byte] as expected: the complement
    of the command, then the value. *)
Definition ee_talker (values : list Z) : scripted :=
  Scripted [] (flat_map (fun v => [Ret [u8_not TBug11.TALKER_WRITE_CMD]; Ret [v]])
                 values).

(** A record with the one byte 0xAA at 0x1000, on a talker that answers
    as expected. *)
Definition write_ee_one_byte : scripted * list event * outcome unit :=
  TBug11.write_ee 3 default_params ["S1041000AA41"%string]
    (ee_talker [0x16; 0xaa; 0x17; 0x00; 0x02; 0xaa; 0x03; 0x00]).

(** A line whose byte count field is 00, long enough for 253 data bytes,
    and tru11 verifying it against a device that holds zeros. *)
Fixpoint hex_zeros (n : nat) : string :=
  match n with
  | O => ""
  | S n' => "00" ++ hex_zeros n'
  end.

Definition short_count_line : string := "S1001000" ++ hex_zeros 252.

(** ** Vocabulary of the properties *)

(** What a failed transfer looks like: the calls before the last one are
    complete, the last one is a read that came back short or raised. *)
Definition read_failed (evs : list event) (e : tru_exception) : Prop :=
  exists pre len rep,
    evs = pre ++ [EvRead len rep] /\
    forallb complete pre = true /\
    match rep with
    | Ret bs => Z.of_nat (length bs) <> len /\
                e = APP_ERROR_RX_FAIL len (Z.of_nat (length bs))
    | Raise c => e = SERIAL_COM_ERROR c
    end.

(** The bytes received differ from the bytes sent, first at [j]. *)
Definition first_mismatch (tx : list Z) (tp : Z) (rcv : list Z) (j : Z) : Prop :=
  0 <= j < Z.of_nat (length rcv) /\
  (forall i, 0 <= i < j -> nth (Z.to_nat i) rcv 0 = peek tx (tp + i)) /\
  nth (Z.to_nat j) rcv 0 <> peek tx (tp + j).

Definition echo_failed (tx : list Z) (tp : Z) (evs : list event)
  (e : tru_exception) : Prop :=
  forallb complete evs = true /\
  exists j, first_mismatch tx tp (received evs) j /\
    e = APP_ERROR_ECHO (peek tx (tp + j)) (nth (Z.to_nat j) (received evs) 0).

Definition echo_ok (tx : list Z) (tp : Z) (n : Z) (evs : list event) : Prop :=
  forallb complete evs = true /\
  requested evs = n /\
  Z.of_nat (length (received evs)) = n /\
  forall i, 0 <= i < n -> nth (Z.to_nat i) (received evs) 0 = peek tx (tp + i).

(** What a run of [txrx_chunk_control_program] for [N] bytes at [tx + tp]
    looks like. *)
Definition ctl_spec (tx : list Z) (tp N : Z) (evs : list event)
  (r : outcome unit) : Prop :=
  r <> OutOfFuel /\
  0 <= requested evs <= N /\
  (exists n, 0 <= n <= N /\ written evs = slice tx tp n /\ (r = Done tt -> n = N)) /\
  (requested evs = N -> r = Done tt) /\
  (r = Done tt -> requested evs = N) /\
  (forall pre c bs,
     evs = pre ++ [EvRead c (Ret bs)] -> Z.of_nat (length bs) <> c ->
     requested evs < N ->
     r = Throw (APP_ERROR_RX_FAIL c (Z.of_nat (length bs)))) /\
  (forallb complete evs = true ->
   forall j, j < N - 1 -> first_mismatch tx tp (received evs) j ->
     r = Throw (APP_ERROR_ECHO (peek tx (tp + j))
                               (nth (Z.to_nat j) (received evs) 0))) /\
  (forall e, r = Throw e ->
     forallb complete evs = false \/
     exists j, j < N - 1 /\ first_mismatch tx tp (received evs) j) /\
  (1 <= N -> exists c rep rest, evs = EvWrite (slice tx tp c) rep :: rest).


(** The talker file, record by record: the number of data bytes
    [send_control_program] takes from a line (0 for a line it skips), the
    bytes themselves, and whether the line is long enough to hold them. *)
Definition talker_line_count (line_str : string) : Z :=
  if size line_str >? 8 then
    if is_S1 line_str then
      let srec_bytecount := u8 (strtoul16 (String.substring 2 2 line_str)) in
      if (srec_bytecount >? 0) && (srec_bytecount >=? (size line_str - 4) / 2)
         && (srec_bytecount >? SREC_ADDR_CHECKSUM_COUNT)
      then u8 (srec_bytecount - SREC_ADDR_CHECKSUM_COUNT)
      else 0
    else 0
  else 0.

(** The data byte number [k] of a line: the two characters at [2k + 8]. *)
Definition srec_data_byte (line_str : string) (k : Z) : Z :=
  u8 (strtoul16 (String.substring (Z.to_nat (2 * k + 8)) 2 line_str)).

Definition talker_line_data (line_str : string) : list Z :=
  map (fun k => srec_data_byte line_str (Z.of_nat k))
      (seq 0 (Z.to_nat (talker_line_count line_str))).


Definition talker_image (talker_file : list string) : list Z :=
  flat_map talker_line_data talker_file.

(** The S1 line with the given fields: byte count, 16-bit address, data
    bytes and checksum. *)
Fixpoint hexcat (data : list Z) : string :=
  match data with
  | [] => ""
  | b :: rest => (to_string_right_hex_up b 2 ++ hexcat rest)%string
  end.

Definition s1_line (byte_count addr : Z) (data : list Z) (cksum : Z) : string :=
  ("S1"
   ++ to_string_right_hex_up byte_count 2
   ++ to_string_right_hex_up addr 4
   ++ hexcat data
   ++ to_string_right_hex_up cksum 2
   ++ CRLF)%string.

(** The checksum invariant of an S1 record. *)
Definition s1_checksum_ok (byte_count addr : Z) (data : list Z) (cksum : Z)
  : Prop :=
  (byte_count + addr / 256 + addr mod 256 + Zsum data + cksum) mod 256 = 0xff /\
  cksum = 0xff - (byte_count + addr / 256 + addr mod 256 + Zsum data) mod 256.

Definition s1_record_ok (line : string) : Prop :=
  exists byte_count addr data cksum,
    line = s1_line byte_count addr data cksum /\
    0 <= addr < 65536 /\
    byte_count = u8 (Z.of_nat (length data)) + 3 /\
    s1_checksum_ok byte_count addr data cksum.

(** A line of the file [readmem] writes: the S0 line, the S9 line, or an S1
    line that satisfies the checksum invariant. *)
Definition srec_line_ok (line : string) : Prop :=
  line = ("S0030000FC" ++ CRLF)%string \/
  line = ("S9030000FC" ++ CRLF)%string \/
  s1_record_ok line.

(** The invariant of the S-record writer: the lines written are good, and
    the variables describe the record under construction, which starts at
    [a0] and holds the bytes [bs]. *)
Definition srec_writer_ok (e : srec_writer) : Prop :=
  Forall srec_line_ok (out_file e) /\
  exists a0 bs,
    srec_addr_str e = to_string_right_hex_up (u16 a0) 4 /\
    srec_line e = hexcat (map u16 bs) /\
    datacount e = u8 (Z.of_nat (length bs)) /\
    checksum e = u8 (Z.land (Z.shiftr a0 8) 0xff + Z.land a0 0xff + Zsum bs).

(** Counting, for the verification tallies: the number of positions [k]
    with [i <= k < i + n] at which [f] holds. *)
Definition count_from (f : Z -> bool) (i : Z) (n : nat) : Z :=
  Z.of_nat (length (filter f (map (fun k => i + Z.of_nat k) (seq 0 n)))).

(** The byte number [k] of a line that starts at address [a0] is left out
    of the comparison: [verify_config] is off and its 16-bit address is the
    address of the CONFIG register. *)
Definition ignored_at (arg_params : cl_my_params) (a0 k : Z) : bool :=
  negb (verify_config arg_params) && (u16 (a0 + k) =? HC11_CONFIG_ADDR).

(** The byte number [k] is compared and differs; [differs k] says that the
    byte read back differs from the byte of the file. *)
Definition mismatch_at (arg_params : cl_my_params) (a0 : Z)
  (differs : Z -> bool) (k : Z) : bool :=
  negb (ignored_at arg_params a0 k) && differs k.

(** [readmem_verify]: the byte read back differs from the byte of the line. *)
Definition verify_differs (line_str : string) (rxbuf : list Z) (k : Z) : bool :=
  negb (peek rxbuf k =? srec_data_byte line_str k).

(** [writemem_file]: the byte read back differs from the byte sent. *)
Definition write_differs (txbuf rxbuf : list Z) (k : Z) : bool :=
  negb (peek txbuf k =? peek rxbuf k).

(** The echo of a command byte [cmd]: tbug11 expects the complement. *)
Definition command_echo_ok (complement : bool) (cmd b : Z) : bool :=
  if complement then cmd =? u8_not b else cmd =? b.

(** The exchange of the command byte did not succeed: the write did not
    take the byte, or the read did not give one byte, or the byte is not
    the echo expected.  The count of the write is the one the code
    compares, the count returned as a [uint32_t]. *)
Definition handshake_failed {A} (complement : bool) (cmd : Z)
  (evs : list event) (r : outcome A) : Prop :=
  (exists rep, evs = [EvWrite [cmd] rep] /\
     match rep with
     | Ret n => u32 n <> 1 /\ r = Throw (APP_ERROR_TX_FAIL 1 (u32 n))
     | Raise c => r = Throw (SERIAL_COM_ERROR c)
     end) \/
  (exists n rep, u32 n = 1 /\ evs = [EvWrite [cmd] (Ret n); EvRead 1 rep] /\
     match rep with
     | Ret [b] =>
         command_echo_ok complement cmd b = false /\
         r = Throw (APP_ERROR_ECHO cmd (if complement then u8_not b else b))
     | Ret bs => r = Throw (APP_ERROR_RX_FAIL 1 (Z.of_nat (length bs)))
     | Raise c => r = Throw (SERIAL_COM_ERROR c)
     end).

(** The exchange of the command byte alone. *)
Definition handshake_only (complement : bool) (cmd : Z) (rxbuf : list Z)
  (evs : list event) (r : outcome (list Z)) : Prop :=
  handshake_failed complement cmd evs r \/
  exists n b, u32 n = 1 /\ evs = [EvWrite [cmd] (Ret n); EvRead 1 (Ret [b])] /\
    command_echo_ok complement cmd b = true /\ r = Done (store rxbuf 0 [b]).

(** The trace of an operation that opens with a command: either the
    exchange of the command byte fails and nothing follows, or the echo is
    the one expected and the next call writes [params]. *)
Definition command_first {A} (complement : bool) (cmd : Z) (params : list Z)
  (evs : list event) (r : outcome A) : Prop :=
  handshake_failed complement cmd evs r \/
  exists n b rep tl,
    u32 n = 1 /\
    evs = EvWrite [cmd] (Ret n) :: EvRead 1 (Ret [b]) :: EvWrite params rep :: tl /\
    command_echo_ok complement cmd b = true.

(** The fields of an S1 line as the operations read them: the number of
    data bytes and the address. *)
Definition srec_count (line_str : string) : Z :=
  u8 (u8 (strtoul16 (String.substring 2 2 line_str)) - SREC_ADDR_CHECKSUM_COUNT).

Definition srec_address (line_str : string) : Z :=
  u16 (strtoul16 (String.substring 4 4 line_str)).

(** The parameter bytes that follow a command: count, then the address,
    high byte first. *)
Definition hi_byte (addr : Z) : Z := u8 (Z.land (Z.shiftr addr 8) 0xff).
Definition lo_byte (addr : Z) : Z := u8 (Z.land addr 0xff).

Definition command_params (n addr : Z) : list Z :=
  [u8 n; hi_byte addr; lo_byte addr].

(** What an operation moves over the line: it writes a prefix of [X] and
    asks for at most [n] bytes, and all of [X] and exactly [n] when it
    returns; it makes no call but [write_port] and [read_port], and it does
    not run out of fuel. *)
Definition is_io (ev : event) : bool := is_write ev || is_read ev.

Definition moves {A} (X : list Z) (n : Z) (evs : list event) (r : outcome A)
  : Prop :=
  r <> OutOfFuel /\
  (exists rest, X = written evs ++ rest) /\
  0 <= requested evs <= n /\
  ((exists a, r = Done a) -> written evs = X /\ requested evs = n) /\
  forallb is_io evs = true.

Definition Moves {port : Type} {SC : serial_com port} {A} (m : M port A)
  (X : list Z) (n : Z) : Prop :=
  forall d d' evs r, m d = (d', evs, r) -> moves X n evs r.

(** The bytes [writemem_byte] of tbug11 writes to store [value] at [addr]:
    the command, a count of one, the address, the value. *)
Definition write_byte_bytes (addr value : Z) : list Z :=
  TBug11.TALKER_WRITE_CMD :: command_params 1 addr ++ [value].

(** A control sequence of the EEPROM: [c1] to the register at 0x103B,
    [byte] to the address, [c2] to the register, 0x00 to the register. *)
Definition ee_sequence (c1 c2 addr byte : Z) : list Z :=
  write_byte_bytes 0x103b c1 ++ write_byte_bytes addr byte
  ++ write_byte_bytes 0x103b c2 ++ write_byte_bytes 0x103b 0x00.

(** Erasing: bulk erase for the CONFIG register, byte erase elsewhere. *)
Definition ee_erase (addr byte : Z) : list Z :=
  if addr =? HC11_CONFIG_ADDR then ee_sequence 0x06 0x07 addr byte
  else ee_sequence 0x16 0x17 addr byte.

Definition ee_program (addr byte : Z) : list Z :=
  ee_sequence 0x02 0x03 addr byte.

(** A line the file operations take: at least eight characters, type S1. *)
Definition accepted (line_str : string) : bool :=
  (size line_str >=? 8) && is_S1 line_str.

(** What [write_ee] writes for the data byte number [k] of a line, for a
    line, and for a file. *)
Definition ee_byte_image (line_str : string) (k : Z) : list Z :=
  let addr := u16 (srec_address line_str + k) in
  let byte := srec_data_byte line_str k in
  ee_erase addr byte ++ ee_program addr byte.

Definition ee_line_image (line_str : string) : list Z :=
  if accepted line_str then
    flat_map (fun k => ee_byte_image line_str (Z.of_nat k))
             (seq 0 (Z.to_nat (srec_count line_str)))
  else [].

Definition ee_image (in_file : list string) : list Z :=
  flat_map ee_line_image in_file.

(** The number of data bytes of a line and of a file. *)
Definition line_count (line_str : string) : Z :=
  if accepted line_str then srec_count line_str else 0.

Definition file_count (in_file : list string) : Z :=
  Zsum (map line_count in_file).

(** The data bytes of a line, as many as its count says. *)
Definition srec_data (line_str : string) : list Z :=
  map (fun k => srec_data_byte line_str (Z.of_nat k))
      (seq 0 (Z.to_nat (srec_count line_str))).

(** An operation that does not run out of fuel. *)
Definition Runs {port : Type} {SC : serial_com port} {A} (m : M port A) : Prop :=
  forall d d' evs r, m d = (d', evs, r) -> r <> OutOfFuel.

(** * The other operations *)

(** ** tbug11/main.cpp: the operations the engine above leaves out

    [writemem_hexstr] reads and rewrites [arg_params->data], a field the
    record [cl_my_params] of the engine leaves out: it is the argument
    [data] here. *)

Module TBug11Ops.

Section Ops.

Context {port : Type} {SC : serial_com port}.

(** [rxtx_chunk]; the result is the receive buffer after the transfer. *)
Fixpoint rxtx_chunk (fuel : nat) (arg_params : cl_my_params)
  (rxbuf : list Z) (rxbuf_p : Z) (txbuf : list Z) (txbuf_p : Z)
  (remaining : Z) : M port (list Z) :=
  if remaining =? 0 then ret rxbuf
  else
    match fuel with
    | O => out_of_fuel
    | S fuel' =>
        let chunklen :=
          if remaining >? serial_rxbuf_size arg_params
          then serial_rxbuf_size arg_params else remaining in
        bs <- port_read chunklen ;;
        let xferredlen := Z.of_nat (length bs) in
        if negb (xferredlen =? chunklen)
        then throw (APP_ERROR_RX_FAIL chunklen xferredlen)
        else
          let rxbuf := store rxbuf rxbuf_p bs in
          tx_chunk fuel (serial_txbuf_size arg_params) txbuf txbuf_p chunklen ;;;
          rxtx_chunk fuel' arg_params rxbuf (rxbuf_p + chunklen)
            txbuf (txbuf_p + chunklen) (remaining - chunklen)
    end.

Definition test_mode (fuel : nat) (arg_params : cl_my_params) : M port unit :=
  TBug11.writemem_byte fuel arg_params 0x103c 0x66.

Definition bprot_off (fuel : nat) (arg_params : cl_my_params) : M port unit :=
  TBug11.writemem_byte fuel arg_params 0x1035 0x00.

Definition bprot_on (fuel : nat) (arg_params : cl_my_params) : M port unit :=
  TBug11.writemem_byte fuel arg_params 0x1035 0x1f.

Definition eeprom_row_erase (fuel : nat) (arg_params : cl_my_params)
  (address byte : Z) : M port unit :=
  TBug11.writemem_byte fuel arg_params 0x103b 0x0e ;;;
  TBug11.writemem_byte fuel arg_params address byte ;;;
  TBug11.writemem_byte fuel arg_params 0x103b 0x0f ;;;
  TBug11.erase_prog_delay ;;;
  TBug11.writemem_byte fuel arg_params 0x103b 0x00.

Definition eprom_prog_byte (fuel : nat) (arg_params : cl_my_params)
  (address byte : Z) : M port unit :=
  TBug11.writemem_byte fuel arg_params 0x103b 0x20 ;;;
  TBug11.writemem_byte fuel arg_params address byte ;;;
  TBug11.writemem_byte fuel arg_params 0x103b 0x21 ;;;
  TBug11.erase_prog_delay ;;;
  TBug11.writemem_byte fuel arg_params 0x103b 0x00.

Definition eprom_prog_e20_byte (fuel : nat) (arg_params : cl_my_params)
  (address byte : Z) : M port unit :=
  TBug11.writemem_byte fuel arg_params 0x1036 0x20 ;;;
  TBug11.writemem_byte fuel arg_params address byte ;;;
  TBug11.writemem_byte fuel arg_params 0x1036 0x21 ;;;
  TBug11.erase_prog_delay ;;;
  TBug11.writemem_byte fuel arg_params 0x1036 0x00.

(** [writemem_hexstr]: the loop that fills the transmit buffer from the
    hexadecimal string, [n] iterations left.  [addr] is a [uint16_t],
    [from_addr] a [uint32_t] and [i] a [uint16_t]: the position
    [2 * (addr - arg_params->from_addr + i)] is computed in [unsigned int]. *)
Fixpoint hexstr_fill_loop (n : nat) (arg_params : cl_my_params) (data : string)
  (addr i : Z) (txbuf : list Z) : outcome (list Z) :=
  match n with
  | O => Done txbuf
  | S n' =>
      match substr data (u32 (2 * (addr - from_addr arg_params + i))) 2 with
      | None => Throw STD_OUT_OF_RANGE
      | Some s =>
          hexstr_fill_loop n' arg_params data addr (i + 1)
            (poke txbuf i (u8 (strtoul16 s)))
      end
  end.

(** [writemem_hexstr]: the [while(remaining)] loop; [chunklen] is a
    [uint8_t]. *)
Fixpoint writemem_hexstr_loop (fuel : nat) (arg_params : cl_my_params)
  (data : string) (addr remaining : Z) (txbuf rxbuf : list Z) : M port unit :=
  if remaining =? 0 then ret tt
  else
    match fuel with
    | O => out_of_fuel
    | S fuel' =>
        let chunklen :=
          u8 (if remaining >? TALKER_MAX_BYTE_COUNT
              then TALKER_MAX_BYTE_COUNT else remaining) in
        let txbuf := poke txbuf 0 TBug11.TALKER_WRITE_CMD in
        rxbuf <- TBug11.txrx_chunk fuel arg_params txbuf 0 rxbuf 0 1
                   TBug11.TALKER_ECHO_VERIFY_COM ;;
        let txbuf := poke txbuf 0 (u8 chunklen) in
        let txbuf := poke txbuf 1 (u8 (Z.land (Z.shiftr addr 8) 0xff)) in
        let txbuf := poke txbuf 2 (u8 (Z.land addr 0xff)) in
        tx_chunk fuel (serial_txbuf_size arg_params) txbuf 0 3 ;;;
        txbuf <- lift (hexstr_fill_loop (Z.to_nat chunklen) arg_params data
                         addr 0 txbuf) ;;
        rxbuf <- TBug11.txrx_chunk fuel arg_params txbuf 0 rxbuf 0 chunklen
                   TBug11.TALKER_ECHO_VERIFY ;;
        writemem_hexstr_loop fuel' arg_params data (u16 (addr + chunklen))
          (u32 (remaining - chunklen)) txbuf rxbuf
    end.

(** The string [writemem_hexstr] leaves in [arg_params->data]: a ["0"] is
    put before a string of odd length. *)
Definition hexstr_even (data : string) : string :=
  if size data mod 2 =? 0 then data else ("0" ++ data)%string.

(** [writemem_hexstr] *)
Definition writemem_hexstr (fuel : nat) (arg_params : cl_my_params)
  (data : string) (tx0 rx0 : list Z) : M port unit :=
  let txbuf :=
    alloc_buf tx0 (if serial_txbuf_size arg_params >? BOOTLOADER_MAX_BYTE_COUNT
                   then serial_txbuf_size arg_params
                   else BOOTLOADER_MAX_BYTE_COUNT) in
  let rxbuf :=
    alloc_buf rx0 (if serial_rxbuf_size arg_params >? BOOTLOADER_MAX_BYTE_COUNT
                   then serial_rxbuf_size arg_params
                   else BOOTLOADER_MAX_BYTE_COUNT) in
  if size data >? 0 then
    let data := hexstr_even data in
    let total_bytes := u32 (size data / 2) in
    let addr := u16 (from_addr arg_params) in
    let remaining := total_bytes in
    writemem_hexstr_loop fuel arg_params data addr remaining txbuf rxbuf
  else ret tt.

(** [writemem_file]: the body of the [do ... while(!in_file.eof())] loop.
    The data bytes of the line are not read: the last [txrx_chunk] sends
    what the transmit buffer holds. *)
Definition writemem_file_line (fuel : nat) (arg_params : cl_my_params)
  (line_str : string) (txbuf rxbuf : list Z) : M port (list Z * list Z) :=
  if size line_str >=? 8 then
    if is_S1 line_str then
      s2 <- lift (match substr line_str 2 2 with
                  | Some s => Done s | None => Throw STD_OUT_OF_RANGE end) ;;
      let srec_datacount := u8 (u8 (strtoul16 s2) - SREC_ADDR_CHECKSUM_COUNT) in
      s4 <- lift (match substr line_str 4 4 with
                  | Some s => Done s | None => Throw STD_OUT_OF_RANGE end) ;;
      let srec_addr := u16 (strtoul16 s4) in
      let txbuf := poke txbuf 0 TBug11.TALKER_WRITE_CMD in
      rxbuf <- TBug11.txrx_chunk fuel arg_params txbuf 0 rxbuf 0 1
                 TBug11.TALKER_ECHO_VERIFY_COM ;;
      let txbuf := poke txbuf 0 (u8 srec_datacount) in
      let txbuf := poke txbuf 1 (u8 (Z.land (Z.shiftr srec_addr 8) 0xff)) in
      let txbuf := poke txbuf 2 (u8 (Z.land srec_addr 0xff)) in
      tx_chunk fuel (serial_txbuf_size arg_params) txbuf 0 3 ;;;
      rxbuf <- TBug11.txrx_chunk fuel arg_params txbuf 0 rxbuf 0 srec_datacount
                 TBug11.TALKER_ECHO_VERIFY ;;
      ret (txbuf, rxbuf)
    else ret (txbuf, rxbuf)
  else ret (txbuf, rxbuf).

Fixpoint writemem_file_loop (fuel : nat) (arg_params : cl_my_params)
  (in_file : list string) (txbuf rxbuf : list Z) : M port unit :=
  match in_file with
  | [] => ret tt
  | line_str :: rest =>
      st <- writemem_file_line fuel arg_params line_str txbuf rxbuf ;;
      let '(txbuf, rxbuf) := st in
      writemem_file_loop fuel arg_params rest txbuf rxbuf
  end.

(** [writemem_file]; the file is the list of the strings that
    [read_file_line] yields until [eof()] holds. *)
Definition writemem_file (fuel : nat) (arg_params : cl_my_params)
  (in_file : list string) (tx0 rx0 : list Z) : M port unit :=
  let txbuf :=
    alloc_buf tx0 (if serial_txbuf_size arg_params >? BOOTLOADER_MAX_BYTE_COUNT
                   then serial_txbuf_size arg_params
                   else BOOTLOADER_MAX_BYTE_COUNT) in
  let rxbuf :=
    alloc_buf rx0 (if serial_rxbuf_size arg_params >? BOOTLOADER_MAX_BYTE_COUNT
                   then serial_rxbuf_size arg_params
                   else BOOTLOADER_MAX_BYTE_COUNT) in
  writemem_file_loop fuel arg_params in_file txbuf rxbuf.

(** [write_e] and [write_e20]: the loop over the data bytes of one line,
    [n] iterations left; [prog] is [eprom_prog_byte] or
    [eprom_prog_e20_byte]. *)
Fixpoint write_e_data_loop (prog : Z -> Z -> M port unit) (n : nat)
  (line_str : string) (i srec_addr : Z) : M port unit :=
  match n with
  | O => ret tt
  | S n' =>
      s <- lift (match substr line_str (2 * i + 8) 2 with
                 | Some s => Done s | None => Throw STD_OUT_OF_RANGE end) ;;
      let txbyte := u8 (strtoul16 s) in
      prog srec_addr txbyte ;;;
      write_e_data_loop prog n' line_str (i + 1) (u16 (srec_addr + 1))
  end.

(** [write_e] and [write_e20]: the body of the
    [do ... while(!in_file.eof())] loop. *)
Definition write_e_line (prog : Z -> Z -> M port unit) (line_str : string)
  : M port unit :=
  if size line_str >=? 8 then
    if is_S1 line_str then
      s2 <- lift (match substr line_str 2 2 with
                  | Some s => Done s | None => Throw STD_OUT_OF_RANGE end) ;;
      let srec_datacount := u8 (u8 (strtoul16 s2) - SREC_ADDR_CHECKSUM_COUNT) in
      s4 <- lift (match substr line_str 4 4 with
                  | Some s => Done s | None => Throw STD_OUT_OF_RANGE end) ;;
      let srec_addr := u16 (strtoul16 s4) in
      write_e_data_loop prog (Z.to_nat srec_datacount) line_str 0 srec_addr
    else ret tt
  else ret tt.

Fixpoint write_e_file (prog : Z -> Z -> M port unit) (in_file : list string)
  : M port unit :=
  match in_file with
  | [] => ret tt
  | line_str :: rest =>
      write_e_line prog line_str ;;;
      write_e_file prog rest
  end.

(** [write_e] *)
Definition write_e (fuel : nat) (arg_params : cl_my_params)
  (in_file : list string) : M port unit :=
  write_e_file (eprom_prog_byte fuel arg_params) in_file.

(** [write_e20] *)
Definition write_e20 (fuel : nat) (arg_params : cl_my_params)
  (in_file : list string) : M port unit :=
  write_e_file (eprom_prog_e20_byte fuel arg_params) in_file.

End Ops.

End TBug11Ops.

(** ** tru11/main.cpp: [writemem_hexstr] *)

Module Tru11Ops.

Section Ops.

Context {port : Type} {SC : serial_com port}.

(** [writemem_hexstr]: the [while(remaining)] loop; [chunklen] is a
    [uint8_t].  The loop that fills the transmit buffer is the one of
    tbug11. *)
Fixpoint writemem_hexstr_loop (fuel : nat) (arg_params : cl_my_params)
  (arg_write_cmd_code : Z) (data : string) (addr remaining : Z)
  (txbuf rxbuf : list Z) : M port unit :=
  if remaining =? 0 then ret tt
  else
    match fuel with
    | O => out_of_fuel
    | S fuel' =>
        let chunklen :=
          u8 (if remaining >? TALKER_MAX_BYTE_COUNT
              then TALKER_MAX_BYTE_COUNT else remaining) in
        let txbuf := poke txbuf 0 arg_write_cmd_code in
        rxbuf <- Tru11.txrx_chunk fuel arg_params txbuf 0 rxbuf 0 1 true ;;
        let txbuf := poke txbuf 0 (u8 chunklen) in
        let txbuf := poke txbuf 1 (u8 (Z.land (Z.shiftr addr 8) 0xff)) in
        let txbuf := poke txbuf 2 (u8 (Z.land addr 0xff)) in
        tx_chunk fuel (serial_txbuf_size arg_params) txbuf 0 3 ;;;
        txbuf <- lift (TBug11Ops.hexstr_fill_loop (Z.to_nat chunklen) arg_params
                         data addr 0 txbuf) ;;
        rxbuf <- Tru11.txrx_chunk_write fuel arg_params txbuf 0 rxbuf 0 chunklen
                   false ;;
        writemem_hexstr_loop fuel' arg_params arg_write_cmd_code data
          (u16 (addr + chunklen)) (u32 (remaining - chunklen)) txbuf rxbuf
    end.

(** [writemem_hexstr] *)
Definition writemem_hexstr (fuel : nat) (arg_params : cl_my_params)
  (arg_write_cmd_code : Z) (data : string) (tx0 rx0 : list Z) : M port unit :=
  let txbuf :=
    alloc_buf tx0 (if serial_txbuf_size arg_params >? BOOTLOADER_MAX_BYTE_COUNT
                   then serial_txbuf_size arg_params
                   else BOOTLOADER_MAX_BYTE_COUNT) in
  let rxbuf :=
    alloc_buf rx0 (if serial_rxbuf_size arg_params >? BOOTLOADER_MAX_BYTE_COUNT
                   then serial_rxbuf_size arg_params
                   else BOOTLOADER_MAX_BYTE_COUNT) in
  if size data >? 0 then
    let data := TBug11Ops.hexstr_even data in
    let total_bytes := u32 (size data / 2) in
    let addr := u16 (from_addr arg_params) in
    let remaining := total_bytes in
    writemem_hexstr_loop fuel arg_params arg_write_cmd_code data addr remaining
      txbuf rxbuf
  else ret tt.

End Ops.

End Tru11Ops.

(** ** Vocabulary of the further properties *)

(** What a transfer with echo has received when it returns, by the check
    made on the echo: the bytes sent, their complements, or any bytes. *)
Definition echo_of (policy : TBug11.talker_echo_e) (sent rcv : list Z) : Prop :=
  match policy with
  | TBug11.TALKER_ECHO_VERIFY => rcv = sent
  | TBug11.TALKER_ECHO_VERIFY_COM => map u8_not rcv = sent
  | TBug11.TALKER_ECHO_IGNORE => length rcv = length sent
  end.

(** The bytes of a hexadecimal string as [writemem_hexstr] reads them: the
    byte number [k] is the value of the two characters at [2 * k]. *)
Definition hexstr_byte (data : string) (k : Z) : Z :=
  u8 (strtoul16 (String.substring (Z.to_nat (2 * k)) 2 data)).

Definition hexstr_bytes (data : string) : list Z :=
  map (fun k => hexstr_byte data (Z.of_nat k))
      (seq 0 (Z.to_nat (size data / 2))).

(** [k] rounds of a write command for no byte at [addr]. *)
Definition empty_writes (cmd addr : Z) (k : nat) : list Z :=
  concat (repeat (cmd :: command_params 0 addr) k).

(** Runs of [writemem_hexstr] of tbug11: 256 bytes with two rounds of fuel,
    and the three characters ABC. *)
Definition hexstr_256_run : scripted * list event * outcome unit :=
  TBug11Ops.writemem_hexstr 2 default_params (hex_zeros 256) [] []
    (Scripted [] [Ret [0xbe]; Ret [0xbe]]).

Definition hexstr_abc_run : scripted * list event * outcome unit :=
  TBug11Ops.writemem_hexstr 255 default_params "ABC" [] []
    (Scripted [] [Ret [0xbe]; Ret [0x0a; 0xbc]]).

(** The first eight characters of a line: type, byte count and address. *)
Definition srec_header (line_str : string) : string :=
  String.substring 0 8 line_str.

(** A file whose one line has a count of four and an address, with data and
    without, written with tbug11. *)
Definition write_line_run (line_str : string)
  : scripted * list event * outcome unit :=
  TBug11Ops.writemem_file 256 default_params [line_str] [] []
    (Scripted [] [Ret [0xbe]; Ret [4; 0x10; 0x00; 0]]).

(** What [write_e] and [write_e20] write for a data byte: 0x20 to the
    programming register [reg], the byte to the address, 0x21 and then
    0x00 to the register; and the image of a line and of a file. *)
Definition e_sequence (reg addr byte : Z) : list Z :=
  write_byte_bytes reg 0x20 ++ write_byte_bytes addr byte
  ++ write_byte_bytes reg 0x21 ++ write_byte_bytes reg 0x00.

Definition e_line_image (reg : Z) (line_str : string) : list Z :=
  if accepted line_str then
    flat_map (fun k => e_sequence reg (u16 (srec_address line_str + Z.of_nat k))
                         (srec_data_byte line_str (Z.of_nat k)))
             (seq 0 (Z.to_nat (srec_count line_str)))
  else [].

Definition e_image (reg : Z) (in_file : list string) : list Z :=
  flat_map (e_line_image reg) in_file.

(** A record with the one byte 0xAA at 0x1000 written with [write_e], on a
    talker that answers as expected. *)
Definition write_e_one_byte : scripted * list event * outcome unit :=
  TBug11Ops.write_e 3 default_params ["S1041000AA41"%string]
    (ee_talker [0x20; 0xaa; 0x21; 0x00]).

(** What [writemem_file] of tru11 writes for a line and for a file: for
    each line it accepts the command, the count, the address and the data
    bytes. *)
Definition write_line_image (cmd : Z) (line_str : string) : list Z :=
  if accepted line_str then
    cmd :: command_params (srec_count line_str) (srec_address line_str)
        ++ srec_data line_str
  else [].

Definition write_image (cmd : Z) (in_file : list string) : list Z :=
  flat_map (write_line_image cmd) in_file.

(** The number of lines of a file that the operations accept. *)
Definition accepted_count (in_file : list string) : Z :=
  Z.of_nat (length (filter accepted in_file)).

(** The tallies are sound for a file of [total] data bytes. *)
Definition tally_ok (verify_config : bool) (total : Z) (t : tally) : Prop :=
  total_databytes t = total /\
  0 <= mismatch_count t /\ 0 <= ignore_count t /\
  mismatch_count t + ignore_count t <= total /\
  (verify_config = true -> ignore_count t = 0).

(** What [readmem_verify] of tru11 writes for a line and for a file: for
    each line it accepts the read command, the count and the address. *)
Definition verify_line_image (line_str : string) : list Z :=
  if accepted line_str then
    Tru11.TALKER_READ_CMD
      :: command_params (srec_count line_str) (srec_address line_str)
  else [].

Definition verify_image (in_file : list string) : list Z :=
  flat_map verify_line_image in_file.

(** A record with the two bytes 0xAA and 0xBB at 0x1000 written with tru11
    to a device that gives back 0xAA and 0x00, and verified with tru11 and
    with tbug11 against a device that holds 0xAA and 0x00. *)
Definition tru11_write_run : scripted * list event * outcome tally :=
  Tru11.writemem_file 256 default_params Tru11.TALKER_WRITE_CMD
    ["S1051000AABB85"%string] [] [] (Scripted [] [Ret [0x02]; Ret [0xaa; 0x00]]).

Definition tru11_verify_run : scripted * list event * outcome tally :=
  Tru11.readmem_verify 256 default_params
    ["S1051000AABB85"%string] [] [] (Scripted [] [Ret [0x01]; Ret [0xaa; 0x00]]).

(** A trace in which the echo is asked for chunk by chunk: at every write,
    as many bytes have been asked of [read_port] as have been handed to
    [write_port]; [w] and [q] are the two numbers before the trace. *)
Fixpoint in_step (w q : Z) (evs : list event) : bool :=
  match evs with
  | [] => true
  | EvWrite bs _ :: evs' => (q =? w) && in_step (w + Z.of_nat (length bs)) q evs'
  | EvRead len _ :: evs' => in_step w (q + len) evs'
  | EvSleep _ :: evs' => in_step w q evs'
  end.

(** The sizes of the writes of a trace. *)
Definition write_sizes (evs : list event) : list Z :=
  map ev_size (filter is_write evs).

(** Five bytes written with [txrx_chunk_write] of tru11 in programming
    chunks of two bytes, the device giving back every byte. *)
Definition prog_write_run : scripted * list event * outcome (list Z) :=
  Tru11.txrx_chunk_write 5 default_params [1; 2; 3; 4; 5] 0 [0; 0; 0; 0; 0] 0 5
    true (Scripted [] [Ret [1; 2]; Ret [3; 4]; Ret [5]]).

(** What [readmem] of tru11 writes to read [remaining] bytes from [addr]:
    for each round the read command, the count of the round (256 bytes at
    most, sent as one byte) and the address of the round; [rounds] bounds
    the number of rounds. *)
Fixpoint read_image (rounds : nat) (addr remaining : Z) : list Z :=
  match rounds with
  | O => []
  | S k =>
      if remaining <=? 0 then []
      else
        let c := Z.min remaining 256 in
        Tru11.TALKER_READ_CMD :: command_params c addr
          ++ read_image k (u16 (addr + c)) (remaining - c)
  end.

(** The number of rounds for [remaining] bytes. *)
Definition read_rounds (remaining : Z) : Z := (remaining + 255) / 256.

(** Reading 0x00FF to 0x0200 with tru11, from a device that holds zeros. *)
Definition read_two_rounds : scripted * list event * outcome (list string) :=
  Tru11.readmem 258 (read_params 0x00ff 0x0200 "") [] []
    (Scripted [] [Ret [0x01]; Ret (repeat 0 256); Ret [0x01]; Ret [0; 0]]).

(** An operation whose exceptions are all [tru_exception]s, the ones [main]
    catches and reports: it never ends with [std::out_of_range]. *)
Definition Catchable {port : Type} {SC : serial_com port} {A} (m : M port A)
  : Prop :=
  forall d d' evs e, m d = (d', evs, Throw e) -> is_tru_exception e = true.

(** A line that holds the characters of all the data bytes its count
    announces, or that the file operations skip. *)
Definition whole_line (line_str : string) : bool :=
  negb (accepted line_str)
  || (srec_count line_str =? 0)
  || (2 * srec_count line_str + 6 <=? size line_str).

(** The number of data bytes a line of at least eight characters can give:
    [substr(2 * i + 8, 2)] throws from this [i] on.  A pair cut by the end
    of the line still gives a byte. *)
Definition srec_avail (line_str : string) : Z := (size line_str - 8) / 2 + 1.

(** An accepted line that announces more data bytes than it can give. *)
Definition cut_line (line_str : string) : bool :=
  accepted line_str && (srec_avail line_str <? srec_count line_str).

(** What [write_ee] writes for the first [k] data bytes of a line. *)
Definition ee_bytes_image (line_str : string) (k : Z) : list Z :=
  flat_map (fun j => ee_byte_image line_str (Z.of_nat j)) (seq 0 (Z.to_nat k)).

(** A record that announces sixteen bytes and ends after its address,
    written to the EEPROM with tbug11 on a talker that answers as
    expected, and written with tru11. *)
Definition cut_write_ee : scripted * list event * outcome unit :=
  TBug11.write_ee 3 default_params ["S1131000"%string]
    (ee_talker [0x16; 0x00; 0x17; 0x00; 0x02; 0x00; 0x03; 0x00]).

Definition cut_tru11_write : scripted * list event * outcome tally :=
  Tru11.writemem_file 256 default_params Tru11.TALKER_WRITE_CMD
    ["S1131000"%string] [] [] (Scripted [] [Ret [0x02]]).

(** ** tbug11/cmd_line.h and cmd_line.cpp: the command line *)

Module CmdLine.

Inductive cmd_type : Type :=
| CMD_NONE
| CMD_UPTALKER
| CMD_READ
| CMD_READ_VERIFY
| CMD_WRITEHEXSTR
| CMD_WRITE
| CMD_WRITE_EEPROM
| CMD_WRITE_EPROM
| CMD_WRITE_EPROM_E20.

(** The class [cl_my_params] with all its members. *)
Record cl_my_params : Type := {
  cmd : cmd_type;
  dev_path : string;
  use_fast : bool;
  serial_rxbuf_size : Z;
  serial_txbuf_size : Z;
  timeoutms : Z;
  srec_datalen : Z;
  verify_config : bool;
  talker_filename : string;
  full_file_name : string;
  data : string;
  from_addr : Z;
  to_addr : Z
}.

(** The constructor of [cl_my_params]. *)
Definition new_params : cl_my_params :=
  {| cmd := CMD_NONE;
     dev_path := "";
     use_fast := false;
     serial_rxbuf_size := 256;
     serial_txbuf_size := 256;
     timeoutms := 1000;
     srec_datalen := 16;
     verify_config := false;
     talker_filename := "JBug_Talk.s19";
     full_file_name := "";
     data := "";
     from_addr := 0;
     to_addr := 0 |}.

(** [param.compare(0, key.size(), key) == 0] *)
Definition compare_key (param key : string) : bool :=
  String.eqb (String.substring 0 (String.length key) param) key.

(** [param.substr(key.size(), param.size())] *)
Definition value_of (param key : string) : string :=
  String.substring (String.length key) (String.length param) param.

Definition parse_param_exist (param key : string) : bool :=
  if size param =? size key then
    if compare_key param key then true else false
  else false.

Definition parse_param_str (param key : string) (value : string)
  : bool * string :=
  if size param >=? size key + 1 then
    if compare_key param key then (true, value_of param key)
    else (false, value)
  else (false, value).

Definition parse_param_yn (param key : string) (value : bool) : bool * bool :=
  if size param >=? size key + 1 then
    if compare_key param key then
      if String.eqb (String.substring (String.length key) 1 param) "y"
      then (true, true) else (true, false)
    else (false, value)
  else (false, value).

(** [parse_param_hex_str]: the loop over the pairs of characters, [n]
    iterations left. *)
Fixpoint hex_str_loop (n : nat) (param : string) (key_size i : Z)
  (value : string) : outcome string :=
  match n with
  | O => Done value
  | S n' =>
      match substr param (key_size + i) 2 with
      | None => Throw STD_OUT_OF_RANGE
      | Some s =>
          let ch := ascii_of_nat (Z.to_nat (u8 (strtoul16 s))) in
          hex_str_loop n' param key_size (i + 2) (value ++ String ch "")
      end
  end.

(** [parse_param_hex_str]; [value] is cleared first. *)
Definition parse_param_hex_str (param key : string) (value : string)
  : outcome (bool * string) :=
  let value := ""%string in
  if size param >=? size key + 1 then
    if compare_key param key then
      match hex_str_loop (Z.to_nat ((size param - size key + 1) / 2)) param
              (size key) 0 value with
      | Done value => Done (true, value)
      | Throw e => Throw e
      | OutOfFuel => OutOfFuel
      end
    else Done (false, value)
  else Done (false, value).

Section Strtoul.

(** The largest [unsigned long] of the platform. *)
Variable ULONG_MAX : Z.

(** The longest run of digits of the base, as a number. *)
Fixpoint digits (base : Z) (s : string) (acc : Z) : Z :=
  match s with
  | String c s' =>
      match hex_digit c with
      | Some d => if d <? base then digits base s' (base * acc + d) else acc
      | None => acc
      end
  | EmptyString => acc
  end.

(** The base that [strtoul(_, NULL, 0)] takes from the prefix: [0x] or [0X]
    before a hexadecimal digit gives 16, another [0] gives 8, anything else
    10. *)
Definition base_of (s : string) : Z * string :=
  match s with
  | String "0" (String x (String c s')) =>
      if (Ascii.eqb x "x" || Ascii.eqb x "X")%bool
      then match hex_digit c with
           | Some _ => (16, String c s')
           | None => (8, s)
           end
      else (8, s)
  | String "0" _ => (8, s)
  | _ => (10, s)
  end.

(** [strtoul(s.c_str(), NULL, 0)]: white space, an optional sign, the
    prefix of the base, then digits; no digit gives 0, a value above
    [ULONG_MAX] gives [ULONG_MAX], and a [-] negates in [unsigned long]. *)
Definition strtoul0 (s : string) : Z :=
  let '(neg, s) :=
    match skip_space s with
    | String "-" s' => (true, s')
    | String "+" s' => (false, s')
    | s' => (false, s')
    end in
  let '(base, s) := base_of s in
  let v := digits base s 0 in
  if v >? ULONG_MAX then ULONG_MAX
  else if neg then (- v) mod (ULONG_MAX + 1) else v.

(** [parse_param_val_uint<uint32_t>] *)
Definition parse_param_val_uint (param key : string) (value : Z) : bool * Z :=
  if size param >=? size key + 1 then
    if compare_key param key then
      let param_substr := value_of param key in
      if negb (size param_substr =? 0)
      then (true, u32 (strtoul0 param_substr))
      else (true, 0)
    else (false, value)
  else (false, value).

Definition set_cmd (c : cmd_type) (p : cl_my_params) : cl_my_params :=
  {| cmd := c; dev_path := dev_path p; use_fast := use_fast p;
     serial_rxbuf_size := serial_rxbuf_size p;
     serial_txbuf_size := serial_txbuf_size p; timeoutms := timeoutms p;
     srec_datalen := srec_datalen p; verify_config := verify_config p;
     talker_filename := talker_filename p;
     full_file_name := full_file_name p; data := data p;
     from_addr := from_addr p; to_addr := to_addr p |}.

Definition set_dev_path (v : string) (p : cl_my_params) : cl_my_params :=
  {| cmd := cmd p; dev_path := v; use_fast := use_fast p;
     serial_rxbuf_size := serial_rxbuf_size p;
     serial_txbuf_size := serial_txbuf_size p; timeoutms := timeoutms p;
     srec_datalen := srec_datalen p; verify_config := verify_config p;
     talker_filename := talker_filename p;
     full_file_name := full_file_name p; data := data p;
     from_addr := from_addr p; to_addr := to_addr p |}.

Definition set_timeoutms (v : Z) (p : cl_my_params) : cl_my_params :=
  {| cmd := cmd p; dev_path := dev_path p; use_fast := use_fast p;
     serial_rxbuf_size := serial_rxbuf_size p;
     serial_txbuf_size := serial_txbuf_size p; timeoutms := v;
     srec_datalen := srec_datalen p; verify_config := verify_config p;
     talker_filename := talker_filename p;
     full_file_name := full_file_name p; data := data p;
     from_addr := from_addr p; to_addr := to_addr p |}.

Definition set_talker_filename (v : string) (p : cl_my_params) : cl_my_params :=
  {| cmd := cmd p; dev_path := dev_path p; use_fast := use_fast p;
     serial_rxbuf_size := serial_rxbuf_size p;
     serial_txbuf_size := serial_txbuf_size p; timeoutms := timeoutms p;
     srec_datalen := srec_datalen p; verify_config := verify_config p;
     talker_filename := v;
     full_file_name := full_file_name p; data := data p;
     from_addr := from_addr p; to_addr := to_addr p |}.

Definition set_use_fast (v : bool) (p : cl_my_params) : cl_my_params :=
  {| cmd := cmd p; dev_path := dev_path p; use_fast := v;
     serial_rxbuf_size := serial_rxbuf_size p;
     serial_txbuf_size := serial_txbuf_size p; timeoutms := timeoutms p;
     srec_datalen := srec_datalen p; verify_config := verify_config p;
     talker_filename := talker_filename p;
     full_file_name := full_file_name p; data := data p;
     from_addr := from_addr p; to_addr := to_addr p |}.

Definition set_from_addr (v : Z) (p : cl_my_params) : cl_my_params :=
  {| cmd := cmd p; dev_path := dev_path p; use_fast := use_fast p;
     serial_rxbuf_size := serial_rxbuf_size p;
     serial_txbuf_size := serial_txbuf_size p; timeoutms := timeoutms p;
     srec_datalen := srec_datalen p; verify_config := verify_config p;
     talker_filename := talker_filename p;
     full_file_name := full_file_name p; data := data p;
     from_addr := v; to_addr := to_addr p |}.

Definition set_to_addr (v : Z) (p : cl_my_params) : cl_my_params :=
  {| cmd := cmd p; dev_path := dev_path p; use_fast := use_fast p;
     serial_rxbuf_size := serial_rxbuf_size p;
     serial_txbuf_size := serial_txbuf_size p; timeoutms := timeoutms p;
     srec_datalen := srec_datalen p; verify_config := verify_config p;
     talker_filename := talker_filename p;
     full_file_name := full_file_name p; data := data p;
     from_addr := from_addr p; to_addr := v |}.

Definition set_full_file_name (v : string) (p : cl_my_params) : cl_my_params :=
  {| cmd := cmd p; dev_path := dev_path p; use_fast := use_fast p;
     serial_rxbuf_size := serial_rxbuf_size p;
     serial_txbuf_size := serial_txbuf_size p; timeoutms := timeoutms p;
     srec_datalen := srec_datalen p; verify_config := verify_config p;
     talker_filename := talker_filename p;
     full_file_name := v; data := data p;
     from_addr := from_addr p; to_addr := to_addr p |}.

Definition set_data (v : string) (p : cl_my_params) : cl_my_params :=
  {| cmd := cmd p; dev_path := dev_path p; use_fast := use_fast p;
     serial_rxbuf_size := serial_rxbuf_size p;
     serial_txbuf_size := serial_txbuf_size p; timeoutms := timeoutms p;
     srec_datalen := srec_datalen p; verify_config := verify_config p;
     talker_filename := talker_filename p;
     full_file_name := full_file_name p; data := v;
     from_addr := from_addr p; to_addr := to_addr p |}.

(** [parse_params_search]; the result is what it returns and the
    parameters after the call. *)
Definition parse_params_search (cmdl_param : string) (my_params : cl_my_params)
  : bool * cl_my_params :=
  if parse_param_exist cmdl_param "uptalker"
  then (true, set_cmd CMD_UPTALKER my_params)
  else if parse_param_exist cmdl_param "read"
  then (true, set_cmd CMD_READ my_params)
  else if parse_param_exist cmdl_param "verify"
  then (true, set_cmd CMD_READ_VERIFY my_params)
  else if parse_param_exist cmdl_param "writehex"
  then (true, set_cmd CMD_WRITEHEXSTR my_params)
  else if parse_param_exist cmdl_param "write"
  then (true, set_cmd CMD_WRITE my_params)
  else if parse_param_exist cmdl_param "write_ee"
  then (true, set_cmd CMD_WRITE_EEPROM my_params)
  else if parse_param_exist cmdl_param "write_e"
  then (true, set_cmd CMD_WRITE_EPROM my_params)
  else if parse_param_exist cmdl_param "write_e20"
  then (true, set_cmd CMD_WRITE_EPROM_E20 my_params)
  else
    let (found, v) := parse_param_str cmdl_param "path=" (dev_path my_params) in
    let my_params := set_dev_path v my_params in
    if found then (true, my_params) else
    let (found, v) :=
      parse_param_val_uint cmdl_param "timeout=" (timeoutms my_params) in
    let my_params := set_timeoutms v my_params in
    if found then (true, my_params) else
    let (found, v) :=
      parse_param_str cmdl_param "talker=" (talker_filename my_params) in
    let my_params := set_talker_filename v my_params in
    if found then (true, my_params) else
    let (found, v) := parse_param_yn cmdl_param "fast=" (use_fast my_params) in
    let my_params := set_use_fast v my_params in
    if found then (true, my_params) else
    let (found, v) :=
      parse_param_val_uint cmdl_param "from_addr=" (from_addr my_params) in
    let my_params := set_from_addr v my_params in
    if found then (true, my_params) else
    let (found, v) :=
      parse_param_val_uint cmdl_param "to_addr=" (to_addr my_params) in
    let my_params := set_to_addr v my_params in
    if found then (true, my_params) else
    let (found, v) :=
      parse_param_str cmdl_param "file=" (full_file_name my_params) in
    let my_params := set_full_file_name v my_params in
    if found then (true, my_params) else
    let (found, v) := parse_param_str cmdl_param "hex=" (data my_params) in
    let my_params := set_data v my_params in
    if found then (true, my_params) else
    (false, my_params).

(** [parse_params]; [arg_v] holds [arg_v[1]] to [arg_v[arg_c - 1]]. *)
Fixpoint parse_params (arg_v : list string) (my_params : cl_my_params)
  : cl_my_params :=
  match arg_v with
  | [] => my_params
  | cmdl_param :: rest =>
      parse_params rest (snd (parse_params_search cmdl_param my_params))
  end.

End Strtoul.

End CmdLine.

(** The command that a word of the command line selects in tbug11. *)
Definition word_cmd (word : string) : option CmdLine.cmd_type :=
  if String.eqb word "uptalker" then Some CmdLine.CMD_UPTALKER
  else if String.eqb word "read" then Some CmdLine.CMD_READ
  else if String.eqb word "verify" then Some CmdLine.CMD_READ_VERIFY
  else if String.eqb word "writehex" then Some CmdLine.CMD_WRITEHEXSTR
  else if String.eqb word "write" then Some CmdLine.CMD_WRITE
  else if String.eqb word "write_ee" then Some CmdLine.CMD_WRITE_EEPROM
  else if String.eqb word "write_e" then Some CmdLine.CMD_WRITE_EPROM
  else if String.eqb word "write_e20" then Some CmdLine.CMD_WRITE_EPROM_E20
  else None.

(** The command after a command line: the one of its last command word. *)
Definition last_cmd (arg_v : list string) (c : CmdLine.cmd_type)
  : CmdLine.cmd_type :=
  fold_left (fun c word => match word_cmd word with Some c' => c' | None => c end)
    arg_v c.

(** ** main.cpp: the set-up of the port and the dispatch of the command *)

(** The calls of [serial_com] that set the port up. *)
Inductive call : Type :=
| OpenHandle (path : string)
| SetTimeout (timeout_ms : Z)
| Purge
| SetParams (baud_rate byte_size parity stop_bits : Z) (rtscts_en : bool).

(** A port that can be set up: the call answers or raises, as the
    transfers do. *)
Class serial_ctl (port : Type) : Type := {
  control : port -> call -> port * reply unit
}.

(** What [process_cmd_line] does on the port, in order: a call that sets
    the port up, with its answer, or a step of a transfer. *)
Inductive action : Type :=
| Control (c : call) (r : reply unit)
| Data (ev : event).

Definition NOPARITY : Z := 0.
Definition ONESTOPBIT : Z := 0.

(** The scripted port and the bootstrap loader accept every call that sets
    the port up. *)
#[export] Instance scripted_serial_ctl : serial_ctl scripted := {
  control s c := (s, Ret tt)
}.

#[export] Instance bootloader_serial_ctl : serial_ctl bootloader := {
  control s c := (s, Ret tt)
}.

Section Process.

Context {port : Type} {SC : serial_com port} {CT : serial_ctl port}.

(** A computation of [process_cmd_line]: as [M], with the calls that set
    the port up among the steps. *)
Definition P (A : Type) : Type := port -> port * list action * outcome A.

Definition pret {A} (a : A) : P A := fun d => (d, [], Done a).

Definition pbind {A B} (m : P A) (k : A -> P B) : P B :=
  fun d =>
    match m d with
    | (d1, t1, Done a) => let '(d2, t2, r) := k a d1 in (d2, t1 ++ t2, r)
    | (d1, t1, Throw e) => (d1, t1, Throw e)
    | (d1, t1, OutOfFuel) => (d1, t1, OutOfFuel)
    end.

(** A call that sets the port up; when it raises, the exception is the
    one of [serial_com]. *)
Definition serial_call (c : call) : P unit :=
  fun d =>
    let (d', r) := control d c in
    (d', [Control c r],
     match r with
     | Ret _ => Done tt
     | Raise code => Throw (SERIAL_COM_ERROR code)
     end).

(** An operation of the program run on the port. *)
Definition transfer {A} (m : M port A) : P A :=
  fun d => let '(d', evs, r) := m d in (d', map Data evs, r).

End Process.

Arguments P port A : clear implicits.

Notation "x <~ m ;; k" := (pbind m (fun x => k))
  (at level 100, m at next level, right associativity).
Notation "m ;;> k" := (pbind m (fun _ => k))
  (at level 100, right associativity).

Module TBug11Main.

Section Main.

Context {port : Type} {SC : serial_com port} {CT : serial_ctl port}.

(** The members of [cl_my_params] that the operations read.  The class of
    tbug11 has no [serial_prog_txbuf_size], and no operation of tbug11
    reads it. *)
Definition engine_params (arg_params : CmdLine.cl_my_params) : cl_my_params :=
  {| serial_rxbuf_size := CmdLine.serial_rxbuf_size arg_params;
     serial_txbuf_size := CmdLine.serial_txbuf_size arg_params;
     serial_prog_txbuf_size := 0;
     srec_datalen := CmdLine.srec_datalen arg_params;
     verify_config := CmdLine.verify_config arg_params;
     full_file_name := CmdLine.full_file_name arg_params;
     from_addr := CmdLine.from_addr arg_params;
     to_addr := CmdLine.to_addr arg_params |}.

(** [prog_prompt_write]; [stdin] is what [fgets] gives: nothing, or the
    line read.  The argument selects the text of the question only. *)
Definition prog_prompt_write (arg_write_cmd_code : CmdLine.cmd_type)
  (stdin : option string) : bool :=
  match stdin with
  | Some (String c _) => if Ascii.eqb c "y" then true else false
  | _ => false
  end.

(** [process_cmd_line]; [talker_file] and [in_file] are the lines of the
    files named by [talker_filename] and [full_file_name], [stdin] the
    answer to the question when one is asked, [tx0] and [rx0] what fresh
    buffers hold.  The result is what the function returns and the lines
    written to the output file. *)
Definition process_cmd_line (fuel : nat) (arg_params : CmdLine.cl_my_params)
  (talker_file in_file : list string) (stdin : option string)
  (tx0 rx0 : list Z) : P port (bool * list string) :=
  let engine := engine_params arg_params in
  serial_call (OpenHandle (CmdLine.dev_path arg_params)) ;;>
  serial_call (SetTimeout (CmdLine.timeoutms arg_params)) ;;>
  serial_call Purge ;;>
  match CmdLine.cmd arg_params with
  | CmdLine.CMD_UPTALKER =>
      (if CmdLine.use_fast arg_params
       then serial_call (SetParams 7618 8 NOPARITY ONESTOPBIT false)
       else serial_call (SetParams 1200 8 NOPARITY ONESTOPBIT false)) ;;>
      transfer (TBug11.send_control_program fuel engine talker_file tx0 rx0) ;;>
      serial_call (SetParams 9600 8 NOPARITY ONESTOPBIT false) ;;>
      transfer (TBug11Ops.test_mode fuel engine) ;;>
      pret (true, [])
  | CmdLine.CMD_READ =>
      serial_call (SetParams 9600 8 NOPARITY ONESTOPBIT false) ;;>
      out_file <~ transfer (TBug11.readmem fuel engine tx0 rx0) ;;
      pret (true, out_file)
  | CmdLine.CMD_READ_VERIFY =>
      serial_call (SetParams 9600 8 NOPARITY ONESTOPBIT false) ;;>
      transfer (TBug11.readmem_verify fuel engine in_file tx0 rx0) ;;>
      pret (true, [])
  | CmdLine.CMD_WRITEHEXSTR =>
      serial_call (SetParams 9600 8 NOPARITY ONESTOPBIT false) ;;>
      transfer (TBug11Ops.writemem_hexstr fuel engine (CmdLine.data arg_params)
                  tx0 rx0) ;;>
      pret (true, [])
  | CmdLine.CMD_WRITE =>
      serial_call (SetParams 9600 8 NOPARITY ONESTOPBIT false) ;;>
      transfer (TBug11Ops.writemem_file fuel engine in_file tx0 rx0) ;;>
      transfer (TBug11Ops.bprot_on fuel engine) ;;>
      pret (true, [])
  | CmdLine.CMD_WRITE_EEPROM =>
      if prog_prompt_write CmdLine.CMD_WRITE_EEPROM stdin then
        serial_call (SetParams 9600 8 NOPARITY ONESTOPBIT false) ;;>
        transfer (TBug11Ops.bprot_off fuel engine) ;;>
        transfer (TBug11.write_ee fuel engine in_file) ;;>
        transfer (TBug11Ops.bprot_on fuel engine) ;;>
        pret (true, [])
      else pret (true, [])
  | CmdLine.CMD_WRITE_EPROM =>
      if prog_prompt_write CmdLine.CMD_WRITE_EPROM stdin then
        serial_call (SetParams 9600 8 NOPARITY ONESTOPBIT false) ;;>
        transfer (TBug11Ops.write_e fuel engine in_file) ;;>
        pret (true, [])
      else pret (true, [])
  | CmdLine.CMD_WRITE_EPROM_E20 =>
      if prog_prompt_write CmdLine.CMD_WRITE_EPROM_E20 stdin then
        serial_call (SetParams 9600 8 NOPARITY ONESTOPBIT false) ;;>
        transfer (TBug11Ops.write_e20 fuel engine in_file) ;;>
        pret (true, [])
      else pret (true, [])
  | CmdLine.CMD_NONE => pret (true, [])
  end.

End Main.

End TBug11Main.

Module Tru11Main.

(** tru11/cmd_line.h *)
Inductive cmd_type : Type :=
| CMD_NONE
| CMD_UPTALKER
| CMD_READ
| CMD_READ_VERIFY
| CMD_WRITE_NORMAL_HEXSTR
| CMD_WRITE_EE_HEXSTR
| CMD_WRITE_NORMAL
| CMD_WRITE_EE
| CMD_WRITE_E
| CMD_WRITE_E20.

(** The class [cl_my_params] of tru11: the members that the operations
    read are those of [engine], the others come first. *)
Definition operation_params : Type := cl_my_params.

Record cl_my_params : Type := {
  cmd : cmd_type;
  dev_path : string;
  use_fast : bool;
  timeoutms : Z;
  talker_filename : string;
  data : string;
  engine : operation_params
}.

Section Main.

Context {port : Type} {SC : serial_com port} {CT : serial_ctl port}.

(** [prog_prompt_write]; [stdin] is what [fgets] gives: nothing, or the
    line read.  The argument selects the text of the question only. *)
Definition prog_prompt_write (arg_write_cmd_code : Z) (stdin : option string)
  : bool :=
  match stdin with
  | Some (String c _) => if Ascii.eqb c "y" then true else false
  | _ => false
  end.

(** [process_cmd_line]; the arguments and the result are as in tbug11. *)
Definition process_cmd_line (fuel : nat) (arg_params : cl_my_params)
  (talker_file in_file : list string) (stdin : option string)
  (tx0 rx0 : list Z) : P port (bool * list string) :=
  serial_call (OpenHandle (dev_path arg_params)) ;;>
  serial_call (SetTimeout (timeoutms arg_params)) ;;>
  serial_call Purge ;;>
  match cmd arg_params with
  | CMD_UPTALKER =>
      (if use_fast arg_params
       then serial_call (SetParams 7618 8 NOPARITY ONESTOPBIT false)
       else serial_call (SetParams 1200 8 NOPARITY ONESTOPBIT false)) ;;>
      transfer (send_control_program fuel (engine arg_params) talker_file
                  tx0 rx0) ;;>
      transfer (sleep 75) ;;>
      serial_call (SetParams 9600 8 NOPARITY ONESTOPBIT false) ;;>
      pret (true, [])
  | CMD_READ =>
      serial_call (SetParams 9600 8 NOPARITY ONESTOPBIT false) ;;>
      out_file <~ transfer (Tru11.readmem fuel (engine arg_params) tx0 rx0) ;;
      pret (true, out_file)
  | CMD_READ_VERIFY =>
      serial_call (SetParams 9600 8 NOPARITY ONESTOPBIT false) ;;>
      transfer (Tru11.readmem_verify fuel (engine arg_params) in_file
                  tx0 rx0) ;;>
      pret (true, [])
  | CMD_WRITE_NORMAL_HEXSTR =>
      serial_call (SetParams 9600 8 NOPARITY ONESTOPBIT false) ;;>
      transfer (Tru11Ops.writemem_hexstr fuel (engine arg_params)
                  Tru11.TALKER_WRITE_CMD (data arg_params) tx0 rx0) ;;>
      pret (true, [])
  | CMD_WRITE_EE_HEXSTR =>
      if prog_prompt_write Tru11.TALKER_WRITE_EE_CMD stdin then
        serial_call (SetParams 9600 8 NOPARITY ONESTOPBIT false) ;;>
        transfer (Tru11Ops.writemem_hexstr fuel (engine arg_params)
                    Tru11.TALKER_WRITE_EE_CMD (data arg_params) tx0 rx0) ;;>
        pret (true, [])
      else pret (true, [])
  | CMD_WRITE_NORMAL =>
      serial_call (SetParams 9600 8 NOPARITY ONESTOPBIT false) ;;>
      transfer (Tru11.writemem_file fuel (engine arg_params)
                  Tru11.TALKER_WRITE_CMD in_file tx0 rx0) ;;>
      pret (true, [])
  | CMD_WRITE_EE =>
      if prog_prompt_write Tru11.TALKER_WRITE_EE_CMD stdin then
        serial_call (SetParams 9600 8 NOPARITY ONESTOPBIT false) ;;>
        transfer (Tru11.writemem_file fuel (engine arg_params)
                    Tru11.TALKER_WRITE_EE_CMD in_file tx0 rx0) ;;>
        pret (true, [])
      else pret (true, [])
  | CMD_WRITE_E =>
      if prog_prompt_write Tru11.TALKER_WRITE_E_CMD stdin then
        serial_call (SetParams 9600 8 NOPARITY ONESTOPBIT false) ;;>
        transfer (Tru11.writemem_file fuel (engine arg_params)
                    Tru11.TALKER_WRITE_E_CMD in_file tx0 rx0) ;;>
        pret (true, [])
      else pret (true, [])
  | CMD_WRITE_E20 =>
      if prog_prompt_write Tru11.TALKER_WRITE_E20_CMD stdin then
        serial_call (SetParams 9600 8 NOPARITY ONESTOPBIT false) ;;>
        transfer (Tru11.writemem_file fuel (engine arg_params)
                    Tru11.TALKER_WRITE_E20_CMD in_file tx0 rx0) ;;>
        pret (true, [])
      else pret (true, [])
  | CMD_NONE => pret (true, [])
  end.

End Main.

End Tru11Main.

(** *** Vocabulary of the properties of [process_cmd_line] *)

(** The steps of the transfers among the actions, and the calls that set
    the port up. *)
Definition data_of (t : list action) : list event :=
  flat_map (fun a => match a with Data ev => [ev] | Control _ _ => [] end) t.

Definition calls_of (t : list action) : list call :=
  flat_map (fun a => match a with Control c _ => [c] | Data _ => [] end) t.

(** The settings of the line to the talker, and to the bootstrap loader. *)
Definition talker_settings : call := SetParams 9600 8 0 0 false.

Definition boot_settings (use_fast : bool) : call :=
  SetParams (if use_fast then 7618 else 1200) 8 0 0 false.

(** The three calls every run begins with, all answered. *)
Definition opened (path : string) (timeout_ms : Z) : list action :=
  [Control (OpenHandle path) (Ret tt); Control (SetTimeout timeout_ms) (Ret tt);
   Control Purge (Ret tt)].

(** The commands that ask for a confirmation. *)
Definition tbug11_asks (c : CmdLine.cmd_type) : bool :=
  match c with
  | CmdLine.CMD_WRITE_EEPROM | CmdLine.CMD_WRITE_EPROM
  | CmdLine.CMD_WRITE_EPROM_E20 => true
  | _ => false
  end.

Definition tru11_asks (c : Tru11Main.cmd_type) : bool :=
  match c with
  | Tru11Main.CMD_WRITE_EE_HEXSTR | Tru11Main.CMD_WRITE_EE
  | Tru11Main.CMD_WRITE_E | Tru11Main.CMD_WRITE_E20 => true
  | _ => false
  end.

(** The answer that confirms: a line that begins with a small y. *)
Definition confirms (stdin : option string) : bool :=
  match stdin with
  | Some (String c _) => Ascii.eqb c "y"
  | _ => false
  end.

(** The commands that reach the device: all but no command, and the ones
    that ask only when the answer confirms. *)
Definition tbug11_runs (c : CmdLine.cmd_type) (stdin : option string) : bool :=
  match c with
  | CmdLine.CMD_NONE => false
  | _ => negb (tbug11_asks c) || confirms stdin
  end.

Definition tru11_runs (c : Tru11Main.cmd_type) (stdin : option string) : bool :=
  match c with
  | Tru11Main.CMD_NONE => false
  | _ => negb (tru11_asks c) || confirms stdin
  end.

(** The shape of a run of [process_cmd_line].  Either one of the three
    calls that open the port raises, and the run ends there with the
    exception of [serial_com]; or the three calls are answered and what
    follows is [rest].  A command that does not reach the device
    ([go] is off) makes [rest] empty and the run returns.  Another
    command first sets the line with the call [first]; when that raises,
    the run ends there; after it the line is set at most once more, to
    the settings of the talker, and only when [again] is on. *)
Definition set_up {A} (path : string) (timeout_ms : Z) (go : bool)
  (first : call) (again : bool) (t : list action) (r : outcome A) (done : A)
  : Prop :=
  (exists code k,
     (k < 3)%nat /\ r = Throw (SERIAL_COM_ERROR code) /\ data_of t = [] /\
     calls_of t = firstn (S k) [OpenHandle path; SetTimeout timeout_ms; Purge])
  \/
  (exists rest,
     t = opened path timeout_ms ++ rest /\
     if go then
       exists rep rest',
         rest = Control first rep :: rest' /\
         (forall code, rep = Raise code ->
            rest' = [] /\ r = Throw (SERIAL_COM_ERROR code)) /\
         (calls_of rest' = [] \/ (again = true /\ calls_of rest' = [talker_settings]))
     else rest = [] /\ r = Done done).

(** The transfers of a computation, without the calls that set the port
    up. *)
Definition data_run {port : Type} {A} (m : P port A) : M port A :=
  fun d => let '(d', t, r) := m d in (d', data_of t, r).

(** A computation that does not set the port up. *)
Definition Quiet {port : Type} {A} (m : P port A) : Prop :=
  forall d d' t r, m d = (d', t, r) -> calls_of t = [].

(** A computation that sets the line at most once, to the settings of the
    talker, and only when [again] is on. *)
Definition Sets {port : Type} {A} (again : bool) (m : P port A) : Prop :=
  forall d d' t r,
    m d = (d', t, r) ->
    calls_of t = [] \/ (again = true /\ calls_of t = [talker_settings]).




(** The command line [write_ee file=prog.s19] of tbug11 confirmed with
    [yes], for a file of one record with the byte 0xAA at 0x1000, on a
    talker that answers as expected. *)
Definition tbug11_write_ee_params : CmdLine.cl_my_params :=
  CmdLine.parse_params 4294967295 ["write_ee"; "file=prog.s19"]%string
    CmdLine.new_params.

Definition tbug11_write_ee_run
  : scripted * list action * outcome (bool * list string) :=
  TBug11Main.process_cmd_line 255 tbug11_write_ee_params
    [] ["S1041000AA41"%string] (Some "yes"%string) [] []
    (ee_talker [0x00; 0x16; 0xaa; 0x17; 0x00; 0x02; 0xaa; 0x03; 0x00; 0x1f]).

(** The command that writes the EEPROM from a file with tru11, confirmed
    with [y], for a file of one record with the bytes 0xAA and 0xBB at
    0x1000, on a device that gives back the bytes written. *)
Definition tru11_write_ee_params : Tru11Main.cl_my_params :=
  {| Tru11Main.cmd := Tru11Main.CMD_WRITE_EE;
     Tru11Main.dev_path := "COM3";
     Tru11Main.use_fast := false;
     Tru11Main.timeoutms := 1000;
     Tru11Main.talker_filename := "talker.s19";
     Tru11Main.data := "";
     Tru11Main.engine := default_params |}.

Definition tru11_write_ee_run
  : scripted * list action * outcome (bool * list string) :=
  Tru11Main.process_cmd_line 256 tru11_write_ee_params []
    ["S1051000AABB85"%string] (Some "y"%string) [] []
    (Scripted [] [Ret [0x03]; Ret [0xaa; 0xbb]]).

(** What tbug11 writes to be sent [n] bytes: [n] bytes of its transmit
    buffer.  The buffer begins with the three parameters of the command;
    from the fourth byte on it holds what it held when it was allocated,
    [buf0]. *)
Definition read_filler (buf0 : list Z) (n addr : Z) : list Z :=
  map (fun k => nth k (command_params n addr) (peek buf0 (Z.of_nat k)))
      (seq 0 (Z.to_nat n)).

(** What [readmem_verify] of tbug11 writes for a line and for a file. *)
Definition tbug11_verify_line_image (buf0 : list Z) (line_str : string)
  : list Z :=
  if accepted line_str then
    TBug11.TALKER_READ_CMD
      :: command_params (srec_count line_str) (srec_address line_str)
      ++ read_filler buf0 (srec_count line_str) (srec_address line_str)
  else [].

Definition tbug11_verify_image (buf0 : list Z) (in_file : list string)
  : list Z :=
  flat_map (tbug11_verify_line_image buf0) in_file.

(** What [readmem] of tbug11 writes to read [remaining] bytes from [addr],
    in rounds of 256 bytes at most; [rounds] bounds the number of rounds. *)
Fixpoint tbug11_read_image (buf0 : list Z) (rounds : nat) (addr remaining : Z)
  : list Z :=
  match rounds with
  | O => []
  | S k =>
      if remaining <=? 0 then []
      else
        let c := Z.min remaining 256 in
        TBug11.TALKER_READ_CMD :: command_params c addr
          ++ read_filler buf0 c addr
          ++ tbug11_read_image buf0 k (u16 (addr + c)) (remaining - c)
  end.

(** The transmit buffer still holds, from the fourth byte on, what it held
    when it was allocated. *)
Definition tail_kept (buf0 txbuf : list Z) : Prop :=
  length txbuf = length buf0 /\
  forall k, 3 <= k -> peek txbuf k = peek buf0 k.

(** A record of five bytes verified with tbug11 with a transmit buffer that
    held 0xE0 to 0xE7, against a device that holds zeros. *)
Definition tbug11_verify_run : scripted * list event * outcome tally :=
  TBug11.readmem_verify 256 default_params ["S1081000000000000000E7"%string]
    [0xe0; 0xe1; 0xe2; 0xe3; 0xe4; 0xe5; 0xe6; 0xe7] []
    (Scripted [] [Ret [0xfe]; Ret [0; 0; 0; 0; 0]]).

(** The character number [j] that [parse_param_hex_str] makes of the two
    characters at [2 * j] after a key of [key_size] characters, and the
    string of the first [n] of them. *)
Definition pair_char (param : string) (key_size : Z) (j : nat) : ascii :=
  ascii_of_nat
    (Z.to_nat
       (u8 (strtoul16
              (String.substring (Z.to_nat (key_size + 2 * Z.of_nat j)) 2 param)))).

Definition pair_chars (param : string) (key_size : Z) (n : nat) : string :=
  string_of_list_ascii (map (pair_char param key_size) (seq 0 n)).

(** The two characters AB written at 0x10000 with tbug11, to a talker that
    answers the command as expected. *)
Definition hexstr_far_run : scripted * list event * outcome unit :=
  TBug11Ops.writemem_hexstr 255 (read_params 0x10000 0 "") "AB" [] []
    (Scripted [] [Ret [0xbe]]).
(** * Properties *)

(** ** Buffers *)

Lemma length_slice (buf : list Z) (p len : Z) :
  length (slice buf p len) = Z.to_nat len.
Proof. unfold slice. now rewrite length_map, length_seq. Qed.

Lemma map_seq_from_0 {A} (f : nat -> A) (a n : nat) :
  map f (seq a n) = map (fun k => f (a + k)%nat) (seq 0 n).
Proof.
  revert a f. induction n as [|n IH]; intros a f; [reflexivity|].
  simpl. rewrite Nat.add_0_r. f_equal.
  rewrite (IH (S a) f), (IH 1%nat (fun k => f (a + k)%nat)).
  apply map_ext. intros k. f_equal. lia.
Qed.

Lemma slice_app (buf : list Z) (p a b : Z) :
  0 <= a -> 0 <= b ->
  slice buf p (a + b) = slice buf p a ++ slice buf (p + a) b.
Proof.
  intros Ha Hb. unfold slice.
  rewrite Z2Nat.inj_add by lia. rewrite seq_app, map_app. f_equal.
  simpl. rewrite map_seq_from_0. apply map_ext. intros k.
  f_equal. lia.
Qed.

Lemma slice_one (buf : list Z) (p : Z) : slice buf p 1 = [peek buf p].
Proof. unfold slice. simpl. now rewrite Z.add_0_r. Qed.

Lemma nth_slice (buf : list Z) (p len : Z) (i : nat) :
  (i < Z.to_nat len)%nat -> nth i (slice buf p len) 0 = peek buf (p + Z.of_nat i).
Proof.
  intros Hi. unfold slice.
  set (f := fun k => peek buf (p + Z.of_nat k)).
  rewrite (nth_indep _ 0 (f 0%nat)) by (rewrite length_map, length_seq; lia).
  rewrite map_nth, seq_nth by lia. reflexivity.
Qed.

Lemma slice_ext (b1 b2 : list Z) (p1 p2 len : Z) :
  (forall i, 0 <= i < len -> peek b1 (p1 + i) = peek b2 (p2 + i)) ->
  slice b1 p1 len = slice b2 p2 len.
Proof.
  intros H. unfold slice. apply map_ext_in. intros k Hk.
  apply in_seq in Hk. apply H. lia.
Qed.

Lemma length_store (buf : list Z) (p : Z) (bs : list Z) :
  length (store buf p bs) = length buf.
Proof.
  unfold store. rewrite !length_app, !length_firstn, length_skipn. lia.
Qed.

Lemma nth_store (buf : list Z) (p : Z) (bs : list Z) (k : nat) :
  0 <= p -> (Z.to_nat p + length bs <= length buf)%nat ->
  nth k (store buf p bs) 0 =
  if (k <? Z.to_nat p)%nat then nth k buf 0
  else if (k <? Z.to_nat p + length bs)%nat then nth (k - Z.to_nat p) bs 0
  else nth k buf 0.
Proof.
  intros Hp Hlen. unfold store.
  rewrite (firstn_all2 (n := (length buf - Z.to_nat p)%nat)) by lia.
  destruct (Nat.ltb_spec k (Z.to_nat p)) as [H1|H1].
  - rewrite app_nth1 by (rewrite length_firstn; lia).
    rewrite nth_firstn. destruct (Nat.ltb_spec k (Z.to_nat p)); [reflexivity|lia].
  - rewrite app_nth2 by (rewrite length_firstn; lia).
    rewrite length_firstn, Nat.min_l by lia.
    destruct (Nat.ltb_spec k (Z.to_nat p + length bs)) as [H2|H2].
    + rewrite app_nth1 by lia. reflexivity.
    + rewrite app_nth2 by lia. rewrite nth_skipn. f_equal. lia.
Qed.

Lemma peek_store_before (buf : list Z) (p : Z) (bs : list Z) (k : Z) :
  0 <= k < p -> (Z.to_nat p + length bs <= length buf)%nat ->
  peek (store buf p bs) k = peek buf k.
Proof.
  intros Hk Hlen. unfold peek. rewrite nth_store by lia.
  destruct (Nat.ltb_spec (Z.to_nat k) (Z.to_nat p)); [reflexivity|lia].
Qed.

Lemma peek_store_after (buf : list Z) (p : Z) (bs : list Z) (k : Z) :
  0 <= p -> p + Z.of_nat (length bs) <= k ->
  (Z.to_nat p + length bs <= length buf)%nat ->
  peek (store buf p bs) k = peek buf k.
Proof.
  intros Hp Hk Hlen. unfold peek. rewrite nth_store by lia.
  destruct (Nat.ltb_spec (Z.to_nat k) (Z.to_nat p)); [reflexivity|].
  destruct (Nat.ltb_spec (Z.to_nat k) (Z.to_nat p + length bs)); [lia|reflexivity].
Qed.

Lemma peek_store_in (buf : list Z) (p : Z) (bs : list Z) (i : Z) :
  0 <= p -> (Z.to_nat p + length bs <= length buf)%nat ->
  0 <= i < Z.of_nat (length bs) ->
  peek (store buf p bs) (p + i) = nth (Z.to_nat i) bs 0.
Proof.
  intros Hp Hlen Hi. unfold peek. rewrite nth_store by lia.
  destruct (Nat.ltb_spec (Z.to_nat (p + i)) (Z.to_nat p)); [lia|].
  destruct (Nat.ltb_spec (Z.to_nat (p + i)) (Z.to_nat p + length bs)); [|lia].
  f_equal. lia.
Qed.

Lemma peek_poke_same (buf : list Z) (i v : Z) :
  0 <= i < Z.of_nat (length buf) -> peek (poke buf i v) i = v.
Proof.
  intros Hi. unfold poke.
  replace i with (i + 0) at 2 by lia.
  rewrite peek_store_in; simpl; try lia.
Qed.

Lemma peek_poke_other (buf : list Z) (i v k : Z) :
  0 <= i < Z.of_nat (length buf) -> 0 <= k -> k <> i ->
  peek (poke buf i v) k = peek buf k.
Proof.
  intros Hi Hk Hne. unfold poke.
  destruct (Z.lt_ge_cases k i).
  - apply peek_store_before; simpl; lia.
  - apply peek_store_after; simpl; lia.
Qed.

Lemma length_poke (buf : list Z) (i v : Z) : length (poke buf i v) = length buf.
Proof. apply length_store. Qed.

Lemma length_alloc_buf (init : list Z) (len : Z) :
  length (alloc_buf init len) = Z.to_nat len.
Proof.
  unfold alloc_buf. rewrite length_firstn, length_app, repeat_length. lia.
Qed.

Lemma Zsum_app (l1 l2 : list Z) : Zsum (l1 ++ l2) = Zsum l1 + Zsum l2.
Proof. induction l1 as [|x l1 IH]; simpl; [reflexivity|]. rewrite IH. lia. Qed.

(** ** Traces *)

Lemma written_app (e1 e2 : list event) :
  written (e1 ++ e2) = written e1 ++ written e2.
Proof.
  induction e1 as [|[bs r|len r|ms] e1 IH]; simpl; try assumption; try reflexivity.
  now rewrite IH, app_assoc.
Qed.

Lemma received_app (e1 e2 : list event) :
  received (e1 ++ e2) = received e1 ++ received e2.
Proof.
  induction e1 as [|[bs r|len [bs|c]|ms] e1 IH]; simpl; try assumption; try reflexivity.
  now rewrite IH, app_assoc.
Qed.

Lemma requested_app (e1 e2 : list event) :
  requested (e1 ++ e2) = requested e1 + requested e2.
Proof.
  induction e1 as [|[bs r|len r|ms] e1 IH]; simpl; lia.
Qed.

Lemma writes_size_nonneg (evs : list event) :
  forallb is_write evs = true -> 0 <= Zsum (map ev_size evs).
Proof.
  induction evs as [|[bs r|len r|ms] evs IH]; simpl; intros H; try lia; try discriminate.
  specialize (IH H). lia.
Qed.

Lemma writes_requested (evs : list event) :
  forallb is_write evs = true -> requested evs = 0.
Proof.
  induction evs as [|[bs r|len r|ms] evs IH]; simpl; intros H;
    try discriminate; auto.
Qed.

Lemma writes_received (evs : list event) :
  forallb is_write evs = true -> received evs = [].
Proof.
  induction evs as [|[bs r|len r|ms] evs IH]; simpl; intros H;
    try discriminate; auto.
Qed.

Lemma reads_written (evs : list event) :
  forallb is_read evs = true -> written evs = [].
Proof.
  induction evs as [|[bs r|len r|ms] evs IH]; simpl; intros H;
    try discriminate; auto.
Qed.

(** ** The chunk schedule *)

Lemma ceil_div_step (N B : Z) :
  1 <= B -> B < N -> (N + B - 1) / B = 1 + (N - B + B - 1) / B.
Proof.
  intros HB HN. replace (N + B - 1) with ((N - B + B - 1) + 1 * B) by lia.
  rewrite Z.div_add by lia. lia.
Qed.

Lemma ceil_div_one (N B : Z) : 1 <= N <= B -> (N + B - 1) / B = 1.
Proof.
  intros H. symmetry. apply (Z.div_unique _ _ 1 (N - 1)); lia.
Qed.

Lemma chunklen_range (N B : Z) :
  1 <= B -> 1 <= N ->
  1 <= (if N >? B then B else N) <= N /\ (if N >? B then B else N) <= B.
Proof. intros. destruct (Z.gtb_spec N B); lia. Qed.

Lemma chunk_sizes_S (fuel : nat) (N B : Z) :
  1 <= N ->
  chunk_sizes (S fuel) N B =
  (if N >? B then B else N) :: chunk_sizes fuel (N - (if N >? B then B else N)) B.
Proof. intros H. simpl. destruct (Z.leb_spec N 0); [lia|reflexivity]. Qed.

Lemma chunk_sizes_count (fuel : nat) (N B : Z) :
  1 <= B -> 0 <= N <= Z.of_nat fuel ->
  Z.of_nat (length (chunk_sizes fuel N B)) = (N + B - 1) / B.
Proof.
  intros HB. revert N. induction fuel as [|fuel IH]; intros N HN.
  - assert (N = 0) by lia. subst N. simpl.
    symmetry. apply Z.div_small. lia.
  - destruct (Z.eq_dec N 0) as [->|Hne].
    + simpl. symmetry. apply Z.div_small. lia.
    + rewrite chunk_sizes_S by lia. cbn [length]. rewrite Nat2Z.inj_succ.
      pose proof (chunklen_range N B HB ltac:(lia)) as Hc.
      destruct (Z.gtb_spec N B) as [Hgt|Hle].
      * rewrite IH by lia. rewrite (ceil_div_step N B) by lia. lia.
      * replace (N - N) with 0 by lia.
        rewrite IH by lia. rewrite (ceil_div_one N B) by lia.
        rewrite (Z.div_small (0 + B - 1) B) by lia. lia.
Qed.

Lemma chunk_sizes_bound (fuel : nat) (N B : Z) :
  1 <= B -> Forall (fun c => 1 <= c <= B) (chunk_sizes fuel N B).
Proof.
  intros HB. revert N. induction fuel as [|fuel IH]; intros N; simpl.
  - constructor.
  - destruct (Z.leb_spec N 0); [constructor|].
    constructor; [|apply IH].
    destruct (Z.gtb_spec N B); lia.
Qed.

Lemma chunk_sizes_sum (fuel : nat) (N B : Z) :
  1 <= B -> 0 <= N <= Z.of_nat fuel -> Zsum (chunk_sizes fuel N B) = N.
Proof.
  intros HB. revert N. induction fuel as [|fuel IH]; intros N HN; simpl.
  - lia.
  - destruct (Z.leb_spec N 0).
    + simpl. lia.
    + simpl. destruct (Z.gtb_spec N B); rewrite IH; lia.
Qed.

(** ** Bytes *)

Lemma u8_not_range (b : Z) : 0 <= b < 256 -> u8_not b = 255 - b.
Proof.
  intros H. unfold u8_not, u8, Z.lnot.
  replace (Z.pred (- b)) with ((255 - b) + (-1) * 256) by lia.
  rewrite Z.mod_add by lia. apply Z.mod_small. lia.
Qed.

Lemma u8_not_swap (a b : Z) :
  0 <= a < 256 -> 0 <= b < 256 -> (a = u8_not b <-> b = u8_not a).
Proof. intros Ha Hb. rewrite !u8_not_range by assumption. lia. Qed.

(** ** The two echo checks *)

Lemma verify_echo_loop_cases (n : nat) (tx : list Z) (tp : Z) (rx : list Z)
  (rp i0 : Z) :
  (verify_echo_loop n tx tp rx rp i0 = Done tt /\
   forall k, i0 <= k < i0 + Z.of_nat n -> peek tx (tp + k) = peek rx (rp + k))
  \/
  (exists j, i0 <= j < i0 + Z.of_nat n /\
     (forall k, i0 <= k < j -> peek tx (tp + k) = peek rx (rp + k)) /\
     peek tx (tp + j) <> peek rx (rp + j) /\
     verify_echo_loop n tx tp rx rp i0 =
       Throw (APP_ERROR_ECHO (peek tx (tp + j)) (peek rx (rp + j)))).
Proof.
  revert i0. induction n as [|n IH]; intros i0.
  - left. split; [reflexivity|]. intros k Hk. lia.
  - cbn [verify_echo_loop].
    destruct (Z.eqb_spec (peek tx (tp + i0)) (peek rx (rp + i0))) as [Heq|Hne];
      cbn [negb].
    + destruct (IH (i0 + 1)) as [[Hd Hall]|(j & Hj & Hbefore & Hat & Hth)].
      * left. split; [assumption|]. intros k Hk.
        destruct (Z.eq_dec k i0) as [->|]; [assumption|]. apply Hall. lia.
      * right. exists j. split; [lia|]. split; [|auto].
        intros k Hk. destruct (Z.eq_dec k i0) as [->|]; [assumption|].
        apply Hbefore. lia.
    + right. exists i0. split; [lia|]. split; [intros; lia|]. auto.
Qed.

Lemma verify_echo_com_loop_cases (n : nat) (tx : list Z) (tp : Z) (rx : list Z)
  (rp i0 : Z) :
  (TBug11.verify_echo_com_loop n tx tp rx rp i0 = Done tt /\
   forall k, i0 <= k < i0 + Z.of_nat n ->
     peek tx (tp + k) = u8_not (peek rx (rp + k)))
  \/
  (exists j, i0 <= j < i0 + Z.of_nat n /\
     (forall k, i0 <= k < j -> peek tx (tp + k) = u8_not (peek rx (rp + k))) /\
     peek tx (tp + j) <> u8_not (peek rx (rp + j)) /\
     TBug11.verify_echo_com_loop n tx tp rx rp i0 =
       Throw (APP_ERROR_ECHO (peek tx (tp + j)) (u8_not (peek rx (rp + j))))).
Proof.
  revert i0. induction n as [|n IH]; intros i0.
  - left. split; [reflexivity|]. intros k Hk. lia.
  - cbn [TBug11.verify_echo_com_loop].
    destruct (Z.eqb_spec (peek tx (tp + i0)) (u8_not (peek rx (rp + i0))))
      as [Heq|Hne]; cbn [negb].
    + destruct (IH (i0 + 1)) as [[Hd Hall]|(j & Hj & Hbefore & Hat & Hth)].
      * left. split; [assumption|]. intros k Hk.
        destruct (Z.eq_dec k i0) as [->|]; [assumption|]. apply Hall. lia.
      * right. exists j. split; [lia|]. split; [|auto].
        intros k Hk. destruct (Z.eq_dec k i0) as [->|]; [assumption|].
        apply Hbefore. lia.
    + right. exists i0. split; [lia|]. split; [intros; lia|]. auto.
Qed.

Lemma verify_echo_cases (tx : list Z) (tp : Z) (rx : list Z) (rp len : Z) :
  (verify_echo tx tp rx rp len = Done tt /\
   forall k, 0 <= k < len -> peek tx (tp + k) = peek rx (rp + k))
  \/
  (exists j, 0 <= j < len /\
     (forall k, 0 <= k < j -> peek tx (tp + k) = peek rx (rp + k)) /\
     peek tx (tp + j) <> peek rx (rp + j) /\
     verify_echo tx tp rx rp len =
       Throw (APP_ERROR_ECHO (peek tx (tp + j)) (peek rx (rp + j)))).
Proof.
  unfold verify_echo.
  destruct (verify_echo_loop_cases (Z.to_nat len) tx tp rx rp 0)
    as [[Hd Hall]|(j & Hj & Hbefore & Hat & Hth)].
  - left. split; [assumption|]. intros k Hk. apply Hall. lia.
  - right. exists j. split; [lia|]. auto.
Qed.

Lemma verify_echo_com_cases (tx : list Z) (tp : Z) (rx : list Z) (rp len : Z) :
  (TBug11.verify_echo_com tx tp rx rp len = Done tt /\
   forall k, 0 <= k < len -> peek tx (tp + k) = u8_not (peek rx (rp + k)))
  \/
  (exists j, 0 <= j < len /\
     (forall k, 0 <= k < j -> peek tx (tp + k) = u8_not (peek rx (rp + k))) /\
     peek tx (tp + j) <> u8_not (peek rx (rp + j)) /\
     TBug11.verify_echo_com tx tp rx rp len =
       Throw (APP_ERROR_ECHO (peek tx (tp + j)) (u8_not (peek rx (rp + j))))).
Proof.
  unfold TBug11.verify_echo_com.
  destruct (verify_echo_com_loop_cases (Z.to_nat len) tx tp rx rp 0)
    as [[Hd Hall]|(j & Hj & Hbefore & Hat & Hth)].
  - left. split; [assumption|]. intros k Hk. apply Hall. lia.
  - right. exists j. split; [lia|]. auto.
Qed.

(** ** The monad *)

Section EngineFacts.

Context {port : Type} {SC : serial_com port}.

Lemma bind_inv {A B} (m : M port A) (k : A -> M port B) (d d' : port)
  (evs : list event) (r : outcome B) :
  bind m k d = (d', evs, r) ->
  (exists d1 evs1 a evs2,
     m d = (d1, evs1, Done a) /\ k a d1 = (d', evs2, r) /\ evs = evs1 ++ evs2) \/
  (exists e, m d = (d', evs, Throw e) /\ r = Throw e) \/
  (m d = (d', evs, OutOfFuel) /\ r = OutOfFuel).
Proof.
  unfold bind. destruct (m d) as [[d1 evs1] [a|e|]]; intros H.
  - left. destruct (k a d1) as [[d2 evs2] r2] eqn:Ek. inversion H; subst.
    exists d1, evs1, a, evs2. auto.
  - right. left. inversion H; subst. eauto.
  - right. right. inversion H; subst. auto.
Qed.

Lemma lift_inv {A} (o : outcome A) (d d' : port) (evs : list event)
  (r : outcome A) :
  lift o d = (d', evs, r) -> d' = d /\ evs = [] /\ r = o.
Proof. unfold lift. intros H. inversion H. auto. Qed.

Lemma ret_inv {A} (a : A) (d d' : port) (evs : list event) (r : outcome A) :
  ret a d = (d', evs, r) -> d' = d /\ evs = [] /\ r = Done a.
Proof. unfold ret. intros H. inversion H. auto. Qed.

Lemma port_write_inv (bs : list Z) (d d' : port) (evs : list event)
  (r : outcome Z) :
  port_write bs d = (d', evs, r) ->
  exists rep, evs = [EvWrite bs rep] /\
    r = match rep with Ret n => Done n | Raise c => Throw (SERIAL_COM_ERROR c) end.
Proof.
  unfold port_write. destruct (write_port d bs) as [d1 [n|c]];
    intros H; inversion H; subst; eauto.
Qed.

Lemma port_read_inv (len : Z) (d d' : port) (evs : list event)
  (r : outcome (list Z)) :
  port_read len d = (d', evs, r) ->
  exists rep, evs = [EvRead len rep] /\
    r = match rep with Ret bs => Done bs | Raise c => Throw (SERIAL_COM_ERROR c) end.
Proof.
  unfold port_read. destruct (read_port d len) as [d1 [n|c]];
    intros H; inversion H; subst; eauto.
Qed.

(** *** [tx_chunk] *)

Lemma tx_chunk_run (fuel : nat) (B : Z) (txbuf : list Z) :
  1 <= B ->
  forall (p N : Z) (d d' : port) (evs : list event) (r : outcome unit),
    0 <= N <= Z.of_nat fuel ->
    tx_chunk fuel B txbuf p N d = (d', evs, r) ->
    exists rest,
      forallb is_write evs = true /\
      chunk_sizes fuel N B = map ev_size evs ++ rest /\
      written evs = slice txbuf p (Zsum (map ev_size evs)) /\
      r <> OutOfFuel /\
      (r = Done tt -> forallb complete evs = true /\ rest = []) /\
      (forallb complete evs = true -> r = Done tt) /\
      (forall c x, r = Throw (APP_ERROR_TX_FAIL c x) ->
         exists pre bs n, evs = pre ++ [EvWrite bs (Ret n)] /\ x = u32 n /\
           c = Z.of_nat (length bs) /\ x <> c /\ forallb complete pre = true) /\
      (existsb short_write evs = true ->
         exists c x, r = Throw (APP_ERROR_TX_FAIL c x)).
Proof.
  intros HB. induction fuel as [|fuel IH]; intros p N d d' evs r HN Hrun.
  - assert (N = 0) by lia. subst N. simpl in Hrun. inversion Hrun; subst.
    exists []. simpl. repeat split; auto; try discriminate.
  - cbn [tx_chunk] in Hrun. destruct (N =? 0) eqn:E0.
    + apply Z.eqb_eq in E0. subst N. inversion Hrun; subst.
      exists []. simpl. repeat split; auto; try discriminate.
    + apply Z.eqb_neq in E0.
      rewrite chunk_sizes_S by lia.
      pose proof (chunklen_range N B HB ltac:(lia)) as Hc.
      set (c := if N >? B then B else N) in *.
      assert (Hsz : Z.of_nat (length (slice txbuf p c)) = c).
      { rewrite length_slice. lia. }
      apply bind_inv in Hrun.
      destruct Hrun as [(d1 & e1 & x & e2 & Hw & Hk & ->)|[(e & Hw & ->)|[Hw ->]]];
        apply port_write_inv in Hw; destruct Hw as (rep & -> & Hr).
      * destruct rep as [n|cc]; [|discriminate]. inversion Hr; subst x; clear Hr.
        cbv zeta in Hk.
        destruct (u32 n =? c) eqn:En; cbn [negb] in Hk.
        -- apply IH in Hk; [|lia].
           destruct Hk as (rest & Hwr & Hsch & Hby & Hnf & Hd & Hc' & Hf & Hs).
           exists rest.
           cbn [app map ev_size forallb is_write complete written Zsum fold_right
                existsb short_write andb orb].
           rewrite Hsz, En. cbn [negb andb orb].
           split; [assumption|].
           split; [now rewrite Hsch|].
           split.
           { rewrite Hby. symmetry. apply slice_app; [lia|].
             now apply writes_size_nonneg. }
           split; [assumption|].
           split; [assumption|].
           split; [assumption|].
           split; [|assumption].
           intros c0 x0 Hth.
           destruct (Hf c0 x0 Hth) as (pre & bs & n0 & -> & ? & ? & ? & ?).
           exists (EvWrite (slice txbuf p c) (Ret n) :: pre), bs, n0.
           cbn [forallb complete]. rewrite Hsz, En. auto.
        -- inversion Hk; subst.
           exists (chunk_sizes fuel (N - c) B).
           cbn [app map ev_size forallb is_write complete written Zsum fold_right
                existsb short_write andb orb].
           rewrite Hsz, En. cbn [negb andb orb].
           apply Z.eqb_neq in En.
           rewrite Z.add_0_r, app_nil_r.
           repeat split; auto; try discriminate.
           ++ intros c0 x0 Hth. inversion Hth; subst.
              exists [], (slice txbuf p c), n. cbn. rewrite Hsz. auto.
           ++ intros _. eauto.
      * destruct rep as [n|cc]; [discriminate|]. inversion Hr; subst.
        exists (chunk_sizes fuel (N - c) B).
        cbn [app map ev_size forallb is_write complete written Zsum fold_right
             existsb short_write andb orb].
        rewrite Hsz, Z.add_0_r, app_nil_r.
        repeat split; auto; try discriminate.
      * destruct rep; discriminate.
Qed.

(** *** [rx_chunk] *)

Lemma rx_chunk_run (fuel : nat) (B : Z) :
  1 <= B ->
  forall (rxbuf : list Z) (p N : Z) (d d' : port) (evs : list event)
         (r : outcome (list Z)),
    0 <= N <= Z.of_nat fuel -> 0 <= p -> p + N <= Z.of_nat (length rxbuf) ->
    rx_chunk fuel B rxbuf p N d = (d', evs, r) ->
      forallb is_read evs = true /\
      r <> OutOfFuel /\
      0 <= requested evs <= N /\
      (forall rxbuf', r = Done rxbuf' ->
         forallb complete evs = true /\ requested evs = N /\
         Z.of_nat (length (received evs)) = N /\
         length rxbuf' = length rxbuf /\
         (forall i, 0 <= i < N ->
            peek rxbuf' (p + i) = nth (Z.to_nat i) (received evs) 0) /\
         (forall k, 0 <= k < p -> peek rxbuf' k = peek rxbuf k)) /\
      (forallb complete evs = true -> exists rxbuf', r = Done rxbuf') /\
      (forall e, r = Throw e ->
         exists pre len rep, evs = pre ++ [EvRead len rep] /\
           forallb complete pre = true /\
           match rep with
           | Ret bs => Z.of_nat (length bs) <> len /\
                       e = APP_ERROR_RX_FAIL len (Z.of_nat (length bs))
           | Raise c => e = SERIAL_COM_ERROR c
           end).
Proof.
  intros HB. induction fuel as [|fuel IH];
    intros rxbuf p N d d' evs r HN Hp Hlen Hrun.
  - assert (N = 0) by lia. subst N. simpl in Hrun. inversion Hrun; subst.
    simpl.
    split; [reflexivity|]. split; [discriminate|].
    split; [lia|]. split; [|split; [eauto|discriminate]].
    intros rxbuf' H. inversion H; subst. repeat split; auto. intros; lia.
  - cbn [rx_chunk] in Hrun. destruct (N =? 0) eqn:E0.
    + apply Z.eqb_eq in E0. subst N. inversion Hrun; subst.
      simpl.
      split; [reflexivity|]. split; [discriminate|].
      split; [lia|]. split; [|split; [eauto|discriminate]].
      intros rxbuf' H. inversion H; subst. repeat split; auto. intros; lia.
    + apply Z.eqb_neq in E0.
      pose proof (chunklen_range N B HB ltac:(lia)) as Hc.
      set (c := if N >? B then B else N) in *.
      apply bind_inv in Hrun.
      destruct Hrun as [(d1 & e1 & bs & e2 & Hw & Hk & ->)|[(e & Hw & ->)|[Hw ->]]];
        apply port_read_inv in Hw; destruct Hw as (rep & -> & Hr).
      * destruct rep as [bs'|cc]; [|discriminate]. inversion Hr; subst bs'; clear Hr.
        destruct (Z.of_nat (length bs) =? c) eqn:En; cbn [negb] in Hk.
        -- apply Z.eqb_eq in En.
           apply IH in Hk; [|lia|lia|rewrite length_store; lia].
           destruct Hk as (Hrd & Hnf & Hreq & Hd & Hc' & Hf).
           cbn [app forallb is_read complete requested received andb].
           rewrite En, Z.eqb_refl. cbn [andb].
           split; [assumption|]. split; [assumption|].
           split; [lia|].
           split; [|split; [assumption|]].
           ++ intros rxbuf' Hdone.
              destruct (Hd rxbuf' Hdone) as (Hcomp & Hrq & Hlr & Hlb & Hin & Hbef).
              rewrite length_store in Hlb.
              split; [assumption|]. split; [lia|].
              split; [rewrite length_app; lia|].
              split; [assumption|].
              split.
              ** intros i Hi. destruct (Z.lt_ge_cases i c) as [Hlt|Hge].
                 --- rewrite app_nth1 by lia.
                     rewrite Hbef by lia.
                     apply peek_store_in; lia.
                 --- rewrite app_nth2 by lia.
                     replace (p + i) with (p + c + (i - c)) by lia.
                     rewrite Hin by lia. f_equal. lia.
              ** intros k Hk'. rewrite Hbef by lia.
                 apply peek_store_before; lia.
           ++ intros e He. destruct (Hf e He) as (pre & len & rep & -> & Hpre & Hrep).
              exists (EvRead c (Ret bs) :: pre), len, rep.
              cbn [forallb complete]. rewrite En, Z.eqb_refl. auto.
        -- inversion Hk; subst. apply Z.eqb_neq in En.
           cbn [app forallb is_read complete requested received andb].
           assert (En' : (Z.of_nat (length bs) =? c) = false)
             by (apply Z.eqb_neq; assumption).
           rewrite En'.
           split; [reflexivity|]. split; [discriminate|].
           split; [lia|]. split; [discriminate|]. split; [discriminate|].
           intros e He. inversion He; subst.
           exists [], c, (Ret bs). auto.
      * destruct rep as [n|cc]; [discriminate|]. inversion Hr; subst.
        cbn [app forallb is_read complete requested received andb].
        split; [reflexivity|]. split; [discriminate|].
        split; [lia|]. split; [discriminate|]. split; [discriminate|].
        intros e He. inversion He; subst.
        exists [], c, (Raise cc). auto.
      * destruct rep; discriminate.
Qed.

End EngineFacts.

(** ** The control-program download *)

Lemma first_mismatch_unique tx tp rcv j1 j2 :
  first_mismatch tx tp rcv j1 -> first_mismatch tx tp rcv j2 -> j1 = j2.
Proof.
  intros (H1 & B1 & N1) (H2 & B2 & N2).
  destruct (Z.lt_trichotomy j1 j2) as [Hlt|[Heq|Hgt]]; [|assumption|].
  - exfalso. apply N1. apply B2. lia.
  - exfalso. apply N2. apply B1. lia.
Qed.

Lemma read_failed_incomplete evs e :
  read_failed evs e -> forallb complete evs = false.
Proof.
  intros (pre & len & rep & -> & Hpre & Hrep).
  rewrite forallb_app, Hpre. simpl.
  destruct rep as [bs|c]; [|reflexivity].
  destruct Hrep as [Hne _]. apply Z.eqb_neq in Hne. now rewrite Hne.
Qed.


Lemma list_last_cases {A} (l : list A) :
  l = [] \/ exists pre x, l = pre ++ [x].
Proof.
  destruct l as [|a l]; [left; reflexivity|right].
  destruct (@exists_last _ (a :: l)) as (pre & x & H); [discriminate|eauto].
Qed.

Lemma forallb_complete_last (pre : list event) (x : event) :
  forallb complete (pre ++ [x]) = true -> complete x = true.
Proof.
  rewrite forallb_app. intros H. apply andb_prop in H. destruct H as [_ H].
  simpl in H. now rewrite andb_true_r in H.
Qed.

Lemma short_read_incomplete (c : Z) (bs : list Z) :
  Z.of_nat (length bs) <> c -> complete (EvRead c (Ret bs)) = false.
Proof. intros H. simpl. now apply Z.eqb_neq. Qed.

Lemma complete_reads_received (evs : list event) :
  forallb is_read evs = true -> forallb complete evs = true ->
  Z.of_nat (length (received evs)) = requested evs.
Proof.
  induction evs as [|[bs r|len [bs|c]|ms] evs IH]; simpl; intros Hr Hc;
    try discriminate; [reflexivity|].
  apply andb_prop in Hc. destruct Hc as [Hc1 Hc2]. apply Z.eqb_eq in Hc1.
  rewrite length_app, Nat2Z.inj_add, IH by assumption. lia.
Qed.

Lemma ctl_spec_nil (tx : list Z) (tp : Z) : ctl_spec tx tp 0 [] (Done tt).
Proof.
  unfold ctl_spec. simpl.
  split; [discriminate|]. split; [lia|].
  split; [exists 0; repeat split; try lia; reflexivity|].
  split; [reflexivity|]. split; [reflexivity|].
  split; [intros pre c bs H; destruct pre; discriminate|].
  split; [intros _ j Hj (Hr & _); simpl in Hr; lia|].
  split; [discriminate|lia].
Qed.

Lemma ctl_spec_write_failed (tx : list Z) (tp N c : Z) (rep : reply Z)
  (r : outcome unit) :
  1 <= c <= N -> complete (EvWrite (slice tx tp c) rep) = false ->
  (exists e, r = Throw e) ->
  ctl_spec tx tp N [EvWrite (slice tx tp c) rep] r.
Proof.
  intros Hc Hinc (e & ->). unfold ctl_spec.
  cbn [requested written received app forallb].
  split; [discriminate|]. split; [lia|].
  split.
  { exists c. rewrite app_nil_r. repeat split; try lia. discriminate. }
  split; [intros; lia|]. split; [discriminate|].
  split.
  { intros pre c0 bs H. exfalso.
    change [EvWrite (slice tx tp c) rep] with ([] ++ [EvWrite (slice tx tp c) rep]) in H.
    apply app_inj_tail in H. destruct H as [_ H]. discriminate. }
  split; [rewrite Hinc; discriminate|].
  split; [intros; left; rewrite Hinc; reflexivity|].
  intros _. eauto.
Qed.

Lemma ctl_spec_bad (tx : list Z) (tp N c n x : Z) (evs : list event)
  (e : tru_exception) :
  u32 x = c ->
  1 <= c <= N -> n < N -> n <= c ->
  forallb is_read evs = true -> 0 <= requested evs <= n ->
  read_failed evs e \/ echo_failed tx tp evs e ->
  ctl_spec tx tp N (EvWrite (slice tx tp c) (Ret x) :: evs) (Throw e).
Proof.
  intros Hx Hc Hn Hnc Hrd Hreq Hbad. unfold ctl_spec.
  cbn [requested written received app forallb complete].
  rewrite length_slice, Z2Nat.id, Hx, Z.eqb_refl by lia. cbn [andb].
  split; [discriminate|]. split; [lia|].
  split.
  { exists c. rewrite (reads_written evs Hrd), app_nil_r.
    repeat split; try lia. discriminate. }
  split; [intros; lia|]. split; [discriminate|].
  split.
  - intros pre c0 bs H Hne _.
    destruct Hbad as [(pre' & len & rep & -> & Hpre & Hrep)|[Hcomp _]].
    + rewrite app_comm_cons in H. apply app_inj_tail in H.
      destruct H as [_ H]. inversion H; subst. destruct Hrep as [_ ->]. reflexivity.
    + exfalso.
      assert (Hc0 : complete (EvRead c0 (Ret bs)) = true).
      { apply (forallb_complete_last pre).
        rewrite <- H. cbn [forallb complete].
        rewrite length_slice, Z2Nat.id, Hx, Z.eqb_refl by lia. assumption. }
      rewrite short_read_incomplete in Hc0 by assumption. discriminate.
  - split; [|split].
    + intros Hcomp j Hj Hfm.
      destruct Hbad as [Hrf|[_ (j0 & Hfm0 & ->)]].
      * apply read_failed_incomplete in Hrf. congruence.
      * rewrite (first_mismatch_unique _ _ _ _ _ Hfm Hfm0). reflexivity.
    + intros e0 _.
      destruct Hbad as [Hrf|[Hcomp (j0 & Hfm0 & _)]].
      * left. eapply read_failed_incomplete. eassumption.
      * right. exists j0. split; [|assumption].
        destruct Hfm0 as [Hj0 _].
        rewrite (complete_reads_received evs Hrd Hcomp) in Hj0. lia.
    + intros _. eauto.
Qed.

Lemma ctl_spec_final (tx : list Z) (tp N x : Z) (evs1 : list event)
  (rep : reply (list Z)) :
  1 <= N -> forallb is_read evs1 = true -> echo_ok tx tp (N - 1) evs1 ->
  ctl_spec tx tp N
    (EvWrite (slice tx tp N) (Ret x) :: evs1 ++ [EvRead 1 rep]) (Done tt).
Proof.
  intros HN Hrd (Hcomp & Hreq & Hlen & Hall). unfold ctl_spec.
  cbn [requested written received app forallb complete].
  rewrite requested_app, written_app, received_app, (reads_written evs1 Hrd).
  cbn [requested written app].
  split; [discriminate|]. split; [lia|].
  split.
  { exists N. rewrite app_nil_r. repeat split; try lia. }
  split; [reflexivity|]. split; [intros; lia|].
  split; [intros; lia|].
  split.
  { intros _ j Hj (Hr & Hbefore & Hne). exfalso. apply Hne.
    rewrite app_nth1 by lia. apply Hall. lia. }
  split; [discriminate|].
  intros _. eauto.
Qed.

Lemma ctl_spec_step (tx : list Z) (tp N c w : Z) (evs1 evs2 : list event)
  (r : outcome unit) :
  u32 w = c ->
  1 <= c < N -> forallb is_read evs1 = true -> echo_ok tx tp c evs1 ->
  ctl_spec tx (tp + c) (N - c) evs2 r ->
  ctl_spec tx tp N (EvWrite (slice tx tp c) (Ret w) :: evs1 ++ evs2) r.
Proof.
  intros Hx Hc Hrd (Hcomp & Hreq & Hlen & Hall)
    (Hnf & Hreq2 & (n & Hn & Hwr & Hwn) & Hq1 & Hq3 & Hq4 & Hq5 & Hq6 & Hq7).
  unfold ctl_spec.
  cbn [requested written received app forallb complete].
  rewrite requested_app, written_app, received_app, (reads_written evs1 Hrd).
  rewrite length_slice, Z2Nat.id, Hx, Z.eqb_refl by lia. cbn [andb app].
  split; [assumption|]. split; [lia|].
  split.
  { exists (c + n). rewrite Hwr, slice_app by lia.
    repeat split; try lia. intros Hd. specialize (Hwn Hd). lia. }
  split; [intros; apply Hq1; lia|].
  split; [intros Hd; specialize (Hq3 Hd); lia|].
  split.
  - intros pre c0 bs H Hne Hlt.
    destruct (list_last_cases evs2) as [->|(pre2 & x & ->)].
    + exfalso. rewrite app_nil_r in H.
      destruct (list_last_cases evs1) as [->|(pre1 & x & ->)].
      * change [EvWrite (slice tx tp c) (Ret w)]
          with ([] ++ [EvWrite (slice tx tp c) (Ret w)]) in H.
        apply app_inj_tail in H. destruct H as [_ H]. discriminate.
      * rewrite app_comm_cons in H. apply app_inj_tail in H.
        destruct H as [_ ->].
        apply forallb_complete_last in Hcomp.
        rewrite short_read_incomplete in Hcomp by assumption. discriminate.
    + rewrite app_assoc, app_comm_cons in H. apply app_inj_tail in H.
      destruct H as [_ ->].
      apply (Hq4 pre2 c0 bs eq_refl Hne). lia.
  - split; [|split; [|intros _; eauto]].
    2:{ intros e He. rewrite forallb_app, Hcomp. cbn [andb].
        destruct (Hq6 e He) as [Hinc|(j2 & Hj2 & Hr2 & Hb2 & Hne2)];
          [left; assumption|right].
        exists (c + j2). split; [lia|].
        split; [rewrite length_app; lia|]. split.
        - intros i Hi. destruct (Z.lt_ge_cases i c) as [Hlt|Hge].
          + rewrite app_nth1 by lia. apply Hall. lia.
          + rewrite app_nth2 by lia.
            replace (Z.to_nat i - length (received evs1))%nat
              with (Z.to_nat (i - c)) by lia.
            rewrite Hb2 by lia. f_equal. lia.
        - rewrite app_nth2 by lia.
          replace (Z.to_nat (c + j2) - length (received evs1))%nat
            with (Z.to_nat j2) by lia.
          replace (tp + (c + j2)) with (tp + c + j2) by lia. assumption. }
    intros Hc2 j Hj (Hr & Hbefore & Hne).
    rewrite forallb_app in Hc2. apply andb_prop in Hc2. destruct Hc2 as [_ Hc2].
    rewrite length_app in Hr.
    destruct (Z.lt_ge_cases j c) as [Hlt|Hge].
    + exfalso. apply Hne. rewrite app_nth1 by lia. apply Hall. lia.
    + rewrite app_nth2 by lia.
      replace (Z.to_nat j - length (received evs1))%nat with (Z.to_nat (j - c)) by lia.
      replace (tp + j) with (tp + c + (j - c)) by lia.
      apply Hq5; [assumption|lia|].
      split; [lia|]. split.
      * intros i Hi.
        specialize (Hbefore (c + i) ltac:(lia)).
        rewrite app_nth2 in Hbefore by lia.
        replace (Z.to_nat (c + i) - length (received evs1))%nat
          with (Z.to_nat i) in Hbefore by lia.
        rewrite Hbefore. f_equal. lia.
      * rewrite app_nth2 in Hne by lia.
        replace (Z.to_nat j - length (received evs1))%nat
          with (Z.to_nat (j - c)) in Hne by lia.
        replace (tp + c + (j - c)) with (tp + j) by lia. assumption.
Qed.
Section EngineFacts.
Context {port : Type} {SC : serial_com port}.

Lemma rx_verify_inv {A} (fuel : nat) (B : Z) (tx : list Z) (tp : Z)
  (rx : list Z) (rp n : Z) (k : list Z -> M port A)
  (d d' : port) (evs : list event) (r : outcome A) :
  1 <= B -> 0 <= n <= Z.of_nat fuel -> 0 <= rp ->
  rp + n <= Z.of_nat (length rx) ->
  bind (rx_chunk fuel B rx rp n)
    (fun rx1 => bind (lift (verify_echo tx tp rx1 rp n)) (fun _ => k rx1)) d
  = (d', evs, r) ->
  (exists d1 evs1 rx1 evs2,
     k rx1 d1 = (d', evs2, r) /\ evs = evs1 ++ evs2 /\
     forallb is_read evs1 = true /\
     echo_ok tx tp n evs1 /\ length rx1 = length rx)
  \/
  (forallb is_read evs = true /\ 0 <= requested evs <= n /\
   exists e, r = Throw e /\ (read_failed evs e \/ echo_failed tx tp evs e)).
Proof.
  intros HB Hn Hrp Hlen Hrun.
  apply bind_inv in Hrun.
  destruct Hrun as [(d1 & e1 & rx1 & e2 & Hrx & Hk & ->)|[(e & Hrx & ->)|[Hrx ->]]].
  - apply rx_chunk_run in Hrx; try assumption.
    destruct Hrx as (Hrd & Hnf & Hreq & Hd & _ & _).
    destruct (Hd rx1 eq_refl) as (Hcomp & Hrq & Hlr & Hlb & Hin & Hbef).
    apply bind_inv in Hk.
    destruct Hk as [(d2 & e3 & x & e4 & Hv & Hk & ->)|[(e & Hv & ->)|[Hv ->]]];
      apply lift_inv in Hv; destruct Hv as (-> & -> & Hv).
    + left. exists d1, e1, rx1, e4. simpl.
      split; [assumption|]. split; [reflexivity|]. split; [assumption|].
      split; [|assumption].
      split; [assumption|]. split; [assumption|]. split; [assumption|].
      intros i Hi. rewrite <- Hin by assumption.
      destruct (verify_echo_cases tx tp rx1 rp n) as [[_ Hall]|(j & _ & _ & _ & Hth)].
      * symmetry. apply Hall. assumption.
      * rewrite Hth in Hv. discriminate.
    + right. rewrite app_nil_r.
      split; [assumption|]. split; [lia|].
      exists e. split; [reflexivity|]. right.
      split; [assumption|].
      destruct (verify_echo_cases tx tp rx1 rp n) as [[Hdn _]|(j & Hj & Hb & Hne & Hth)].
      * rewrite Hdn in Hv. discriminate.
      * rewrite Hth in Hv. inversion Hv; subst e.
        exists j. split.
        -- split; [lia|]. split.
           ++ intros i Hi. rewrite <- Hin by lia. symmetry. apply Hb. assumption.
           ++ rewrite <- Hin by lia. auto.
        -- rewrite <- Hin by lia. reflexivity.
    + destruct (verify_echo_cases tx tp rx1 rp n) as [[Hdn _]|(j & _ & _ & _ & Hth)].
      * rewrite Hdn in Hv. discriminate.
      * rewrite Hth in Hv. discriminate.
  - apply rx_chunk_run in Hrx; try assumption.
    destruct Hrx as (Hrd & Hnf & Hreq & _ & _ & Hf).
    right. split; [assumption|]. split; [assumption|].
    exists e. split; [reflexivity|]. left. apply Hf. reflexivity.
  - apply rx_chunk_run in Hrx; try assumption.
    destruct Hrx as (_ & Hnf & _). congruence.
Qed.

Lemma try_read_inv (len : Z) (f : list Z -> outcome unit)
  (d d' : port) (evs : list event) (r : outcome unit) :
  (forall bs, f bs = Done tt \/ exists a b, f bs = Throw (APP_ERROR_ECHO a b)) ->
  try_catch_ignore (bind (port_read len) (fun bs => lift (f bs))) d = (d', evs, r) ->
  exists rep, evs = [EvRead len rep] /\ r = Done tt.
Proof.
  intros Hf. unfold try_catch_ignore, bind, port_read, lift.
  destruct (read_port d len) as [d1 [bs|c]].
  - destruct (Hf bs) as [->|(a & b & ->)]; intros H; inversion H; subst; eauto.
  - intros H. inversion H; subst. eauto.
Qed.

Lemma verify_echo_result (tx : list Z) (tp : Z) (rx : list Z) (rp len : Z) :
  verify_echo tx tp rx rp len = Done tt \/
  exists a b, verify_echo tx tp rx rp len = Throw (APP_ERROR_ECHO a b).
Proof.
  destruct (verify_echo_cases tx tp rx rp len) as [[H _]|(j & _ & _ & _ & H)];
    eauto.
Qed.

Lemma echo_ok_nil (tx : list Z) (tp : Z) : echo_ok tx tp 0 [].
Proof. unfold echo_ok. simpl. repeat split; auto. intros; lia. Qed.

Lemma ctl_run (fuel : nat) (arg_params : cl_my_params) (tx : list Z) :
  1 <= serial_txbuf_size arg_params -> 1 <= serial_rxbuf_size arg_params ->
  forall (tp : Z) (rx : list Z) (rp N : Z) (d d' : port) (evs : list event)
         (r : outcome unit),
    0 <= N <= Z.of_nat fuel -> 0 <= rp -> rp + N <= Z.of_nat (length rx) ->
    txrx_chunk_control_program fuel arg_params tx tp rx rp N d = (d', evs, r) ->
    ctl_spec tx tp N evs r.
Proof.
  intros HBt HBr. induction fuel as [|fuel IH];
    intros tp rx rp N d d' evs r HN Hrp Hlen Hrun.
  - assert (N = 0) by lia. subst N. simpl in Hrun. inversion Hrun; subst.
    apply ctl_spec_nil.
  - cbn [txrx_chunk_control_program] in Hrun. destruct (N =? 0) eqn:E0.
    { apply Z.eqb_eq in E0. subst N. inversion Hrun; subst. apply ctl_spec_nil. }
    apply Z.eqb_neq in E0. cbv zeta in Hrun.
    pose proof (chunklen_range N (serial_txbuf_size arg_params) HBt ltac:(lia)) as Hc.
    set (c := if N >? serial_txbuf_size arg_params
              then serial_txbuf_size arg_params else N) in *.
    clearbody c.
    apply bind_inv in Hrun.
    destruct Hrun as [(d1 & e1 & x & e2 & Hw & Hk & ->)|[(e & Hw & ->)|[Hw ->]]];
      apply port_write_inv in Hw; destruct Hw as (rep & -> & Hr).
    2:{ destruct rep as [n|cc]; [discriminate|].
        apply ctl_spec_write_failed; [lia|reflexivity|eauto]. }
    2:{ destruct rep; discriminate. }
    destruct rep as [n|cc]; [|discriminate]. inversion Hr; subst x; clear Hr.
    destruct (u32 n =? c) eqn:En; cbn [negb] in Hk.
    2:{ inversion Hk; subst. apply ctl_spec_write_failed; [lia| |eauto].
        simpl. rewrite length_slice, Z2Nat.id by lia. assumption. }
    cbn [app].
    apply bind_inv in Hk.
    destruct (N - c =? 0) eqn:Efin.
    + (* the last chunk *)
      apply Z.eqb_eq in Efin. assert (c = N) by lia.
      destruct (c =? 1) eqn:E1.
      * apply Z.eqb_eq in E1.
        destruct Hk as [(d2 & e3 & rx' & e4 & Hb & Hrec & ->)|[(e & Hb & ->)|[Hb ->]]];
          apply bind_inv in Hb;
          destruct Hb as [(d3 & e5 & u & e6 & Ht & Hret & Hevs)|[(e' & Ht & He')|[Ht He']]];
          apply try_read_inv in Ht; try (intros; apply verify_echo_result);
          destruct Ht as (rep & -> & Ht); try discriminate.
        apply ret_inv in Hret. destruct Hret as (-> & -> & Hret).
        inversion Hret; subst rx'. subst e3.
        rewrite Efin in Hrec. cbn in Hrec.
        destruct fuel; cbn in Hrec; inversion Hrec; subst.
        all: rewrite ?app_nil_r;
          apply (ctl_spec_final tx tp 1 n [] rep); [lia|reflexivity|];
          apply echo_ok_nil.
      * apply Z.eqb_neq in E1.
        destruct Hk as [(d2 & e3 & rx' & e4 & Hb & Hrec & ->)|[(e & Hb & ->)|[Hb ->]]].
        -- apply rx_verify_inv in Hb; try lia.
           destruct Hb as [(d3 & evs1 & rx1 & evs2 & Hk2 & -> & Hrd & Hok & Hl1)
                          |(Hrd & Hreq & e & He & Hbad)]; [|discriminate].
           apply bind_inv in Hk2.
           destruct Hk2 as [(d4 & e5 & u & e6 & Ht & Hret & ->)|[(e' & Ht & He')|[Ht He']]];
             apply try_read_inv in Ht; try (intros; apply verify_echo_result);
             destruct Ht as (rep & -> & Ht); try discriminate.
           apply ret_inv in Hret. destruct Hret as (-> & -> & Hret).
           rewrite Efin in Hrec.
           assert (e4 = [] /\ r = Done tt) as [-> ->].
           { destruct fuel; cbn in Hrec; inversion Hrec; auto. }
           rewrite !app_nil_r. subst c.
           apply ctl_spec_final; [lia|assumption|assumption].
        -- apply rx_verify_inv in Hb; try lia.
           destruct Hb as [(d3 & evs1 & rx1 & evs2 & Hk2 & -> & Hrd & Hok & Hl1)
                          |(Hrd & Hreq & e0 & He & Hbad)].
           ++ exfalso. apply bind_inv in Hk2.
              destruct Hk2 as [(d4 & e5 & u & e6 & Ht & Hret & _)|[(e' & Ht & He')|[Ht He']]];
                apply try_read_inv in Ht; try (intros; apply verify_echo_result);
                destruct Ht as (rep & _ & Ht); try discriminate.
              all: try (apply ret_inv in Hret; destruct Hret as (_ & _ & Hret);
                        discriminate).
           ++ inversion He; subst e0.
              apply (ctl_spec_bad tx tp N c (c - 1) n); try lia;
                try assumption; apply Z.eqb_eq; assumption.
        -- apply rx_verify_inv in Hb; try lia.
           destruct Hb as [(d3 & evs1 & rx1 & evs2 & Hk2 & -> & Hrd & Hok & Hl1)
                          |(Hrd & Hreq & e0 & He & Hbad)]; [|discriminate].
           exfalso. apply bind_inv in Hk2.
           destruct Hk2 as [(d4 & e5 & u & e6 & Ht & Hret & _)|[(e' & Ht & He')|[Ht He']]];
             apply try_read_inv in Ht; try (intros; apply verify_echo_result);
             destruct Ht as (rep & _ & Ht); try discriminate.
           all: try (apply ret_inv in Hret; destruct Hret as (_ & _ & Hret);
                     discriminate).
    + (* a chunk before the last *)
      apply Z.eqb_neq in Efin.
      destruct Hk as [(d2 & e3 & rx' & e4 & Hb & Hrec & ->)|[(e & Hb & ->)|[Hb ->]]].
      * apply rx_verify_inv in Hb; try lia.
        destruct Hb as [(d3 & evs1 & rx1 & evs2 & Hk2 & -> & Hrd & Hok & Hl1)
                       |(Hrd & Hreq & e & He & Hbad)]; [|discriminate].
        apply ret_inv in Hk2. destruct Hk2 as (-> & -> & Hret).
        inversion Hret; subst rx'. rewrite app_nil_r.
        apply ctl_spec_step;
          [apply Z.eqb_eq; assumption|lia|assumption|assumption|].
        eapply (IH (tp + c) rx1 (rp + c) (N - c)); try lia. eassumption.
      * apply rx_verify_inv in Hb; try lia.
        destruct Hb as [(d3 & evs1 & rx1 & evs2 & Hk2 & -> & Hrd & Hok & Hl1)
                       |(Hrd & Hreq & e0 & He & Hbad)].
        -- apply ret_inv in Hk2. destruct Hk2 as (_ & _ & Hret). discriminate.
        -- inversion He; subst e0.
           apply (ctl_spec_bad tx tp N c c n); try lia; try assumption;
             apply Z.eqb_eq; assumption.
      * apply rx_verify_inv in Hb; try lia.
        destruct Hb as [(d3 & evs1 & rx1 & evs2 & Hk2 & -> & Hrd & Hok & Hl1)
                       |(Hrd & Hreq & e0 & He & Hbad)]; [|discriminate].
        apply ret_inv in Hk2. destruct Hk2 as (_ & _ & Hret). discriminate.
Qed.

End EngineFacts.

(** ** Reading the talker file *)

Lemma substr_some (s : string) (pos n : Z) :
  pos <= size s ->
  substr s pos n = Some (String.substring (Z.to_nat pos) (Z.to_nat n) s).
Proof.
  intros H. unfold substr. destruct (Z.gtb_spec pos (size s)); [lia|reflexivity].
Qed.

Lemma substr_none (s : string) (pos n : Z) :
  size s < pos -> substr s pos n = None.
Proof.
  intros H. unfold substr. destruct (Z.gtb_spec pos (size s)); [reflexivity|lia].
Qed.









Lemma slice_eq_list (buf : list Z) (p : Z) (l : list Z) :
  (forall j, 0 <= j < Z.of_nat (length l) -> peek buf (p + j) = nth (Z.to_nat j) l 0) ->
  slice buf p (Z.of_nat (length l)) = l.
Proof.
  intros H. apply (nth_ext _ _ 0 0).
  - rewrite length_slice. lia.
  - intros i Hi. rewrite length_slice in Hi.
    rewrite nth_slice by assumption. rewrite H by lia. f_equal. lia.
Qed.

Lemma slice_firstn (buf : list Z) (p n N : Z) :
  0 <= n <= N -> slice buf p n = firstn (Z.to_nat n) (slice buf p N).
Proof.
  intros H. replace N with (n + (N - n)) by lia.
  rewrite slice_app by lia.
  rewrite firstn_app, length_slice, Nat.sub_diag. simpl.
  rewrite app_nil_r. symmetry. apply firstn_all2. rewrite length_slice. lia.
Qed.

Section EngineFacts.
Context {port : Type} {SC : serial_com port}.






End EngineFacts.

(** ** The S-record writer *)

Lemma string_app_assoc (a b c : string) :
  ((a ++ b) ++ c = a ++ (b ++ c))%string.
Proof. induction a as [|x a IH]; simpl; [reflexivity|]. now rewrite IH. Qed.

Lemma string_app_nil_r (a : string) : (a ++ "" = a)%string.
Proof. induction a as [|x a IH]; simpl; [reflexivity|]. now rewrite IH. Qed.

Lemma hexcat_app (l1 l2 : list Z) :
  hexcat (l1 ++ l2) = (hexcat l1 ++ hexcat l2)%string.
Proof.
  induction l1 as [|b l1 IH]; simpl; [reflexivity|].
  now rewrite IH, string_app_assoc.
Qed.

Lemma land_ff (x : Z) : Z.land x 0xff = x mod 256.
Proof. change 0xff with (Z.ones 8). rewrite Z.land_ones by lia. reflexivity. Qed.

Lemma shiftr_8 (x : Z) : Z.shiftr x 8 = x / 256.
Proof. rewrite Z.shiftr_div_pow2 by lia. reflexivity. Qed.

Lemma addr_hi (a : Z) : Z.land (Z.shiftr a 8) 0xff = u16 a / 256.
Proof.
  rewrite land_ff, shiftr_8. unfold u16.
  Z.to_euclidean_division_equations; lia.
Qed.

Lemma addr_lo (a : Z) : Z.land a 0xff = u16 a mod 256.
Proof.
  rewrite land_ff. unfold u16.
  Z.to_euclidean_division_equations; lia.
Qed.

Lemma Zsum_map_u16 (bs : list Z) : Zsum (map u16 bs) mod 256 = Zsum bs mod 256.
Proof.
  induction bs as [|b bs IH]; simpl; [reflexivity|].
  unfold u16 in *. Z.to_euclidean_division_equations; lia.
Qed.

Lemma u16_range (a : Z) : 0 <= u16 a < 65536.
Proof. unfold u16. apply Z.mod_pos_bound. lia. Qed.

Lemma u8_range (a : Z) : 0 <= u8 a < 256.
Proof. unfold u8. apply Z.mod_pos_bound. lia. Qed.

Lemma u16_small (a : Z) : 0 <= a < 65536 -> u16 a = a.
Proof. intros H. unfold u16. apply Z.mod_small. assumption. Qed.

(** The line assembled from the variables of a good writer is a good S1
    record. *)
Lemma s1_record_good (e : srec_writer) (a0 : Z) (bs : list Z) :
  srec_addr_str e = to_string_right_hex_up (u16 a0) 4 ->
  srec_line e = hexcat (map u16 bs) ->
  datacount e = u8 (Z.of_nat (length bs)) ->
  checksum e = u8 (Z.land (Z.shiftr a0 8) 0xff + Z.land a0 0xff + Zsum bs) ->
  s1_record_ok
    (s1_record e (u8 (Z.lnot (u8 (checksum e
                                  + (datacount e + SREC_ADDR_CHECKSUM_COUNT)))))).
Proof.
  intros Ha Hl Hd Hc.
  set (ck := u8 (Z.lnot (u8 (checksum e + (datacount e + SREC_ADDR_CHECKSUM_COUNT))))).
  assert (Hck : 0 <= ck < 256) by apply u8_range.
  exists (datacount e + 3), (u16 a0), (map u16 bs), ck.
  split.
  { unfold s1_record, s1_line, SREC_ADDR_CHECKSUM_COUNT. rewrite Ha, Hl.
    rewrite (u16_small (datacount e + 3))
      by (rewrite Hd; pose proof (u8_range (Z.of_nat (length bs))); lia).
    rewrite (u16_small ck) by lia.
    reflexivity. }
  split; [apply u16_range|].
  split; [rewrite length_map, Hd; reflexivity|].
  pose proof (Zsum_map_u16 bs) as Hs.
  subst ck. clear Hck. unfold s1_checksum_ok.
  rewrite Hc, addr_hi, addr_lo. unfold SREC_ADDR_CHECKSUM_COUNT.
  generalize dependent (Zsum (map u16 bs)). generalize (Zsum bs).
  generalize (u16 a0 / 256) (u16 a0 mod 256) (datacount e).
  intros ah al dc S S' Hs. unfold u8, Z.lnot.
  split; Z.to_euclidean_division_equations; lia.
Qed.

Lemma srec_begin_ok (arg_params : cl_my_params) :
  srec_writer_ok (srec_begin arg_params).
Proof.
  split.
  - simpl. constructor; [|constructor]. left. reflexivity.
  - exists (from_addr arg_params), []. simpl.
    repeat split; try reflexivity.
    unfold u8. Z.to_euclidean_division_equations; lia.
Qed.

Lemma srec_byte_ok (arg_params : cl_my_params) (addr b : Z) (e : srec_writer) :
  srec_writer_ok e -> srec_writer_ok (srec_byte arg_params addr b e).
Proof.
  intros (Hout & a0 & bs & Ha & Hl & Hd & Hc). unfold srec_byte.
  set (e1 := {| out_file := out_file e;
                srec_line := (srec_line e ++ to_string_right_hex_up (u16 b) 2)%string;
                srec_addr_str := srec_addr_str e;
                datacount := u8 (datacount e + 1);
                checksum := u8 (checksum e + b) |}).
  assert (Ha1 : srec_addr_str e1 = to_string_right_hex_up (u16 a0) 4) by exact Ha.
  assert (Hl1 : srec_line e1 = hexcat (map u16 (bs ++ [b]))).
  { simpl. rewrite Hl, map_app, hexcat_app. simpl.
    now rewrite string_app_nil_r. }
  assert (Hd1 : datacount e1 = u8 (Z.of_nat (length (bs ++ [b])))).
  { simpl. rewrite Hd, length_app, Nat2Z.inj_add. simpl.
    unfold u8. Z.to_euclidean_division_equations; lia. }
  assert (Hc1 : checksum e1
                = u8 (Z.land (Z.shiftr a0 8) 0xff + Z.land a0 0xff
                      + Zsum (bs ++ [b]))).
  { simpl. rewrite Hc, Zsum_app. simpl.
    unfold u8. Z.to_euclidean_division_equations; lia. }
  destruct (datacount e1 =? _).
  - split.
    + cbn [out_file]. apply Forall_app. split; [exact Hout|].
      constructor; [|constructor]. right. right.
      apply (s1_record_good e1 a0 (bs ++ [b])); assumption.
    + exists (addr + 1), []. cbn [srec_addr_str srec_line datacount checksum].
      repeat split; try reflexivity.
      simpl. unfold u8. Z.to_euclidean_division_equations; lia.
  - split; [exact Hout|]. exists a0, (bs ++ [b]). auto.
Qed.

Lemma srec_end_ok (e : srec_writer) :
  srec_writer_ok e -> Forall srec_line_ok (srec_end e).
Proof.
  intros (Hout & a0 & bs & Ha & Hl & Hd & Hc). unfold srec_end.
  apply Forall_app. split.
  - destruct (datacount e >? 0); [|exact Hout].
    apply Forall_app. split; [exact Hout|].
    constructor; [|constructor]. right. right.
    apply (s1_record_good e a0 bs); assumption.
  - constructor; [|constructor]. right. left. reflexivity.
Qed.

Section ReadmemFacts.
Context {port : Type} {SC : serial_com port}.

Lemma tbug11_readmem_loop_ok (n : nat) :
  forall (fuel : nat) (arg_params : cl_my_params) (e : srec_writer)
         (addr chunklen remaining : Z) (txbuf rxbuf : list Z) (rxbuf_p : Z)
         (d d' : port) (evs : list event) (e' : srec_writer),
    TBug11.readmem_loop n fuel arg_params e addr chunklen remaining
      txbuf rxbuf rxbuf_p d = (d', evs, Done e') ->
    srec_writer_ok e -> srec_writer_ok e'.
Proof.
  induction n as [|n IH]; intros fuel arg_params e addr chunklen remaining
    txbuf rxbuf rxbuf_p d d' evs e' Hrun He.
  - apply ret_inv in Hrun. destruct Hrun as (_ & _ & Hr). inversion Hr. now subst.
  - cbn [TBug11.readmem_loop] in Hrun. apply bind_inv in Hrun.
    destruct Hrun as [(d1 & e1 & st & e2 & _ & Hk & _)|[(x & _ & Hx)|[_ Hx]]];
      try discriminate.
    destruct st as [[[[chunklen1 remaining1] txbuf1] rxbuf1] rxbuf_p1].
    apply IH in Hk; [assumption|].
    destruct (size (full_file_name arg_params) >? 0); [|assumption].
    now apply srec_byte_ok.
Qed.

Lemma tru11_readmem_data_loop_ok (n : nat) :
  forall (arg_params : cl_my_params) (rxbuf : list Z) (e : srec_writer)
         (addr rxbuf_p : Z),
    srec_writer_ok e ->
    srec_writer_ok
      (fst (fst (Tru11.readmem_data_loop n arg_params rxbuf e addr rxbuf_p))).
Proof.
  induction n as [|n IH]; intros arg_params rxbuf e addr rxbuf_p He.
  - exact He.
  - cbn [Tru11.readmem_data_loop]. apply IH.
    destruct (size (full_file_name arg_params) >? 0); [|assumption].
    now apply srec_byte_ok.
Qed.

Lemma tru11_readmem_loop_ok (fuel : nat) :
  forall (arg_params : cl_my_params) (e : srec_writer) (addr remaining : Z)
         (txbuf rxbuf : list Z) (d d' : port) (evs : list event)
         (e' : srec_writer),
    Tru11.readmem_loop fuel arg_params e addr remaining txbuf rxbuf d
    = (d', evs, Done e') ->
    srec_writer_ok e -> srec_writer_ok e'.
Proof.
  induction fuel as [|fuel IH]; intros arg_params e addr remaining txbuf rxbuf
    d d' evs e' Hrun He.
  - simpl in Hrun. destruct (remaining =? 0); [|discriminate].
    inversion Hrun. now subst.
  - cbn [Tru11.readmem_loop] in Hrun. destruct (remaining =? 0).
    { inversion Hrun. now subst. }
    cbv zeta in Hrun.
    apply bind_inv in Hrun.
    destruct Hrun as [(d1 & e1 & rx1 & e2 & _ & Hk & _)|[(x & _ & Hx)|[_ Hx]]];
      try discriminate.
    apply bind_inv in Hk.
    destruct Hk as [(d2 & e3 & u & e4 & _ & Hk & _)|[(x & _ & Hx)|[_ Hx]]];
      try discriminate.
    apply bind_inv in Hk.
    destruct Hk as [(d3 & e5 & rx2 & e6 & _ & Hk & _)|[(x & _ & Hx)|[_ Hx]]];
      try discriminate.
    match type of Hk with
    | context [Tru11.readmem_data_loop ?n ?p ?b ?e0 ?a ?q] =>
        pose proof (tru11_readmem_data_loop_ok n p b e0 a q He) as Hd;
        destruct (Tru11.readmem_data_loop n p b e0 a q) as [[e7 addr7] p7]
    end.
    simpl in Hd. eapply IH; eassumption.
Qed.

End ReadmemFacts.

(** ** The verification tallies *)

Lemma count_from_S (f : Z -> bool) (i : Z) (n : nat) :
  count_from f i (S n) = (if f i then 1 else 0) + count_from f (i + 1) n.
Proof.
  unfold count_from. cbn [seq map]. rewrite Z.add_0_r.
  rewrite (map_seq_from_0 _ 1 n).
  replace (map (fun k => i + Z.of_nat (1 + k)) (seq 0 n))
    with (map (fun k => i + 1 + Z.of_nat k) (seq 0 n))
    by (apply map_ext; intros; lia).
  cbn [filter]. destruct (f i); cbn [length]; lia.
Qed.

Lemma count_from_0 (f : Z -> bool) (i : Z) : count_from f i 0 = 0.
Proof. reflexivity. Qed.

Lemma count_from_range (f : Z -> bool) (i : Z) (n : nat) :
  0 <= count_from f i n <= Z.of_nat n.
Proof.
  unfold count_from.
  pose proof (filter_length_le f (map (fun k => i + Z.of_nat k) (seq 0 n))) as H.
  rewrite length_map, length_seq in H. lia.
Qed.

Lemma count_from_ext (f g : Z -> bool) (i : Z) (n : nat) :
  (forall k, i <= k < i + Z.of_nat n -> f k = g k) ->
  count_from f i n = count_from g i n.
Proof.
  revert i. induction n as [|n IH]; intros i H; [reflexivity|].
  rewrite !count_from_S, (H i) by lia. rewrite (IH (i + 1)); [reflexivity|].
  intros k Hk. apply H. lia.
Qed.

Lemma count_from_none (f : Z -> bool) (i : Z) (n : nat) :
  (forall k, i <= k < i + Z.of_nat n -> f k = false) -> count_from f i n = 0.
Proof.
  revert i. induction n as [|n IH]; intros i H; [reflexivity|].
  rewrite count_from_S, (H i) by lia. rewrite IH; [reflexivity|].
  intros k Hk. apply H. lia.
Qed.

Lemma u16_succ (x : Z) : u16 (u16 x + 1) = u16 (x + 1).
Proof. unfold u16. Z.to_euclidean_division_equations; lia. Qed.

Lemma u32_add_l (x y : Z) : u32 (u32 x + y) = u32 (x + y).
Proof. unfold u32. Z.to_euclidean_division_equations; lia. Qed.

Lemma u32_small (x : Z) : 0 <= x < 4294967296 -> u32 x = x.
Proof. intros H. unfold u32. now apply Z.mod_small. Qed.

Lemma verify_data_loop_same (n : nat) (arg_params : cl_my_params)
  (line_str : string) (rxbuf : list Z) :
  forall i st,
    TBug11.verify_data_loop n arg_params line_str rxbuf i st
    = Tru11.verify_data_loop n arg_params line_str rxbuf i st.
Proof.
  induction n as [|n IH]; intros i st; [reflexivity|].
  cbn [TBug11.verify_data_loop Tru11.verify_data_loop].
  destruct st as [[[a rp] [lm li]] [m ig]].
  destruct (negb (verify_config arg_params) && (a =? HC11_CONFIG_ADDR));
    [apply IH|].
  destruct (substr line_str (2 * i + 8) 2); [|reflexivity].
  destruct (negb (peek rxbuf rp =? u8 (strtoul16 s))); apply IH.
Qed.

Lemma u32_idem (x : Z) : u32 (u32 x) = u32 x.
Proof. unfold u32. apply Z.mod_mod. lia. Qed.

Lemma u32_0 : u32 0 = 0.
Proof. reflexivity. Qed.

(** The tallies of [readmem_verify] for the bytes [i .. i + n - 1] of a
    line that starts at address [a0], the receive buffer being read from its
    start. *)
Lemma verify_data_loop_cases (arg_params : cl_my_params) (line_str : string)
  (rxbuf : list Z) (a0 : Z) (n : nat) :
  forall (i lm li m ig : Z),
    0 <= i -> u32 lm = lm -> u32 li = li -> u32 m = m -> u32 ig = ig ->
    match Tru11.verify_data_loop n arg_params line_str rxbuf i
            (u16 (a0 + i), i, (lm, li), (m, ig)) with
    | Done (a', rp', (lm', li'), (m', ig')) =>
        a' = u16 (a0 + i + Z.of_nat n) /\ rp' = i + Z.of_nat n /\
        li' = u32 (li + count_from (ignored_at arg_params a0) i n) /\
        ig' = u32 (ig + count_from (ignored_at arg_params a0) i n) /\
        lm' = u32 (lm + count_from (mismatch_at arg_params a0
                                      (verify_differs line_str rxbuf)) i n) /\
        m' = u32 (m + count_from (mismatch_at arg_params a0
                                    (verify_differs line_str rxbuf)) i n)
    | Throw e =>
        e = STD_OUT_OF_RANGE /\
        exists k, i <= k < i + Z.of_nat n /\
          ignored_at arg_params a0 k = false /\ size line_str < 2 * k + 8
    | OutOfFuel => False
    end.
Proof.
  induction n as [|n IH]; intros i lm li m ig Hi Hlm Hli Hm Hig.
  - cbn [Tru11.verify_data_loop]. rewrite !count_from_0, !Z.add_0_r.
    repeat split; congruence.
  - cbn [Tru11.verify_data_loop]. rewrite !count_from_S.
    change (negb (verify_config arg_params)
            && (u16 (a0 + i) =? HC11_CONFIG_ADDR))
      with (ignored_at arg_params a0 i).
    assert (Hmm : mismatch_at arg_params a0 (verify_differs line_str rxbuf) i
                  = negb (ignored_at arg_params a0 i)
                    && verify_differs line_str rxbuf i) by reflexivity.
    rewrite Hmm. clear Hmm.
    destruct (ignored_at arg_params a0 i) eqn:Eig; cbn [negb andb].
    + specialize (IH (i + 1) lm (u32 (li + 1)) m (u32 (ig + 1)) ltac:(lia) Hlm
                     (u32_idem _) Hm (u32_idem _)).
      rewrite u16_succ.
      replace (a0 + i + 1) with (a0 + (i + 1)) by lia.
      destruct (Tru11.verify_data_loop n arg_params line_str rxbuf (i + 1) _)
        as [[[[a' rp'] [lm' li']] [m' ig']]|e|]; [| |assumption].
      * destruct IH as (-> & -> & -> & -> & -> & ->).
        rewrite !u32_add_l.
        repeat split; try apply (f_equal u32); try apply (f_equal u16); lia.
      * destruct IH as (-> & k & Hk & Hni & Hsz).
        split; [reflexivity|]. exists k. split; [lia|]. auto.
    + destruct (Z.le_gt_cases (2 * i + 8) (size line_str)) as [Hfit|Hnofit].
      2:{ rewrite substr_none by lia. split; [reflexivity|].
          exists i. split; [lia|]. split; [assumption|lia]. }
      rewrite substr_some by lia.
      change (u8 (strtoul16 (String.substring (Z.to_nat (2 * i + 8))
                               (Z.to_nat 2) line_str)))
        with (srec_data_byte line_str i).
      assert (Hvd : verify_differs line_str rxbuf i
                    = negb (peek rxbuf i =? srec_data_byte line_str i))
        by reflexivity.
      rewrite Hvd. clear Hvd.
      rewrite u16_succ. replace (a0 + i + 1) with (a0 + (i + 1)) by lia.
      destruct (negb (peek rxbuf i =? srec_data_byte line_str i)).
      * specialize (IH (i + 1) (u32 (lm + 1)) li (u32 (m + 1)) ig ltac:(lia)
                       (u32_idem _) Hli (u32_idem _) Hig).
        destruct (Tru11.verify_data_loop n arg_params line_str rxbuf (i + 1) _)
          as [[[[a' rp'] [lm' li']] [m' ig']]|e|]; [| |assumption].
        -- destruct IH as (-> & -> & -> & -> & -> & ->).
           rewrite !u32_add_l.
           repeat split; try apply (f_equal u32); try apply (f_equal u16); lia.
        -- destruct IH as (-> & k & Hk & Hni & Hsz).
           split; [reflexivity|]. exists k. split; [lia|]. auto.
      * specialize (IH (i + 1) lm li m ig ltac:(lia) Hlm Hli Hm Hig).
        destruct (Tru11.verify_data_loop n arg_params line_str rxbuf (i + 1) _)
          as [[[[a' rp'] [lm' li']] [m' ig']]|e|]; [| |assumption].
        -- destruct IH as (-> & -> & -> & -> & -> & ->).
           repeat split; try apply (f_equal u32); try apply (f_equal u16); lia.
        -- destruct IH as (-> & k & Hk & Hni & Hsz).
           split; [reflexivity|]. exists k. split; [lia|]. auto.
Qed.

(** The tallies of the check that follows a write of [writemem_file]. *)
Lemma write_check_loop_spec (arg_params : cl_my_params) (txbuf rxbuf : list Z)
  (a0 : Z) (n : nat) :
  forall (i lm li m ig : Z),
    u32 lm = lm -> u32 li = li -> u32 m = m -> u32 ig = ig ->
    Tru11.write_check_loop n arg_params txbuf rxbuf i
      (u16 (a0 + i), (lm, li), (m, ig))
    = (u16 (a0 + i + Z.of_nat n),
       (u32 (lm + count_from (mismatch_at arg_params a0
                                (write_differs txbuf rxbuf)) i n),
        u32 (li + count_from (ignored_at arg_params a0) i n)),
       (u32 (m + count_from (mismatch_at arg_params a0
                               (write_differs txbuf rxbuf)) i n),
        u32 (ig + count_from (ignored_at arg_params a0) i n))).
Proof.
  induction n as [|n IH]; intros i lm li m ig Hlm Hli Hm Hig.
  - cbn [Tru11.write_check_loop]. rewrite !count_from_0, !Z.add_0_r.
    congruence.
  - cbn [Tru11.write_check_loop]. rewrite !count_from_S.
    change (negb (verify_config arg_params)
            && (u16 (a0 + i) =? HC11_CONFIG_ADDR))
      with (ignored_at arg_params a0 i).
    assert (Hmm : mismatch_at arg_params a0 (write_differs txbuf rxbuf) i
                  = negb (ignored_at arg_params a0 i)
                    && negb (peek txbuf i =? peek rxbuf i)) by reflexivity.
    rewrite Hmm. clear Hmm. rewrite u16_succ.
    replace (a0 + i + 1) with (a0 + (i + 1)) by lia.
    destruct (ignored_at arg_params a0 i); cbn [negb andb].
    + rewrite IH by (try apply u32_idem; assumption).
      rewrite !u32_add_l.
      repeat (f_equal; try lia).
    + destruct (negb (peek txbuf i =? peek rxbuf i)).
      * rewrite IH by (try apply u32_idem; assumption).
        rewrite !u32_add_l. repeat (f_equal; try lia).
      * rewrite IH by assumption. repeat (f_equal; try lia).
Qed.

(** ** The exchange of a command byte *)

Lemma peek_store_one (rxbuf : list Z) (b : Z) :
  (1 <= length rxbuf)%nat -> peek (store rxbuf 0 [b]) 0 = b.
Proof.
  intros H. change (peek (poke rxbuf 0 b) 0 = b). apply peek_poke_same. lia.
Qed.

Section HandshakeFacts.
Context {port : Type} {SC : serial_com port}.

Lemma rx_chunk_one (fuel : nat) (B : Z) (rxbuf : list Z) (p : Z) (d : port) :
  1 <= B ->
  rx_chunk (S fuel) B rxbuf p 1 d =
  let (d1, rep) := read_port d 1 in
  (d1, [EvRead 1 rep],
   match rep with
   | Ret bs => if Z.of_nat (length bs) =? 1 then Done (store rxbuf p bs)
               else Throw (APP_ERROR_RX_FAIL 1 (Z.of_nat (length bs)))
   | Raise c => Throw (SERIAL_COM_ERROR c)
   end).
Proof.
  intros HB. cbn [rx_chunk]. cbn [Z.eqb].
  replace (if 1 >? B then B else 1) with 1 by (destruct (Z.gtb_spec 1 B); lia).
  unfold bind, port_read.
  destruct (read_port d 1) as [d1 [bs|c]]; [|reflexivity].
  destruct (Z.of_nat (length bs) =? 1); cbn [negb]; [|reflexivity].
  replace (1 - 1) with 0 by lia.
  destruct fuel; reflexivity.
Qed.

Lemma tbug11_handshake (fuel : nat) (arg_params : cl_my_params)
  (txbuf rxbuf : list Z) (policy : TBug11.talker_echo_e) (d d' : port)
  (evs : list event) (r : outcome (list Z)) :
  1 <= serial_txbuf_size arg_params -> 1 <= serial_rxbuf_size arg_params ->
  (1 <= length rxbuf)%nat ->
  policy <> TBug11.TALKER_ECHO_IGNORE ->
  TBug11.txrx_chunk (S fuel) arg_params txbuf 0 rxbuf 0 1 policy d = (d', evs, r) ->
  handshake_only
    (match policy with TBug11.TALKER_ECHO_VERIFY_COM => true | _ => false end)
    (peek txbuf 0) rxbuf evs r.
Proof.
  intros HT HR Hlen Hpol. cbn [TBug11.txrx_chunk]. cbn [Z.eqb].
  replace (if 1 >? serial_txbuf_size arg_params
           then serial_txbuf_size arg_params else 1) with 1
    by (destruct (Z.gtb_spec 1 (serial_txbuf_size arg_params)); lia).
  rewrite slice_one. unfold bind at 1. unfold port_write.
  destruct (write_port d [peek txbuf 0]) as [d1 [n|c]].
  2:{ intros H. inversion H; subst. left. left. eexists. split; reflexivity. }
  cbv zeta. destruct (Z.eqb_spec (u32 n) 1) as [E1|Hn]; cbn [negb].
  2:{ intros H. inversion H; subst. left. left. eexists. split; [reflexivity|].
      split; [assumption|reflexivity]. }
  unfold bind at 1. rewrite rx_chunk_one by assumption.
  destruct (read_port d1 1) as [d2 [bs|c]].
  2:{ intros H. inversion H; subst. left. right. exists n. eexists.
    split; [exact E1|]. split; reflexivity. }
  destruct bs as [|b [|b2 bs]].
  - cbn. intros H. inversion H; subst. left. right. exists n. eexists.
    split; [exact E1|]. split; reflexivity.
  - cbn [length Z.of_nat Z.eqb Pos.of_succ_nat Pos.eqb].
    unfold bind at 1. unfold lift at 1.
    replace (1 - 1) with 0 by lia.
    destruct policy; [congruence| |].
    + unfold TBug11.verify_echo_com. cbn [Z.to_nat].
      change (Pos.to_nat 1) with 1%nat.
      cbn [TBug11.verify_echo_com_loop Z.add].
      rewrite peek_store_one by assumption.
      destruct (peek txbuf 0 =? u8_not b) eqn:E; cbn [negb].
      * destruct fuel; cbn; intros H; inversion H; subst;
          right; exists n, b; unfold command_echo_ok;
          (split; [exact E1|split; [reflexivity|split; [assumption|reflexivity]]]).
      * intros H. inversion H; subst. left. right. exists n. eexists.
        split; [exact E1|]. split; [reflexivity|]. unfold command_echo_ok.
        split; [assumption|reflexivity].
    + unfold verify_echo. cbn [Z.to_nat].
      change (Pos.to_nat 1) with 1%nat.
      cbn [verify_echo_loop Z.add].
      rewrite peek_store_one by assumption.
      destruct (peek txbuf 0 =? b) eqn:E; cbn [negb].
      * destruct fuel; cbn; intros H; inversion H; subst;
          right; exists n, b; unfold command_echo_ok;
          (split; [exact E1|split; [reflexivity|split; [assumption|reflexivity]]]).
      * intros H. inversion H; subst. left. right. exists n. eexists.
        split; [exact E1|]. split; [reflexivity|]. unfold command_echo_ok.
        split; [assumption|reflexivity].
  - cbn [length]. intros H.
    destruct (Z.eqb_spec (Z.of_nat (S (S (length bs)))) 1) as [E|E]; [lia|].
    inversion H; subst. left. right. exists n. eexists.
    split; [exact E1|]. split; reflexivity.
Qed.


Lemma tru11_handshake (fuel : nat) (arg_params : cl_my_params)
  (txbuf rxbuf : list Z) (d d' : port)
  (evs : list event) (r : outcome (list Z)) :
  1 <= serial_txbuf_size arg_params -> 1 <= serial_rxbuf_size arg_params ->
  (1 <= length rxbuf)%nat ->
  Tru11.txrx_chunk (S fuel) arg_params txbuf 0 rxbuf 0 1 true d = (d', evs, r) ->
  handshake_only false (peek txbuf 0) rxbuf evs r.
Proof.
  intros HT HR Hlen. cbn [Tru11.txrx_chunk]. cbn [Z.eqb].
  replace (if 1 >? serial_txbuf_size arg_params
           then serial_txbuf_size arg_params else 1) with 1
    by (destruct (Z.gtb_spec 1 (serial_txbuf_size arg_params)); lia).
  rewrite slice_one. unfold bind at 1. unfold port_write.
  destruct (write_port d [peek txbuf 0]) as [d1 [n|c]].
  2:{ intros H. inversion H; subst. left. left. eexists. split; reflexivity. }
  cbv zeta. destruct (Z.eqb_spec (u32 n) 1) as [E1|Hn]; cbn [negb].
  2:{ intros H. inversion H; subst. left. left. eexists. split; [reflexivity|].
      split; [assumption|reflexivity]. }
  unfold bind at 1. rewrite rx_chunk_one by assumption.
  destruct (read_port d1 1) as [d2 [bs|c]].
  2:{ intros H. inversion H; subst. left. right. exists n. eexists.
    split; [exact E1|]. split; reflexivity. }
  destruct bs as [|b [|b2 bs]].
  - cbn. intros H. inversion H; subst. left. right. exists n. eexists.
    split; [exact E1|]. split; reflexivity.
  - cbn [length Z.of_nat Z.eqb Pos.of_succ_nat Pos.eqb].
    unfold bind at 1. unfold lift at 1.
    replace (1 - 1) with 0 by lia.
    unfold verify_echo. cbn [Z.to_nat].
    change (Pos.to_nat 1) with 1%nat.
    cbn [verify_echo_loop Z.add].
    rewrite peek_store_one by assumption.
    destruct (peek txbuf 0 =? b) eqn:E; cbn [negb].
    + destruct fuel; cbn; intros H; inversion H; subst;
        right; exists n, b; unfold command_echo_ok;
        (split; [exact E1|split; [reflexivity|split; [assumption|reflexivity]]]).
    + intros H. inversion H; subst. left. right. exists n. eexists.
      split; [exact E1|]. split; [reflexivity|]. unfold command_echo_ok.
      split; [assumption|reflexivity].
  - cbn [length]. intros H.
    destruct (Z.eqb_spec (Z.of_nat (S (S (length bs)))) 1) as [E|E]; [lia|].
    inversion H; subst. left. right. exists n. eexists.
    split; [exact E1|]. split; reflexivity.
Qed.

(** The first call of a transfer of at least one byte. *)
Lemma tx_chunk_first (fuel : nat) (B : Z) (txbuf : list Z) (p N : Z)
  (d d' : port) (evs : list event) (r : outcome unit) :
  1 <= B -> 1 <= N ->
  tx_chunk (S fuel) B txbuf p N d = (d', evs, r) ->
  exists rep tl, evs = EvWrite (slice txbuf p (Z.min N B)) rep :: tl.
Proof.
  intros HB HN. cbn [tx_chunk].
  destruct (Z.eqb_spec N 0); [lia|].
  replace (if N >? B then B else N) with (Z.min N B)
    by (destruct (Z.gtb_spec N B); lia).
  intros H. apply bind_inv in H.
  destruct H as [(d1 & e1 & x & e2 & Hw & Hk & ->)|[(e & Hw & ->)|[Hw ->]]];
    apply port_write_inv in Hw; destruct Hw as (rep & -> & Hr);
    cbn [app]; eauto.
Qed.

(** What [tx_chunk] has written when it returns. *)
Lemma tx_chunk_done (fuel : nat) (B : Z) (txbuf : list Z) (p N : Z)
  (d d' : port) (evs : list event) :
  1 <= B -> 0 <= N <= Z.of_nat fuel ->
  tx_chunk fuel B txbuf p N d = (d', evs, Done tt) ->
  written evs = slice txbuf p N /\ requested evs = 0 /\ received evs = [] /\ forallb is_write evs = true.
Proof.
  intros HB HN H.
  destruct (tx_chunk_run fuel B txbuf HB p N d d' evs (Done tt) HN H)
    as (rest & Hw & Hs & Hby & _ & Hd & _).
  destruct (Hd eq_refl) as [_ ->]. rewrite app_nil_r in Hs.
  rewrite <- Hs, chunk_sizes_sum in Hby by assumption.
  split; [assumption|]. split; [now apply writes_requested|].
  split; [now apply writes_received|assumption].
Qed.

Lemma tx_chunk_fuel (fuel : nat) (B : Z) (txbuf : list Z) (p N : Z)
  (d d' : port) (evs : list event) (r : outcome unit) :
  1 <= B -> 0 <= N <= Z.of_nat fuel ->
  tx_chunk fuel B txbuf p N d = (d', evs, r) -> r <> OutOfFuel.
Proof.
  intros HB HN H.
  destruct (tx_chunk_run fuel B txbuf HB p N d d' evs r HN H)
    as (rest & _ & _ & _ & Hf & _). assumption.
Qed.

Lemma bind_done {A B} (m : M port A) (k : A -> M port B) (d d' : port)
  (evs : list event) (b : B) :
  bind m k d = (d', evs, Done b) ->
  exists d1 evs1 a evs2,
    m d = (d1, evs1, Done a) /\ k a d1 = (d', evs2, Done b) /\ evs = evs1 ++ evs2.
Proof.
  intros H. apply bind_inv in H.
  destruct H as [H|[(e & _ & H)|[_ H]]]; [assumption|discriminate|discriminate].
Qed.

Lemma bind_fuel {A B} (m : M port A) (k : A -> M port B) (d d' : port)
  (evs : list event) (r : outcome B) :
  (forall d1 evs1 r1, m d = (d1, evs1, r1) -> r1 <> OutOfFuel) ->
  (forall a d1 d2 evs2 r2, k a d1 = (d2, evs2, r2) -> r2 <> OutOfFuel) ->
  bind m k d = (d', evs, r) -> r <> OutOfFuel.
Proof.
  intros Hm Hk H. apply bind_inv in H.
  destruct H as [(d1 & e1 & a & e2 & _ & H & _)|[(e & _ & ->)|[H _]]].
  - eapply Hk; eassumption.
  - discriminate.
  - exfalso. eapply Hm; [eassumption|reflexivity].
Qed.

(** An operation that opens with the exchange of a command byte and goes on
    with a write. *)
Lemma command_first_bind {B} (complement : bool) (cmd : Z) (rxbuf params : list Z)
  (m : M port (list Z)) (k : list Z -> M port B) (d d' : port)
  (evs : list event) (r : outcome B) :
  (forall d1 evs1 r1, m d = (d1, evs1, r1) ->
     handshake_only complement cmd rxbuf evs1 r1) ->
  (forall a d1 d2 evs2 r2, k a d1 = (d2, evs2, r2) ->
     exists rep tl, evs2 = EvWrite params rep :: tl) ->
  bind m k d = (d', evs, r) ->
  command_first complement cmd params evs r.
Proof.
  intros Hm Hk H. apply bind_inv in H.
  destruct H as [(d1 & e1 & a & e2 & H1 & H2 & ->)|[(e & H1 & ->)|[H1 ->]]].
  - apply Hm in H1.
    destruct H1 as [[(rep & _ & Hr)|(n & rep & _ & _ & Hr)]
                   |(n & b & Hn & -> & Hok & _)].
    + destruct rep; [destruct Hr as [_ Hr]|]; discriminate.
    + destruct rep as [[|b [|b2 bs]]|c]; try discriminate.
      destruct Hr as [_ Hr]; discriminate.
    + apply Hk in H2. destruct H2 as (rep & tl & ->).
      right. exists n, b, rep, tl.
      split; [assumption|]. split; [reflexivity|assumption].
  - apply Hm in H1. left.
    destruct H1 as [[(rep & -> & Hr)|(n & rep & Hn & -> & Hr)]
                   |(n & b & _ & _ & _ & Hr)];
      [left; exists rep; (split; [reflexivity|])
      |right; exists n, rep; (split; [assumption|]); (split; [reflexivity|])
      |discriminate].
    + destruct rep; [destruct Hr as [? Hr]; split; [assumption|]|];
        inversion Hr; reflexivity.
    + destruct rep as [[|b [|b2 bs]]|c];
        [|destruct Hr as [? Hr]; split; [assumption|]| |];
        inversion Hr; reflexivity.
  - apply Hm in H1.
    destruct H1 as [[(rep & _ & Hr)|(n & rep & _ & _ & Hr)]
                   |(n & b & _ & _ & _ & Hr)].
    + destruct rep; [destruct Hr as [_ Hr]|]; discriminate.
    + destruct rep as [[|b [|b2 bs]]|c]; try discriminate.
      destruct Hr as [_ Hr]; discriminate.
    + discriminate.
Qed.

(** The three parameter bytes in the transmit buffer. *)
Lemma params_slice (txbuf : list Z) (n hi lo B : Z) :
  (3 <= length txbuf)%nat -> 1 <= B ->
  slice (poke (poke (poke txbuf 0 n) 1 hi) 2 lo) 0 (Z.min 3 B)
  = firstn (Z.to_nat B) [n; hi; lo].
Proof.
  intros Hlen HB.
  assert (H3 : slice (poke (poke (poke txbuf 0 n) 1 hi) 2 lo) 0 3 = [n; hi; lo]).
  { apply (slice_eq_list _ 0 [n; hi; lo]). intros j Hj. cbn [length] in Hj.
    assert (j = 0 \/ j = 1 \/ j = 2) as [-> | [-> | ->]] by lia; cbn [Z.add].
    - rewrite !peek_poke_other by (rewrite ?length_poke; lia).
      rewrite peek_poke_same by lia. reflexivity.
    - rewrite peek_poke_other by (rewrite ?length_poke; lia).
      rewrite peek_poke_same by (rewrite ?length_poke; lia). reflexivity.
    - rewrite peek_poke_same by (rewrite ?length_poke; lia). reflexivity. }
  rewrite (slice_firstn _ 0 (Z.min 3 B) 3) by lia. rewrite H3.
  destruct (Z.le_gt_cases 3 B).
  - rewrite Z.min_l by lia. rewrite !firstn_all2 by (cbn; lia). reflexivity.
  - rewrite Z.min_r by lia. reflexivity.
Qed.

Lemma params_slice_3 (txbuf : list Z) (n hi lo : Z) :
  (3 <= length txbuf)%nat ->
  slice (poke (poke (poke txbuf 0 n) 1 hi) 2 lo) 0 3 = [n; hi; lo].
Proof.
  intros Hlen. pose proof (params_slice txbuf n hi lo 3 Hlen ltac:(lia)) as H.
  exact H.
Qed.

End HandshakeFacts.

(** ** Operations open with a command *)

Lemma u8_idem (x : Z) : u8 (u8 x) = u8 x.
Proof. unfold u8. apply Z.mod_mod. lia. Qed.

Section CommandFacts.
Context {port : Type} {SC : serial_com port}.

Lemma bind_lift_done {A B} (a : A) (k : A -> M port B) (d : port) :
  bind (lift (Done a)) k d = k a d.
Proof.
  unfold bind, lift. destruct (k a d) as [[d2 evs2] r]. reflexivity.
Qed.

Lemma bind_first_write {A B} (m : M port A) (k : A -> M port B)
  (bs : list Z) (d d' : port) (evs : list event) (r : outcome B) :
  (forall d1 evs1 r1, m d = (d1, evs1, r1) ->
     exists rep tl, evs1 = EvWrite bs rep :: tl) ->
  bind m k d = (d', evs, r) -> exists rep tl, evs = EvWrite bs rep :: tl.
Proof.
  intros Hm H. apply bind_inv in H.
  destruct H as [(d1 & e1 & a & e2 & H1 & _ & ->)|[(e & H1 & _)|[H1 _]]];
    apply Hm in H1; destruct H1 as (rep & tl & ->); cbn [app]; eauto.
Qed.

(** The parameters are what the call after the exchange writes. *)
Lemma params_first {B} (fuel : nat) (arg_params : cl_my_params)
  (txbuf : list Z) (n addr : Z) (k : unit -> M port B)
  (d d' : port) (evs : list event) (r : outcome B) :
  1 <= serial_txbuf_size arg_params -> (3 <= length txbuf)%nat ->
  bind (tx_chunk (S fuel) (serial_txbuf_size arg_params)
          (poke (poke (poke txbuf 0 (u8 n)) 1
                   (u8 (Z.land (Z.shiftr addr 8) 0xff))) 2
             (u8 (Z.land addr 0xff))) 0 3) k d = (d', evs, r) ->
  exists rep tl,
    evs = EvWrite (firstn (Z.to_nat (serial_txbuf_size arg_params))
                     (command_params n addr)) rep :: tl.
Proof.
  intros HT Hlen H. eapply bind_first_write; [|exact H].
  intros d1 evs1 r1 H1. apply tx_chunk_first in H1; [|assumption|lia].
  rewrite params_slice in H1 by assumption. exact H1.
Qed.

Lemma accepted_line (line_str : string) :
  size line_str >= 8 ->
  (size line_str >=? 8) = true /\
  substr line_str 4 4 = Some (String.substring 4 4 line_str) /\
  substr line_str 2 2 = Some (String.substring 2 2 line_str).
Proof.
  intros H. split; [apply Z.geb_le; lia|].
  split; apply substr_some; lia.
Qed.

Lemma min_chunk (remaining : Z) :
  (if remaining >? TALKER_MAX_BYTE_COUNT then TALKER_MAX_BYTE_COUNT else remaining)
  = Z.min remaining 256.
Proof.
  unfold TALKER_MAX_BYTE_COUNT. destruct (Z.gtb_spec remaining 256); lia.
Qed.

Lemma tbug11_readmem_command_first (fuel : nat) (arg_params : cl_my_params)
  (txbuf rxbuf : list Z) (addr remaining : Z) (d d' : port)
  (evs : list event) r :
  1 <= serial_txbuf_size arg_params -> 1 <= serial_rxbuf_size arg_params ->
  (3 <= length txbuf)%nat -> (1 <= length rxbuf)%nat ->
  TBug11.readmem_command (S fuel) arg_params addr remaining txbuf rxbuf d
  = (d', evs, r) ->
  command_first true TBug11.TALKER_READ_CMD
    (firstn (Z.to_nat (serial_txbuf_size arg_params))
       (command_params (Z.min remaining 256) addr)) evs r.
Proof.
  intros HT HR Htx Hrx H. unfold TBug11.readmem_command in H.
  rewrite min_chunk in H.
  eapply command_first_bind; [| |exact H].
  - intros d1 evs1 r1 H1. apply tbug11_handshake in H1; try assumption;
      [|discriminate].
    rewrite peek_poke_same in H1 by lia. exact H1.
  - intros a d1 d2 evs2 r2 H2. cbv beta in H2.
    eapply params_first; [assumption| |exact H2].
    rewrite length_poke. assumption.
Qed.

Lemma tbug11_verify_line_first (fuel : nat) (arg_params : cl_my_params)
  (txbuf rxbuf : list Z) (line_str : string) (t : tally) (d d' : port)
  (evs : list event) r :
  1 <= serial_txbuf_size arg_params -> 1 <= serial_rxbuf_size arg_params ->
  (3 <= length txbuf)%nat -> (1 <= length rxbuf)%nat ->
  size line_str >= 8 -> is_S1 line_str = true ->
  TBug11.readmem_verify_line (S fuel) arg_params line_str txbuf rxbuf t d
  = (d', evs, r) ->
  command_first true TBug11.TALKER_READ_CMD
    (firstn (Z.to_nat (serial_txbuf_size arg_params))
       (command_params (srec_count line_str) (srec_address line_str))) evs r.
Proof.
  intros HT HR Htx Hrx Hsz HS1 H. unfold TBug11.readmem_verify_line in H.
  destruct (accepted_line line_str Hsz) as (E8 & E4 & E2).
  rewrite E8, HS1, E4, E2, !bind_lift_done in H.
  eapply command_first_bind; [| |exact H].
  - intros d1 evs1 r1 H1. apply tbug11_handshake in H1; try assumption;
      [|discriminate].
    rewrite peek_poke_same in H1 by lia. exact H1.
  - intros a d1 d2 evs2 r2 H2. cbv beta in H2.
    eapply params_first; [assumption| |exact H2].
    rewrite length_poke. assumption.
Qed.

Lemma tbug11_writemem_byte_first (fuel : nat) (arg_params : cl_my_params)
  (addr value : Z) (d d' : port) (evs : list event) r :
  1 <= serial_txbuf_size arg_params -> 1 <= serial_rxbuf_size arg_params ->
  TBug11.writemem_byte (S fuel) arg_params addr value d = (d', evs, r) ->
  command_first true TBug11.TALKER_WRITE_CMD
    (firstn (Z.to_nat (serial_txbuf_size arg_params))
       (command_params 1 addr)) evs r.
Proof.
  intros HT HR H. unfold TBug11.writemem_byte in H.
  eapply command_first_bind; [| |exact H].
  - intros d1 evs1 r1 H1. apply tbug11_handshake in H1; try assumption;
      [|cbn; lia|discriminate].
    rewrite peek_poke_same in H1 by (cbn; lia). exact H1.
  - intros a d1 d2 evs2 r2 H2. cbv beta in H2.
    change 1 with (u8 1) in H2 at 2.
    eapply params_first; [assumption| |exact H2].
    rewrite length_poke. cbn. lia.
Qed.

Lemma tru11_readmem_loop_first (fuel : nat) (arg_params : cl_my_params)
  (txbuf rxbuf : list Z) (e : srec_writer) (addr remaining : Z) (d d' : port)
  (evs : list event) r :
  1 <= serial_txbuf_size arg_params -> 1 <= serial_rxbuf_size arg_params ->
  (3 <= length txbuf)%nat -> (1 <= length rxbuf)%nat ->
  remaining <> 0 ->
  Tru11.readmem_loop (S fuel) arg_params e addr remaining txbuf rxbuf d
  = (d', evs, r) ->
  command_first false Tru11.TALKER_READ_CMD
    (firstn (Z.to_nat (serial_txbuf_size arg_params))
       (command_params (Z.min remaining 256) addr)) evs r.
Proof.
  intros HT HR Htx Hrx Hrem H. cbn [Tru11.readmem_loop] in H.
  destruct (Z.eqb_spec remaining 0); [contradiction|].
  rewrite min_chunk in H.
  eapply command_first_bind; [| |exact H].
  - intros d1 evs1 r1 H1. apply tru11_handshake in H1; try assumption.
    rewrite peek_poke_same in H1 by lia. exact H1.
  - intros a d1 d2 evs2 r2 H2. cbv beta in H2.
    eapply params_first; [assumption| |exact H2].
    rewrite length_poke. assumption.
Qed.

Lemma tru11_verify_line_first (fuel : nat) (arg_params : cl_my_params)
  (txbuf rxbuf : list Z) (line_str : string) (t : tally) (d d' : port)
  (evs : list event) r :
  1 <= serial_txbuf_size arg_params -> 1 <= serial_rxbuf_size arg_params ->
  (3 <= length txbuf)%nat -> (1 <= length rxbuf)%nat ->
  size line_str >= 8 -> is_S1 line_str = true ->
  Tru11.readmem_verify_line (S fuel) arg_params line_str txbuf rxbuf t d
  = (d', evs, r) ->
  command_first false Tru11.TALKER_READ_CMD
    (firstn (Z.to_nat (serial_txbuf_size arg_params))
       (command_params (srec_count line_str) (srec_address line_str))) evs r.
Proof.
  intros HT HR Htx Hrx Hsz HS1 H. unfold Tru11.readmem_verify_line in H.
  destruct (accepted_line line_str Hsz) as (E8 & E4 & E2).
  rewrite E8, HS1, E4, E2, !bind_lift_done in H.
  eapply command_first_bind; [| |exact H].
  - intros d1 evs1 r1 H1. apply tru11_handshake in H1; try assumption.
    rewrite peek_poke_same in H1 by lia. exact H1.
  - intros a d1 d2 evs2 r2 H2. cbv beta in H2.
    eapply params_first; [assumption| |exact H2].
    rewrite length_poke. assumption.
Qed.

Lemma tru11_write_line_first (fuel : nat) (arg_params : cl_my_params)
  (arg_write_cmd_code : Z)
  (txbuf rxbuf : list Z) (line_str : string) (t : tally) (d d' : port)
  (evs : list event) r :
  1 <= serial_txbuf_size arg_params -> 1 <= serial_rxbuf_size arg_params ->
  (3 <= length txbuf)%nat -> (1 <= length rxbuf)%nat ->
  size line_str >= 8 -> is_S1 line_str = true ->
  Tru11.writemem_file_line (S fuel) arg_params arg_write_cmd_code line_str
    txbuf rxbuf t d = (d', evs, r) ->
  command_first false arg_write_cmd_code
    (firstn (Z.to_nat (serial_txbuf_size arg_params))
       (command_params (srec_count line_str) (srec_address line_str))) evs r.
Proof.
  intros HT HR Htx Hrx Hsz HS1 H. unfold Tru11.writemem_file_line in H.
  destruct (accepted_line line_str Hsz) as (E8 & E4 & E2).
  rewrite E8, HS1, E4, E2, !bind_lift_done in H.
  eapply command_first_bind; [| |exact H].
  - intros d1 evs1 r1 H1. apply tru11_handshake in H1; try assumption.
    rewrite peek_poke_same in H1 by lia. exact H1.
  - intros a d1 d2 evs2 r2 H2. cbv beta in H2.
    eapply params_first; [assumption| |exact H2].
    rewrite length_poke. assumption.
Qed.

Lemma tbug11_hexstr_loop_first (fuel : nat) (arg_params : cl_my_params)
  (data : string) (txbuf rxbuf : list Z) (addr remaining : Z) (d d' : port)
  (evs : list event) r :
  1 <= serial_txbuf_size arg_params -> 1 <= serial_rxbuf_size arg_params ->
  (3 <= length txbuf)%nat -> (1 <= length rxbuf)%nat ->
  remaining <> 0 ->
  TBug11Ops.writemem_hexstr_loop (S fuel) arg_params data addr remaining
    txbuf rxbuf d = (d', evs, r) ->
  command_first true TBug11.TALKER_WRITE_CMD
    (firstn (Z.to_nat (serial_txbuf_size arg_params))
       (command_params (u8 (Z.min remaining 256)) addr)) evs r.
Proof.
  intros HT HR Htx Hrx Hrem H. cbn [TBug11Ops.writemem_hexstr_loop] in H.
  destruct (Z.eqb_spec remaining 0); [contradiction|].
  rewrite min_chunk in H.
  eapply command_first_bind; [| |exact H].
  - intros d1 evs1 r1 H1. apply tbug11_handshake in H1; try assumption;
      [|discriminate].
    rewrite peek_poke_same in H1 by lia. exact H1.
  - intros a d1 d2 evs2 r2 H2. cbv beta in H2.
    eapply params_first; [assumption| |exact H2].
    rewrite length_poke. assumption.
Qed.

Lemma tbug11_write_line_first (fuel : nat) (arg_params : cl_my_params)
  (txbuf rxbuf : list Z) (line_str : string) (d d' : port)
  (evs : list event) r :
  1 <= serial_txbuf_size arg_params -> 1 <= serial_rxbuf_size arg_params ->
  (3 <= length txbuf)%nat -> (1 <= length rxbuf)%nat ->
  size line_str >= 8 -> is_S1 line_str = true ->
  TBug11Ops.writemem_file_line (S fuel) arg_params line_str txbuf rxbuf d
  = (d', evs, r) ->
  command_first true TBug11.TALKER_WRITE_CMD
    (firstn (Z.to_nat (serial_txbuf_size arg_params))
       (command_params (srec_count line_str) (srec_address line_str))) evs r.
Proof.
  intros HT HR Htx Hrx Hsz HS1 H. unfold TBug11Ops.writemem_file_line in H.
  destruct (accepted_line line_str Hsz) as (E8 & E4 & E2).
  rewrite E8, HS1, E4, E2, !bind_lift_done in H.
  eapply command_first_bind; [| |exact H].
  - intros d1 evs1 r1 H1. apply tbug11_handshake in H1; try assumption;
      [|discriminate].
    rewrite peek_poke_same in H1 by lia. exact H1.
  - intros a d1 d2 evs2 r2 H2. cbv beta in H2.
    eapply params_first; [assumption| |exact H2].
    rewrite length_poke. assumption.
Qed.

Lemma tru11_hexstr_loop_first (fuel : nat) (arg_params : cl_my_params)
  (arg_write_cmd_code : Z)
  (data : string) (txbuf rxbuf : list Z) (addr remaining : Z) (d d' : port)
  (evs : list event) r :
  1 <= serial_txbuf_size arg_params -> 1 <= serial_rxbuf_size arg_params ->
  (3 <= length txbuf)%nat -> (1 <= length rxbuf)%nat ->
  remaining <> 0 ->
  Tru11Ops.writemem_hexstr_loop (S fuel) arg_params arg_write_cmd_code data addr
    remaining txbuf rxbuf d = (d', evs, r) ->
  command_first false arg_write_cmd_code
    (firstn (Z.to_nat (serial_txbuf_size arg_params))
       (command_params (u8 (Z.min remaining 256)) addr)) evs r.
Proof.
  intros HT HR Htx Hrx Hrem H. cbn [Tru11Ops.writemem_hexstr_loop] in H.
  destruct (Z.eqb_spec remaining 0); [contradiction|].
  rewrite min_chunk in H.
  eapply command_first_bind; [| |exact H].
  - intros d1 evs1 r1 H1. apply tru11_handshake in H1; try assumption.
    rewrite peek_poke_same in H1 by lia. exact H1.
  - intros a d1 d2 evs2 r2 H2. cbv beta in H2.
    eapply params_first; [assumption| |exact H2].
    rewrite length_poke. assumption.
Qed.

End CommandFacts.

(** ** What an operation moves over the line *)

Lemma forallb_is_io_app (e1 e2 : list event) :
  forallb is_io (e1 ++ e2) = forallb is_io e1 && forallb is_io e2.
Proof. apply forallb_app. Qed.

Lemma writes_io (evs : list event) :
  forallb is_write evs = true -> forallb is_io evs = true.
Proof.
  intros H. rewrite forallb_forall in *. intros x Hx. unfold is_io.
  rewrite (H x Hx). reflexivity.
Qed.

Lemma reads_io (evs : list event) :
  forallb is_read evs = true -> forallb is_io evs = true.
Proof.
  intros H. rewrite forallb_forall in *. intros x Hx. unfold is_io.
  rewrite (H x Hx). apply orb_true_r.
Qed.

Section MovesFacts.
Context {port : Type} {SC : serial_com port}.

Lemma Moves_ret {A} (a : A) : Moves (ret a) [] 0.
Proof.
  intros d d' evs r H. apply ret_inv in H. destruct H as (_ & -> & ->).
  repeat split; try discriminate; cbn; try lia. exists []. reflexivity.
Qed.

(** An operation that fails at once moves nothing. *)
Lemma Moves_throw {A} (e : tru_exception) (X : list Z) (n : Z) :
  0 <= n -> Moves (throw e : M port A) X n.
Proof.
  intros Hn d d' evs r H. unfold throw in H. inversion H; subst.
  split; [discriminate|]. split; [exists X; reflexivity|].
  split; [cbn; lia|]. split; [|reflexivity].
  intros [a Ha]; discriminate.
Qed.

Lemma Moves_lift {A} (o : outcome A) :
  o <> OutOfFuel -> Moves (lift o) [] 0.
Proof.
  intros Ho d d' evs r H. apply lift_inv in H. destruct H as (_ & -> & ->).
  split; [assumption|]. split; [exists []; reflexivity|].
  split; [cbn; lia|]. split; [|reflexivity]. intros _. split; reflexivity.
Qed.

Lemma Moves_bind_post {A B} (P : A -> Prop) (m : M port A) (k : A -> M port B)
  (X Y : list Z) (n1 n2 : Z) :
  0 <= n2 ->
  Moves m X n1 ->
  (forall d d' evs a, m d = (d', evs, Done a) -> P a) ->
  (forall a, P a -> Moves (k a) Y n2) ->
  Moves (bind m k) (X ++ Y) (n1 + n2).
Proof.
  intros Hn2 Hm HP Hk d d' evs r H. apply bind_inv in H.
  destruct H as [(d1 & e1 & a & e2 & H1 & H2 & ->)|[(e & H1 & ->)|[H1 ->]]].
  - pose proof (HP _ _ _ _ H1) as Ha.
    apply Hm in H1. apply (Hk a Ha) in H2.
    destruct H1 as (_ & _ & Hq1 & Hd1 & Hio1).
    destruct (Hd1 (ex_intro _ a eq_refl)) as [Hw1 Hr1].
    destruct H2 as (Hf2 & (rest & Hp2) & Hq2 & Hd2 & Hio2).
    split; [assumption|].
    rewrite written_app, requested_app, forallb_is_io_app, Hio1, Hio2, Hw1, Hr1.
    split; [exists rest; rewrite Hp2, app_assoc; reflexivity|].
    split; [lia|]. split; [|reflexivity].
    intros Hd. destruct (Hd2 Hd) as [-> ->]. split; reflexivity.
  - apply Hm in H1. destruct H1 as (_ & (rest & Hp) & Hq & _ & Hio).
    split; [discriminate|].
    split; [exists (rest ++ Y); rewrite Hp, app_assoc; reflexivity|].
    split; [lia|]. split; [|assumption].
    intros [b Hb]; discriminate.
  - apply Hm in H1. destruct H1 as (Hf & _). contradiction.
Qed.

Lemma Moves_bind {A B} (m : M port A) (k : A -> M port B)
  (X Y : list Z) (n1 n2 : Z) :
  0 <= n2 ->
  Moves m X n1 -> (forall a, Moves (k a) Y n2) ->
  Moves (bind m k) (X ++ Y) (n1 + n2).
Proof.
  intros Hn2 Hm Hk.
  apply (Moves_bind_post (fun _ => True)); auto.
Qed.

(** The same with the numbers and the bytes given up to equality. *)
Lemma Moves_eq {A} (m : M port A) (X X' : list Z) (n n' : Z) :
  Moves m X n -> X = X' -> n = n' -> Moves m X' n'.
Proof. intros H -> ->. exact H. Qed.

Lemma Moves_tx_chunk (fuel : nat) (B : Z) (txbuf : list Z) (p N : Z) :
  1 <= B -> 0 <= N <= Z.of_nat fuel ->
  Moves (tx_chunk fuel B txbuf p N) (slice txbuf p N) 0.
Proof.
  intros HB HN d d' evs r H.
  pose proof (chunk_sizes_sum fuel N B HB HN) as Hsum.
  pose proof (chunk_sizes_bound fuel N B HB) as Hbound.
  destruct (tx_chunk_run fuel B txbuf HB p N d d' evs r HN H)
    as (rest & Hw & Hs & Hby & Hf & Hd & _).
  assert (Hrest : 0 <= Zsum rest).
  { rewrite Hs in Hbound. apply Forall_app in Hbound. destruct Hbound as [_ Hb].
    clear - Hb. induction Hb; simpl; lia. }
  rewrite Hs, Zsum_app in Hsum.
  pose proof (writes_size_nonneg evs Hw) as Hnn.
  split; [assumption|].
  split.
  { exists (slice txbuf (p + Zsum (map ev_size evs)) (Zsum rest)).
    rewrite Hby, <- slice_app by lia. f_equal. lia. }
  rewrite (writes_requested evs Hw).
  split; [lia|]. split; [|now apply writes_io].
  intros [[] Hdone]. destruct (Hd Hdone) as [_ ->]. cbn in Hsum.
  split; [|reflexivity]. rewrite Hby. f_equal. lia.
Qed.

Lemma Moves_rx_chunk (fuel : nat) (B : Z) (rxbuf : list Z) (p N : Z) :
  1 <= B -> 0 <= N <= Z.of_nat fuel -> 0 <= p ->
  p + N <= Z.of_nat (length rxbuf) ->
  Moves (rx_chunk fuel B rxbuf p N) [] N.
Proof.
  intros HB HN Hp Hlen d d' evs r H.
  destruct (rx_chunk_run fuel B HB rxbuf p N d d' evs r HN Hp Hlen H)
    as (Hrd & Hf & Hq & Hd & _).
  split; [assumption|]. rewrite (reads_written evs Hrd).
  split; [exists []; reflexivity|]. split; [assumption|].
  split; [|now apply reads_io].
  intros [a Ha]. destruct (Hd a Ha) as (_ & Hreq & _). split; [reflexivity|assumption].
Qed.

(** The receive buffer keeps its length. *)
Lemma rx_chunk_length (fuel : nat) (B : Z) (rxbuf : list Z) (p N : Z)
  (d d' : port) (evs : list event) (rxbuf' : list Z) :
  1 <= B -> 0 <= N <= Z.of_nat fuel -> 0 <= p ->
  p + N <= Z.of_nat (length rxbuf) ->
  rx_chunk fuel B rxbuf p N d = (d', evs, Done rxbuf') ->
  length rxbuf' = length rxbuf.
Proof.
  intros HB HN Hp Hlen H.
  destruct (rx_chunk_run fuel B HB rxbuf p N d d' evs _ HN Hp Hlen H)
    as (_ & _ & _ & Hd & _).
  destruct (Hd rxbuf' eq_refl) as (_ & _ & _ & Hl & _). assumption.
Qed.

Lemma Moves_port_write (bs : list Z) : Moves (port_write bs) bs 0.
Proof.
  intros d d' evs r H. apply port_write_inv in H.
  destruct H as (rep & -> & ->).
  split; [destruct rep; discriminate|]. cbn. rewrite app_nil_r.
  split; [exists []; now rewrite app_nil_r|]. split; [lia|].
  split; [intros _; split; reflexivity|reflexivity].
Qed.


Lemma verify_echo_fuel (tx : list Z) (tp : Z) (rx : list Z) (rp len : Z) :
  verify_echo tx tp rx rp len <> OutOfFuel.
Proof.
  destruct (verify_echo_cases tx tp rx rp len) as [[-> _]|(j & _ & _ & _ & ->)];
    discriminate.
Qed.

Lemma verify_echo_com_fuel (tx : list Z) (tp : Z) (rx : list Z) (rp len : Z) :
  TBug11.verify_echo_com tx tp rx rp len <> OutOfFuel.
Proof.
  destruct (verify_echo_com_cases tx tp rx rp len)
    as [[-> _]|(j & _ & _ & _ & ->)]; discriminate.
Qed.

(** The rounds of a transfer with echo: write a chunk, read as many bytes,
    check them, go on. *)
Lemma Moves_round {A} (fuel : nat) (B c N : Z) (txbuf rxbuf : list Z) (p rp : Z)
  (check : list Z -> outcome unit) (next : list Z -> M port A) :
  1 <= B -> 1 <= c <= N -> c <= Z.of_nat fuel -> 0 <= rp ->
  rp + N <= Z.of_nat (length rxbuf) ->
  (forall rxbuf', check rxbuf' <> OutOfFuel) ->
  (forall rxbuf', length rxbuf' = length rxbuf ->
     Moves (next rxbuf') (slice txbuf (p + c) (N - c)) (N - c)) ->
  Moves (bind (port_write (slice txbuf p c))
           (fun count =>
              if negb (u32 count =? c)
              then throw (APP_ERROR_TX_FAIL c (u32 count))
              else bind (rx_chunk fuel B rxbuf rp c)
                     (fun rxbuf' => bind (lift (check rxbuf'))
                                      (fun _ => next rxbuf'))))
    (slice txbuf p N) N.
Proof.
  intros HB Hc Hfuel Hrp Hlen Hcheck Hnext.
  eapply Moves_eq.
  - apply (Moves_bind _ _ (slice txbuf p c) (slice txbuf (p + c) (N - c)) 0 N);
      [lia|apply Moves_port_write|].
    intros x. destruct (negb (u32 x =? c)); [apply Moves_throw; lia|].
    eapply Moves_eq.
    + apply (Moves_bind_post (fun rxbuf' => length rxbuf' = length rxbuf)
               _ _ [] (slice txbuf (p + c) (N - c)) c (N - c)); [lia| | |].
      * apply Moves_rx_chunk; lia.
      * intros d d' evs a H. eapply rx_chunk_length; [| | | |exact H]; lia.
      * intros rxbuf' Hl. eapply Moves_eq.
        -- apply (Moves_bind _ _ [] (slice txbuf (p + c) (N - c)) 0 (N - c));
             [lia|apply Moves_lift; apply Hcheck|].
           intros _. apply Hnext. assumption.
        -- reflexivity.
        -- lia.
    + reflexivity.
    + lia.
  - rewrite <- slice_app by lia. f_equal. lia.
  - lia.
Qed.

Lemma slice_0 (buf : list Z) (p : Z) : slice buf p 0 = [].
Proof. reflexivity. Qed.

Lemma Moves_tbug11_txrx_chunk (arg_params : cl_my_params) (txbuf : list Z)
  (policy : TBug11.talker_echo_e) (fuel : nat) :
  1 <= serial_txbuf_size arg_params -> 1 <= serial_rxbuf_size arg_params ->
  forall (rxbuf : list Z) (p rp N : Z),
    0 <= N <= Z.of_nat fuel -> 0 <= rp -> rp + N <= Z.of_nat (length rxbuf) ->
    Moves (TBug11.txrx_chunk fuel arg_params txbuf p rxbuf rp N policy)
      (slice txbuf p N) N.
Proof.
  intros HT HR. induction fuel as [|fuel IH]; intros rxbuf p rp N HN Hrp Hlen.
  - assert (N = 0) by lia. subst N. cbn. apply (Moves_ret rxbuf).
  - cbn [TBug11.txrx_chunk]. destruct (Z.eqb_spec N 0) as [->|HN0].
    + apply (Moves_ret rxbuf).
    + pose proof (chunklen_range N (serial_txbuf_size arg_params) HT ltac:(lia)) as Hc.
      set (c := if N >? serial_txbuf_size arg_params
                then serial_txbuf_size arg_params else N) in *.
      apply (Moves_round (S fuel) (serial_rxbuf_size arg_params) c N txbuf rxbuf
               p rp
               (fun rxbuf' => match policy with
                  | TBug11.TALKER_ECHO_VERIFY => verify_echo txbuf p rxbuf' rp c
                  | TBug11.TALKER_ECHO_VERIFY_COM =>
                      TBug11.verify_echo_com txbuf p rxbuf' rp c
                  | TBug11.TALKER_ECHO_IGNORE => Done tt end)
               (fun rxbuf' => TBug11.txrx_chunk fuel arg_params txbuf (p + c)
                                rxbuf' (rp + c) (N - c) policy));
        try lia.
      * intros rxbuf'. destruct policy;
          [discriminate|apply verify_echo_com_fuel|apply verify_echo_fuel].
      * intros rxbuf' Hl. apply IH; lia.
Qed.

Lemma Moves_tru11_txrx_chunk (arg_params : cl_my_params) (txbuf : list Z)
  (arg_verify_echo : bool) (fuel : nat) :
  1 <= serial_txbuf_size arg_params -> 1 <= serial_rxbuf_size arg_params ->
  forall (rxbuf : list Z) (p rp N : Z),
    0 <= N <= Z.of_nat fuel -> 0 <= rp -> rp + N <= Z.of_nat (length rxbuf) ->
    Moves (Tru11.txrx_chunk fuel arg_params txbuf p rxbuf rp N arg_verify_echo)
      (slice txbuf p N) N.
Proof.
  intros HT HR. induction fuel as [|fuel IH]; intros rxbuf p rp N HN Hrp Hlen.
  - assert (N = 0) by lia. subst N. cbn. apply (Moves_ret rxbuf).
  - cbn [Tru11.txrx_chunk]. destruct (Z.eqb_spec N 0) as [->|HN0].
    + apply (Moves_ret rxbuf).
    + pose proof (chunklen_range N (serial_txbuf_size arg_params) HT ltac:(lia)) as Hc.
      set (c := if N >? serial_txbuf_size arg_params
                then serial_txbuf_size arg_params else N) in *.
      apply (Moves_round (S fuel) (serial_rxbuf_size arg_params) c N txbuf rxbuf
               p rp
               (fun rxbuf' => if arg_verify_echo
                              then verify_echo txbuf p rxbuf' rp c else Done tt)
               (fun rxbuf' => Tru11.txrx_chunk fuel arg_params txbuf (p + c)
                                rxbuf' (rp + c) (N - c) arg_verify_echo));
        try lia.
      * intros rxbuf'. destruct arg_verify_echo;
          [apply verify_echo_fuel|discriminate].
      * intros rxbuf' Hl. apply IH; lia.
Qed.

End MovesFacts.

(** ** Writing the EEPROM *)

Lemma u16_idem (x : Z) : u16 (u16 x) = u16 x.
Proof. unfold u16. apply Z.mod_mod. lia. Qed.

Lemma srec_count_range (line_str : string) : 0 <= srec_count line_str < 256.
Proof. unfold srec_count. apply u8_range. Qed.

Lemma line_count_range (line_str : string) : 0 <= line_count line_str < 256.
Proof.
  unfold line_count. destruct (accepted line_str); [apply srec_count_range|lia].
Qed.

Lemma file_count_nonneg (in_file : list string) : 0 <= file_count in_file.
Proof.
  induction in_file as [|l rest IH].
  - cbn. lia.
  - change (0 <= line_count l + file_count rest).
    pose proof (line_count_range l). lia.
Qed.

Lemma moves_nothing {A} (X : list Z) (n : Z) (e : tru_exception) :
  0 <= n -> moves X n [] (Throw e : outcome A).
Proof.
  intros Hn. split; [discriminate|]. split; [exists X; reflexivity|].
  split; [cbn; lia|]. split; [|reflexivity]. intros [a Ha]; discriminate.
Qed.

Section EepromFacts.
Context {port : Type} {SC : serial_com port}.

Lemma bind_lift_throw {A B} (e : tru_exception) (k : A -> M port B) (d : port) :
  bind (lift (Throw e)) k d = (d, [], Throw e).
Proof. reflexivity. Qed.

Lemma tbug11_txrx_chunk_length (arg_params : cl_my_params) (txbuf : list Z)
  (policy : TBug11.talker_echo_e) (fuel : nat) :
  1 <= serial_txbuf_size arg_params -> 1 <= serial_rxbuf_size arg_params ->
  forall (rxbuf : list Z) (p rp N : Z) (d d' : port) (evs : list event)
         (rxbuf' : list Z),
    0 <= N <= Z.of_nat fuel -> 0 <= rp -> rp + N <= Z.of_nat (length rxbuf) ->
    TBug11.txrx_chunk fuel arg_params txbuf p rxbuf rp N policy d
    = (d', evs, Done rxbuf') ->
    length rxbuf' = length rxbuf.
Proof.
  intros HT HR. induction fuel as [|fuel IH];
    intros rxbuf p rp N d d' evs rxbuf' HN Hrp Hlen H.
  - assert (N = 0) by lia. subst N. cbn in H. inversion H. reflexivity.
  - cbn [TBug11.txrx_chunk] in H. destruct (Z.eqb_spec N 0) as [->|HN0].
    + inversion H. reflexivity.
    + pose proof (chunklen_range N (serial_txbuf_size arg_params) HT ltac:(lia)) as Hc.
      set (c := if N >? serial_txbuf_size arg_params
                then serial_txbuf_size arg_params else N) in *.
      apply bind_done in H. destruct H as (d1 & e1 & x & e2 & _ & H & _).
      destruct (negb (u32 x =? c)); [discriminate|].
      apply bind_done in H. destruct H as (d2 & e3 & rx1 & e4 & H1 & H & _).
      apply rx_chunk_length in H1; try lia.
      apply bind_done in H. destruct H as (d3 & e5 & [] & e6 & _ & H & _).
      apply IH in H; lia.
Qed.

Lemma tru11_txrx_chunk_length (arg_params : cl_my_params) (txbuf : list Z)
  (arg_verify_echo : bool) (fuel : nat) :
  1 <= serial_txbuf_size arg_params -> 1 <= serial_rxbuf_size arg_params ->
  forall (rxbuf : list Z) (p rp N : Z) (d d' : port) (evs : list event)
         (rxbuf' : list Z),
    0 <= N <= Z.of_nat fuel -> 0 <= rp -> rp + N <= Z.of_nat (length rxbuf) ->
    Tru11.txrx_chunk fuel arg_params txbuf p rxbuf rp N arg_verify_echo d
    = (d', evs, Done rxbuf') ->
    length rxbuf' = length rxbuf.
Proof.
  intros HT HR. induction fuel as [|fuel IH];
    intros rxbuf p rp N d d' evs rxbuf' HN Hrp Hlen H.
  - assert (N = 0) by lia. subst N. cbn in H. inversion H. reflexivity.
  - cbn [Tru11.txrx_chunk] in H. destruct (Z.eqb_spec N 0) as [->|HN0].
    + inversion H. reflexivity.
    + pose proof (chunklen_range N (serial_txbuf_size arg_params) HT ltac:(lia)) as Hc.
      set (c := if N >? serial_txbuf_size arg_params
                then serial_txbuf_size arg_params else N) in *.
      apply bind_done in H. destruct H as (d1 & e1 & x & e2 & _ & H & _).
      destruct (negb (u32 x =? c)); [discriminate|].
      apply bind_done in H. destruct H as (d2 & e3 & rx1 & e4 & H1 & H & _).
      apply rx_chunk_length in H1; try lia.
      apply bind_done in H. destruct H as (d3 & e5 & [] & e6 & _ & H & _).
      apply IH in H; lia.
Qed.

Lemma Moves_writemem_byte (fuel : nat) (arg_params : cl_my_params)
  (addr value : Z) :
  1 <= serial_txbuf_size arg_params -> 1 <= serial_rxbuf_size arg_params ->
  (3 <= fuel)%nat ->
  Moves (TBug11.writemem_byte fuel arg_params addr value)
    (write_byte_bytes addr value) 2.
Proof.
  intros HT HR Hfuel. unfold TBug11.writemem_byte.
  set (tx1 := poke [0; 0; 0] 0 TBug11.TALKER_WRITE_CMD).
  set (tx2 := poke (poke (poke tx1 0 1) 1 (u8 (Z.land (Z.shiftr addr 8) 255)))
                2 (u8 (Z.land addr 255))).
  set (tx3 := poke tx2 0 value).
  eapply Moves_eq.
  - apply (Moves_bind_post (fun rx1 => length rx1 = 1%nat) _ _ (slice tx1 0 1)
             (slice tx2 0 3 ++ slice tx3 0 1 ++ []) 1 (0 + (1 + 0))); [lia| | |].
    + apply Moves_tbug11_txrx_chunk; try assumption; try lia; cbn; lia.
    + intros d d' evs rx1 H.
      apply tbug11_txrx_chunk_length in H; try assumption; try lia; cbn; lia.
    + intros rx1 Hrx1.
      apply (Moves_bind _ _ (slice tx2 0 3) (slice tx3 0 1 ++ []) 0 (1 + 0));
        [lia| |].
      * apply Moves_tx_chunk; [assumption|lia].
      * intros _.
        apply (Moves_bind _ _ (slice tx3 0 1) [] 1 0); [lia| |].
        -- apply Moves_tbug11_txrx_chunk; try assumption; try lia.
        -- intros rx2. apply Moves_ret.
  - reflexivity.
  - reflexivity.
Qed.


Lemma Moves_ee_sequence (fuel : nat) (arg_params : cl_my_params)
  (c1 c2 addr byte : Z) :
  1 <= serial_txbuf_size arg_params -> 1 <= serial_rxbuf_size arg_params ->
  (3 <= fuel)%nat ->
  Moves (bind (TBug11.writemem_byte fuel arg_params 0x103b c1) (fun _ =>
         bind (TBug11.writemem_byte fuel arg_params addr byte) (fun _ =>
         bind (TBug11.writemem_byte fuel arg_params 0x103b c2) (fun _ =>
         bind TBug11.erase_prog_delay (fun _ =>
         TBug11.writemem_byte fuel arg_params 0x103b 0x00)))))
    (ee_sequence c1 c2 addr byte) 8.
Proof.
  intros HT HR Hfuel. unfold ee_sequence.
  apply (Moves_bind _ _ _ _ 2 6); [lia|now apply Moves_writemem_byte|]. intros _.
  apply (Moves_bind _ _ _ _ 2 4); [lia|now apply Moves_writemem_byte|]. intros _.
  apply (Moves_bind _ _ _ _ 2 2); [lia|now apply Moves_writemem_byte|]. intros _.
  apply (Moves_bind _ _ [] _ 0 2); [lia|apply (Moves_ret tt)|]. intros _.
  now apply Moves_writemem_byte.
Qed.

Lemma Moves_ee_byte (fuel : nat) (arg_params : cl_my_params) (addr byte : Z)
  {A} (next : M port A) (Y : list Z) (n : Z) :
  1 <= serial_txbuf_size arg_params -> 1 <= serial_rxbuf_size arg_params ->
  (3 <= fuel)%nat -> 0 <= n ->
  Moves next Y n ->
  Moves (bind (if addr =? HC11_CONFIG_ADDR
               then TBug11.eeprom_bulk_erase fuel arg_params addr byte
               else TBug11.eeprom_byte_erase fuel arg_params addr byte) (fun _ =>
         bind (TBug11.eeprom_prog_byte fuel arg_params addr byte) (fun _ => next)))
    ((ee_erase addr byte ++ ee_program addr byte) ++ Y) (16 + n).
Proof.
  intros HT HR Hfuel Hn Hnext. rewrite <- app_assoc.
  eapply Moves_eq; [|reflexivity|].
  - apply (Moves_bind _ _ (ee_erase addr byte) (ee_program addr byte ++ Y)
             8 (8 + n)); [lia| |].
    + unfold ee_erase. destruct (addr =? HC11_CONFIG_ADDR);
        now apply Moves_ee_sequence.
    + intros _. apply Moves_bind; [lia| |].
      * now apply Moves_ee_sequence.
      * intros _. exact Hnext.
  - lia.
Qed.

Lemma flat_map_seq_S {A} (f : Z -> list A) (i : Z) (n : nat) :
  flat_map (fun k => f (i + Z.of_nat k)) (seq 0 (S n))
  = f i ++ flat_map (fun k => f (i + 1 + Z.of_nat k)) (seq 0 n).
Proof.
  cbn [seq flat_map]. rewrite Z.add_0_r. f_equal.
  rewrite <- seq_shift, flat_map_concat_map, map_map, <- flat_map_concat_map.
  apply flat_map_ext. intros k. f_equal. lia.
Qed.

Lemma Moves_write_ee_data_loop (fuel : nat) (arg_params : cl_my_params)
  (line_str : string) (n : nat) :
  1 <= serial_txbuf_size arg_params -> 1 <= serial_rxbuf_size arg_params ->
  (3 <= fuel)%nat ->
  forall i, 0 <= i ->
    Moves (TBug11.write_ee_data_loop n fuel arg_params line_str i
             (u16 (srec_address line_str + i)))
      (flat_map (fun k => ee_byte_image line_str (i + Z.of_nat k)) (seq 0 n))
      (16 * Z.of_nat n).
Proof.
  intros HT HR Hfuel. induction n as [|n IH]; intros i Hi.
  - apply (Moves_ret tt).
  - rewrite (flat_map_seq_S (ee_byte_image line_str)).
    cbn [TBug11.write_ee_data_loop].
    intros d d' evs r H.
    destruct (Z.le_gt_cases (2 * i + 8) (size line_str)) as [Hs|Hs].
    + rewrite substr_some, bind_lift_done in H by assumption.
      assert (Hm : Moves
                (TBug11.write_ee_data_loop n fuel arg_params line_str (i + 1)
                   (u16 (u16 (srec_address line_str + i) + 1)))
                (flat_map (fun k => ee_byte_image line_str (i + 1 + Z.of_nat k))
                   (seq 0 n)) (16 * Z.of_nat n)).
      { rewrite u16_succ. replace (srec_address line_str + i + 1)
          with (srec_address line_str + (i + 1)) by lia. apply IH. lia. }
      pose proof (Moves_ee_byte fuel arg_params
                    (u16 (srec_address line_str + i))
                    (srec_data_byte line_str i) _ _ (16 * Z.of_nat n) HT HR Hfuel
                    ltac:(lia) Hm) as Hb.
      apply Hb in H. unfold ee_byte_image at 1.
      replace (16 * Z.of_nat (S n)) with (16 + 16 * Z.of_nat n) by lia.
      exact H.
    + rewrite substr_none, bind_lift_throw in H by lia.
      inversion H; subst. apply moves_nothing. lia.
Qed.

Lemma Moves_write_ee_line (fuel : nat) (arg_params : cl_my_params)
  (line_str : string) :
  1 <= serial_txbuf_size arg_params -> 1 <= serial_rxbuf_size arg_params ->
  (3 <= fuel)%nat ->
  Moves (TBug11.write_ee_line fuel arg_params line_str)
    (ee_line_image line_str) (16 * line_count line_str).
Proof.
  intros HT HR Hfuel. unfold TBug11.write_ee_line, ee_line_image, line_count,
    accepted.
  destruct (Z.geb_spec (size line_str) 8) as [Hs|Hs]; cbn [andb];
    [|apply (Moves_ret tt)].
  destruct (is_S1 line_str); [|apply (Moves_ret tt)].
  intros d d' evs r H.
  rewrite !substr_some, !bind_lift_done in H by lia.
  pose proof (srec_count_range line_str) as Hc.
  pose proof (Moves_write_ee_data_loop fuel arg_params line_str
                (Z.to_nat (srec_count line_str)) HT HR Hfuel 0 ltac:(lia)) as Hm.
  rewrite Z.add_0_r, Z2Nat.id in Hm by lia.
  unfold srec_address in Hm at 1. rewrite u16_idem in Hm.
  apply Hm in H. exact H.
Qed.

Lemma Moves_write_ee (fuel : nat) (arg_params : cl_my_params)
  (in_file : list string) :
  1 <= serial_txbuf_size arg_params -> 1 <= serial_rxbuf_size arg_params ->
  (3 <= fuel)%nat ->
  Moves (TBug11.write_ee fuel arg_params in_file)
    (ee_image in_file) (16 * file_count in_file).
Proof.
  intros HT HR Hfuel. induction in_file as [|line_str rest IH].
  - apply (Moves_ret tt).
  - cbn [TBug11.write_ee]. unfold ee_image. cbn [flat_map].
    pose proof (file_count_nonneg rest) as Hr.
    eapply Moves_eq; [|reflexivity|].
    + apply (Moves_bind _ _ (ee_line_image line_str) (flat_map ee_line_image rest)
               (16 * line_count line_str) (16 * file_count rest));
        [lia|now apply Moves_write_ee_line|].
      intros _. exact IH.
    + change (file_count (line_str :: rest))
        with (line_count line_str + file_count rest). lia.
Qed.

End EepromFacts.

(** ** The count of a record *)

Lemma verify_data_loop_fuel (n : nat) (arg_params : cl_my_params)
  (line_str : string) (rxbuf : list Z) :
  forall i st, Tru11.verify_data_loop n arg_params line_str rxbuf i st <> OutOfFuel.
Proof.
  induction n as [|n IH]; intros i [[[a rp] [lm li]] [m ig]];
    cbn [Tru11.verify_data_loop]; [discriminate|].
  destruct (negb (verify_config arg_params) && (a =? HC11_CONFIG_ADDR));
    [apply IH|].
  destruct (substr line_str (2 * i + 8) 2); [|discriminate].
  destruct (negb (peek rxbuf rp =? u8 (strtoul16 s))); apply IH.
Qed.

(** The loop that fills the transmit buffer with the data bytes of a line. *)
Lemma write_fill_loop_cases (line_str : string) (n : nat) :
  forall (i : Z) (txbuf : list Z),
    0 <= i -> i + Z.of_nat n <= Z.of_nat (length txbuf) ->
    match Tru11.write_fill_loop n line_str i txbuf i with
    | Done txbuf' =>
        length txbuf' = length txbuf /\
        (forall k, i <= k < i + Z.of_nat n ->
           peek txbuf' k = srec_data_byte line_str k) /\
        (forall k, 0 <= k < i -> peek txbuf' k = peek txbuf k)
    | Throw e => e = STD_OUT_OF_RANGE
    | OutOfFuel => False
    end.
Proof.
  induction n as [|n IH]; intros i txbuf Hi Hlen; cbn [Tru11.write_fill_loop].
  - split; [reflexivity|]. split; [intros; lia|reflexivity].
  - destruct (Z.le_gt_cases (2 * i + 8) (size line_str)) as [Hs|Hs].
    + rewrite substr_some by assumption.
      set (b := u8 (strtoul16 (substring (Z.to_nat (2 * i + 8)) (Z.to_nat 2)
                                 line_str))).
      specialize (IH (i + 1) (poke txbuf i b) ltac:(lia)
                    ltac:(rewrite length_poke; lia)).
      destruct (Tru11.write_fill_loop n line_str (i + 1) (poke txbuf i b) (i + 1))
        as [txbuf'|e|]; [|assumption|assumption].
      destruct IH as (Hl & Hin & Hbefore). rewrite length_poke in Hl.
      split; [assumption|]. split.
      * intros k Hk. destruct (Z.eq_dec k i) as [->|Hne].
        -- rewrite Hbefore by lia. rewrite peek_poke_same by lia. reflexivity.
        -- apply Hin. lia.
      * intros k Hk. rewrite Hbefore by lia. apply peek_poke_other; lia.
    + rewrite substr_none by lia. reflexivity.
Qed.

Section CountFacts.
Context {port : Type} {SC : serial_com port}.

Lemma Moves_tru11_txrx_chunk_write (arg_params : cl_my_params) (txbuf : list Z)
  (arg_is_prog : bool) (fuel : nat) :
  1 <= serial_txbuf_size arg_params -> 1 <= serial_prog_txbuf_size arg_params ->
  1 <= serial_rxbuf_size arg_params ->
  forall (rxbuf : list Z) (p rp N : Z),
    0 <= N <= Z.of_nat fuel -> 0 <= rp -> rp + N <= Z.of_nat (length rxbuf) ->
    Moves (Tru11.txrx_chunk_write fuel arg_params txbuf p rxbuf rp N arg_is_prog)
      (slice txbuf p N) N.
Proof.
  intros HT HP HR. induction fuel as [|fuel IH]; intros rxbuf p rp N HN Hrp Hlen.
  - assert (N = 0) by lia. subst N. cbn. apply (Moves_ret rxbuf).
  - cbn [Tru11.txrx_chunk_write]. destruct (Z.eqb_spec N 0) as [->|HN0].
    + apply (Moves_ret rxbuf).
    + set (c := if arg_is_prog
                then if N >? serial_prog_txbuf_size arg_params
                     then serial_prog_txbuf_size arg_params else N
                else if N >? serial_txbuf_size arg_params
                     then serial_txbuf_size arg_params else N).
      assert (Hc : 1 <= c <= N).
      { subst c. destruct arg_is_prog.
        - pose proof (chunklen_range N _ HP ltac:(lia)). lia.
        - pose proof (chunklen_range N _ HT ltac:(lia)). lia. }
      clearbody c.
      eapply Moves_eq.
      * apply (Moves_bind _ _ (slice txbuf p c) (slice txbuf (p + c) (N - c)) 0 N);
          [lia|apply Moves_port_write|].
        intros x. destruct (negb (u32 x =? c)); [apply Moves_throw; lia|].
        eapply Moves_eq.
        -- apply (Moves_bind_post (fun rxbuf' => length rxbuf' = length rxbuf)
                    _ _ [] (slice txbuf (p + c) (N - c)) c (N - c)); [lia| | |].
           ++ apply Moves_rx_chunk; lia.
           ++ intros d d' evs a H. eapply rx_chunk_length; [| | | |exact H]; lia.
           ++ intros rxbuf' Hl. apply IH; lia.
        -- reflexivity.
        -- lia.
      * rewrite <- slice_app by lia. f_equal. lia.
      * lia.
Qed.


Lemma Moves_lift_done {A B} (a : A) (k : A -> M port B) (X : list Z) (n : Z) :
  Moves (k a) X n -> Moves (bind (lift (Done a)) k) X n.
Proof.
  intros Hk d d' evs r H. rewrite bind_lift_done in H. exact (Hk _ _ _ _ H).
Qed.

Lemma command_slice (txbuf : list Z) (cmd : Z) :
  (1 <= length txbuf)%nat -> slice (poke txbuf 0 cmd) 0 1 = [cmd].
Proof.
  intros H. rewrite slice_one, peek_poke_same by lia. reflexivity.
Qed.

Lemma Moves_tru11_verify_line (fuel : nat) (arg_params : cl_my_params)
  (line_str : string) (txbuf rxbuf : list Z) (t : tally) :
  1 <= serial_txbuf_size arg_params -> 1 <= serial_rxbuf_size arg_params ->
  (256 <= fuel)%nat -> (3 <= length txbuf)%nat -> (256 <= length rxbuf)%nat ->
  size line_str >= 8 -> is_S1 line_str = true ->
  Moves (Tru11.readmem_verify_line fuel arg_params line_str txbuf rxbuf t)
    (Tru11.TALKER_READ_CMD
       :: command_params (srec_count line_str) (srec_address line_str))
    (1 + srec_count line_str).
Proof.
  intros HT HR Hfuel Htx Hrx Hsz HS1.
  destruct (accepted_line line_str Hsz) as (E8 & E4 & E2).
  pose proof (srec_count_range line_str) as Hn.
  unfold Tru11.readmem_verify_line. rewrite E8, HS1, E4, E2.
  apply Moves_lift_done. cbv beta zeta. apply Moves_lift_done. cbv beta zeta.
  fold (srec_count line_str). fold (srec_address line_str).
  set (n := srec_count line_str) in *. set (a := srec_address line_str).
  set (tx1 := poke txbuf 0 Tru11.TALKER_READ_CMD).
  set (tx2 := poke (poke (poke tx1 0 (u8 n)) 1 (u8 (Z.land (Z.shiftr a 8) 255)))
                2 (u8 (Z.land a 255))).
  eapply Moves_eq.
  - apply (Moves_bind_post (fun rx1 => length rx1 = length rxbuf) _ _
             (slice tx1 0 1) (slice tx2 0 3 ++ [] ++ [] ++ []) 1 (0 + (n + (0 + 0))));
      [lia| | |].
    + apply Moves_tru11_txrx_chunk; try assumption; lia.
    + intros d d' evs rx1 H.
      apply tru11_txrx_chunk_length in H; try assumption; lia.
    + intros rx1 Hrx1.
      apply (Moves_bind _ _ (slice tx2 0 3) ([] ++ [] ++ []) 0 (n + (0 + 0)));
        [lia|apply Moves_tx_chunk; [assumption|lia]|].
      intros _.
      apply (Moves_bind _ _ [] ([] ++ []) n (0 + 0));
        [lia|apply Moves_rx_chunk; try assumption; lia|].
      intros rx2.
      apply (Moves_bind _ _ [] [] 0 0);
        [lia|apply Moves_lift; apply verify_data_loop_fuel|].
      intros [[[a' rp'] lc] [m ig]]. apply Moves_ret.
  - subst tx1 tx2. rewrite command_slice by lia.
    rewrite params_slice_3 by (rewrite length_poke; lia).
    rewrite !app_nil_r. reflexivity.
  - lia.
Qed.

Lemma Moves_tbug11_verify_line (fuel : nat) (arg_params : cl_my_params)
  (line_str : string) (txbuf rxbuf : list Z) (t : tally) :
  1 <= serial_txbuf_size arg_params -> 1 <= serial_rxbuf_size arg_params ->
  (256 <= fuel)%nat -> (3 <= length txbuf)%nat -> (256 <= length rxbuf)%nat ->
  size line_str >= 8 -> is_S1 line_str = true ->
  exists filler,
    Z.of_nat (length filler) = srec_count line_str /\
    Moves (TBug11.readmem_verify_line fuel arg_params line_str txbuf rxbuf t)
      (TBug11.TALKER_READ_CMD
         :: command_params (srec_count line_str) (srec_address line_str)
         ++ filler)
      (1 + srec_count line_str).
Proof.
  intros HT HR Hfuel Htx Hrx Hsz HS1.
  destruct (accepted_line line_str Hsz) as (E8 & E4 & E2).
  pose proof (srec_count_range line_str) as Hn.
  unfold TBug11.readmem_verify_line. rewrite E8, HS1, E4, E2.
  fold (srec_count line_str). fold (srec_address line_str).
  set (n := srec_count line_str) in *. set (a := srec_address line_str).
  set (tx1 := poke txbuf 0 TBug11.TALKER_READ_CMD).
  set (tx2 := poke (poke (poke tx1 0 (u8 n)) 1 (u8 (Z.land (Z.shiftr a 8) 255)))
                2 (u8 (Z.land a 255))).
  exists (slice tx2 0 n). split; [rewrite length_slice; lia|].
  apply Moves_lift_done. cbv beta zeta. apply Moves_lift_done. cbv beta zeta.
  fold (srec_count line_str). fold (srec_address line_str).
  fold n a tx1 tx2.
  eapply Moves_eq.
  - apply (Moves_bind_post (fun rx1 => length rx1 = length rxbuf) _ _
             (slice tx1 0 1) (slice tx2 0 3 ++ slice tx2 0 n ++ [] ++ [])
             1 (0 + (n + (0 + 0)))); [lia| | |].
    + apply Moves_tbug11_txrx_chunk; try assumption; lia.
    + intros d d' evs rx1 H.
      apply tbug11_txrx_chunk_length in H; try assumption; lia.
    + intros rx1 Hrx1.
      apply (Moves_bind _ _ (slice tx2 0 3) (slice tx2 0 n ++ [] ++ []) 0
               (n + (0 + 0)));
        [lia|apply Moves_tx_chunk; [assumption|lia]|].
      intros _.
      apply (Moves_bind _ _ (slice tx2 0 n) ([] ++ []) n (0 + 0));
        [lia|apply Moves_tbug11_txrx_chunk; try assumption; lia|].
      intros rx2.
      apply (Moves_bind _ _ [] [] 0 0); [lia| |].
      * apply Moves_lift. rewrite verify_data_loop_same.
        apply verify_data_loop_fuel.
      * intros [[[a' rp'] lc] [m ig]]. apply Moves_ret.
  - subst tx1. rewrite command_slice by lia.
    unfold tx2 at 1. rewrite params_slice_3 by (rewrite length_poke; lia).
    rewrite !app_nil_r. reflexivity.
  - lia.
Qed.

Lemma Moves_tru11_write_line (fuel : nat) (arg_params : cl_my_params)
  (arg_write_cmd_code : Z) (line_str : string) (txbuf rxbuf : list Z)
  (t : tally) :
  1 <= serial_txbuf_size arg_params -> 1 <= serial_prog_txbuf_size arg_params ->
  1 <= serial_rxbuf_size arg_params ->
  (256 <= fuel)%nat -> (256 <= length txbuf)%nat -> (256 <= length rxbuf)%nat ->
  size line_str >= 8 -> is_S1 line_str = true ->
  Moves (Tru11.writemem_file_line fuel arg_params arg_write_cmd_code line_str
           txbuf rxbuf t)
    (arg_write_cmd_code
       :: command_params (srec_count line_str) (srec_address line_str)
       ++ srec_data line_str)
    (1 + srec_count line_str).
Proof.
  intros HT HP HR Hfuel Htx Hrx Hsz HS1.
  destruct (accepted_line line_str Hsz) as (E8 & E4 & E2).
  pose proof (srec_count_range line_str) as Hn.
  unfold Tru11.writemem_file_line. rewrite E8, HS1, E4, E2.
  apply Moves_lift_done. cbv beta zeta. apply Moves_lift_done. cbv beta zeta.
  fold (srec_count line_str). fold (srec_address line_str).
  unfold srec_data.
  set (n := srec_count line_str) in *. set (a := srec_address line_str).
  set (tx1 := poke txbuf 0 arg_write_cmd_code).
  set (tx2 := poke (poke (poke tx1 0 (u8 n)) 1 (u8 (Z.land (Z.shiftr a 8) 255)))
                2 (u8 (Z.land a 255))).
  set (data := map (fun k => srec_data_byte line_str (Z.of_nat k))
                 (seq 0 (Z.to_nat n))).
  assert (Hl2 : length tx2 = length txbuf).
  { subst tx2 tx1. rewrite !length_poke. reflexivity. }
  eapply Moves_eq.
  - apply (Moves_bind_post (fun rx1 => length rx1 = length rxbuf) _ _
             (slice tx1 0 1) (slice tx2 0 3 ++ [] ++ data ++ [])
             1 (0 + (0 + (n + 0)))); [lia| | |].
    + apply Moves_tru11_txrx_chunk; try assumption; lia.
    + intros d d' evs rx1 H.
      apply tru11_txrx_chunk_length in H; try assumption; lia.
    + intros rx1 Hrx1.
      apply (Moves_bind _ _ (slice tx2 0 3) ([] ++ data ++ []) 0 (0 + (n + 0)));
        [lia|apply Moves_tx_chunk; [assumption|lia]|].
      intros _.
      pose proof (write_fill_loop_cases line_str (Z.to_nat n) 0 tx2
                    ltac:(lia) ltac:(lia)) as Hfill.
      apply (Moves_bind_post (fun tx3 => slice tx3 0 n = data) _ _
               [] (data ++ []) 0 (n + 0)); [lia| | |].
      * apply Moves_lift. intros E. rewrite E in Hfill. exact Hfill.
      * intros d d' evs tx3 H. apply lift_inv in H. destruct H as (_ & _ & E).
        rewrite <- E in Hfill. destruct Hfill as (_ & Hin & _).
        unfold slice, data. apply map_ext_in. intros k Hk. apply in_seq in Hk.
        apply Hin. lia.
      * intros tx3 Htx3. rewrite <- Htx3.
        apply (Moves_bind _ _ (slice tx3 0 n) [] n 0); [lia| |].
        -- apply Moves_tru11_txrx_chunk_write; try assumption; lia.
        -- intros rx2.
           destruct (Tru11.write_check_loop _ _ _ _ _ _) as [[a' lc] [m ig]].
           apply Moves_ret.
  - subst tx1. rewrite command_slice by lia.
    unfold tx2. rewrite params_slice_3 by (rewrite length_poke; lia).
    rewrite !app_nil_r. reflexivity.
  - lia.
Qed.

End CountFacts.

(** ** Operations that return or throw *)

Section RunsFacts.
Context {port : Type} {SC : serial_com port}.

Lemma Moves_Runs {A} (m : M port A) (X : list Z) (n : Z) : Moves m X n -> Runs m.
Proof. intros H d d' evs r Hrun. exact (proj1 (H _ _ _ _ Hrun)). Qed.

Lemma Runs_ret {A} (a : A) : Runs (ret a).
Proof. intros d d' evs r H. apply ret_inv in H. destruct H as (_ & _ & ->). discriminate. Qed.

Lemma Runs_bind_post {A B} (P : A -> Prop) (m : M port A) (k : A -> M port B) :
  Runs m ->
  (forall d d' evs a, m d = (d', evs, Done a) -> P a) ->
  (forall a, P a -> Runs (k a)) ->
  Runs (bind m k).
Proof.
  intros Hm HP Hk d d' evs r H. apply bind_inv in H.
  destruct H as [(d1 & e1 & a & e2 & H1 & H2 & _)|[(e & _ & ->)|[H1 _]]].
  - exact (Hk a (HP _ _ _ _ H1) _ _ _ _ H2).
  - discriminate.
  - exfalso. exact (Hm _ _ _ _ H1 eq_refl).
Qed.

Lemma Runs_bind {A B} (m : M port A) (k : A -> M port B) :
  Runs m -> (forall a, Runs (k a)) -> Runs (bind m k).
Proof. intros Hm Hk. apply (Runs_bind_post (fun _ => True)); auto. Qed.

(** One talker read command of tbug11. *)
Lemma Runs_tbug11_readmem_command (fuel : nat) (arg_params : cl_my_params)
  (addr remaining : Z) (txbuf rxbuf : list Z) :
  1 <= serial_txbuf_size arg_params -> 1 <= serial_rxbuf_size arg_params ->
  (256 <= fuel)%nat -> (256 <= length rxbuf)%nat -> 0 <= remaining ->
  Runs (TBug11.readmem_command fuel arg_params addr remaining txbuf rxbuf) /\
  forall d d' evs st,
    TBug11.readmem_command fuel arg_params addr remaining txbuf rxbuf d
    = (d', evs, Done st) ->
    let '(_, remaining', _, rxbuf', _) := st in
    0 <= remaining' /\ length rxbuf' = length rxbuf.
Proof.
  intros HT HR Hfuel Hrx Hrem. unfold TBug11.readmem_command.
  rewrite min_chunk.
  set (c := Z.min remaining 256).
  assert (Hc : 0 <= c <= 256) by (subst c; lia).
  assert (Hc' : c <= remaining) by (subst c; lia).
  clearbody c.
  split.
  - apply (Runs_bind_post (fun rx1 => length rx1 = length rxbuf)).
    + eapply Moves_Runs. apply Moves_tbug11_txrx_chunk; try assumption; lia.
    + intros d d' evs rx1 H.
      apply tbug11_txrx_chunk_length in H; try assumption; lia.
    + intros rx1 Hrx1. apply Runs_bind.
      * eapply Moves_Runs. apply Moves_tx_chunk; [assumption|lia].
      * intros _. apply Runs_bind.
        -- eapply Moves_Runs. apply Moves_tbug11_txrx_chunk; try assumption; lia.
        -- intros rx2. apply Runs_ret.
  - intros d d' evs st H.
    apply bind_done in H. destruct H as (d1 & e1 & rx1 & e2 & H1 & H & _).
    apply tbug11_txrx_chunk_length in H1; try assumption; try lia.
    apply bind_done in H. destruct H as (d2 & e3 & [] & e4 & _ & H & _).
    apply bind_done in H. destruct H as (d3 & e5 & rx2 & e6 & H2 & H & _).
    apply tbug11_txrx_chunk_length in H2; try assumption; try lia.
    apply ret_inv in H. destruct H as (_ & _ & H). inversion H; subst.
    split; [lia|congruence].
Qed.

Lemma Runs_tbug11_readmem_loop (fuel : nat) (arg_params : cl_my_params)
  (n : nat) :
  1 <= serial_txbuf_size arg_params -> 1 <= serial_rxbuf_size arg_params ->
  (256 <= fuel)%nat ->
  forall (e : srec_writer) (addr chunklen remaining : Z) (txbuf rxbuf : list Z)
         (rxbuf_p : Z),
    (256 <= length rxbuf)%nat -> 0 <= remaining ->
    Runs (TBug11.readmem_loop n fuel arg_params e addr chunklen remaining
            txbuf rxbuf rxbuf_p).
Proof.
  intros HT HR Hfuel. induction n as [|n IH];
    intros e addr chunklen remaining txbuf rxbuf rxbuf_p Hrx Hrem.
  - apply Runs_ret.
  - cbn [TBug11.readmem_loop].
    apply (Runs_bind_post
             (fun st : Z * Z * list Z * list Z * Z =>
                let '(_, remaining', _, rxbuf', _) := st in
                0 <= remaining' /\ (256 <= length rxbuf')%nat)).
    + destruct (chunklen =? 0); [|apply Runs_ret].
      now apply Runs_tbug11_readmem_command.
    + intros d d' evs st H. destruct (chunklen =? 0).
      * destruct (Runs_tbug11_readmem_command fuel arg_params addr remaining
                    txbuf rxbuf HT HR Hfuel Hrx Hrem) as [_ Hpost].
        specialize (Hpost _ _ _ _ H).
        destruct st as [[[[c1 r1] t1] rx1] p1]. destruct Hpost as [? Hl].
        split; [assumption|]. rewrite Hl. assumption.
      * apply ret_inv in H. destruct H as (_ & _ & H). inversion H; subst.
        split; assumption.
    + intros [[[[c1 r1] t1] rx1] p1] [Hr1 Hl1]. apply IH; assumption.
Qed.

Lemma Runs_tru11_readmem_loop (arg_params : cl_my_params) (fuel : nat) :
  1 <= serial_txbuf_size arg_params -> 1 <= serial_rxbuf_size arg_params ->
  forall (e : srec_writer) (addr remaining : Z) (txbuf rxbuf : list Z),
    (256 <= length rxbuf)%nat -> 0 <= remaining ->
    (remaining + 255) / 256 + 256 <= Z.of_nat fuel ->
    Runs (Tru11.readmem_loop fuel arg_params e addr remaining txbuf rxbuf).
Proof.
  intros HT HR. induction fuel as [|fuel IH];
    intros e addr remaining txbuf rxbuf Hrx Hrem Hfuel.
  - exfalso. assert (0 <= (remaining + 255) / 256) by (apply Z.div_pos; lia). lia.
  - cbn [Tru11.readmem_loop]. destruct (Z.eqb_spec remaining 0) as [->|Hne].
    + apply Runs_ret.
    + rewrite min_chunk.
      assert (Hrounds : 1 <= (remaining + 255) / 256).
      { apply Z.div_le_lower_bound; lia. }
      set (c := Z.min remaining 256).
      assert (Hc : 1 <= c <= 256) by (subst c; lia).
      assert (Hnext : (remaining - c + 255) / 256 + 256 <= Z.of_nat fuel).
      { subst c. destruct (Z.le_gt_cases remaining 256).
        - rewrite Z.min_l by lia. replace (remaining - remaining + 255) with 255 by lia.
          change (255 / 256) with 0. lia.
        - rewrite Z.min_r by lia.
          replace (remaining + 255) with (remaining - 256 + 255 + 1 * 256) in Hfuel by lia.
          rewrite Z.div_add in Hfuel by lia. lia. }
      assert (Hc' : c <= remaining) by (subst c; lia).
      clearbody c.
      apply (Runs_bind_post (fun rx1 => length rx1 = length rxbuf)).
      * eapply Moves_Runs. apply Moves_tru11_txrx_chunk; try assumption; lia.
      * intros d d' evs rx1 H.
        apply tru11_txrx_chunk_length in H; try assumption; lia.
      * intros rx1 Hrx1. apply Runs_bind.
        -- eapply Moves_Runs. apply Moves_tx_chunk; [assumption|lia].
        -- intros _.
           apply (Runs_bind_post (fun rx2 => length rx2 = length rxbuf)).
           ++ eapply Moves_Runs. apply Moves_rx_chunk; try assumption; lia.
           ++ intros d d' evs rx2 H.
              apply rx_chunk_length in H; try assumption; lia.
           ++ intros rx2 Hrx2.
              destruct (Tru11.readmem_data_loop _ _ _ _ _ _) as [[e1 addr1] p1].
              apply IH; lia.
Qed.

Lemma Runs_readmem (fuel : nat) (arg_params : cl_my_params) (tx0 rx0 : list Z) :
  1 <= serial_txbuf_size arg_params -> 1 <= serial_rxbuf_size arg_params ->
  (u32 (to_addr arg_params - from_addr arg_params + 1) + 255) / 256 + 256
  <= Z.of_nat fuel ->
  Runs (TBug11.readmem fuel arg_params tx0 rx0) /\
  Runs (Tru11.readmem fuel arg_params tx0 rx0).
Proof.
  intros HT HR Hfuel.
  set (remaining := u32 (to_addr arg_params - from_addr arg_params + 1)) in *.
  assert (Hrem : 0 <= remaining < 4294967296).
  { subst remaining. unfold u32. apply Z.mod_pos_bound. lia. }
  assert (Hdiv : 0 <= (remaining + 255) / 256) by (apply Z.div_pos; lia).
  assert (Hrx : forall B, (256 <= length (alloc_buf rx0
                 (if B >? BOOTLOADER_MAX_BYTE_COUNT then B
                  else BOOTLOADER_MAX_BYTE_COUNT)))%nat).
  { intros B. rewrite length_alloc_buf. unfold BOOTLOADER_MAX_BYTE_COUNT.
    destruct (Z.gtb_spec B 256); lia. }
  split.
  - unfold TBug11.readmem. apply Runs_bind; [|intros; apply Runs_ret].
    apply Runs_tbug11_readmem_loop; try assumption; try lia. apply Hrx.
  - unfold Tru11.readmem. apply Runs_bind; [|intros; apply Runs_ret].
    apply Runs_tru11_readmem_loop; try assumption; try lia. apply Hrx.
Qed.

End RunsFacts.

(** * The claims *)

(** ** Chunked transmit *)

(** C3.  For every length [N >= 1] and chunk size [B >= 1], [tx_chunk]
    makes only transport writes, of the sizes [min(remaining, B)] of the
    schedule, each between 1 and [B]; the schedule has [ceil(N/B)] entries
    that sum to [N].  The call returns or throws (it does not run out of
    fuel).  The count a write returns is read as the 32-bit unsigned
    [xferredlen] holds it, [u32 n]: the call returns exactly when every
    write's count, so narrowed, is the size asked for, and then it made
    exactly the [ceil(N/B)] writes of the schedule, [N] bytes in all, the
    bytes of the buffer; it throws the transmit-failure exception exactly
    when some write's narrowed count is another than the one asked for, and
    the exception then holds the size asked for and the narrowed count of
    the last write. *)
Theorem tx_chunk_chunking {port : Type} {SC : serial_com port}
  (fuel : nat) (B N p : Z) (txbuf : list Z) (d d' : port)
  (evs : list event) (r : outcome unit) :
  1 <= N -> 1 <= B -> N <= Z.of_nat fuel ->
  tx_chunk fuel B txbuf p N d = (d', evs, r) ->
  forallb is_write evs = true /\
  (exists rest, chunk_sizes fuel N B = map ev_size evs ++ rest) /\
  Forall (fun ev => 1 <= ev_size ev <= B) evs /\
  Z.of_nat (length (chunk_sizes fuel N B)) = (N + B - 1) / B /\
  Zsum (chunk_sizes fuel N B) = N /\
  r <> OutOfFuel /\
  (r = Done tt <-> forallb complete evs = true) /\
  (r = Done tt ->
     map ev_size evs = chunk_sizes fuel N B /\
     Z.of_nat (length evs) = (N + B - 1) / B /\
     Zsum (map ev_size evs) = N /\
     written evs = slice txbuf p N) /\
  ((exists c x, r = Throw (APP_ERROR_TX_FAIL c x)) <->
   existsb short_write evs = true) /\
  (forall c x, r = Throw (APP_ERROR_TX_FAIL c x) ->
     exists pre bs n,
       evs = pre ++ [EvWrite bs (Ret n)] /\
       c = Z.of_nat (length bs) /\ x = u32 n /\ u32 n <> c /\
       forallb complete pre = true).
Proof.
  intros HN HB Hfuel Hrun.
  destruct (tx_chunk_run fuel B txbuf HB p N d d' evs r ltac:(lia) Hrun)
    as (rest & Hwr & Hsch & Hby & Hnf & Hd & Hc & Hf & Hs).
  pose proof (chunk_sizes_bound fuel N B HB) as Hbound.
  pose proof (chunk_sizes_count fuel N B HB ltac:(lia)) as Hcount.
  pose proof (chunk_sizes_sum fuel N B HB ltac:(lia)) as Hsum.
  split; [assumption|]. split; [eauto|].
  split.
  { rewrite Hsch in Hbound. apply Forall_app in Hbound. destruct Hbound as [Hb _].
    rewrite Forall_map in Hb. assumption. }
  split; [assumption|]. split; [assumption|]. split; [assumption|].
  split; [split; [intros H; apply Hd; assumption|assumption]|].
  split.
  - intros Hdone. destruct (Hd Hdone) as [_ ->]. rewrite app_nil_r in Hsch.
    split; [now rewrite Hsch|].
    split; [rewrite <- Hcount, Hsch, length_map; reflexivity|].
    split; [rewrite <- Hsch; assumption|].
    rewrite Hby, <- Hsch, Hsum. reflexivity.
  - split; [split; [|assumption]|].
    + intros (c & x & Hth).
      destruct (Hf c x Hth) as (pre & bs & n & -> & -> & -> & Hne & _).
      rewrite existsb_app. simpl.
      apply Z.eqb_neq in Hne. rewrite Hne. simpl. apply orb_true_r.
    + intros c x Hth.
      destruct (Hf c x Hth) as (pre & bs & n & -> & -> & -> & Hne & Hpre).
      exists pre, bs, n. auto.
Qed.

(** Five bytes in chunks of two, on a transport that takes every write. *)
Lemma tx_chunk_chunking_witness :
  1 <= 5 /\ 1 <= 2 /\ 5 <= Z.of_nat 5 /\
  tx_chunk 5 2 [10; 20; 30; 40; 50] 0 5 (Scripted [] [])
  = (Scripted [] [],
     [EvWrite [10; 20] (Ret 2); EvWrite [30; 40] (Ret 2); EvWrite [50] (Ret 1)],
     Done tt) /\
  Z.of_nat (length [EvWrite [10; 20] (Ret 2); EvWrite [30; 40] (Ret 2);
                    EvWrite [50] (Ret 1)]) = (5 + 2 - 1) / 2.
Proof.
  split; [lia|]. split; [lia|]. split; [simpl; lia|]. split; [reflexivity|].
  apply (tx_chunk_chunking 5 2 5 0 [10; 20; 30; 40; 50] (Scripted [] [])
           (Scripted [] []) _ (Done tt));
    [lia|lia|simpl; lia|reflexivity|reflexivity].
Defined.

(** A count that is the size asked for only after narrowing to 32 bits is
    taken as a whole write. *)
Example tx_chunk_count_narrowed :
  tx_chunk 2 2 [10; 20] 0 2 (Scripted [Ret 4294967298] [])
  = (Scripted [] [], [EvWrite [10; 20] (Ret 4294967298)], Done tt).
Proof. reflexivity. Qed.

(** The second write comes back short: the transfer stops there. *)
Example tx_chunk_short_write :
  tx_chunk 5 2 [10; 20; 30; 40; 50] 0 5 (Scripted [Ret 2; Ret 1] [])
  = (Scripted [] [],
     [EvWrite [10; 20] (Ret 2); EvWrite [30; 40] (Ret 1)],
     Throw (APP_ERROR_TX_FAIL 2 1)).
Proof. reflexivity. Qed.

(** ** Echo verification *)

(** C4, as amended.  [verify_echo] returns exactly when every received byte
    equals the byte sent, [verify_echo_com] exactly when every received byte
    is the bitwise complement of the byte sent.  On the first pair that
    fails, [verify_echo] throws the echo exception with the byte sent and the
    byte received, [verify_echo_com] with the byte sent and the complement
    of the byte received.  The exception holds these two values and no
    index. *)
Theorem verify_echo_policies (tx rx : list Z) (tp rp len : Z) :
  (forall i, 0 <= i < len ->
     is_u8 (peek tx (tp + i)) /\ is_u8 (peek rx (rp + i))) ->
  (verify_echo tx tp rx rp len = Done tt <->
   forall i, 0 <= i < len -> peek rx (rp + i) = peek tx (tp + i)) /\
  (forall j, 0 <= j < len ->
     (forall i, 0 <= i < j -> peek rx (rp + i) = peek tx (tp + i)) ->
     peek rx (rp + j) <> peek tx (tp + j) ->
     verify_echo tx tp rx rp len
     = Throw (APP_ERROR_ECHO (peek tx (tp + j)) (peek rx (rp + j)))) /\
  (TBug11.verify_echo_com tx tp rx rp len = Done tt <->
   forall i, 0 <= i < len -> peek rx (rp + i) = u8_not (peek tx (tp + i))) /\
  (forall j, 0 <= j < len ->
     (forall i, 0 <= i < j -> peek rx (rp + i) = u8_not (peek tx (tp + i))) ->
     peek rx (rp + j) <> u8_not (peek tx (tp + j)) ->
     TBug11.verify_echo_com tx tp rx rp len
     = Throw (APP_ERROR_ECHO (peek tx (tp + j)) (u8_not (peek rx (rp + j))))).
Proof.
  intros Hrange.
  assert (Hswap : forall i, 0 <= i < len ->
            (peek tx (tp + i) = u8_not (peek rx (rp + i)) <->
             peek rx (rp + i) = u8_not (peek tx (tp + i)))).
  { intros i Hi. destruct (Hrange i Hi). now apply u8_not_swap. }
  split; [|split; [|split]].
  - destruct (verify_echo_cases tx tp rx rp len)
      as [[Hd Hall]|(j & Hj & Hb & Hne & Hth)].
    + split; [|intros; assumption]. intros _ i Hi. symmetry. now apply Hall.
    + split; [rewrite Hth; discriminate|].
      intros Hall. exfalso. apply Hne. symmetry. now apply Hall.
  - intros j Hj Hbefore Hne.
    destruct (verify_echo_cases tx tp rx rp len)
      as [[Hd Hall]|(j' & Hj' & Hb & Hne' & Hth)].
    + exfalso. apply Hne. symmetry. now apply Hall.
    + assert (j' = j); [|subst j'; assumption].
      destruct (Z.lt_trichotomy j' j) as [Hlt|[Heq|Hgt]]; [|assumption|].
      * exfalso. apply Hne'. symmetry. apply Hbefore. lia.
      * exfalso. apply Hne. symmetry. apply Hb. lia.
  - destruct (verify_echo_com_cases tx tp rx rp len)
      as [[Hd Hall]|(j & Hj & Hb & Hne & Hth)].
    + split; [|intros; assumption]. intros _ i Hi. apply Hswap; auto.
    + split; [rewrite Hth; discriminate|].
      intros Hall. exfalso. apply Hne. apply Hswap; auto.
  - intros j Hj Hbefore Hne.
    destruct (verify_echo_com_cases tx tp rx rp len)
      as [[Hd Hall]|(j' & Hj' & Hb & Hne' & Hth)].
    + exfalso. apply Hne. apply Hswap; auto.
    + assert (j' = j); [|subst j'; assumption].
      destruct (Z.lt_trichotomy j' j) as [Hlt|[Heq|Hgt]]; [|assumption|].
      * exfalso. apply Hne'. apply Hswap; [lia|]. apply Hbefore. lia.
      * exfalso. apply Hne. apply Hswap; [lia|]. apply Hb. lia.
Qed.

(** The command byte 0x01 and its complement 0xFE. *)
Lemma verify_echo_policies_witness :
  (forall i, 0 <= i < 1 ->
     is_u8 (peek [1] (0 + i)) /\ is_u8 (peek [254] (0 + i))) /\
  (TBug11.verify_echo_com [1] 0 [254] 0 1 = Done tt <->
   forall i, 0 <= i < 1 -> peek [254] (0 + i) = u8_not (peek [1] (0 + i))).
Proof.
  assert (H : forall i, 0 <= i < 1 ->
            is_u8 (peek [1] (0 + i)) /\ is_u8 (peek [254] (0 + i))).
  { intros i Hi. assert (i = 0) by lia. subst i. unfold is_u8, peek. simpl. lia. }
  split; [exact H|].
  apply (verify_echo_policies [1] [254] 0 0 1 H).
Defined.

(** C4 as stated fails: the exception does not carry the index.  A first
    mismatch at index 0 and one at index 1 give the same exception, so no
    function of the exception gives the index back. *)
Lemma echo_exception_has_no_index :
  ~ exists index_of : tru_exception -> Z,
      forall (tx rx : list Z) (len j : Z),
        0 <= j < len ->
        (forall i, 0 <= i < j -> peek rx i = peek tx i) ->
        peek rx j <> peek tx j ->
        exists e, verify_echo tx 0 rx 0 len = Throw e /\ index_of e = j.
Proof.
  intros (index_of & H).
  destruct (H [5; 5] [0; 5] 2 0) as (e0 & He0 & Hi0).
  { lia. } { intros; lia. } { simpl. discriminate. }
  destruct (H [5; 5] [5; 0] 2 1) as (e1 & He1 & Hi1).
  { lia. }
  { intros i Hi. assert (i = 0) by lia. subst i. reflexivity. }
  { simpl. discriminate. }
  vm_compute in He0, He1. inversion He0; subst e0. inversion He1; subst e1.
  lia.
Qed.

(** With the complement check the second value of the exception is the
    complement of the byte received, not the byte itself. *)
Example verify_echo_com_reports_complement :
  TBug11.verify_echo_com [1] 0 [1] 0 1 = Throw (APP_ERROR_ECHO 1 254).
Proof. reflexivity. Qed.

(** ** The control-program download *)

(** C2, as amended.  [txrx_chunk_control_program] for [N >= 1] bytes
    returns or throws.  Once the read of the last byte has been issued (the
    reads have then asked for [N] bytes), the call returns whatever that read
    gave: no byte, a wrong byte or an exception; this holds for a last chunk
    of one byte and for a longer one.  When it returns, all [N] bytes were
    written.  Before the last byte, a received byte that differs from the
    byte sent throws the echo exception with the two bytes, and a read that
    delivers another number of bytes than asked for throws the
    receive-failure exception.  An exception always comes from a transport
    call that was not complete or from a wrong byte before the last one. *)
Theorem control_program_last_byte {port : Type} {SC : serial_com port}
  (fuel : nat) (arg_params : cl_my_params) (tx rx : list Z) (tp rp N : Z)
  (d d' : port) (evs : list event) (r : outcome unit) :
  1 <= N -> N <= Z.of_nat fuel ->
  1 <= serial_txbuf_size arg_params -> 1 <= serial_rxbuf_size arg_params ->
  0 <= rp -> rp + N <= Z.of_nat (length rx) ->
  txrx_chunk_control_program fuel arg_params tx tp rx rp N d = (d', evs, r) ->
  r <> OutOfFuel /\
  (forall pre rep,
     evs = pre ++ [EvRead 1 rep] -> requested pre = N - 1 -> r = Done tt) /\
  (r = Done tt -> requested evs = N /\ written evs = slice tx tp N) /\
  (forallb complete evs = true ->
   forall j, j < N - 1 -> first_mismatch tx tp (received evs) j ->
     r = Throw (APP_ERROR_ECHO (peek tx (tp + j))
                               (nth (Z.to_nat j) (received evs) 0))) /\
  (forall pre c bs,
     evs = pre ++ [EvRead c (Ret bs)] -> Z.of_nat (length bs) <> c ->
     requested evs < N ->
     r = Throw (APP_ERROR_RX_FAIL c (Z.of_nat (length bs)))) /\
  (forall e, r = Throw e ->
     forallb complete evs = false \/
     exists j, j < N - 1 /\ first_mismatch tx tp (received evs) j).
Proof.
  intros HN Hfuel HBt HBr Hrp Hlen Hrun.
  destruct (ctl_run fuel arg_params tx HBt HBr tp rx rp N d d' evs r
              ltac:(lia) Hrp Hlen Hrun)
    as (Hnf & Hreq & (n & Hn & Hwr & Hwn) & Hq1 & Hq3 & Hq4 & Hq5 & Hq6 & _).
  split; [assumption|].
  split.
  { intros pre rep -> Hpre. apply Hq1. rewrite requested_app. simpl. lia. }
  split.
  { intros Hd. split; [auto|]. rewrite Hwr, (Hwn Hd). reflexivity. }
  split; [assumption|]. split; assumption.
Qed.

(** Three bytes in chunks of two: the last chunk has one byte, and its echo
    does not arrive. *)
Lemma control_program_last_byte_witness :
  1 <= 3 /\ 3 <= Z.of_nat 3 /\
  1 <= serial_txbuf_size (with_chunk_sizes default_params 2 2) /\
  1 <= serial_rxbuf_size (with_chunk_sizes default_params 2 2) /\
  0 <= 0 /\ 0 + 3 <= Z.of_nat (length [0; 0; 0]) /\
  txrx_chunk_control_program 3 (with_chunk_sizes default_params 2 2)
    [1; 2; 3] 0 [0; 0; 0] 0 3 (Scripted [] [Ret [1; 2]; Ret []])
  = (Scripted [] [],
     [EvWrite [1; 2] (Ret 2); EvRead 2 (Ret [1; 2]);
      EvWrite [3] (Ret 1); EvRead 1 (Ret [])],
     Done tt) /\
  requested [EvWrite [1; 2] (Ret 2); EvRead 2 (Ret [1; 2]);
             EvWrite [3] (Ret 1); EvRead 1 (Ret [])] = 3 /\
  written [EvWrite [1; 2] (Ret 2); EvRead 2 (Ret [1; 2]);
           EvWrite [3] (Ret 1); EvRead 1 (Ret [])] = slice [1; 2; 3] 0 3.
Proof.
  split; [lia|]. split; [simpl; lia|]. split; [simpl; lia|].
  split; [simpl; lia|]. split; [lia|]. split; [simpl; lia|].
  split; [reflexivity|].
  apply (control_program_last_byte 3 (with_chunk_sizes default_params 2 2)
           [1; 2; 3] [0; 0; 0] 0 0 3 (Scripted [] [Ret [1; 2]; Ret []])
           (Scripted [] []) _ (Done tt));
    [lia|simpl; lia|simpl; lia|simpl; lia|lia|simpl; lia|reflexivity|reflexivity].
Defined.

(** Four bytes in chunks of two: the last chunk has two bytes, and the read
    of the last byte raises an exception of the transport. *)
Example control_program_last_byte_of_longer_chunk :
  txrx_chunk_control_program 4 (with_chunk_sizes default_params 2 2)
    [1; 2; 3; 4] 0 [0; 0; 0; 0] 0 4
    (Scripted [] [Ret [1; 2]; Ret [3]; Raise 7])
  = (Scripted [] [],
     [EvWrite [1; 2] (Ret 2); EvRead 2 (Ret [1; 2]);
      EvWrite [3; 4] (Ret 2); EvRead 1 (Ret [3]); EvRead 1 (Raise 7)],
     Done tt).
Proof. reflexivity. Qed.

(** A wrong last byte is not an error either. *)
Example control_program_wrong_last_byte :
  txrx_chunk_control_program 4 (with_chunk_sizes default_params 2 2)
    [1; 2; 3; 4] 0 [0; 0; 0; 0] 0 4
    (Scripted [] [Ret [1; 2]; Ret [3]; Ret [9]])
  = (Scripted [] [],
     [EvWrite [1; 2] (Ret 2); EvRead 2 (Ret [1; 2]);
      EvWrite [3; 4] (Ret 2); EvRead 1 (Ret [3]); EvRead 1 (Ret [9])],
     Done tt).
Proof. reflexivity. Qed.

(** A wrong byte before the last one. *)
Example control_program_earlier_mismatch :
  txrx_chunk_control_program 3 (with_chunk_sizes default_params 2 2)
    [1; 2; 3] 0 [0; 0; 0] 0 3 (Scripted [] [Ret [1; 9]])
  = (Scripted [] [],
     [EvWrite [1; 2] (Ret 2); EvRead 2 (Ret [1; 9])],
     Throw (APP_ERROR_ECHO 2 9)).
Proof. reflexivity. Qed.

(** C2 as stated fails: with chunks of one byte the echo of the first of
    two bytes does not arrive, and the exception is the receive failure,
    not the echo mismatch. *)
Lemma missing_echo_is_receive_failure :
  txrx_chunk_control_program 2 (with_chunk_sizes default_params 1 1)
    [7; 8] 0 [0; 0] 0 2 (Scripted [] [Ret []])
  = (Scripted [] [],
     [EvWrite [7] (Ret 1); EvRead 1 (Ret [])],
     Throw (APP_ERROR_RX_FAIL 1 0)) /\
  forall a b,
    snd (txrx_chunk_control_program 2 (with_chunk_sizes default_params 1 1)
           [7; 8] 0 [0; 0] 0 2 (Scripted [] [Ret []]))
    <> Throw (APP_ERROR_ECHO a b).
Proof. split; [reflexivity|]. intros a b. vm_compute. discriminate. Qed.

(** ** The talker image *)




(** A record cut short, in a file that declares too much: [substr] throws,
    and still nothing is written. *)
Example talker_record_cut_short :
  send_control_program 256 default_params
    (talker_file_of 15 ++ ["S1FF0000AA"%string]) [] [] (Echoing [])
  = (Echoing [], [], Throw STD_OUT_OF_RANGE).
Proof. vm_compute. reflexivity. Qed.



(** The same download in chunks of two bytes, the last echo missing. *)
Example control_program_in_small_chunks :
  let run :=
    send_control_program 256 (with_chunk_sizes default_params 2 2)
      (talker_file_of 1) [] []
      (Scripted [] (map (fun k => Ret (slice (talker_image (talker_file_of 1)
                                              ++ repeat 0 240)
                                         (2 * Z.of_nat k) 2))
                        (seq 0 127)
                    ++ [Ret [0]])) in
  snd run = Done tt /\
  written (snd (fst run))
  = 0xff :: talker_image (talker_file_of 1) ++ repeat 0 240 /\
  length (snd (fst run)) = 258%nat.
Proof. vm_compute. repeat split. Qed.

(** tbug11 writes the same bytes and then sleeps. *)
Example tbug11_control_program_then_sleep :
  let run :=
    TBug11.send_control_program 256 default_params (talker_file_of 1) [] []
      (Bootloader false []) in
  snd run = Done tt /\
  written (snd (fst run))
  = 0xff :: talker_image (talker_file_of 1) ++ repeat 0 240 /\
  last (snd (fst run)) (EvSleep 0) = EvSleep 75.
Proof. vm_compute. repeat split. Qed.

(** ** The S-record file written by [readmem] *)

(** C7.  Every line that [readmem] (tbug11 and tru11) writes to the output
    file is the S0 line, the S9 line, or an S1 line whose fields satisfy
    [(byte_count + address_high + address_low + sum of the data bytes +
    checksum) mod 256 = 0xFF], with the checksum equal to 0xFF minus the sum
    of the other fields modulo 256.  With chunk sizes of at least 1 and fuel
    for one round for each 256 bytes of the range, [readmem] returns or
    throws. *)
Theorem readmem_checksum {port : Type} {SC : serial_com port}
  (fuel : nat) (arg_params : cl_my_params) (tx0 rx0 : list Z)
  (d d' : port) (evs : list event) (r : outcome (list string)) :
  TBug11.readmem fuel arg_params tx0 rx0 d = (d', evs, r) \/
  Tru11.readmem fuel arg_params tx0 rx0 d = (d', evs, r) ->
  (forall out, r = Done out -> Forall srec_line_ok out) /\
  (1 <= serial_txbuf_size arg_params -> 1 <= serial_rxbuf_size arg_params ->
   (u32 (to_addr arg_params - from_addr arg_params + 1) + 255) / 256 + 256
   <= Z.of_nat fuel ->
   r <> OutOfFuel).
Proof.
  intros H. split.
  - intros out ->.
    destruct H as [Hrun|Hrun]; unfold TBug11.readmem, Tru11.readmem in Hrun;
      apply bind_inv in Hrun;
      destruct Hrun as [(d1 & e1 & e & e2 & Hloop & Hk & _)|[(x & _ & Hx)|[_ Hx]]];
      try discriminate;
      apply ret_inv in Hk; destruct Hk as (_ & _ & Hk); inversion Hk; subst out;
      [apply tbug11_readmem_loop_ok in Hloop|apply tru11_readmem_loop_ok in Hloop];
      try apply srec_begin_ok;
      (destruct (size (full_file_name arg_params) >? 0);
       [now apply srec_end_ok|apply Hloop]).
  - intros HT HR Hfuel.
    destruct (Runs_readmem fuel arg_params tx0 rx0 HT HR Hfuel) as [H1 H2].
    destruct H as [Hrun|Hrun]; [exact (H1 _ _ _ _ Hrun)|exact (H2 _ _ _ _ Hrun)].
Qed.

(** Sixteen bytes read from address 0 by the tbug11 talker. *)
Lemma readmem_checksum_witness :
  TBug11.readmem 300 (read_params 0 15 "dump.s19") [] []
    (Scripted [] [Ret [254];
                  Ret [0; 1; 2; 3; 4; 5; 6; 7; 8; 9; 10; 11; 12; 13; 14; 15]])
  = (Scripted [] [],
     [EvWrite [1] (Ret 1); EvRead 1 (Ret [254]); EvWrite [16; 0; 0] (Ret 3);
      EvWrite [16; 0; 0; 0; 0; 0; 0; 0; 0; 0; 0; 0; 0; 0; 0; 0] (Ret 16);
      EvRead 16 (Ret [0; 1; 2; 3; 4; 5; 6; 7; 8; 9; 10; 11; 12; 13; 14; 15])],
     Done [("S0030000FC" ++ CRLF)%string;
           ("S1130000000102030405060708090A0B0C0D0E0F74" ++ CRLF)%string;
           ("S9030000FC" ++ CRLF)%string]) /\
  Forall srec_line_ok
    [("S0030000FC" ++ CRLF)%string;
     ("S1130000000102030405060708090A0B0C0D0E0F74" ++ CRLF)%string;
     ("S9030000FC" ++ CRLF)%string].
Proof.
  assert (H : TBug11.readmem 300 (read_params 0 15 "dump.s19") [] []
                (Scripted [] [Ret [254];
                   Ret [0; 1; 2; 3; 4; 5; 6; 7; 8; 9; 10; 11; 12; 13; 14; 15]])
              = (Scripted [] [],
                 [EvWrite [1] (Ret 1); EvRead 1 (Ret [254]);
                  EvWrite [16; 0; 0] (Ret 3);
                  EvWrite [16; 0; 0; 0; 0; 0; 0; 0; 0; 0; 0; 0; 0; 0; 0; 0] (Ret 16);
                  EvRead 16
                    (Ret [0; 1; 2; 3; 4; 5; 6; 7; 8; 9; 10; 11; 12; 13; 14; 15])],
                 Done [("S0030000FC" ++ CRLF)%string;
                       ("S1130000000102030405060708090A0B0C0D0E0F74" ++ CRLF)%string;
                       ("S9030000FC" ++ CRLF)%string]))
    by (vm_compute; reflexivity).
  split; [exact H|].
  exact (proj1 (readmem_checksum 300 (read_params 0 15 "dump.s19") [] []
                  _ _ _ _ (or_introl H)) _ eq_refl).
Defined.

(** Eighteen bytes read from address 0x10F0 by the tru11 talker: a full
    record and a short one.  Read back as numbers, the fields of each record
    sum to 0xFF modulo 256. *)
Example tru11_readmem_two_records :
  snd (Tru11.readmem 256 (read_params 0x10F0 0x1101 "dump.s19") [] []
         (Scripted [] [Ret [1];
                       Ret [0; 1; 2; 3; 4; 5; 6; 7; 8; 9; 10; 11; 12; 13; 14; 15;
                            255; 254]]))
  = Done [("S0030000FC" ++ CRLF)%string;
          ("S11310F0000102030405060708090A0B0C0D0E0F74" ++ CRLF)%string;
          ("S1051100FFFEEC" ++ CRLF)%string;
          ("S9030000FC" ++ CRLF)%string] /\
  srec_field_sum 20 "S11310F0000102030405060708090A0B0C0D0E0F74" mod 256 = 0xff /\
  srec_field_sum 6 "S1051100FFFEEC" mod 256 = 0xff.
Proof. vm_compute. repeat split. Qed.

(** ** The CONFIG register in verification *)

Lemma count_from_disjoint (arg_params : cl_my_params) (a0 : Z)
  (differs : Z -> bool) (n : nat) :
  forall i,
    count_from (mismatch_at arg_params a0 differs) i n
    + count_from (ignored_at arg_params a0) i n <= Z.of_nat n.
Proof.
  induction n as [|n IH]; intros i.
  - rewrite !count_from_0. lia.
  - rewrite !count_from_S. specialize (IH (i + 1)).
    unfold mismatch_at at 1.
    destruct (ignored_at arg_params a0 i); cbn [negb andb];
      [|destruct (differs i)]; lia.
Qed.

Lemma count_from_at_least (f : Z -> bool) (n : nat) :
  forall i k, i <= k < i + Z.of_nat n -> f k = true -> 1 <= count_from f i n.
Proof.
  induction n as [|n IH]; intros i k Hk Hf; [lia|].
  rewrite count_from_S. pose proof (count_from_range f (i + 1) n) as Hr.
  destruct (Z.eq_dec k i) as [->|Hne].
  - rewrite Hf. lia.
  - specialize (IH (i + 1) k ltac:(lia) Hf). destruct (f i); lia.
Qed.

(** C8.  For a line the file operations accept, which starts at the address
    [a0] of its address field and holds [n] bytes, a call of the body of
    [readmem_verify] (tru11 and tbug11) or of [writemem_file] that returns
    has added to the ignore count of the file the number of bytes of the
    line whose 16-bit address is 0x103F when [verify_config] is off, and to
    the mismatch count the number of the other bytes that differ: from the
    byte of the line in [readmem_verify], from the byte sent in
    [writemem_file].  With [verify_config] off a byte at 0x103F is ignored
    and is not a mismatch, whatever was read back, so a line that covers
    0x103F adds at least one to the ignore count; with [verify_config] on no
    byte is ignored and the byte at 0x103F is compared as every other byte.
    The counts are 32-bit.  With chunk sizes of at least 1 and fuel for 256
    bytes the calls do not run out of fuel. *)
Theorem config_register_ignored {port : Type} {SC : serial_com port}
  (fuel : nat) (arg_params : cl_my_params) (arg_write_cmd_code : Z)
  (line_str : string) (txbuf rxbuf : list Z) (t : tally) (d : port) :
  size line_str >= 8 -> is_S1 line_str = true ->
  u32 (mismatch_count t) = mismatch_count t ->
  u32 (ignore_count t) = ignore_count t ->
  let a0 := srec_address line_str in
  let n := Z.to_nat (srec_count line_str) in
  let ignored := count_from (ignored_at arg_params a0) 0 n in
  let mismatched differs := count_from (mismatch_at arg_params a0 differs) 0 n in
  (forall d' evs txbuf' rxbuf' t',
     Tru11.readmem_verify_line fuel arg_params line_str txbuf rxbuf t d
     = (d', evs, Done (txbuf', rxbuf', t')) \/
     TBug11.readmem_verify_line fuel arg_params line_str txbuf rxbuf t d
     = (d', evs, Done (txbuf', rxbuf', t')) ->
     ignore_count t' = u32 (ignore_count t + ignored) /\
     mismatch_count t'
     = u32 (mismatch_count t + mismatched (verify_differs line_str rxbuf'))) /\
  (forall d' evs txbuf' rxbuf' t',
     Tru11.writemem_file_line fuel arg_params arg_write_cmd_code line_str
       txbuf rxbuf t d = (d', evs, Done (txbuf', rxbuf', t')) ->
     ignore_count t' = u32 (ignore_count t + ignored) /\
     mismatch_count t'
     = u32 (mismatch_count t + mismatched (write_differs txbuf' rxbuf'))) /\
  (verify_config arg_params = false ->
   (forall k, 0 <= k < Z.of_nat n -> u16 (a0 + k) = HC11_CONFIG_ADDR ->
      ignored_at arg_params a0 k = true /\
      forall differs, mismatch_at arg_params a0 differs k = false) /\
   ((exists k, 0 <= k < Z.of_nat n /\ u16 (a0 + k) = HC11_CONFIG_ADDR) ->
    1 <= ignored) /\
   forall differs, mismatched differs <= Z.of_nat n - ignored) /\
  (verify_config arg_params = true ->
   ignored = 0 /\
   forall differs, mismatched differs = count_from differs 0 n) /\
  (1 <= serial_txbuf_size arg_params ->
   1 <= serial_prog_txbuf_size arg_params ->
   1 <= serial_rxbuf_size arg_params ->
   (256 <= fuel)%nat -> (256 <= length txbuf)%nat -> (256 <= length rxbuf)%nat ->
   snd (Tru11.readmem_verify_line fuel arg_params line_str txbuf rxbuf t d)
   <> OutOfFuel /\
   snd (TBug11.readmem_verify_line fuel arg_params line_str txbuf rxbuf t d)
   <> OutOfFuel /\
   snd (Tru11.writemem_file_line fuel arg_params arg_write_cmd_code line_str
          txbuf rxbuf t d) <> OutOfFuel).
Proof.
  intros Hsz HS1 Hm Hig a0 n ignored mismatched.
  destruct (accepted_line line_str Hsz) as (E8 & E4 & E2).
  assert (Ha0 : u16 (a0 + 0) = a0).
  { rewrite Z.add_0_r. unfold a0, srec_address. apply u16_idem. }
  assert (Hverify : forall rx st,
            Tru11.verify_data_loop n arg_params line_str rx 0
              (a0, 0, (0, 0), (mismatch_count t, ignore_count t)) = Done st ->
            let '(_, _, _, (m', ig')) := st in
            ig' = u32 (ignore_count t + ignored) /\
            m' = u32 (mismatch_count t + mismatched (verify_differs line_str rx))).
  { intros rx st Hst.
    pose proof (verify_data_loop_cases arg_params line_str rx a0 n 0 0 0
                  (mismatch_count t) (ignore_count t) ltac:(lia) u32_0 u32_0
                  Hm Hig) as Hc.
    rewrite Ha0, Hst in Hc. destruct st as [[[a' rp'] [lm' li']] [m' ig']].
    destruct Hc as (_ & _ & _ & -> & _ & ->). split; reflexivity. }
  split; [|split; [|split; [|split]]].
  - intros d' evs txbuf' rxbuf' t' [H|H].
    + unfold Tru11.readmem_verify_line in H.
      rewrite E8, HS1, E4, E2, !bind_lift_done in H. cbv zeta in H.
      apply bind_done in H. destruct H as (d1 & e1 & rx1 & e1' & _ & H & _).
      apply bind_done in H. destruct H as (d2 & e2 & [] & e2' & _ & H & _).
      apply bind_done in H. destruct H as (d3 & e3 & rx2 & e3' & _ & H & _).
      apply bind_done in H. destruct H as (d4 & e4 & st & e4' & Hl & H & _).
      apply lift_inv in Hl. destruct Hl as (_ & _ & Hl). symmetry in Hl.
      apply Hverify in Hl. destruct st as [[[a' rp'] [lm' li']] [m' ig']].
      apply ret_inv in H. destruct H as (_ & _ & H).
      injection H as -> -> ->. exact Hl.
    + unfold TBug11.readmem_verify_line in H.
      rewrite E8, HS1, E4, E2, !bind_lift_done in H. cbv zeta in H.
      apply bind_done in H. destruct H as (d1 & e1 & rx1 & e1' & _ & H & _).
      apply bind_done in H. destruct H as (d2 & e2 & [] & e2' & _ & H & _).
      apply bind_done in H. destruct H as (d3 & e3 & rx2 & e3' & _ & H & _).
      apply bind_done in H. destruct H as (d4 & e4 & st & e4' & Hl & H & _).
      apply lift_inv in Hl. destruct Hl as (_ & _ & Hl). symmetry in Hl.
      rewrite verify_data_loop_same in Hl.
      apply Hverify in Hl. destruct st as [[[a' rp'] [lm' li']] [m' ig']].
      apply ret_inv in H. destruct H as (_ & _ & H).
      injection H as -> -> ->. exact Hl.
  - intros d' evs txbuf' rxbuf' t' H.
    unfold Tru11.writemem_file_line in H.
    rewrite E8, HS1, E4, E2, !bind_lift_done in H. cbv zeta in H.
    apply bind_done in H. destruct H as (d1 & e1 & rx1 & e1' & _ & H & _).
    apply bind_done in H. destruct H as (d2 & e2 & [] & e2' & _ & H & _).
    apply bind_done in H. destruct H as (d3 & e3 & tx2 & e3' & _ & H & _).
    apply bind_done in H. destruct H as (d4 & e4 & rx2 & e4' & _ & H & _).
    pose proof (write_check_loop_spec arg_params tx2 rx2 a0 n 0 0 0
                  (mismatch_count t) (ignore_count t) u32_0 u32_0 Hm Hig) as Hw.
    rewrite Ha0 in Hw. fold (srec_count line_str) in H.
    fold (srec_address line_str) in H. fold a0 in H. fold n in H.
    rewrite Hw in H.
    apply ret_inv in H. destruct H as (_ & _ & H).
    injection H as -> -> ->. split; reflexivity.
  - intros Hvc.
    assert (Hcfg : forall k, u16 (a0 + k) = HC11_CONFIG_ADDR ->
              ignored_at arg_params a0 k = true).
    { intros k Ha. unfold ignored_at. rewrite Hvc, Ha. reflexivity. }
    split; [|split].
    + intros k Hk Ha. split; [auto|]. intros differs. unfold mismatch_at.
      rewrite (Hcfg k Ha). reflexivity.
    + intros (k & Hk & Ha). unfold ignored.
      apply (count_from_at_least (ignored_at arg_params a0) n 0 k); [lia|auto].
    + intros differs. unfold mismatched, ignored.
      pose proof (count_from_disjoint arg_params a0 differs n 0). lia.
  - intros Hvc.
    assert (Hi : forall k, ignored_at arg_params a0 k = false).
    { intros k. unfold ignored_at. rewrite Hvc. reflexivity. }
    split; [apply count_from_none; intros; apply Hi|].
    intros differs. apply count_from_ext. intros k _. unfold mismatch_at.
    rewrite Hi. reflexivity.
  - intros HT HP HR Hfuel Htx Hrx. split; [|split].
    + destruct (Tru11.readmem_verify_line _ _ _ _ _ _ d) as [[d' evs] r] eqn:E.
      exact (proj1 (Moves_tru11_verify_line fuel arg_params line_str txbuf rxbuf t
                      HT HR Hfuel ltac:(lia) Hrx Hsz HS1 _ _ _ _ E)).
    + destruct (Moves_tbug11_verify_line fuel arg_params line_str txbuf rxbuf t
                  HT HR Hfuel ltac:(lia) Hrx Hsz HS1) as (filler & _ & Hmv).
      destruct (TBug11.readmem_verify_line _ _ _ _ _ _ d) as [[d' evs] r] eqn:E.
      exact (proj1 (Hmv _ _ _ _ E)).
    + destruct (Tru11.writemem_file_line _ _ _ _ _ _ _ d) as [[d' evs] r] eqn:E.
      exact (proj1 (Moves_tru11_write_line fuel arg_params arg_write_cmd_code
                      line_str txbuf rxbuf t HT HP HR Hfuel Htx Hrx Hsz HS1
                      _ _ _ _ E)).
Qed.

(** A line of two bytes at 0x103E: the device gives back the first byte and
    another value for CONFIG. *)
Lemma config_register_ignored_witness :
  size "S105103E0102A8" >= 8 /\ is_S1 "S105103E0102A8" = true /\
  u32 0 = 0 /\
  srec_address "S105103E0102A8" = 0x103e /\
  Tru11.readmem_verify_line 3 default_params "S105103E0102A8" [0; 0; 0] [0; 0]
    {| total_databytes := 0; mismatch_count := 0; ignore_count := 0 |}
    (Scripted [] [Ret [1]; Ret [1; 99]])
  = (Scripted [] [],
     [EvWrite [1] (Ret 1); EvRead 1 (Ret [1]);
      EvWrite [2; 0x10; 0x3e] (Ret 3); EvRead 2 (Ret [1; 99])],
     Done ([2; 0x10; 0x3e], [1; 99],
           {| total_databytes := 2; mismatch_count := 0; ignore_count := 1 |})) /\
  1 = u32 (0 + count_from (ignored_at default_params 0x103e) 0 2).
Proof.
  assert (H1 : size "S105103E0102A8" >= 8) by (vm_compute; discriminate).
  assert (H2 : is_S1 "S105103E0102A8" = true) by reflexivity.
  assert (H3 : u32 0 = 0) by reflexivity.
  assert (Hrun :
    Tru11.readmem_verify_line 3 default_params "S105103E0102A8" [0; 0; 0] [0; 0]
      {| total_databytes := 0; mismatch_count := 0; ignore_count := 0 |}
      (Scripted [] [Ret [1]; Ret [1; 99]])
    = (Scripted [] [],
       [EvWrite [1] (Ret 1); EvRead 1 (Ret [1]);
        EvWrite [2; 0x10; 0x3e] (Ret 3); EvRead 2 (Ret [1; 99])],
       Done ([2; 0x10; 0x3e], [1; 99],
             {| total_databytes := 2; mismatch_count := 0; ignore_count := 1 |})))
    by (vm_compute; reflexivity).
  split; [exact H1|]. split; [exact H2|]. split; [exact H3|].
  split; [vm_compute; reflexivity|]. split; [exact Hrun|].
  destruct (config_register_ignored 3 default_params Tru11.TALKER_WRITE_CMD
              "S105103E0102A8" [0; 0; 0] [0; 0]
              {| total_databytes := 0; mismatch_count := 0; ignore_count := 0 |}
              (Scripted [] [Ret [1]; Ret [1; 99]]) H1 H2 H3 H3) as (Hv & _).
  destruct (Hv _ _ _ _ _ (or_introl Hrun)) as [Hi _]. exact Hi.
Defined.

(** The same line read back by tbug11 and written by tru11: the byte at
    0x103F is ignored in both. *)
Example config_register_ignored_elsewhere :
  snd (TBug11.readmem_verify_line 3 default_params "S105103E0102A8"
         [0; 0; 0] [0; 0]
         {| total_databytes := 0; mismatch_count := 0; ignore_count := 0 |}
         (Scripted [] [Ret [0xfe]; Ret [1; 99]]))
  = Done ([2; 0x10; 0x3e], [1; 99],
          {| total_databytes := 2; mismatch_count := 0; ignore_count := 1 |}) /\
  snd (Tru11.writemem_file_line 3 default_params Tru11.TALKER_WRITE_CMD
         "S105103E0102A8" [0; 0; 0] [0; 0]
         {| total_databytes := 0; mismatch_count := 0; ignore_count := 0 |}
         (Scripted [] [Ret [Tru11.TALKER_WRITE_CMD]; Ret [1; 99]]))
  = Done ([1; 2; 0x3e], [1; 99],
          {| total_databytes := 2; mismatch_count := 0; ignore_count := 1 |}).
Proof. split; vm_compute; reflexivity. Qed.

(** The same line with [verify_config=true]: the byte is compared. *)
Example config_register_compared :
  Tru11.verify_data_loop 2
    {| serial_rxbuf_size := 256; serial_txbuf_size := 256;
       serial_prog_txbuf_size := 2; srec_datalen := 16; verify_config := true;
       full_file_name := ""; from_addr := 0; to_addr := 0 |}
    "S105103E0102A8" [1; 99] 0 (u16 0x103e, 0, (0, 0), (0, 0))
  = Done (0x1040, 2, (1, 0), (1, 0)).
Proof. vm_compute. reflexivity. Qed.

(** ** The command byte *)

(** C1, as amended.  Every operation that accesses memory opens with the
    exchange of its command byte, and the parameter bytes are written only
    when the echo has been accepted: otherwise the trace ends with the
    exchange and the operation fails.  tbug11 ([readmem], [readmem_verify],
    [writemem_byte], and each round of [writemem_hexstr] and each line of
    [writemem_file]) accepts the bitwise complement of the command byte,
    tru11 ([readmem], [readmem_verify], [writemem_file] and each round of
    [writemem_hexstr]) accepts the command byte itself.  These are the nine
    places where the two programs send a command.  [line_str] is a line the
    file operations accept; a round of [writemem_hexstr] sends the count
    [min(remaining, 256)] as a byte. *)
Theorem command_echo_before_parameters {port : Type} {SC : serial_com port}
  (fuel : nat) (arg_params : cl_my_params) (txbuf rxbuf : list Z)
  (line_str : string) (d : port) :
  1 <= serial_txbuf_size arg_params -> 1 <= serial_rxbuf_size arg_params ->
  (3 <= length txbuf)%nat -> (1 <= length rxbuf)%nat ->
  size line_str >= 8 -> is_S1 line_str = true ->
  let first_params n addr :=
    firstn (Z.to_nat (serial_txbuf_size arg_params)) (command_params n addr) in
  let line_params :=
    first_params (srec_count line_str) (srec_address line_str) in
  (forall addr remaining,
     let '(_, evs, r) :=
       TBug11.readmem_command (S fuel) arg_params addr remaining txbuf rxbuf d in
     command_first true TBug11.TALKER_READ_CMD
       (first_params (Z.min remaining 256) addr) evs r) /\
  (forall t,
     let '(_, evs, r) :=
       TBug11.readmem_verify_line (S fuel) arg_params line_str txbuf rxbuf t d in
     command_first true TBug11.TALKER_READ_CMD line_params evs r) /\
  (forall addr value,
     let '(_, evs, r) := TBug11.writemem_byte (S fuel) arg_params addr value d in
     command_first true TBug11.TALKER_WRITE_CMD (first_params 1 addr) evs r) /\
  (forall e addr remaining, remaining <> 0 ->
     let '(_, evs, r) :=
       Tru11.readmem_loop (S fuel) arg_params e addr remaining txbuf rxbuf d in
     command_first false Tru11.TALKER_READ_CMD
       (first_params (Z.min remaining 256) addr) evs r) /\
  (forall t,
     let '(_, evs, r) :=
       Tru11.readmem_verify_line (S fuel) arg_params line_str txbuf rxbuf t d in
     command_first false Tru11.TALKER_READ_CMD line_params evs r) /\
  (forall arg_write_cmd_code t,
     let '(_, evs, r) :=
       Tru11.writemem_file_line (S fuel) arg_params arg_write_cmd_code line_str
         txbuf rxbuf t d in
     command_first false arg_write_cmd_code line_params evs r) /\
  (forall data addr remaining, remaining <> 0 ->
     let '(_, evs, r) :=
       TBug11Ops.writemem_hexstr_loop (S fuel) arg_params data addr remaining
         txbuf rxbuf d in
     command_first true TBug11.TALKER_WRITE_CMD
       (first_params (u8 (Z.min remaining 256)) addr) evs r) /\
  (let '(_, evs, r) :=
     TBug11Ops.writemem_file_line (S fuel) arg_params line_str txbuf rxbuf d in
   command_first true TBug11.TALKER_WRITE_CMD line_params evs r) /\
  (forall arg_write_cmd_code data addr remaining, remaining <> 0 ->
     let '(_, evs, r) :=
       Tru11Ops.writemem_hexstr_loop (S fuel) arg_params arg_write_cmd_code data
         addr remaining txbuf rxbuf d in
     command_first false arg_write_cmd_code
       (first_params (u8 (Z.min remaining 256)) addr) evs r).
Proof.
  intros HT HR Htx Hrx Hsz HS1 first_params line_params.
  subst first_params line_params. cbv beta.
  split; [|split; [|split; [|split; [|split; [|split; [|split; [|split]]]]]]].
  - intros addr remaining.
    destruct (TBug11.readmem_command _ _ _ _ _ _ d) as [[d' evs] r] eqn:E.
    eapply tbug11_readmem_command_first; eassumption.
  - intros t.
    destruct (TBug11.readmem_verify_line _ _ _ _ _ _ d) as [[d' evs] r] eqn:E.
    eapply tbug11_verify_line_first; eassumption.
  - intros addr value.
    destruct (TBug11.writemem_byte _ _ _ _ d) as [[d' evs] r] eqn:E.
    eapply tbug11_writemem_byte_first; eassumption.
  - intros e addr remaining Hrem.
    destruct (Tru11.readmem_loop _ _ _ _ _ _ _ d) as [[d' evs] r] eqn:E.
    eapply tru11_readmem_loop_first; eassumption.
  - intros t.
    destruct (Tru11.readmem_verify_line _ _ _ _ _ _ d) as [[d' evs] r] eqn:E.
    eapply tru11_verify_line_first; eassumption.
  - intros code t.
    destruct (Tru11.writemem_file_line _ _ _ _ _ _ _ d) as [[d' evs] r] eqn:E.
    eapply tru11_write_line_first; eassumption.
  - intros data addr remaining Hrem.
    destruct (TBug11Ops.writemem_hexstr_loop _ _ _ _ _ _ _ d)
      as [[d' evs] r] eqn:E.
    eapply tbug11_hexstr_loop_first; eassumption.
  - destruct (TBug11Ops.writemem_file_line _ _ _ _ _ d) as [[d' evs] r] eqn:E.
    eapply tbug11_write_line_first; eassumption.
  - intros code data addr remaining Hrem.
    destruct (Tru11Ops.writemem_hexstr_loop _ _ _ _ _ _ _ _ d)
      as [[d' evs] r] eqn:E.
    eapply tru11_hexstr_loop_first; eassumption.
Qed.

(** Writing 0x02 to the register at 0x103B with tbug11, the talker
    answering 0xBE to the command 0x41. *)
Lemma command_echo_before_parameters_witness :
  1 <= serial_txbuf_size default_params /\
  1 <= serial_rxbuf_size default_params /\
  (3 <= length [0; 0; 0])%nat /\ (1 <= length [0])%nat /\
  size "S1041000AA41" >= 8 /\ is_S1 "S1041000AA41" = true /\
  let '(_, evs, r) :=
    TBug11.writemem_byte 3 default_params 0x103b 0x02
      (Scripted [] [Ret [0xbe]; Ret [0x02]]) in
  command_first true 0x41 [1; 0x10; 0x3b] evs r.
Proof.
  assert (H1 : 1 <= serial_txbuf_size default_params) by (simpl; lia).
  assert (H2 : 1 <= serial_rxbuf_size default_params) by (simpl; lia).
  assert (H3 : (3 <= length [0; 0; 0])%nat) by (simpl; lia).
  assert (H4 : (1 <= length [0])%nat) by (simpl; lia).
  assert (H5 : size "S1041000AA41" >= 8) by (vm_compute; discriminate).
  assert (H6 : is_S1 "S1041000AA41" = true) by reflexivity.
  repeat (split; [assumption|]).
  exact (proj1 (proj2 (proj2
           (command_echo_before_parameters 2 default_params [0; 0; 0] [0]
              "S1041000AA41" (Scripted [] [Ret [0xbe]; Ret [0x02]])
              H1 H2 H3 H4 H5 H6))) 0x103b 0x02).
Defined.

(** Against C1 as stated: tru11 does not use the complement.  A talker
    that answers the complement 0xFE to the read command 0x01 makes
    [readmem] of tru11 fail before any parameter is written; a talker that
    answers 0x01 is accepted and the parameters follow. *)
Lemma tru11_command_echo_is_direct :
  u8_not Tru11.TALKER_READ_CMD = 0xfe /\
  Tru11.readmem 2 (read_params 0 0 "") [] [] (Scripted [] [Ret [0xfe]])
  = (Scripted [] [],
     [EvWrite [0x01] (Ret 1); EvRead 1 (Ret [0xfe])],
     Throw (APP_ERROR_ECHO 0x01 0xfe)) /\
  Tru11.readmem 2 (read_params 0 0 "") [] [] (Scripted [] [Ret [0x01]; Ret [0x55]])
  = (Scripted [] [],
     [EvWrite [0x01] (Ret 1); EvRead 1 (Ret [0x01]);
      EvWrite [1; 0; 0] (Ret 3); EvRead 1 (Ret [0x55])],
     Done ["S0030000FC" ++ CRLF]%string).
Proof. split; [|split]; vm_compute; reflexivity. Qed.

(** tbug11 on the same talkers: the complement is accepted, the command
    byte itself is not. *)
Example tbug11_command_echo_is_complement :
  TBug11.readmem 2 (read_params 0 0 "") [] []
    (Scripted [] [Ret [0xfe]; Ret [0x55]])
  = (Scripted [] [],
     [EvWrite [0x01] (Ret 1); EvRead 1 (Ret [0xfe]);
      EvWrite [1; 0; 0] (Ret 3); EvWrite [1] (Ret 1); EvRead 1 (Ret [0x55])],
     Done ["S0030000FC" ++ CRLF]%string) /\
  TBug11.readmem 2 (read_params 0 0 "") [] []
    (Scripted [] [Ret [0x01]; Ret [0x55]])
  = (Scripted [] [Ret [0x55]],
     [EvWrite [0x01] (Ret 1); EvRead 1 (Ret [0x01])],
     Throw (APP_ERROR_ECHO 0x01 0xfe)).
Proof. split; vm_compute; reflexivity. Qed.

(** ** The EEPROM *)

(** C9.  [write_ee] of tbug11 writes, for each data byte of each S1 record
    in turn, the erase sequence and then the program sequence, each a
    series of four [writemem_byte]: for the erase 0x06 to the register at
    0x103B, the byte to the address, 0x07 and 0x00 to the register when the
    address is 0x103F, and 0x16, the byte, 0x17, 0x00 otherwise; for the
    program 0x02 to the register, the data byte to the address, 0x03 and
    0x00 to the register.  What is written is always a prefix of that
    image and all of it on return, with two echo bytes asked for each
    [writemem_byte]; the delay between the third and the fourth write is
    [TALKER_ERASE_PROG_DELAY], which is 0: no call but writes and reads is
    made. *)
Theorem write_ee_erases_then_programs {port : Type} {SC : serial_com port}
  (fuel : nat) (arg_params : cl_my_params) (in_file : list string)
  (d d' : port) (evs : list event) (r : outcome unit) :
  1 <= serial_txbuf_size arg_params -> 1 <= serial_rxbuf_size arg_params ->
  (3 <= fuel)%nat ->
  TBug11.write_ee fuel arg_params in_file d = (d', evs, r) ->
  r <> OutOfFuel /\
  (exists rest, ee_image in_file = written evs ++ rest) /\
  (r = Done tt ->
   written evs = ee_image in_file /\ requested evs = 16 * file_count in_file) /\
  forallb is_io evs = true /\
  (forall addr byte,
     ee_program addr byte
     = [0x41; 1; 0x10; 0x3b; 0x02] ++ [0x41; 1; hi_byte addr; lo_byte addr; byte]
       ++ [0x41; 1; 0x10; 0x3b; 0x03] ++ [0x41; 1; 0x10; 0x3b; 0x00]) /\
  (forall byte,
     ee_erase 0x103f byte
     = [0x41; 1; 0x10; 0x3b; 0x06] ++ [0x41; 1; 0x10; 0x3f; byte]
       ++ [0x41; 1; 0x10; 0x3b; 0x07] ++ [0x41; 1; 0x10; 0x3b; 0x00]) /\
  (forall addr byte, addr <> 0x103f ->
     ee_erase addr byte
     = [0x41; 1; 0x10; 0x3b; 0x16] ++ [0x41; 1; hi_byte addr; lo_byte addr; byte]
       ++ [0x41; 1; 0x10; 0x3b; 0x17] ++ [0x41; 1; 0x10; 0x3b; 0x00]).
Proof.
  intros HT HR Hfuel H.
  destruct (Moves_write_ee fuel arg_params in_file HT HR Hfuel _ _ _ _ H)
    as (Hf & Hp & _ & Hd & Hio).
  split; [assumption|]. split; [assumption|].
  split; [intros ->; apply Hd; exists tt; reflexivity|].
  split; [assumption|].
  split; [reflexivity|]. split; [reflexivity|].
  intros addr byte Ha. unfold ee_erase, HC11_CONFIG_ADDR.
  destruct (Z.eqb_spec addr 0x103f); [contradiction|reflexivity].
Qed.

(** A record with the one byte 0xAA at 0x1000, on a talker that answers
    as expected. *)
Lemma write_ee_erases_then_programs_witness :
  1 <= serial_txbuf_size default_params /\
  1 <= serial_rxbuf_size default_params /\ (3 <= 3)%nat /\
  snd write_ee_one_byte = Done tt /\
  written (snd (fst write_ee_one_byte))
  = [0x41; 1; 0x10; 0x3b; 0x16; 0x41; 1; 0x10; 0x00; 0xaa;
     0x41; 1; 0x10; 0x3b; 0x17; 0x41; 1; 0x10; 0x3b; 0x00;
     0x41; 1; 0x10; 0x3b; 0x02; 0x41; 1; 0x10; 0x00; 0xaa;
     0x41; 1; 0x10; 0x3b; 0x03; 0x41; 1; 0x10; 0x3b; 0x00] /\
  requested (snd (fst write_ee_one_byte)) = 16.
Proof.
  assert (H1 : 1 <= serial_txbuf_size default_params) by (simpl; lia).
  assert (H2 : 1 <= serial_rxbuf_size default_params) by (simpl; lia).
  assert (H3 : (3 <= 3)%nat) by lia.
  assert (Hr : snd write_ee_one_byte = Done tt) by (vm_compute; reflexivity).
  assert (Hrun : TBug11.write_ee 3 default_params ["S1041000AA41"%string]
                   (ee_talker [0x16; 0xaa; 0x17; 0x00; 0x02; 0xaa; 0x03; 0x00])
                 = (fst (fst write_ee_one_byte), snd (fst write_ee_one_byte),
                    snd write_ee_one_byte))
    by (vm_compute; reflexivity).
  repeat (split; [assumption|]).
  destruct (write_ee_erases_then_programs 3 default_params
              ["S1041000AA41"%string]
              (ee_talker [0x16; 0xaa; 0x17; 0x00; 0x02; 0xaa; 0x03; 0x00])
              _ _ _ H1 H2 H3 Hrun)
    as (_ & _ & Hd & _).
  destruct (Hd Hr) as [Hw Hq].
  split; [rewrite Hw|rewrite Hq]; vm_compute; reflexivity.
Defined.

(** The CONFIG register is erased in bulk. *)
Example write_ee_config_register :
  let run :=
    TBug11.write_ee 3 default_params ["S104103F0FA9"%string]
      (ee_talker [0x06; 0x0f; 0x07; 0x00; 0x02; 0x0f; 0x03; 0x00]) in
  snd run = Done tt /\
  written (snd (fst run))
  = [0x41; 1; 0x10; 0x3b; 0x06; 0x41; 1; 0x10; 0x3f; 0x0f;
     0x41; 1; 0x10; 0x3b; 0x07; 0x41; 1; 0x10; 0x3b; 0x00;
     0x41; 1; 0x10; 0x3b; 0x02; 0x41; 1; 0x10; 0x3f; 0x0f;
     0x41; 1; 0x10; 0x3b; 0x03; 0x41; 1; 0x10; 0x3b; 0x00].
Proof. split; vm_compute; reflexivity. Qed.

(** ** The count of a record *)



(** The same field in [writemem_file]: 253 data bytes are read from the
    line and written. *)
Example short_count_write :
  let '(_, evs, r) :=
    Tru11.writemem_file_line 256 default_params Tru11.TALKER_WRITE_CMD
      short_count_line (alloc_buf [] 256) (alloc_buf [] 256)
      {| total_databytes := 0; mismatch_count := 0; ignore_count := 0 |}
      (Scripted [] [Ret [0x02]; Ret (repeat 0 253)]) in
  written evs = [0x02; 253; 0x10; 0x00] ++ repeat 0 253 /\
  requested evs = 254 /\
  exists txbuf rxbuf,
    r = Done (txbuf, rxbuf,
              {| total_databytes := 253; mismatch_count := 0; ignore_count := 1 |}).
Proof.
  vm_compute. split; [reflexivity|]. split; [reflexivity|].
  eexists. eexists. reflexivity.
Qed.

(** * More of the engine *)

(** ** [rx_chunk] *)

Lemma store_nil (buf : list Z) (p : Z) :
  0 <= p <= Z.of_nat (length buf) -> store buf p [] = buf.
Proof.
  intros Hp. unfold store. cbn [length firstn]. rewrite firstn_nil.
  cbn [app]. rewrite Nat.add_0_r. apply firstn_skipn.
Qed.

Lemma store_store (buf : list Z) (p : Z) (bs1 bs2 : list Z) :
  0 <= p ->
  p + Z.of_nat (length bs1) + Z.of_nat (length bs2) <= Z.of_nat (length buf) ->
  store (store buf p bs1) (p + Z.of_nat (length bs1)) bs2
  = store buf p (bs1 ++ bs2).
Proof.
  intros Hp Hlen. apply (nth_ext _ _ 0 0).
  - rewrite !length_store. reflexivity.
  - intros k Hk. rewrite !length_store in Hk.
    rewrite nth_store by (rewrite ?length_store; lia).
    rewrite (nth_store buf p (bs1 ++ bs2)) by (rewrite ?length_app; lia).
    rewrite length_app.
    destruct (Nat.ltb_spec k (Z.to_nat (p + Z.of_nat (length bs1)))) as [H1|H1].
    + rewrite nth_store by lia.
      destruct (Nat.ltb_spec k (Z.to_nat p)) as [H2|H2]; [reflexivity|].
      destruct (Nat.ltb_spec k (Z.to_nat p + length bs1)) as [H3|H3]; [|lia].
      destruct (Nat.ltb_spec k (Z.to_nat p + (length bs1 + length bs2)));
        [|lia].
      rewrite app_nth1 by lia. reflexivity.
    + destruct (Nat.ltb_spec k (Z.to_nat p)) as [H2|H2]; [lia|].
      destruct (Nat.ltb_spec k
                  (Z.to_nat (p + Z.of_nat (length bs1)) + length bs2)) as [H3|H3].
      * destruct (Nat.ltb_spec k (Z.to_nat p + (length bs1 + length bs2)));
          [|lia].
        rewrite app_nth2 by lia. f_equal. lia.
      * destruct (Nat.ltb_spec k (Z.to_nat p + (length bs1 + length bs2)));
          [lia|].
        rewrite nth_store by lia.
        destruct (Nat.ltb_spec k (Z.to_nat p)); [lia|].
        destruct (Nat.ltb_spec k (Z.to_nat p + length bs1)); [lia|reflexivity].
Qed.

Section RxFacts.
Context {port : Type} {SC : serial_com port}.

Lemma rx_chunk_schedule (B : Z) (fuel : nat) :
  1 <= B ->
  forall (rxbuf : list Z) (p N : Z) (d d' : port) (evs : list event)
         (r : outcome (list Z)),
    0 <= N <= Z.of_nat fuel -> 0 <= p -> p + N <= Z.of_nat (length rxbuf) ->
    rx_chunk fuel B rxbuf p N d = (d', evs, r) ->
    (exists rest, chunk_sizes fuel N B = map ev_size evs ++ rest) /\
    (forall rxbuf', r = Done rxbuf' -> rxbuf' = store rxbuf p (received evs)).
Proof.
  intros HB. induction fuel as [|fuel IH];
    intros rxbuf p N d d' evs r HN Hp Hlen Hrun.
  - assert (N = 0) by lia. subst N. cbn in Hrun. inversion Hrun; subst.
    split; [exists []; reflexivity|].
    intros rxbuf' H. inversion H; subst. cbn [received].
    symmetry. apply store_nil. lia.
  - cbn [rx_chunk] in Hrun. destruct (Z.eqb_spec N 0) as [->|HN0].
    + inversion Hrun; subst. split; [exists []; reflexivity|].
      intros rxbuf' H. inversion H; subst. cbn [received].
      symmetry. apply store_nil. lia.
    + rewrite chunk_sizes_S by lia.
      pose proof (chunklen_range N B HB ltac:(lia)) as Hc.
      set (c := if N >? B then B else N) in *. clearbody c.
      apply bind_inv in Hrun.
      destruct Hrun as [(d1 & e1 & bs & e2 & Hw & Hk & ->)|[(e & Hw & ->)|[Hw ->]]];
        apply port_read_inv in Hw; destruct Hw as (rep & -> & Hr);
        cbn [app map ev_size received].
      * destruct rep as [bs'|cc]; [|discriminate]. inversion Hr; subst bs'.
        destruct (Z.eqb_spec (Z.of_nat (length bs)) c) as [En|En];
          cbn [negb] in Hk.
        -- pose proof (rx_chunk_run fuel B HB (store rxbuf p bs) (p + c) (N - c)
                         d1 d' e2 r ltac:(lia) ltac:(lia)
                         ltac:(rewrite length_store; lia) Hk)
             as (_ & _ & _ & Hdone & _).
           apply IH in Hk; [|lia|lia|rewrite length_store; lia].
           destruct Hk as [(rest & Hs) Hst].
           split; [exists rest; rewrite Hs; reflexivity|].
           intros rxbuf' Hd. rewrite (Hst rxbuf' Hd).
           destruct (Hdone rxbuf' Hd) as (_ & _ & Hl & _).
           rewrite <- En. apply store_store; lia.
        -- inversion Hk; subst.
           split; [eexists; reflexivity|discriminate].
      * split; [eexists; reflexivity|]. destruct rep; discriminate.
      * destruct rep; discriminate.
Qed.

(** What a transfer that returns has received and stored. *)
Lemma rx_chunk_received (B : Z) (fuel : nat) (rxbuf : list Z) (p N : Z)
  (d d' : port) (evs : list event) (rxbuf' : list Z) :
  1 <= B -> 0 <= N <= Z.of_nat fuel -> 0 <= p ->
  p + N <= Z.of_nat (length rxbuf) ->
  rx_chunk fuel B rxbuf p N d = (d', evs, Done rxbuf') ->
  Z.of_nat (length (received evs)) = N /\
  rxbuf' = store rxbuf p (received evs).
Proof.
  intros HB HN Hp Hlen Hrun.
  destruct (rx_chunk_run fuel B HB rxbuf p N d d' evs _ HN Hp Hlen Hrun)
    as (_ & _ & _ & Hdone & _).
  destruct (rx_chunk_schedule B fuel HB rxbuf p N d d' evs _ HN Hp Hlen Hrun)
    as (_ & Hst).
  destruct (Hdone rxbuf' eq_refl) as (_ & _ & Hl & _).
  split; [exact Hl|]. apply Hst. reflexivity.
Qed.

End RxFacts.

(** A call that is not complete, in a trace whose calls but the last are
    complete, is the last one. *)
Lemma incomplete_is_last (pre post pre' : list event) (x y : event) :
  pre ++ x :: post = pre' ++ [y] -> complete x = false ->
  forallb complete pre' = true ->
  post = [] /\ x = y /\ pre = pre'.
Proof.
  intros Heq Hx Hpre'.
  destruct post as [|z0 post0].
  - apply app_inj_tail in Heq. destruct Heq as [-> ->]. auto.
  - exfalso. destruct (exists_last (l := z0 :: post0) ltac:(discriminate))
      as (l0 & z1 & Hl0).
    rewrite Hl0 in Heq.
    change (pre ++ x :: l0 ++ [z1]) with (pre ++ (x :: l0) ++ [z1]) in Heq.
    rewrite app_assoc in Heq. apply app_inj_tail in Heq.
    destruct Heq as [<- _]. rewrite forallb_app in Hpre'. cbn [forallb] in Hpre'.
    rewrite Hx in Hpre'. cbn in Hpre'. rewrite andb_false_r in Hpre'.
    discriminate.
Qed.

(** X1.  [rx_chunk] for [N] bytes with chunk size [B >= 1] makes only
    transport reads, of the sizes [min(remaining, B)] of the schedule.  It
    returns exactly when every read delivered the count asked for, and then
    [N] bytes were asked for and received and the buffer is the old one
    with the bytes received stored at the offset: nothing outside the [N]
    bytes changes.  A read that delivers another count than the one asked
    for is the last call, and the transfer throws the receive failure with
    the count asked for and the count delivered; conversely a receive
    failure holds the count asked for and the count delivered by the last
    read, the reads before being complete. *)
Theorem rx_chunk_stores {port : Type} {SC : serial_com port}
  (fuel : nat) (B N p : Z) (rxbuf : list Z) (d d' : port)
  (evs : list event) (r : outcome (list Z)) :
  1 <= B -> 0 <= N <= Z.of_nat fuel -> 0 <= p ->
  p + N <= Z.of_nat (length rxbuf) ->
  rx_chunk fuel B rxbuf p N d = (d', evs, r) ->
  forallb is_read evs = true /\
  (exists rest, chunk_sizes fuel N B = map ev_size evs ++ rest) /\
  r <> OutOfFuel /\
  ((exists rxbuf', r = Done rxbuf') <-> forallb complete evs = true) /\
  (forall rxbuf', r = Done rxbuf' ->
     requested evs = N /\ Z.of_nat (length (received evs)) = N /\
     rxbuf' = store rxbuf p (received evs) /\
     (forall k, 0 <= k -> k < p \/ p + N <= k -> peek rxbuf' k = peek rxbuf k)) /\
  (forall pre c bs post,
     evs = pre ++ EvRead c (Ret bs) :: post ->
     Z.of_nat (length bs) <> c ->
     post = [] /\ r = Throw (APP_ERROR_RX_FAIL c (Z.of_nat (length bs)))) /\
  (forall c x, r = Throw (APP_ERROR_RX_FAIL c x) ->
     exists pre bs, evs = pre ++ [EvRead c (Ret bs)] /\
       x = Z.of_nat (length bs) /\ x <> c /\ forallb complete pre = true).
Proof.
  intros HB HN Hp Hlen Hrun.
  destruct (rx_chunk_run fuel B HB rxbuf p N d d' evs r HN Hp Hlen Hrun)
    as (Hrd & Hnf & Hreq & Hdone & Hcomp & Hthrow).
  destruct (rx_chunk_schedule B fuel HB rxbuf p N d d' evs r HN Hp Hlen Hrun)
    as (Hsch & Hst).
  split; [assumption|]. split; [assumption|]. split; [assumption|].
  split.
  { split; [|assumption]. intros [rxbuf' Hd]. now destruct (Hdone rxbuf' Hd). }
  split; [|split].
  2:{ intros pre c bs post Hevs Hne.
      assert (Hx : complete (EvRead c (Ret bs)) = false)
        by (cbn [complete]; apply Z.eqb_neq; exact Hne).
      destruct r as [rx|e|]; [| |contradiction].
      - exfalso. destruct (Hdone rx eq_refl) as (Hall & _).
        rewrite Hevs, forallb_app in Hall. cbn [forallb] in Hall.
        rewrite Hx in Hall. cbn in Hall. rewrite andb_false_r in Hall.
        discriminate.
      - destruct (Hthrow e eq_refl) as (pre' & len & rep & Heq & Hpre' & Hrep).
        rewrite Hevs in Heq.
        destruct (incomplete_is_last _ _ _ _ _ Heq Hx Hpre') as (-> & Hy & _).
        split; [reflexivity|]. injection Hy as <- <-.
        destruct Hrep as [_ ->]. reflexivity. }
  - intros rxbuf' Hd.
    destruct (Hdone rxbuf' Hd) as (_ & Hq & Hl & _).
    split; [assumption|]. split; [assumption|].
    split; [now apply Hst|].
    intros k Hk Hout. rewrite (Hst rxbuf' Hd).
    destruct Hout as [Hb|Ha].
    + apply peek_store_before; lia.
    + apply peek_store_after; lia.
  - intros c x He. destruct (Hthrow _ He) as (pre & len & rep & -> & Hpre & Hrep).
    destruct rep as [bs|cc]; [|discriminate].
    destruct Hrep as [Hne Heq]. inversion Heq; subst.
    exists pre, bs. auto.
Qed.

(** Five bytes in chunks of two, stored at offset 1 of a buffer of eight. *)
Lemma rx_chunk_stores_witness :
  1 <= 2 /\ 0 <= 5 <= Z.of_nat 8 /\ 0 <= 1 /\
  1 + 5 <= Z.of_nat (length [9; 9; 9; 9; 9; 9; 9; 9]) /\
  rx_chunk 8 2 [9; 9; 9; 9; 9; 9; 9; 9] 1 5
    (Scripted [] [Ret [1; 2]; Ret [3; 4]; Ret [5]])
  = (Scripted [] [],
     [EvRead 2 (Ret [1; 2]); EvRead 2 (Ret [3; 4]); EvRead 1 (Ret [5])],
     Done [9; 1; 2; 3; 4; 5; 9; 9]).
Proof.
  assert (H1 : 1 <= 2) by lia.
  assert (H2 : 0 <= 5 <= Z.of_nat 8) by (simpl; lia).
  assert (H3 : 0 <= 1) by lia.
  assert (H4 : 1 + 5 <= Z.of_nat (length [9; 9; 9; 9; 9; 9; 9; 9]))
    by (simpl; lia).
  assert (Hrun : rx_chunk 8 2 [9; 9; 9; 9; 9; 9; 9; 9] 1 5
                   (Scripted [] [Ret [1; 2]; Ret [3; 4]; Ret [5]])
                 = (Scripted [] [],
                    [EvRead 2 (Ret [1; 2]); EvRead 2 (Ret [3; 4]);
                     EvRead 1 (Ret [5])],
                    Done [9; 1; 2; 3; 4; 5; 9; 9]))
    by (vm_compute; reflexivity).
  pose proof (rx_chunk_stores 8 2 5 1 [9; 9; 9; 9; 9; 9; 9; 9] _ _ _ _
                H1 H2 H3 H4 Hrun) as _.
  repeat (split; [assumption|]). exact Hrun.
Defined.

(** The second read comes back short: the transfer stops there. *)
Example rx_chunk_short_read :
  rx_chunk 8 2 [9; 9; 9; 9; 9; 9; 9; 9] 1 5
    (Scripted [] [Ret [1; 2]; Ret [3]; Ret [5]])
  = (Scripted [] [Ret [5]],
     [EvRead 2 (Ret [1; 2]); EvRead 2 (Ret [3])],
     Throw (APP_ERROR_RX_FAIL 2 1)).
Proof. reflexivity. Qed.

(** ** [txrx_chunk] *)

Lemma echo_of_app (policy : TBug11.talker_echo_e) (s1 r1 s2 r2 : list Z) :
  echo_of policy s1 r1 -> echo_of policy s2 r2 ->
  echo_of policy (s1 ++ s2) (r1 ++ r2).
Proof.
  destruct policy; cbn [echo_of]; intros H1 H2.
  - rewrite !length_app. congruence.
  - rewrite map_app. congruence.
  - congruence.
Qed.

Lemma echo_of_nil (policy : TBug11.talker_echo_e) : echo_of policy [] [].
Proof. destruct policy; reflexivity. Qed.

(** The echo of one chunk, from the check made on the receive buffer. *)
Lemma echo_of_chunk (policy : TBug11.talker_echo_e) (txbuf rx1 : list Z)
  (p rp c : Z) (rcv : list Z) :
  0 <= c -> Z.of_nat (length rcv) = c ->
  (forall i, 0 <= i < c -> peek rx1 (rp + i) = nth (Z.to_nat i) rcv 0) ->
  match policy with
  | TBug11.TALKER_ECHO_VERIFY => verify_echo txbuf p rx1 rp c
  | TBug11.TALKER_ECHO_VERIFY_COM => TBug11.verify_echo_com txbuf p rx1 rp c
  | TBug11.TALKER_ECHO_IGNORE => Done tt
  end = Done tt ->
  echo_of policy (slice txbuf p c) rcv.
Proof.
  intros Hc Hl Hpeek Hcheck. destruct policy; cbn [echo_of].
  - rewrite length_slice. lia.
  - destruct (verify_echo_com_cases txbuf p rx1 rp c)
      as [[_ Hall]|(j & _ & _ & _ & Hth)]; [|congruence].
    symmetry. rewrite <- Hl.
    replace (Z.of_nat (length rcv)) with (Z.of_nat (length (map u8_not rcv)))
      by (rewrite length_map; reflexivity).
    apply slice_eq_list. intros j Hj. rewrite ?length_map in Hj.
    rewrite Hall by lia. rewrite Hpeek by lia.
    rewrite (nth_indep (map u8_not rcv) 0 (u8_not 0)) by (rewrite length_map; lia).
    rewrite map_nth. reflexivity.
  - destruct (verify_echo_cases txbuf p rx1 rp c)
      as [[_ Hall]|(j & _ & _ & _ & Hth)]; [|congruence].
    symmetry. rewrite <- Hl. apply slice_eq_list. intros j Hj.
    rewrite Hall by lia. apply Hpeek. lia.
Qed.

Section TxRxFacts.
Context {port : Type} {SC : serial_com port}.

(** One round of a transfer with echo that returns. *)
Lemma txrx_round_done {A} (fuel : nat) (B c : Z) (txbuf rxbuf : list Z) (p rp : Z)
  (check : list Z -> outcome unit) (next : list Z -> M port A)
  (d d' : port) (evs : list event) (a : A) :
  bind (port_write (slice txbuf p c))
    (fun count =>
       if negb (u32 count =? c)
       then throw (APP_ERROR_TX_FAIL c (u32 count))
       else bind (rx_chunk fuel B rxbuf rp c)
              (fun rxbuf' => bind (lift (check rxbuf'))
                               (fun _ => next rxbuf'))) d
  = (d', evs, Done a) ->
  exists n d1 d2 e_rx rx1 e_rest,
    u32 n = c /\
    evs = EvWrite (slice txbuf p c) (Ret n) :: e_rx ++ e_rest /\
    rx_chunk fuel B rxbuf rp c d1 = (d2, e_rx, Done rx1) /\
    check rx1 = Done tt /\
    next rx1 d2 = (d', e_rest, Done a).
Proof.
  intros H. apply bind_done in H. destruct H as (d1 & e1 & x & e2 & Hw & H & ->).
  apply port_write_inv in Hw. destruct Hw as (rep & -> & Hr).
  destruct rep as [n|cc]; [|discriminate].
  assert (x = n) by congruence. subst x. clear Hr.
  destruct (Z.eqb_spec (u32 n) c) as [En|Hn]; cbn [negb] in H; [|discriminate].
  apply bind_done in H. destruct H as (d2 & e_rx & rx1 & e3 & Hrx & H & ->).
  apply bind_done in H. destruct H as (d3 & e4 & [] & e_rest & Hl & H & ->).
  apply lift_inv in Hl. destruct Hl as (-> & -> & Hl).
  exists n, d1, d2, e_rx, rx1, e_rest. cbn [app]. auto.
Qed.

Lemma tbug11_txrx_chunk_done (arg_params : cl_my_params) (txbuf : list Z)
  (policy : TBug11.talker_echo_e) (fuel : nat) :
  1 <= serial_txbuf_size arg_params -> 1 <= serial_rxbuf_size arg_params ->
  forall (rxbuf : list Z) (p rp N : Z) (d d' : port) (evs : list event)
         (rxbuf' : list Z),
    0 <= N <= Z.of_nat fuel -> 0 <= rp -> rp + N <= Z.of_nat (length rxbuf) ->
    TBug11.txrx_chunk fuel arg_params txbuf p rxbuf rp N policy d
    = (d', evs, Done rxbuf') ->
    Z.of_nat (length (received evs)) = N /\
    rxbuf' = store rxbuf rp (received evs) /\
    echo_of policy (slice txbuf p N) (received evs).
Proof.
  intros HT HR. induction fuel as [|fuel IH];
    intros rxbuf p rp N d d' evs rxbuf' HN Hrp Hlen H.
  - assert (N = 0) by lia. subst N. cbn in H. inversion H; subst.
    cbn [received length]. split; [reflexivity|].
    split; [symmetry; apply store_nil; lia|apply echo_of_nil].
  - cbn [TBug11.txrx_chunk] in H. destruct (Z.eqb_spec N 0) as [->|HN0].
    + inversion H; subst. cbn [received length]. split; [reflexivity|].
      split; [symmetry; apply store_nil; lia|apply echo_of_nil].
    + pose proof (chunklen_range N (serial_txbuf_size arg_params) HT ltac:(lia)) as Hc.
      set (c := if N >? serial_txbuf_size arg_params
                then serial_txbuf_size arg_params else N) in *. clearbody c.
      apply (txrx_round_done (S fuel) (serial_rxbuf_size arg_params) c txbuf rxbuf
               p rp
               (fun rx1 => match policy with
                  | TBug11.TALKER_ECHO_VERIFY => verify_echo txbuf p rx1 rp c
                  | TBug11.TALKER_ECHO_VERIFY_COM =>
                      TBug11.verify_echo_com txbuf p rx1 rp c
                  | TBug11.TALKER_ECHO_IGNORE => Done tt end)
               (fun rx1 => TBug11.txrx_chunk fuel arg_params txbuf (p + c)
                             rx1 (rp + c) (N - c) policy)) in H.
      destruct H as (n0 & d1 & d2 & e_rx & rx1 & e_rest & Hn0 & -> & Hrx & Hchk & Hnext).
      destruct (rx_chunk_received (serial_rxbuf_size arg_params) (S fuel) rxbuf rp c
                  d1 d2 e_rx rx1 HR ltac:(lia) Hrp ltac:(lia) Hrx)
        as (Hl1 & Hst1).
      pose proof (rx_chunk_run (S fuel) (serial_rxbuf_size arg_params) HR rxbuf rp c
                    d1 d2 e_rx (Done rx1) ltac:(lia) Hrp ltac:(lia) Hrx)
        as (_ & _ & _ & Hdone' & _).
      destruct (Hdone' rx1 eq_refl) as (_ & _ & _ & Hlen1 & Hpeek & _).
      apply IH in Hnext; [|lia|lia|lia].
      destruct Hnext as (Hl2 & Hst2 & He2).
      cbn [received]. rewrite received_app.
      split; [rewrite length_app; lia|].
      split.
      * rewrite Hst2, Hst1. rewrite <- Hl1. apply store_store; lia.
      * replace N with (c + (N - c)) by lia.
        rewrite slice_app by lia. apply echo_of_app; [|assumption].
        eapply echo_of_chunk; try eassumption; lia.
Qed.


Lemma tru11_txrx_chunk_done (arg_params : cl_my_params) (txbuf : list Z)
  (arg_verify_echo : bool) (fuel : nat) :
  1 <= serial_txbuf_size arg_params -> 1 <= serial_rxbuf_size arg_params ->
  forall (rxbuf : list Z) (p rp N : Z) (d d' : port) (evs : list event)
         (rxbuf' : list Z),
    0 <= N <= Z.of_nat fuel -> 0 <= rp -> rp + N <= Z.of_nat (length rxbuf) ->
    Tru11.txrx_chunk fuel arg_params txbuf p rxbuf rp N arg_verify_echo d
    = (d', evs, Done rxbuf') ->
    Z.of_nat (length (received evs)) = N /\
    rxbuf' = store rxbuf rp (received evs) /\
    echo_of (if arg_verify_echo then TBug11.TALKER_ECHO_VERIFY
             else TBug11.TALKER_ECHO_IGNORE)
      (slice txbuf p N) (received evs).
Proof.
  intros HT HR. induction fuel as [|fuel IH];
    intros rxbuf p rp N d d' evs rxbuf' HN Hrp Hlen H.
  - assert (N = 0) by lia. subst N. cbn in H. inversion H; subst.
    cbn [received length]. split; [reflexivity|].
    split; [symmetry; apply store_nil; lia|apply echo_of_nil].
  - cbn [Tru11.txrx_chunk] in H. destruct (Z.eqb_spec N 0) as [->|HN0].
    + inversion H; subst. cbn [received length]. split; [reflexivity|].
      split; [symmetry; apply store_nil; lia|apply echo_of_nil].
    + pose proof (chunklen_range N (serial_txbuf_size arg_params) HT ltac:(lia)) as Hc.
      set (c := if N >? serial_txbuf_size arg_params
                then serial_txbuf_size arg_params else N) in *. clearbody c.
      apply (txrx_round_done (S fuel) (serial_rxbuf_size arg_params) c txbuf rxbuf
               p rp
               (fun rx1 => if arg_verify_echo
                           then verify_echo txbuf p rx1 rp c else Done tt)
               (fun rx1 => Tru11.txrx_chunk fuel arg_params txbuf (p + c)
                             rx1 (rp + c) (N - c) arg_verify_echo)) in H.
      destruct H as (n0 & d1 & d2 & e_rx & rx1 & e_rest & Hn0 & -> & Hrx & Hchk & Hnext).
      destruct (rx_chunk_received (serial_rxbuf_size arg_params) (S fuel) rxbuf rp c
                  d1 d2 e_rx rx1 HR ltac:(lia) Hrp ltac:(lia) Hrx)
        as (Hl1 & Hst1).
      pose proof (rx_chunk_run (S fuel) (serial_rxbuf_size arg_params) HR rxbuf rp c
                    d1 d2 e_rx (Done rx1) ltac:(lia) Hrp ltac:(lia) Hrx)
        as (_ & _ & _ & Hdone' & _).
      destruct (Hdone' rx1 eq_refl) as (_ & _ & _ & Hlen1 & Hpeek & _).
      apply IH in Hnext; [|lia|lia|lia].
      destruct Hnext as (Hl2 & Hst2 & He2).
      cbn [received]. rewrite received_app.
      split; [rewrite length_app; lia|].
      split.
      * rewrite Hst2, Hst1. rewrite <- Hl1. apply store_store; lia.
      * replace N with (c + (N - c)) by lia.
        rewrite slice_app by lia. apply echo_of_app; [|assumption].
        eapply echo_of_chunk; try eassumption; [lia|].
        destruct arg_verify_echo; assumption.
Qed.

End TxRxFacts.

(** X2.  [txrx_chunk] of tbug11 (by its echo policy) and of tru11 (by its
    flag) for [N] bytes: it writes a prefix of the [N] bytes of the transmit
    buffer and asks for at most [N] bytes; when it returns it has written
    them all, the receive buffer is the old one with the [N] bytes received
    stored at the offset, and the bytes received are the bytes sent under
    the direct check, their complements are the bytes sent under the
    complement check, and they are any [N] bytes when the echo is
    ignored. *)
Theorem txrx_chunk_echo {port : Type} {SC : serial_com port}
  (fuel : nat) (arg_params : cl_my_params) (txbuf rxbuf : list Z) (p rp N : Z)
  (d d' : port) (evs : list event) (r : outcome (list Z)) :
  1 <= serial_txbuf_size arg_params -> 1 <= serial_rxbuf_size arg_params ->
  0 <= N <= Z.of_nat fuel -> 0 <= rp -> rp + N <= Z.of_nat (length rxbuf) ->
  let returns policy :=
    moves (slice txbuf p N) N evs r /\
    forall rxbuf', r = Done rxbuf' ->
      rxbuf' = store rxbuf rp (received evs) /\
      echo_of policy (slice txbuf p N) (received evs) in
  (forall policy,
     TBug11.txrx_chunk fuel arg_params txbuf p rxbuf rp N policy d = (d', evs, r) ->
     returns policy) /\
  (forall arg_verify_echo : bool,
     Tru11.txrx_chunk fuel arg_params txbuf p rxbuf rp N arg_verify_echo d
     = (d', evs, r) ->
     returns (if arg_verify_echo then TBug11.TALKER_ECHO_VERIFY
              else TBug11.TALKER_ECHO_IGNORE)).
Proof.
  intros HT HR HN Hrp Hlen returns. subst returns. cbv beta. split.
  - intros policy H. split.
    + exact (Moves_tbug11_txrx_chunk arg_params txbuf policy fuel HT HR
               rxbuf p rp N HN Hrp Hlen _ _ _ _ H).
    + intros rxbuf' ->.
      destruct (tbug11_txrx_chunk_done arg_params txbuf policy fuel HT HR
                  rxbuf p rp N d d' evs rxbuf' HN Hrp Hlen H) as (_ & ? & ?).
      auto.
  - intros b H. split.
    + exact (Moves_tru11_txrx_chunk arg_params txbuf b fuel HT HR
               rxbuf p rp N HN Hrp Hlen _ _ _ _ H).
    + intros rxbuf' ->.
      destruct (tru11_txrx_chunk_done arg_params txbuf b fuel HT HR
                  rxbuf p rp N d d' evs rxbuf' HN Hrp Hlen H) as (_ & ? & ?).
      auto.
Qed.

(** Three bytes in chunks of two under the complement check. *)
Lemma txrx_chunk_echo_witness :
  1 <= serial_txbuf_size (with_chunk_sizes default_params 2 2) /\
  1 <= serial_rxbuf_size (with_chunk_sizes default_params 2 2) /\
  0 <= 3 <= Z.of_nat 3 /\ 0 <= 0 /\ 0 + 3 <= Z.of_nat (length [0; 0; 0]) /\
  TBug11.txrx_chunk 3 (with_chunk_sizes default_params 2 2) [1; 2; 3] 0
    [0; 0; 0] 0 3 TBug11.TALKER_ECHO_VERIFY_COM
    (Scripted [] [Ret [254; 253]; Ret [252]])
  = (Scripted [] [],
     [EvWrite [1; 2] (Ret 2); EvRead 2 (Ret [254; 253]);
      EvWrite [3] (Ret 1); EvRead 1 (Ret [252])],
     Done [254; 253; 252]) /\
  map u8_not [254; 253; 252] = [1; 2; 3].
Proof.
  assert (H1 : 1 <= serial_txbuf_size (with_chunk_sizes default_params 2 2))
    by (simpl; lia).
  assert (H2 : 1 <= serial_rxbuf_size (with_chunk_sizes default_params 2 2))
    by (simpl; lia).
  assert (H3 : 0 <= 3 <= Z.of_nat 3) by (simpl; lia).
  assert (H4 : 0 <= 0) by lia.
  assert (H5 : 0 + 3 <= Z.of_nat (length [0; 0; 0])) by (simpl; lia).
  assert (Hrun : TBug11.txrx_chunk 3 (with_chunk_sizes default_params 2 2)
                   [1; 2; 3] 0 [0; 0; 0] 0 3 TBug11.TALKER_ECHO_VERIFY_COM
                   (Scripted [] [Ret [254; 253]; Ret [252]])
                 = (Scripted [] [],
                    [EvWrite [1; 2] (Ret 2); EvRead 2 (Ret [254; 253]);
                     EvWrite [3] (Ret 1); EvRead 1 (Ret [252])],
                    Done [254; 253; 252]))
    by (vm_compute; reflexivity).
  repeat (split; [assumption|]).
  destruct (proj1 (txrx_chunk_echo 3 (with_chunk_sizes default_params 2 2)
                     [1; 2; 3] [0; 0; 0] 0 0 3 _ _ _ _ H1 H2 H3 H4 H5)
              _ Hrun) as [_ Hd].
  destruct (Hd _ eq_refl) as [_ He]. exact He.
Defined.

(** ** [writemem_hexstr] *)

Lemma big_chunklen (remaining : Z) :
  256 <= remaining ->
  u8 (if remaining >? TALKER_MAX_BYTE_COUNT then TALKER_MAX_BYTE_COUNT
      else remaining) = 0.
Proof.
  intros H. unfold TALKER_MAX_BYTE_COUNT.
  destruct (Z.gtb_spec remaining 256); [reflexivity|].
  assert (remaining = 256) by lia. subst. reflexivity.
Qed.

Lemma alloc_size (init : list Z) (B : Z) :
  (256 <= length (alloc_buf init (if B >? BOOTLOADER_MAX_BYTE_COUNT then B
                                  else BOOTLOADER_MAX_BYTE_COUNT)))%nat.
Proof.
  rewrite length_alloc_buf. unfold BOOTLOADER_MAX_BYTE_COUNT.
  destruct (Z.gtb_spec B 256); lia.
Qed.

Lemma size_hexstr_even (data : string) :
  size (TBug11Ops.hexstr_even data) = size data + size data mod 2.
Proof.
  unfold TBug11Ops.hexstr_even.
  destruct (Z.eqb_spec (size data mod 2) 0) as [E|E]; [lia|].
  unfold size. cbn [append String.length].
  unfold size in E. pose proof (Z.mod_pos_bound (Z.of_nat (String.length data)) 2).
  lia.
Qed.

Section HexstrFacts.
Context {port : Type} {SC : serial_com port}.

(** What [tx_chunk] has written is a prefix of the bytes it is given, and
    all of them when it returns, whatever the fuel. *)
Lemma tx_chunk_sends (B : Z) (txbuf : list Z) (fuel : nat) :
  1 <= B ->
  forall (p N : Z) (d d' : port) (evs : list event) (r : outcome unit),
    0 <= N -> tx_chunk fuel B txbuf p N d = (d', evs, r) ->
    (exists rest, slice txbuf p N = written evs ++ rest) /\
    (r = Done tt -> written evs = slice txbuf p N).
Proof.
  intros HB. induction fuel as [|fuel IH]; intros p N d d' evs r HN H.
  - cbn in H. destruct (Z.eqb_spec N 0) as [->|HN0]; inversion H; subst.
    + split; [exists []; reflexivity|reflexivity].
    + split; [eexists; reflexivity|discriminate].
  - cbn [tx_chunk] in H. destruct (Z.eqb_spec N 0) as [->|HN0].
    + inversion H; subst. split; [exists []; reflexivity|reflexivity].
    + pose proof (chunklen_range N B HB ltac:(lia)) as Hc.
      set (c := if N >? B then B else N) in *. clearbody c.
      assert (Hs : slice txbuf p N = slice txbuf p c ++ slice txbuf (p + c) (N - c)).
      { rewrite <- slice_app by lia. f_equal. lia. }
      apply bind_inv in H.
      destruct H as [(d1 & e1 & x & e2 & H1 & H & ->)|[(e & H1 & ->)|[H1 ->]]].
      * apply port_write_inv in H1. destruct H1 as (rep & -> & _).
        destruct (negb (u32 x =? c)).
        -- inversion H; subst. split; [|discriminate].
           exists (slice txbuf (p + c) (N - c)). rewrite Hs. cbn.
           rewrite app_nil_r. reflexivity.
        -- apply IH in H; [|lia]. destruct H as [(rest & Hr) Hd].
           split.
           ++ exists rest. rewrite Hs, Hr. cbn. rewrite app_assoc. reflexivity.
           ++ intros E. rewrite Hs, <- (Hd E). reflexivity.
      * apply port_write_inv in H1. destruct H1 as (rep & -> & _).
        split; [|discriminate].
        exists (slice txbuf (p + c) (N - c)). rewrite Hs. cbn.
        rewrite app_nil_r. reflexivity.
      * apply port_write_inv in H1. destruct H1 as (rep & _ & H1).
        destruct rep; discriminate.
Qed.

Lemma tbug11_handshake_sends (fuel : nat) (arg_params : cl_my_params)
  (txbuf rxbuf : list Z) (policy : TBug11.talker_echo_e) (d d' : port)
  (evs : list event) (r : outcome (list Z)) :
  1 <= serial_txbuf_size arg_params -> 1 <= serial_rxbuf_size arg_params ->
  (1 <= length rxbuf)%nat ->
  TBug11.txrx_chunk fuel arg_params txbuf 0 rxbuf 0 1 policy d = (d', evs, r) ->
  (exists rest, slice txbuf 0 1 = written evs ++ rest) /\
  (forall a, r = Done a ->
     written evs = slice txbuf 0 1 /\ length a = length rxbuf).
Proof.
  intros HT HR Hrx H. destruct fuel as [|fuel].
  - cbn in H. inversion H; subst. split; [eexists; reflexivity|discriminate].
  - destruct (Moves_tbug11_txrx_chunk arg_params txbuf policy (S fuel) HT HR
                rxbuf 0 0 1 ltac:(lia) ltac:(lia) ltac:(lia) _ _ _ _ H)
      as (_ & Hp & _ & Hd & _).
    split; [exact Hp|]. intros a ->. split; [apply Hd; eauto|].
    apply tbug11_txrx_chunk_length in H; try assumption; lia.
Qed.

Lemma tru11_handshake_sends (fuel : nat) (arg_params : cl_my_params)
  (txbuf rxbuf : list Z) (arg_verify_echo : bool) (d d' : port)
  (evs : list event) (r : outcome (list Z)) :
  1 <= serial_txbuf_size arg_params -> 1 <= serial_rxbuf_size arg_params ->
  (1 <= length rxbuf)%nat ->
  Tru11.txrx_chunk fuel arg_params txbuf 0 rxbuf 0 1 arg_verify_echo d
  = (d', evs, r) ->
  (exists rest, slice txbuf 0 1 = written evs ++ rest) /\
  (forall a, r = Done a ->
     written evs = slice txbuf 0 1 /\ length a = length rxbuf).
Proof.
  intros HT HR Hrx H. destruct fuel as [|fuel].
  - cbn in H. inversion H; subst. split; [eexists; reflexivity|discriminate].
  - destruct (Moves_tru11_txrx_chunk arg_params txbuf arg_verify_echo (S fuel)
                HT HR rxbuf 0 0 1 ltac:(lia) ltac:(lia) ltac:(lia) _ _ _ _ H)
      as (_ & Hp & _ & Hd & _).
    split; [exact Hp|]. intros a ->. split; [apply Hd; eauto|].
    apply tru11_txrx_chunk_length in H; try assumption; lia.
Qed.

(** One round for no byte: the command and its three parameters. *)
Lemma empty_round {A} (P : list Z -> Prop) (fuel : nat)
  (arg_params : cl_my_params) (handshake : M port (list Z))
  (cmd addr : Z) (txbuf : list Z) (next : list Z -> list Z -> M port A)
  (d d' : port) (evs : list event) (r : outcome A) :
  1 <= serial_txbuf_size arg_params -> (3 <= length txbuf)%nat ->
  (forall d d' evs r, handshake d = (d', evs, r) ->
     (exists rest, [cmd] = written evs ++ rest) /\
     (forall a, r = Done a -> written evs = [cmd] /\ P a)) ->
  (forall tx rx d d' evs r, (3 <= length tx)%nat -> P rx ->
     next tx rx d = (d', evs, r) ->
     (forall a, r <> Done a) /\
     exists k rest, empty_writes cmd addr k = written evs ++ rest) ->
  bind handshake (fun rxbuf =>
    let txbuf := poke (poke txbuf 0 cmd) 0 (u8 0) in
    let txbuf := poke txbuf 1 (u8 (Z.land (Z.shiftr addr 8) 0xff)) in
    let txbuf := poke txbuf 2 (u8 (Z.land addr 0xff)) in
    bind (tx_chunk fuel (serial_txbuf_size arg_params) txbuf 0 3)
      (fun _ => next txbuf rxbuf)) d = (d', evs, r) ->
  (forall a, r <> Done a) /\
  exists k rest, empty_writes cmd addr k = written evs ++ rest.
Proof.
  intros HT Htx Hh Hnext H. cbv zeta in H.
  set (tx2 := poke (poke (poke (poke txbuf 0 cmd) 0 (u8 0)) 1
                      (u8 (Z.land (Z.shiftr addr 8) 255)))
                2 (u8 (Z.land addr 255))) in *.
  assert (Hp : slice tx2 0 3 = command_params 0 addr).
  { unfold tx2. rewrite params_slice_3 by (rewrite length_poke; lia).
    reflexivity. }
  apply bind_inv in H.
  destruct H as [(d1 & e1 & rx1 & e2 & H1 & H & ->)|[(e & H1 & ->)|[H1 ->]]].
  - destruct (Hh _ _ _ _ H1) as (_ & Hd1).
    destruct (Hd1 rx1 eq_refl) as [Hw1 HP].
    apply bind_inv in H.
    destruct H as [(d2 & e3 & [] & e4 & H2 & H & ->)|[(e & H2 & ->)|[H2 ->]]].
    + destruct (tx_chunk_sends _ tx2 fuel HT 0 3 _ _ _ _ ltac:(lia) H2) as (_ & Hw2).
      specialize (Hw2 eq_refl).
      assert (Hl2 : (3 <= length tx2)%nat)
        by (unfold tx2; rewrite !length_poke; exact Htx).
      destruct (Hnext _ _ _ _ _ _ Hl2 HP H) as (Hnd & k & rest & Hk).
      split; [exact Hnd|]. exists (S k), rest.
      rewrite !written_app, Hw1, Hw2, Hp. unfold empty_writes in *.
      cbn [repeat concat]. rewrite Hk. cbn [app]. rewrite <- !app_assoc.
      reflexivity.
    + split; [discriminate|].
      destruct (tx_chunk_sends _ tx2 fuel HT 0 3 _ _ _ _ ltac:(lia) H2)
        as ((rest & Hr) & _).
      exists 1%nat, rest. rewrite written_app, Hw1. unfold empty_writes.
      cbn [repeat concat]. rewrite app_nil_r, <- Hp, Hr. reflexivity.
    + split; [discriminate|].
      destruct (tx_chunk_sends _ tx2 fuel HT 0 3 _ _ _ _ ltac:(lia) H2)
        as ((rest & Hr) & _).
      exists 1%nat, rest. rewrite written_app, Hw1. unfold empty_writes.
      cbn [repeat concat]. rewrite app_nil_r, <- Hp, Hr. reflexivity.
  - split; [discriminate|].
    destruct (Hh _ _ _ _ H1) as ((rest & Hr) & _).
    exists 1%nat, (rest ++ command_params 0 addr). unfold empty_writes.
    cbn [repeat concat]. rewrite app_nil_r, app_assoc, <- Hr. reflexivity.
  - split; [discriminate|].
    destruct (Hh _ _ _ _ H1) as ((rest & Hr) & _).
    exists 1%nat, (rest ++ command_params 0 addr). unfold empty_writes.
    cbn [repeat concat]. rewrite app_nil_r, app_assoc, <- Hr. reflexivity.
Qed.

Lemma tbug11_hexstr_loop_stuck (arg_params : cl_my_params) (data : string)
  (addr remaining : Z) (fuel : nat) :
  1 <= serial_txbuf_size arg_params -> 1 <= serial_rxbuf_size arg_params ->
  256 <= remaining < 4294967296 -> 0 <= addr < 65536 ->
  forall (txbuf rxbuf : list Z) (d d' : port) (evs : list event)
         (r : outcome unit),
    (3 <= length txbuf)%nat -> (1 <= length rxbuf)%nat ->
    TBug11Ops.writemem_hexstr_loop fuel arg_params data addr remaining
      txbuf rxbuf d = (d', evs, r) ->
    (forall a, r <> Done a) /\
    exists k rest,
      empty_writes TBug11.TALKER_WRITE_CMD addr k = written evs ++ rest.
Proof.
  intros HT HR Hrem Haddr.
  induction fuel as [|fuel IH]; intros txbuf rxbuf d d' evs r Htx Hrx H.
  - cbn in H. destruct (Z.eqb_spec remaining 0); [lia|].
    inversion H; subst. split; [discriminate|]. exists 0%nat, []. reflexivity.
  - cbn [TBug11Ops.writemem_hexstr_loop] in H.
    destruct (Z.eqb_spec remaining 0); [lia|].
    rewrite big_chunklen in H by lia. cbv zeta in H.
    change (Z.to_nat 0) with 0%nat in H.
    cbn [TBug11Ops.hexstr_fill_loop] in H.
    refine (empty_round (fun rx => (1 <= length rx)%nat) (S fuel) arg_params _
              TBug11.TALKER_WRITE_CMD addr txbuf
              (fun tx rx =>
                 bind (lift (Done tx)) (fun txbuf =>
                 bind (TBug11.txrx_chunk (S fuel) arg_params txbuf 0 rx 0 0
                         TBug11.TALKER_ECHO_VERIFY) (fun rxbuf0 =>
                 TBug11Ops.writemem_hexstr_loop fuel arg_params data
                   (u16 (addr + 0)) (u32 (remaining - 0)) txbuf rxbuf0)))
              d d' evs r HT Htx _ _ H).
    + intros d0 d0' evs0 r0 H0.
      apply tbug11_handshake_sends in H0; try assumption.
      rewrite command_slice in H0 by lia. destruct H0 as [Hp Hd].
      split; [exact Hp|]. intros a E. destruct (Hd a E). split; [assumption|lia].
    + intros tx rx d0 d0' evs0 r0 Hltx Hlrx H0.
      rewrite bind_lift_done in H0. cbn [TBug11.txrx_chunk Z.eqb] in H0.
      rewrite Z.add_0_r, Z.sub_0_r in H0.
      rewrite (u16_small addr), (u32_small remaining) in H0 by lia.
      change (ret rx) with (lift (Done rx) : M port (list Z)) in H0.
      rewrite bind_lift_done in H0.
      exact (IH tx rx d0 d0' evs0 r0 Hltx Hlrx H0).
Qed.

Lemma tru11_hexstr_loop_stuck (arg_params : cl_my_params)
  (arg_write_cmd_code : Z) (data : string)
  (addr remaining : Z) (fuel : nat) :
  1 <= serial_txbuf_size arg_params -> 1 <= serial_rxbuf_size arg_params ->
  256 <= remaining < 4294967296 -> 0 <= addr < 65536 ->
  forall (txbuf rxbuf : list Z) (d d' : port) (evs : list event)
         (r : outcome unit),
    (3 <= length txbuf)%nat -> (1 <= length rxbuf)%nat ->
    Tru11Ops.writemem_hexstr_loop fuel arg_params arg_write_cmd_code data addr
      remaining txbuf rxbuf d = (d', evs, r) ->
    (forall a, r <> Done a) /\
    exists k rest,
      empty_writes arg_write_cmd_code addr k = written evs ++ rest.
Proof.
  intros HT HR Hrem Haddr.
  induction fuel as [|fuel IH]; intros txbuf rxbuf d d' evs r Htx Hrx H.
  - cbn in H. destruct (Z.eqb_spec remaining 0); [lia|].
    inversion H; subst. split; [discriminate|]. exists 0%nat, []. reflexivity.
  - cbn [Tru11Ops.writemem_hexstr_loop] in H.
    destruct (Z.eqb_spec remaining 0); [lia|].
    rewrite big_chunklen in H by lia. cbv zeta in H.
    change (Z.to_nat 0) with 0%nat in H.
    cbn [TBug11Ops.hexstr_fill_loop] in H.
    refine (empty_round (fun rx => (1 <= length rx)%nat) (S fuel) arg_params _
              arg_write_cmd_code addr txbuf
              (fun tx rx =>
                 bind (lift (Done tx)) (fun txbuf =>
                 bind (Tru11.txrx_chunk_write (S fuel) arg_params txbuf 0 rx 0 0
                         false) (fun rxbuf0 =>
                 Tru11Ops.writemem_hexstr_loop fuel arg_params
                   arg_write_cmd_code data
                   (u16 (addr + 0)) (u32 (remaining - 0)) txbuf rxbuf0)))
              d d' evs r HT Htx _ _ H).
    + intros d0 d0' evs0 r0 H0.
      apply tru11_handshake_sends in H0; try assumption.
      rewrite command_slice in H0 by lia. destruct H0 as [Hp Hd].
      split; [exact Hp|]. intros a E. destruct (Hd a E). split; [assumption|lia].
    + intros tx rx d0 d0' evs0 r0 Hltx Hlrx H0.
      rewrite bind_lift_done in H0. cbn [Tru11.txrx_chunk_write Z.eqb] in H0.
      rewrite Z.add_0_r, Z.sub_0_r in H0.
      rewrite (u16_small addr), (u32_small remaining) in H0 by lia.
      change (ret rx) with (lift (Done rx) : M port (list Z)) in H0.
      rewrite bind_lift_done in H0.
      exact (IH tx rx d0 d0' evs0 r0 Hltx Hlrx H0).
Qed.

End HexstrFacts.

(** X3.  [writemem_hexstr] (tbug11 and tru11) never returns for a string of
    256 bytes or more: [chunklen] is a [uint8_t], so the chunk of 256 bytes
    becomes a chunk of no byte and [remaining] never decreases.  Whatever
    the transport and the fuel, the operation does not return, and what it
    writes is a prefix of rounds of the write command with the count 0 and
    the start address: no byte of the string is sent. *)
Theorem writemem_hexstr_256_never_returns {port : Type} {SC : serial_com port}
  (fuel : nat) (arg_params : cl_my_params) (arg_write_cmd_code : Z)
  (data : string) (tx0 rx0 : list Z) (d d' : port) (evs : list event)
  (r : outcome unit) :
  1 <= serial_txbuf_size arg_params -> 1 <= serial_rxbuf_size arg_params ->
  256 <= size (TBug11Ops.hexstr_even data) / 2 < 4294967296 ->
  (TBug11Ops.writemem_hexstr fuel arg_params data tx0 rx0 d = (d', evs, r) ->
   r <> Done tt /\
   exists k rest,
     empty_writes TBug11.TALKER_WRITE_CMD (u16 (from_addr arg_params)) k
     = written evs ++ rest) /\
  (Tru11Ops.writemem_hexstr fuel arg_params arg_write_cmd_code data tx0 rx0 d
   = (d', evs, r) ->
   r <> Done tt /\
   exists k rest,
     empty_writes arg_write_cmd_code (u16 (from_addr arg_params)) k
     = written evs ++ rest).
Proof.
  intros HT HR Hsz.
  assert (Hpos : (size data >? 0) = true).
  { rewrite size_hexstr_even in Hsz.
    pose proof (Z.mod_pos_bound (size data) 2 ltac:(lia)).
    apply Z.gtb_lt. destruct (Z.eq_dec (size data) 0) as [E|E]; [|unfold size in *; lia].
    rewrite E in Hsz. cbn in Hsz. lia. }
  pose proof (u16_range (from_addr arg_params)) as Ha.
  pose proof (alloc_size tx0 (serial_txbuf_size arg_params)) as Htx.
  pose proof (alloc_size rx0 (serial_rxbuf_size arg_params)) as Hrx.
  split; intros H.
  - unfold TBug11Ops.writemem_hexstr in H. rewrite Hpos in H. cbv zeta in H.
    rewrite u32_small in H by lia.
    apply (tbug11_hexstr_loop_stuck arg_params _ _ _ fuel HT HR Hsz Ha) in H;
      [|lia|lia].
    destruct H as [Hn Hw]. split; [apply Hn|exact Hw].
  - unfold Tru11Ops.writemem_hexstr in H. rewrite Hpos in H. cbv zeta in H.
    rewrite u32_small in H by lia.
    apply (tru11_hexstr_loop_stuck arg_params arg_write_cmd_code _ _ _ fuel
             HT HR Hsz Ha) in H; [|lia|lia].
    destruct H as [Hn Hw]. split; [apply Hn|exact Hw].
Qed.

(** 256 bytes with tbug11: two rounds of fuel, two rounds of the command
    with the count 0. *)
Lemma writemem_hexstr_256_never_returns_witness :
  1 <= serial_txbuf_size default_params /\
  1 <= serial_rxbuf_size default_params /\
  256 <= size (TBug11Ops.hexstr_even (hex_zeros 256)) / 2 < 4294967296 /\
  snd hexstr_256_run <> Done tt /\
  snd hexstr_256_run = OutOfFuel /\
  written (snd (fst hexstr_256_run)) = [0x41; 0; 0; 0; 0x41; 0; 0; 0].
Proof.
  assert (H1 : 1 <= serial_txbuf_size default_params) by (simpl; lia).
  assert (H2 : 1 <= serial_rxbuf_size default_params) by (simpl; lia).
  assert (H3 : 256 <= size (TBug11Ops.hexstr_even (hex_zeros 256)) / 2
               < 4294967296) by (vm_compute; split; [discriminate|reflexivity]).
  assert (Hrun : TBug11Ops.writemem_hexstr 2 default_params (hex_zeros 256) [] []
                   (Scripted [] [Ret [0xbe]; Ret [0xbe]])
                 = (fst (fst hexstr_256_run), snd (fst hexstr_256_run),
                    snd hexstr_256_run))
    by (vm_compute; reflexivity).
  repeat (split; [assumption|]).
  split.
  - exact (proj1 (proj1 (writemem_hexstr_256_never_returns 2 default_params 0
                           (hex_zeros 256) [] [] _ _ _ _ H1 H2 H3) Hrun)).
  - split; vm_compute; reflexivity.
Defined.

(** The loop that fills the transmit buffer from the string, when the
    address is the start address: the pairs of characters in turn. *)
Lemma hexstr_fill_loop_cases (arg_params : cl_my_params) (data : string)
  (n : nat) :
  forall (i : Z) (txbuf : list Z),
    0 <= i -> i + Z.of_nat n <= Z.of_nat (length txbuf) ->
    2 * (i + Z.of_nat n) <= size data + 2 -> i + Z.of_nat n <= 65536 ->
    exists txbuf',
      TBug11Ops.hexstr_fill_loop n arg_params data (from_addr arg_params) i txbuf
      = Done txbuf' /\
      length txbuf' = length txbuf /\
      (forall k, i <= k < i + Z.of_nat n -> peek txbuf' k = hexstr_byte data k) /\
      (forall k, 0 <= k < i -> peek txbuf' k = peek txbuf k).
Proof.
  induction n as [|n IH]; intros i txbuf Hi Hlen Hsz Hmax;
    cbn [TBug11Ops.hexstr_fill_loop].
  - exists txbuf. split; [reflexivity|]. split; [reflexivity|].
    split; [intros; lia|reflexivity].
  - replace (from_addr arg_params - from_addr arg_params + i) with i by lia.
    rewrite (u32_small (2 * i)) by lia.
    rewrite substr_some by lia.
    set (b := u8 (strtoul16 (substring (Z.to_nat (2 * i)) (Z.to_nat 2) data))).
    destruct (IH (i + 1) (poke txbuf i b) ltac:(lia)
                ltac:(rewrite length_poke; lia) ltac:(lia) ltac:(lia))
      as (txbuf' & E & Hl & Hin & Hbefore).
    exists txbuf'. split; [exact E|]. rewrite length_poke in Hl.
    split; [assumption|]. split.
    + intros k Hk. destruct (Z.eq_dec k i) as [->|Hne].
      * rewrite Hbefore by lia. rewrite peek_poke_same by lia. reflexivity.
      * apply Hin. lia.
    + intros k Hk. rewrite Hbefore by lia. apply peek_poke_other; lia.
Qed.

Section HexstrSmall.
Context {port : Type} {SC : serial_com port}.

Lemma bind_ext {A B} (m : M port A) (k1 k2 : A -> M port B) (d : port) :
  (forall a d1, k1 a d1 = k2 a d1) -> bind m k1 d = bind m k2 d.
Proof.
  intros H. unfold bind. destruct (m d) as [[d1 e1] [a|e|]];
    try rewrite H; reflexivity.
Qed.

(** For a normal write [txrx_chunk_write] is [txrx_chunk] without a check
    of the echo. *)
Lemma txrx_chunk_write_normal (arg_params : cl_my_params) (txbuf : list Z)
  (fuel : nat) :
  forall (rxbuf : list Z) (p rp N : Z) (d : port),
    Tru11.txrx_chunk_write fuel arg_params txbuf p rxbuf rp N false d
    = Tru11.txrx_chunk fuel arg_params txbuf p rxbuf rp N false d.
Proof.
  induction fuel as [|fuel IH]; intros rxbuf p rp N d.
  - reflexivity.
  - cbn [Tru11.txrx_chunk_write Tru11.txrx_chunk].
    destruct (N =? 0); [reflexivity|].
    apply bind_ext. intros x d1.
    destruct (negb (u32 x =? _)); [reflexivity|].
    apply bind_ext. intros rx1 d2.
    rewrite bind_lift_done. apply IH.
Qed.


Lemma small_chunklen (n : Z) :
  0 <= n <= 255 ->
  u8 (if n >? TALKER_MAX_BYTE_COUNT then TALKER_MAX_BYTE_COUNT else n) = n.
Proof.
  intros H. unfold TALKER_MAX_BYTE_COUNT.
  destruct (Z.gtb_spec n 256); [lia|]. unfold u8. apply Z.mod_small. lia.
Qed.

Lemma Moves_tbug11_hexstr_loop (fuel : nat) (arg_params : cl_my_params)
  (data : string) (n : Z) (txbuf rxbuf : list Z) :
  1 <= serial_txbuf_size arg_params -> 1 <= serial_rxbuf_size arg_params ->
  (255 <= fuel)%nat -> 1 <= n <= 255 -> 2 * n <= size data + 2 ->
  (256 <= length txbuf)%nat -> (256 <= length rxbuf)%nat ->
  Moves (TBug11Ops.writemem_hexstr_loop fuel arg_params data
           (from_addr arg_params) n txbuf rxbuf)
    (TBug11.TALKER_WRITE_CMD :: command_params n (from_addr arg_params)
       ++ map (fun k => hexstr_byte data (Z.of_nat k)) (seq 0 (Z.to_nat n)))
    (1 + n).
Proof.
  intros HT HR Hfuel Hn Hsz Htx Hrx.
  destruct fuel as [|fuel]; [lia|].
  cbn [TBug11Ops.writemem_hexstr_loop].
  destruct (Z.eqb_spec n 0); [lia|].
  rewrite small_chunklen by lia. cbv zeta.
  set (a := from_addr arg_params).
  set (tx1 := poke txbuf 0 TBug11.TALKER_WRITE_CMD).
  set (tx2 := poke (poke (poke tx1 0 (u8 n)) 1 (u8 (Z.land (Z.shiftr a 8) 255)))
                2 (u8 (Z.land a 255))).
  set (bytes := map (fun k => hexstr_byte data (Z.of_nat k)) (seq 0 (Z.to_nat n))).
  assert (Hl2 : length tx2 = length txbuf).
  { subst tx2 tx1. rewrite !length_poke. reflexivity. }
  eapply Moves_eq.
  - apply (Moves_bind_post (fun rx1 => length rx1 = length rxbuf) _ _
             (slice tx1 0 1) (slice tx2 0 3 ++ [] ++ bytes ++ [])
             1 (0 + (0 + (n + 0)))); [lia| | |].
    + apply Moves_tbug11_txrx_chunk; try assumption; lia.
    + intros d d' evs rx1 H.
      apply tbug11_txrx_chunk_length in H; try assumption; lia.
    + intros rx1 Hrx1.
      apply (Moves_bind _ _ (slice tx2 0 3) ([] ++ bytes ++ []) 0 (0 + (n + 0)));
        [lia|apply Moves_tx_chunk; [assumption|lia]|].
      intros _.
      destruct (hexstr_fill_loop_cases arg_params data (Z.to_nat n) 0 tx2
                  ltac:(lia) ltac:(lia) ltac:(lia) ltac:(lia))
        as (tx3 & Efill & Hl3 & Hin & _).
      fold a in Efill. rewrite Efill.
      apply Moves_lift_done.
      assert (Htx3 : slice tx3 0 n = bytes).
      { unfold slice, bytes. apply map_ext_in. intros k Hk. apply in_seq in Hk.
        apply Hin. lia. }
      rewrite <- Htx3. change ([] ++ slice tx3 0 n ++ []) with (slice tx3 0 n ++ []).
      apply (Moves_bind _ _ (slice tx3 0 n) [] n 0); [lia| |].
      * apply Moves_tbug11_txrx_chunk; try assumption; lia.
      * intros rx2. replace (u32 (n - n)) with 0 by (rewrite Z.sub_diag; reflexivity).
        destruct fuel; apply (Moves_ret tt).
  - subst tx1. rewrite command_slice by lia.
    unfold tx2. rewrite params_slice_3 by (rewrite length_poke; lia).
    rewrite !app_nil_r. reflexivity.
  - lia.
Qed.

Lemma Moves_tru11_hexstr_loop (fuel : nat) (arg_params : cl_my_params)
  (arg_write_cmd_code : Z) (data : string) (n : Z) (txbuf rxbuf : list Z) :
  1 <= serial_txbuf_size arg_params -> 1 <= serial_rxbuf_size arg_params ->
  (255 <= fuel)%nat -> 1 <= n <= 255 -> 2 * n <= size data + 2 ->
  (256 <= length txbuf)%nat -> (256 <= length rxbuf)%nat ->
  Moves (Tru11Ops.writemem_hexstr_loop fuel arg_params arg_write_cmd_code data
           (from_addr arg_params) n txbuf rxbuf)
    (arg_write_cmd_code :: command_params n (from_addr arg_params)
       ++ map (fun k => hexstr_byte data (Z.of_nat k)) (seq 0 (Z.to_nat n)))
    (1 + n).
Proof.
  intros HT HR Hfuel Hn Hsz Htx Hrx.
  destruct fuel as [|fuel]; [lia|].
  cbn [Tru11Ops.writemem_hexstr_loop].
  destruct (Z.eqb_spec n 0); [lia|].
  rewrite small_chunklen by lia. cbv zeta.
  set (a := from_addr arg_params).
  set (tx1 := poke txbuf 0 arg_write_cmd_code).
  set (tx2 := poke (poke (poke tx1 0 (u8 n)) 1 (u8 (Z.land (Z.shiftr a 8) 255)))
                2 (u8 (Z.land a 255))).
  set (bytes := map (fun k => hexstr_byte data (Z.of_nat k)) (seq 0 (Z.to_nat n))).
  assert (Hl2 : length tx2 = length txbuf).
  { subst tx2 tx1. rewrite !length_poke. reflexivity. }
  eapply Moves_eq.
  - apply (Moves_bind_post (fun rx1 => length rx1 = length rxbuf) _ _
             (slice tx1 0 1) (slice tx2 0 3 ++ [] ++ bytes ++ [])
             1 (0 + (0 + (n + 0)))); [lia| | |].
    + apply Moves_tru11_txrx_chunk; try assumption; lia.
    + intros d d' evs rx1 H.
      apply tru11_txrx_chunk_length in H; try assumption; lia.
    + intros rx1 Hrx1.
      apply (Moves_bind _ _ (slice tx2 0 3) ([] ++ bytes ++ []) 0 (0 + (n + 0)));
        [lia|apply Moves_tx_chunk; [assumption|lia]|].
      intros _.
      destruct (hexstr_fill_loop_cases arg_params data (Z.to_nat n) 0 tx2
                  ltac:(lia) ltac:(lia) ltac:(lia) ltac:(lia))
        as (tx3 & Efill & Hl3 & Hin & _).
      fold a in Efill. rewrite Efill.
      apply Moves_lift_done.
      assert (Htx3 : slice tx3 0 n = bytes).
      { unfold slice, bytes. apply map_ext_in. intros k Hk. apply in_seq in Hk.
        apply Hin. lia. }
      rewrite <- Htx3. change ([] ++ slice tx3 0 n ++ []) with (slice tx3 0 n ++ []).
      apply (Moves_bind _ _ (slice tx3 0 n) [] n 0); [lia| |].
      * intros d d' evs r H. rewrite txrx_chunk_write_normal in H.
        revert d d' evs r H.
        apply Moves_tru11_txrx_chunk; try assumption; lia.
      * intros rx2. replace (u32 (n - n)) with 0 by (rewrite Z.sub_diag; reflexivity).
        destruct fuel; apply (Moves_ret tt).
  - subst tx1. rewrite command_slice by lia.
    unfold tx2. rewrite params_slice_3 by (rewrite length_poke; lia).
    rewrite !app_nil_r. reflexivity.
  - lia.
Qed.

End HexstrSmall.

(** X4.  [writemem_hexstr] (tbug11 and tru11) for a string of 1 to 255
    bytes and a start address of 16 bits: with a ["0"] put before a string
    of odd length, it writes the write command, the number of bytes, the
    address and the bytes that the pairs of characters denote, and asks for
    the echo of the command and of each byte; what is written is a prefix of
    that and all of it on return.  For the empty string nothing is done. *)
Theorem writemem_hexstr_sends {port : Type} {SC : serial_com port}
  (fuel : nat) (arg_params : cl_my_params) (arg_write_cmd_code : Z)
  (data : string) (tx0 rx0 : list Z) :
  1 <= serial_txbuf_size arg_params -> 1 <= serial_rxbuf_size arg_params ->
  (255 <= fuel)%nat -> 0 <= from_addr arg_params < 65536 ->
  1 <= size data <= 510 ->
  let bytes := hexstr_bytes (TBug11Ops.hexstr_even data) in
  let n := (size data + 1) / 2 in
  Z.of_nat (length bytes) = n /\
  (forall d : port,
     let '(_, evs, r) := TBug11Ops.writemem_hexstr fuel arg_params data tx0 rx0 d in
     moves (TBug11.TALKER_WRITE_CMD
              :: command_params n (from_addr arg_params) ++ bytes) (1 + n) evs r) /\
  (forall d : port,
     let '(_, evs, r) :=
       Tru11Ops.writemem_hexstr fuel arg_params arg_write_cmd_code data tx0 rx0 d in
     moves (arg_write_cmd_code
              :: command_params n (from_addr arg_params) ++ bytes) (1 + n) evs r) /\
  (forall d : port,
     TBug11Ops.writemem_hexstr fuel arg_params "" tx0 rx0 d = (d, [], Done tt) /\
     Tru11Ops.writemem_hexstr fuel arg_params arg_write_cmd_code "" tx0 rx0 d
     = (d, [], Done tt)).
Proof.
  intros HT HR Hfuel Ha Hsz bytes n.
  pose proof (size_hexstr_even data) as He.
  assert (Hn : size (TBug11Ops.hexstr_even data) / 2 = n).
  { rewrite He. unfold n.
    pose proof (Z.mod_pos_bound (size data) 2 ltac:(lia)).
    Z.to_euclidean_division_equations. lia. }
  assert (Hn2 : 2 * n <= size (TBug11Ops.hexstr_even data) + 2).
  { rewrite <- Hn. Z.to_euclidean_division_equations. lia. }
  assert (Hr : 1 <= n <= 255).
  { unfold n. Z.to_euclidean_division_equations. lia. }
  assert (Hpos : (size data >? 0) = true) by (apply Z.gtb_lt; lia).
  pose proof (alloc_size tx0 (serial_txbuf_size arg_params)) as Htx.
  pose proof (alloc_size rx0 (serial_rxbuf_size arg_params)) as Hrx.
  assert (Hb : bytes = map (fun k => hexstr_byte (TBug11Ops.hexstr_even data)
                                       (Z.of_nat k)) (seq 0 (Z.to_nat n))).
  { unfold bytes, hexstr_bytes. rewrite Hn. reflexivity. }
  split; [rewrite Hb, length_map, length_seq; lia|].
  split; [|split].
  - intros d.
    destruct (TBug11Ops.writemem_hexstr _ _ _ _ _ d) as [[d' evs] r] eqn:E.
    unfold TBug11Ops.writemem_hexstr in E. rewrite Hpos in E. cbv zeta in E.
    rewrite Hn, (u32_small n), (u16_small (from_addr arg_params)) in E by lia.
    rewrite Hb.
    exact (Moves_tbug11_hexstr_loop fuel arg_params _ n _ _ HT HR Hfuel Hr Hn2
             Htx Hrx _ _ _ _ E).
  - intros d.
    destruct (Tru11Ops.writemem_hexstr _ _ _ _ _ _ d) as [[d' evs] r] eqn:E.
    unfold Tru11Ops.writemem_hexstr in E. rewrite Hpos in E. cbv zeta in E.
    rewrite Hn, (u32_small n), (u16_small (from_addr arg_params)) in E by lia.
    rewrite Hb.
    exact (Moves_tru11_hexstr_loop fuel arg_params arg_write_cmd_code _ n _ _
             HT HR Hfuel Hr Hn2 Htx Hrx _ _ _ _ E).
  - intros d. split; reflexivity.
Qed.

(** The three characters ABC with tbug11: the bytes 0x0A and 0xBC at 0. *)
Lemma writemem_hexstr_sends_witness :
  1 <= serial_txbuf_size default_params /\
  1 <= serial_rxbuf_size default_params /\ (255 <= 255)%nat /\
  0 <= from_addr default_params < 65536 /\ 1 <= size "ABC" <= 510 /\
  hexstr_bytes (TBug11Ops.hexstr_even "ABC") = [0x0a; 0xbc] /\
  snd hexstr_abc_run = Done tt /\
  moves [0x41; 2; 0; 0; 0x0a; 0xbc] 3 (snd (fst hexstr_abc_run))
    (snd hexstr_abc_run).
Proof.
  assert (H1 : 1 <= serial_txbuf_size default_params) by (simpl; lia).
  assert (H2 : 1 <= serial_rxbuf_size default_params) by (simpl; lia).
  assert (H3 : (255 <= 255)%nat) by lia.
  assert (H4 : 0 <= from_addr default_params < 65536) by (simpl; lia).
  assert (H5 : 1 <= size "ABC" <= 510) by (vm_compute; split; discriminate).
  assert (H6 : hexstr_bytes (TBug11Ops.hexstr_even "ABC") = [0x0a; 0xbc])
    by (vm_compute; reflexivity).
  assert (H7 : snd hexstr_abc_run = Done tt) by (vm_compute; reflexivity).
  repeat (split; [assumption|]).
  exact (proj1 (proj2 (writemem_hexstr_sends 255 default_params 0 "ABC" [] []
                         H1 H2 H3 H4 H5))
           (Scripted [] [Ret [0xbe]; Ret [0x0a; 0xbc]])).
Defined.

(** ** [writemem_file] of tbug11 *)

Lemma substring_prefix (s : string) :
  forall (m a n : nat), (a + n <= m)%nat ->
    String.substring a n (String.substring 0 m s) = String.substring a n s.
Proof.
  induction s as [|c s IH]; intros m a n H.
  - destruct m; reflexivity.
  - destruct m as [|m].
    + assert (a = 0%nat) by lia. assert (n = 0%nat) by lia. subst. reflexivity.
    + cbn [String.substring]. destruct a as [|a].
      * destruct n as [|n]; [reflexivity|].
        cbn [String.substring]. f_equal.
        exact (IH m 0%nat n ltac:(lia)).
      * cbn [String.substring]. apply IH. lia.
Qed.

Lemma length_substring_0 (s : string) :
  forall m : nat,
    String.length (String.substring 0 m s) = Nat.min m (String.length s).
Proof.
  induction s as [|c s IH]; intros [|m]; cbn; try reflexivity.
  rewrite IH. reflexivity.
Qed.

Lemma size_srec_header (line_str : string) :
  size (srec_header line_str) = Z.min 8 (size line_str).
Proof. unfold size, srec_header. rewrite length_substring_0. lia. Qed.

Lemma is_S1_header (line_str : string) :
  is_S1 (srec_header line_str) = is_S1 line_str.
Proof.
  unfold is_S1, srec_header. rewrite (substring_prefix line_str 8 0 2) by lia.
  reflexivity.
Qed.

Section WriteFileFacts.
Context {port : Type} {SC : serial_com port}.

Lemma tbug11_write_line_header (fuel : nat) (arg_params : cl_my_params)
  (line_str : string) (txbuf rxbuf : list Z) (d : port) :
  TBug11Ops.writemem_file_line fuel arg_params (srec_header line_str)
    txbuf rxbuf d
  = TBug11Ops.writemem_file_line fuel arg_params line_str txbuf rxbuf d.
Proof.
  unfold TBug11Ops.writemem_file_line.
  rewrite is_S1_header, size_srec_header.
  destruct (Z.geb_spec (size line_str) 8) as [Hs|Hs].
  - replace (Z.min 8 (size line_str) >=? 8) with true
      by (symmetry; apply Z.geb_le; lia).
    rewrite !substr_some by (rewrite ?size_srec_header; lia).
    unfold srec_header.
    rewrite (substring_prefix line_str 8 (Z.to_nat 2) (Z.to_nat 2)) by lia.
    rewrite (substring_prefix line_str 8 (Z.to_nat 4) (Z.to_nat 4)) by lia.
    reflexivity.
  - replace (Z.min 8 (size line_str) >=? 8) with false
      by (symmetry; rewrite Z.geb_leb; apply Z.leb_gt; lia).
    reflexivity.
Qed.

Lemma tbug11_write_loop_header (fuel : nat) (arg_params : cl_my_params)
  (in_file : list string) :
  forall (txbuf rxbuf : list Z) (d : port),
    TBug11Ops.writemem_file_loop fuel arg_params (map srec_header in_file)
      txbuf rxbuf d
    = TBug11Ops.writemem_file_loop fuel arg_params in_file txbuf rxbuf d.
Proof.
  induction in_file as [|line_str rest IH]; intros txbuf rxbuf d;
    [reflexivity|].
  cbn [map TBug11Ops.writemem_file_loop]. unfold bind at 1 2.
  rewrite tbug11_write_line_header.
  destruct (TBug11Ops.writemem_file_line fuel arg_params line_str txbuf rxbuf d)
    as [[d1 e1] [[tx1 rx1]|e|]]; [|reflexivity|reflexivity].
  rewrite IH. reflexivity.
Qed.


Lemma Moves_tbug11_write_line (fuel : nat) (arg_params : cl_my_params)
  (line_str : string) (txbuf rxbuf : list Z) :
  1 <= serial_txbuf_size arg_params -> 1 <= serial_rxbuf_size arg_params ->
  (256 <= fuel)%nat -> (3 <= length txbuf)%nat -> (256 <= length rxbuf)%nat ->
  size line_str >= 8 -> is_S1 line_str = true ->
  exists filler,
    Z.of_nat (length filler) = srec_count line_str /\
    firstn 3 filler
    = firstn (Z.to_nat (srec_count line_str))
        (command_params (srec_count line_str) (srec_address line_str)) /\
    Moves (TBug11Ops.writemem_file_line fuel arg_params line_str txbuf rxbuf)
      (TBug11.TALKER_WRITE_CMD
         :: command_params (srec_count line_str) (srec_address line_str)
         ++ filler)
      (1 + srec_count line_str).
Proof.
  intros HT HR Hfuel Htx Hrx Hsz HS1.
  destruct (accepted_line line_str Hsz) as (E8 & E4 & E2).
  pose proof (srec_count_range line_str) as Hn.
  unfold TBug11Ops.writemem_file_line. rewrite E8, HS1, E4, E2.
  fold (srec_count line_str). fold (srec_address line_str).
  set (n := srec_count line_str) in *. set (a := srec_address line_str).
  set (tx1 := poke txbuf 0 TBug11.TALKER_WRITE_CMD).
  set (tx2 := poke (poke (poke tx1 0 (u8 n)) 1 (u8 (Z.land (Z.shiftr a 8) 255)))
                2 (u8 (Z.land a 255))).
  assert (Hp : slice tx2 0 3 = command_params n a).
  { unfold tx2. rewrite params_slice_3 by (subst tx1; rewrite length_poke; lia).
    reflexivity. }
  exists (slice tx2 0 n). split; [rewrite length_slice; lia|].
  split.
  { rewrite <- Hp. destruct (Z.le_gt_cases 3 n) as [H3|H3].
    - rewrite (slice_firstn tx2 0 3 n) by lia.
      symmetry. apply firstn_all2. rewrite length_firstn, length_slice. lia.
    - rewrite <- slice_firstn by lia.
      apply firstn_all2. rewrite length_slice. lia. }
  apply Moves_lift_done. cbv beta zeta. apply Moves_lift_done. cbv beta zeta.
  fold (srec_count line_str). fold (srec_address line_str).
  fold n a tx1 tx2.
  eapply Moves_eq.
  - apply (Moves_bind_post (fun rx1 => length rx1 = length rxbuf) _ _
             (slice tx1 0 1) (slice tx2 0 3 ++ slice tx2 0 n ++ [])
             1 (0 + (n + 0))); [lia| | |].
    + apply Moves_tbug11_txrx_chunk; try assumption; lia.
    + intros d d' evs rx1 H.
      apply tbug11_txrx_chunk_length in H; try assumption; lia.
    + intros rx1 Hrx1.
      apply (Moves_bind _ _ (slice tx2 0 3) (slice tx2 0 n ++ []) 0 (n + 0));
        [lia|apply Moves_tx_chunk; [assumption|lia]|].
      intros _.
      apply (Moves_bind _ _ (slice tx2 0 n) [] n 0);
        [lia|apply Moves_tbug11_txrx_chunk; try assumption; lia|].
      intros rx2. apply Moves_ret.
  - subst tx1. rewrite command_slice by lia. rewrite Hp.
    rewrite !app_nil_r. reflexivity.
  - lia.
Qed.

End WriteFileFacts.

(** X5.  [writemem_file] of tbug11 never reads the data of a record: its run
    on a file is its run on the first eight characters of each line.  For
    a line it accepts it writes the command, the count and the address,
    and then as many bytes of its transmit buffer as the count says, which
    begin with the count and the address themselves. *)
Theorem tbug11_writemem_file_sends_no_data {port : Type} {SC : serial_com port}
  (fuel : nat) (arg_params : cl_my_params) (in_file : list string)
  (line_str : string) (txbuf rxbuf tx0 rx0 : list Z) :
  1 <= serial_txbuf_size arg_params -> 1 <= serial_rxbuf_size arg_params ->
  (256 <= fuel)%nat -> (3 <= length txbuf)%nat -> (256 <= length rxbuf)%nat ->
  size line_str >= 8 -> is_S1 line_str = true ->
  let n := srec_count line_str in
  let params := command_params n (srec_address line_str) in
  (forall d : port,
     TBug11Ops.writemem_file fuel arg_params in_file tx0 rx0 d
     = TBug11Ops.writemem_file fuel arg_params (map srec_header in_file)
         tx0 rx0 d) /\
  (exists filler,
     Z.of_nat (length filler) = n /\
     firstn 3 filler = firstn (Z.to_nat n) params /\
     forall d : port,
       let '(_, evs, r) :=
         TBug11Ops.writemem_file_line fuel arg_params line_str txbuf rxbuf d in
       moves (TBug11.TALKER_WRITE_CMD :: params ++ filler) (1 + n) evs r).
Proof.
  intros HT HR Hfuel Htx Hrx Hsz HS1 n params. split.
  - intros d. unfold TBug11Ops.writemem_file.
    symmetry. apply tbug11_write_loop_header.
  - destruct (Moves_tbug11_write_line fuel arg_params line_str txbuf rxbuf
                HT HR Hfuel Htx Hrx Hsz HS1) as (filler & Hl & Hf & Hm).
    exists filler. split; [exact Hl|]. split; [exact Hf|]. intros d.
    destruct (TBug11Ops.writemem_file_line _ _ _ _ _ d) as [[d' evs] r] eqn:E.
    exact (Hm _ _ _ _ E).
Qed.

(** A record of four bytes at 0x1000: the run is the run on its header, and
    the four bytes written after the parameters are the parameters and a
    zero of the buffer. *)
Lemma tbug11_writemem_file_sends_no_data_witness :
  1 <= serial_txbuf_size default_params /\
  1 <= serial_rxbuf_size default_params /\ (256 <= 256)%nat /\
  (3 <= length (alloc_buf [] 256))%nat /\
  (256 <= length (alloc_buf [] 256))%nat /\
  size "S107100011223344A5" >= 8 /\ is_S1 "S107100011223344A5" = true /\
  write_line_run "S107100011223344A5" = write_line_run "S1071000" /\
  snd (write_line_run "S1071000") = Done tt /\
  written (snd (fst (write_line_run "S1071000")))
  = [0x41; 4; 0x10; 0x00; 4; 0x10; 0x00; 0].
Proof.
  assert (H1 : 1 <= serial_txbuf_size default_params) by (simpl; lia).
  assert (H2 : 1 <= serial_rxbuf_size default_params) by (simpl; lia).
  assert (H3 : (256 <= 256)%nat) by lia.
  assert (H4 : (3 <= length (alloc_buf [] 256))%nat)
    by (rewrite length_alloc_buf; lia).
  assert (H5 : (256 <= length (alloc_buf [] 256))%nat)
    by (rewrite length_alloc_buf; lia).
  assert (H6 : size "S107100011223344A5" >= 8) by (vm_compute; discriminate).
  assert (H7 : is_S1 "S107100011223344A5" = true) by reflexivity.
  repeat (split; [assumption|]).
  split; [|split; vm_compute; reflexivity].
  exact (proj1 (tbug11_writemem_file_sends_no_data 256 default_params
                  ["S107100011223344A5"%string] "S107100011223344A5"
                  (alloc_buf [] 256) (alloc_buf [] 256) [] []
                  H1 H2 H3 H4 H5 H6 H7)
           (Scripted [] [Ret [0xbe]; Ret [4; 0x10; 0x00; 0]])).
Defined.

(** ** [write_e] and [write_e20] *)

Section EpromFacts.
Context {port : Type} {SC : serial_com port}.

Lemma Moves_e_sequence (fuel : nat) (arg_params : cl_my_params)
  (reg addr byte : Z) :
  1 <= serial_txbuf_size arg_params -> 1 <= serial_rxbuf_size arg_params ->
  (3 <= fuel)%nat ->
  Moves (bind (TBug11.writemem_byte fuel arg_params reg 0x20) (fun _ =>
         bind (TBug11.writemem_byte fuel arg_params addr byte) (fun _ =>
         bind (TBug11.writemem_byte fuel arg_params reg 0x21) (fun _ =>
         bind TBug11.erase_prog_delay (fun _ =>
         TBug11.writemem_byte fuel arg_params reg 0x00)))))
    (e_sequence reg addr byte) 8.
Proof.
  intros HT HR Hfuel. unfold e_sequence.
  apply (Moves_bind _ _ _ _ 2 6); [lia|now apply Moves_writemem_byte|]. intros _.
  apply (Moves_bind _ _ _ _ 2 4); [lia|now apply Moves_writemem_byte|]. intros _.
  apply (Moves_bind _ _ _ _ 2 2); [lia|now apply Moves_writemem_byte|]. intros _.
  apply (Moves_bind _ _ [] _ 0 2); [lia|apply (Moves_ret tt)|]. intros _.
  now apply Moves_writemem_byte.
Qed.

Lemma Moves_write_e_data_loop (prog : Z -> Z -> M port unit) (reg : Z)
  (line_str : string) (n : nat) :
  (forall addr byte, Moves (prog addr byte) (e_sequence reg addr byte) 8) ->
  forall i, 0 <= i ->
    Moves (TBug11Ops.write_e_data_loop prog n line_str i
             (u16 (srec_address line_str + i)))
      (flat_map (fun k => e_sequence reg
                            (u16 (srec_address line_str + (i + Z.of_nat k)))
                            (srec_data_byte line_str (i + Z.of_nat k)))
         (seq 0 n))
      (8 * Z.of_nat n).
Proof.
  intros Hprog. induction n as [|n IH]; intros i Hi.
  - apply (Moves_ret tt).
  - rewrite (flat_map_seq_S
               (fun j => e_sequence reg (u16 (srec_address line_str + j))
                           (srec_data_byte line_str j))).
    cbn [TBug11Ops.write_e_data_loop].
    intros d d' evs r H.
    destruct (Z.le_gt_cases (2 * i + 8) (size line_str)) as [Hs|Hs].
    + rewrite substr_some, bind_lift_done in H by assumption.
      assert (Hm : Moves
                (TBug11Ops.write_e_data_loop prog n line_str (i + 1)
                   (u16 (u16 (srec_address line_str + i) + 1)))
                (flat_map (fun k => e_sequence reg
                                      (u16 (srec_address line_str
                                            + (i + 1 + Z.of_nat k)))
                                      (srec_data_byte line_str (i + 1 + Z.of_nat k)))
                   (seq 0 n)) (8 * Z.of_nat n)).
      { rewrite u16_succ. replace (srec_address line_str + i + 1)
          with (srec_address line_str + (i + 1)) by lia. apply IH. lia. }
      replace (8 * Z.of_nat (S n)) with (8 + 8 * Z.of_nat n) by lia.
      revert d d' evs r H.
      apply Moves_bind; [lia|apply Hprog|]. intros _. exact Hm.
    + rewrite substr_none, bind_lift_throw in H by lia.
      inversion H; subst. apply moves_nothing. lia.
Qed.

Lemma Moves_write_e_line (prog : Z -> Z -> M port unit) (reg : Z)
  (line_str : string) :
  (forall addr byte, Moves (prog addr byte) (e_sequence reg addr byte) 8) ->
  Moves (TBug11Ops.write_e_line prog line_str)
    (e_line_image reg line_str) (8 * line_count line_str).
Proof.
  intros Hprog. unfold TBug11Ops.write_e_line, e_line_image, line_count,
    accepted.
  destruct (Z.geb_spec (size line_str) 8) as [Hs|Hs]; cbn [andb];
    [|apply (Moves_ret tt)].
  destruct (is_S1 line_str); [|apply (Moves_ret tt)].
  intros d d' evs r H.
  rewrite !substr_some, !bind_lift_done in H by lia.
  pose proof (srec_count_range line_str) as Hc.
  pose proof (Moves_write_e_data_loop prog reg line_str
                (Z.to_nat (srec_count line_str)) Hprog 0 ltac:(lia)) as Hm.
  rewrite Z.add_0_r, Z2Nat.id in Hm by lia.
  unfold srec_address in Hm at 1. rewrite u16_idem in Hm.
  apply Hm in H. exact H.
Qed.

Lemma Moves_write_e_file (prog : Z -> Z -> M port unit) (reg : Z)
  (in_file : list string) :
  (forall addr byte, Moves (prog addr byte) (e_sequence reg addr byte) 8) ->
  Moves (TBug11Ops.write_e_file prog in_file)
    (e_image reg in_file) (8 * file_count in_file).
Proof.
  intros Hprog. induction in_file as [|line_str rest IH].
  - apply (Moves_ret tt).
  - cbn [TBug11Ops.write_e_file]. unfold e_image. cbn [flat_map].
    pose proof (file_count_nonneg rest) as Hr.
    eapply Moves_eq; [|reflexivity|].
    + apply (Moves_bind _ _ (e_line_image reg line_str)
               (flat_map (e_line_image reg) rest)
               (8 * line_count line_str) (8 * file_count rest));
        [lia|now apply Moves_write_e_line|].
      intros _. exact IH.
    + change (file_count (line_str :: rest))
        with (line_count line_str + file_count rest). lia.
Qed.

End EpromFacts.

(** X6.  [write_e] and [write_e20] of tbug11 write, for each data byte of
    each S1 record in turn, one series of four [writemem_byte]: 0x20 to the
    programming register, the data byte to its address, 0x21 and then 0x00
    to the register, with no erase before; the register is at 0x103B for
    [write_e] and at 0x1036 for [write_e20].  What is written is always a
    prefix of that image and all of it on return, with two echo bytes asked
    for each [writemem_byte], and no call but writes and reads is made. *)
Theorem write_e_programs {port : Type} {SC : serial_com port}
  (fuel : nat) (arg_params : cl_my_params) (in_file : list string)
  (d d' : port) (evs : list event) (r : outcome unit) :
  1 <= serial_txbuf_size arg_params -> 1 <= serial_rxbuf_size arg_params ->
  (3 <= fuel)%nat ->
  (TBug11Ops.write_e fuel arg_params in_file d = (d', evs, r) ->
   moves (e_image 0x103b in_file) (8 * file_count in_file) evs r) /\
  (TBug11Ops.write_e20 fuel arg_params in_file d = (d', evs, r) ->
   moves (e_image 0x1036 in_file) (8 * file_count in_file) evs r) /\
  (forall reg addr byte,
     e_sequence reg addr byte
     = [0x41; 1; hi_byte reg; lo_byte reg; 0x20]
       ++ [0x41; 1; hi_byte addr; lo_byte addr; byte]
       ++ [0x41; 1; hi_byte reg; lo_byte reg; 0x21]
       ++ [0x41; 1; hi_byte reg; lo_byte reg; 0x00]) /\
  hi_byte 0x103b = 0x10 /\ lo_byte 0x103b = 0x3b /\
  hi_byte 0x1036 = 0x10 /\ lo_byte 0x1036 = 0x36.
Proof.
  intros HT HR Hfuel.
  split; [|split; [|split; [reflexivity|repeat split]]].
  - intros H.
    refine (Moves_write_e_file (TBug11Ops.eprom_prog_byte fuel arg_params)
              0x103b in_file _ _ _ _ _ H).
    intros addr byte. now apply Moves_e_sequence.
  - intros H.
    refine (Moves_write_e_file (TBug11Ops.eprom_prog_e20_byte fuel arg_params)
              0x1036 in_file _ _ _ _ _ H).
    intros addr byte. now apply Moves_e_sequence.
Qed.

(** A record with the one byte 0xAA at 0x1000, on a talker that answers
    as expected. *)
Lemma write_e_programs_witness :
  1 <= serial_txbuf_size default_params /\
  1 <= serial_rxbuf_size default_params /\ (3 <= 3)%nat /\
  snd write_e_one_byte = Done tt /\
  written (snd (fst write_e_one_byte))
  = [0x41; 1; 0x10; 0x3b; 0x20; 0x41; 1; 0x10; 0x00; 0xaa;
     0x41; 1; 0x10; 0x3b; 0x21; 0x41; 1; 0x10; 0x3b; 0x00] /\
  requested (snd (fst write_e_one_byte)) = 8.
Proof.
  assert (H1 : 1 <= serial_txbuf_size default_params) by (simpl; lia).
  assert (H2 : 1 <= serial_rxbuf_size default_params) by (simpl; lia).
  assert (H3 : (3 <= 3)%nat) by lia.
  assert (Hr : snd write_e_one_byte = Done tt) by (vm_compute; reflexivity).
  assert (Hrun : TBug11Ops.write_e 3 default_params ["S1041000AA41"%string]
                   (ee_talker [0x20; 0xaa; 0x21; 0x00])
                 = (fst (fst write_e_one_byte), snd (fst write_e_one_byte),
                    snd write_e_one_byte))
    by (vm_compute; reflexivity).
  repeat (split; [assumption|]).
  destruct (proj1 (write_e_programs 3 default_params ["S1041000AA41"%string]
                     (ee_talker [0x20; 0xaa; 0x21; 0x00]) _ _ _ H1 H2 H3) Hrun)
    as (_ & _ & _ & Hd & _).
  destruct (Hd (ex_intro _ tt Hr)) as [Hw Hq].
  split; [rewrite Hw|rewrite Hq]; vm_compute; reflexivity.
Defined.

(** ** The lines the file operations skip *)

Section SkipFacts.
Context {port : Type} {SC : serial_com port}.

Lemma bind_ret {A B} (a : A) (k : A -> M port B) (d : port) :
  bind (ret a) k d = k a d.
Proof. exact (bind_lift_done a k d). Qed.

Lemma tbug11_verify_loop_skip (fuel : nat) (arg_params : cl_my_params)
  (in_file : list string) :
  forall (txbuf rxbuf : list Z) (t : tally) (d : port),
    TBug11.readmem_verify_loop fuel arg_params in_file txbuf rxbuf t d
    = TBug11.readmem_verify_loop fuel arg_params (filter accepted in_file)
        txbuf rxbuf t d.
Proof.
  induction in_file as [|l rest IH]; intros txbuf rxbuf t d; [reflexivity|].
  cbn [filter]. destruct (accepted l) eqn:E.
  - cbn [TBug11.readmem_verify_loop]. apply bind_ext.
    intros [[tx1 rx1] t1] d1. apply IH.
  - cbn [TBug11.readmem_verify_loop]. unfold TBug11.readmem_verify_line.
    unfold accepted in E.
    destruct (size l >=? 8); [cbn in E; rewrite E|]; rewrite bind_ret; apply IH.
Qed.

Lemma tru11_verify_loop_skip (fuel : nat) (arg_params : cl_my_params)
  (in_file : list string) :
  forall (txbuf rxbuf : list Z) (t : tally) (d : port),
    Tru11.readmem_verify_loop fuel arg_params in_file txbuf rxbuf t d
    = Tru11.readmem_verify_loop fuel arg_params (filter accepted in_file)
        txbuf rxbuf t d.
Proof.
  induction in_file as [|l rest IH]; intros txbuf rxbuf t d; [reflexivity|].
  cbn [filter]. destruct (accepted l) eqn:E.
  - cbn [Tru11.readmem_verify_loop]. apply bind_ext.
    intros [[tx1 rx1] t1] d1. apply IH.
  - cbn [Tru11.readmem_verify_loop]. unfold Tru11.readmem_verify_line.
    unfold accepted in E.
    destruct (size l >=? 8); [cbn in E; rewrite E|]; rewrite bind_ret; apply IH.
Qed.

Lemma tru11_write_loop_skip (fuel : nat) (arg_params : cl_my_params)
  (arg_write_cmd_code : Z) (in_file : list string) :
  forall (txbuf rxbuf : list Z) (t : tally) (d : port),
    Tru11.writemem_file_loop fuel arg_params arg_write_cmd_code in_file
      txbuf rxbuf t d
    = Tru11.writemem_file_loop fuel arg_params arg_write_cmd_code
        (filter accepted in_file) txbuf rxbuf t d.
Proof.
  induction in_file as [|l rest IH]; intros txbuf rxbuf t d; [reflexivity|].
  cbn [filter]. destruct (accepted l) eqn:E.
  - cbn [Tru11.writemem_file_loop]. apply bind_ext.
    intros [[tx1 rx1] t1] d1. apply IH.
  - cbn [Tru11.writemem_file_loop]. unfold Tru11.writemem_file_line.
    unfold accepted in E.
    destruct (size l >=? 8); [cbn in E; rewrite E|]; rewrite bind_ret; apply IH.
Qed.

Lemma tbug11_write_loop_skip (fuel : nat) (arg_params : cl_my_params)
  (in_file : list string) :
  forall (txbuf rxbuf : list Z) (d : port),
    TBug11Ops.writemem_file_loop fuel arg_params in_file txbuf rxbuf d
    = TBug11Ops.writemem_file_loop fuel arg_params (filter accepted in_file)
        txbuf rxbuf d.
Proof.
  induction in_file as [|l rest IH]; intros txbuf rxbuf d; [reflexivity|].
  cbn [filter]. destruct (accepted l) eqn:E.
  - cbn [TBug11Ops.writemem_file_loop]. apply bind_ext.
    intros [tx1 rx1] d1. apply IH.
  - cbn [TBug11Ops.writemem_file_loop]. unfold TBug11Ops.writemem_file_line.
    unfold accepted in E.
    destruct (size l >=? 8); [cbn in E; rewrite E|]; rewrite bind_ret; apply IH.
Qed.

Lemma write_ee_skip (fuel : nat) (arg_params : cl_my_params)
  (in_file : list string) :
  forall d : port,
    TBug11.write_ee fuel arg_params in_file d
    = TBug11.write_ee fuel arg_params (filter accepted in_file) d.
Proof.
  induction in_file as [|l rest IH]; intros d; [reflexivity|].
  cbn [filter]. destruct (accepted l) eqn:E.
  - cbn [TBug11.write_ee]. apply bind_ext. intros _ d1. apply IH.
  - cbn [TBug11.write_ee]. unfold TBug11.write_ee_line.
    unfold accepted in E.
    destruct (size l >=? 8); [cbn in E; rewrite E|]; rewrite bind_ret; apply IH.
Qed.

Lemma write_e_file_skip (prog : Z -> Z -> M port unit) (in_file : list string) :
  forall d : port,
    TBug11Ops.write_e_file prog in_file d
    = TBug11Ops.write_e_file prog (filter accepted in_file) d.
Proof.
  induction in_file as [|l rest IH]; intros d; [reflexivity|].
  cbn [filter]. destruct (accepted l) eqn:E.
  - cbn [TBug11Ops.write_e_file]. apply bind_ext. intros _ d1. apply IH.
  - cbn [TBug11Ops.write_e_file]. unfold TBug11Ops.write_e_line.
    unfold accepted in E.
    destruct (size l >=? 8); [cbn in E; rewrite E|]; rewrite bind_ret; apply IH.
Qed.

End SkipFacts.

(** X7.  Every operation that reads an S-record file (tbug11: [readmem_verify],
    [writemem_file], [write_ee], [write_e], [write_e20]; tru11:
    [readmem_verify], [writemem_file]) skips the lines that are shorter than
    eight characters or do not begin with S1: its run on a file is its run
    on the lines it accepts, in their order.  A file with no such line, the
    empty file among them, causes no call of the transport, and the counts
    of the verification are 0. *)
Theorem rejected_lines_skipped {port : Type} {SC : serial_com port}
  (fuel : nat) (arg_params : cl_my_params) (arg_write_cmd_code : Z)
  (in_file : list string) (tx0 rx0 : list Z) (d : port) :
  let kept := filter accepted in_file in
  let none := {| total_databytes := 0; mismatch_count := 0; ignore_count := 0 |} in
  (TBug11.readmem_verify fuel arg_params in_file tx0 rx0 d
   = TBug11.readmem_verify fuel arg_params kept tx0 rx0 d /\
   TBug11Ops.writemem_file fuel arg_params in_file tx0 rx0 d
   = TBug11Ops.writemem_file fuel arg_params kept tx0 rx0 d /\
   TBug11.write_ee fuel arg_params in_file d
   = TBug11.write_ee fuel arg_params kept d /\
   TBug11Ops.write_e fuel arg_params in_file d
   = TBug11Ops.write_e fuel arg_params kept d /\
   TBug11Ops.write_e20 fuel arg_params in_file d
   = TBug11Ops.write_e20 fuel arg_params kept d /\
   Tru11.readmem_verify fuel arg_params in_file tx0 rx0 d
   = Tru11.readmem_verify fuel arg_params kept tx0 rx0 d /\
   Tru11.writemem_file fuel arg_params arg_write_cmd_code in_file tx0 rx0 d
   = Tru11.writemem_file fuel arg_params arg_write_cmd_code kept tx0 rx0 d) /\
  (kept = [] ->
   TBug11.readmem_verify fuel arg_params in_file tx0 rx0 d = (d, [], Done none) /\
   TBug11Ops.writemem_file fuel arg_params in_file tx0 rx0 d = (d, [], Done tt) /\
   TBug11.write_ee fuel arg_params in_file d = (d, [], Done tt) /\
   TBug11Ops.write_e fuel arg_params in_file d = (d, [], Done tt) /\
   TBug11Ops.write_e20 fuel arg_params in_file d = (d, [], Done tt) /\
   Tru11.readmem_verify fuel arg_params in_file tx0 rx0 d = (d, [], Done none) /\
   Tru11.writemem_file fuel arg_params arg_write_cmd_code in_file tx0 rx0 d
   = (d, [], Done none)).
Proof.
  intros kept none.
  assert (H : TBug11.readmem_verify fuel arg_params in_file tx0 rx0 d
   = TBug11.readmem_verify fuel arg_params kept tx0 rx0 d /\
   TBug11Ops.writemem_file fuel arg_params in_file tx0 rx0 d
   = TBug11Ops.writemem_file fuel arg_params kept tx0 rx0 d /\
   TBug11.write_ee fuel arg_params in_file d
   = TBug11.write_ee fuel arg_params kept d /\
   TBug11Ops.write_e fuel arg_params in_file d
   = TBug11Ops.write_e fuel arg_params kept d /\
   TBug11Ops.write_e20 fuel arg_params in_file d
   = TBug11Ops.write_e20 fuel arg_params kept d /\
   Tru11.readmem_verify fuel arg_params in_file tx0 rx0 d
   = Tru11.readmem_verify fuel arg_params kept tx0 rx0 d /\
   Tru11.writemem_file fuel arg_params arg_write_cmd_code in_file tx0 rx0 d
   = Tru11.writemem_file fuel arg_params arg_write_cmd_code kept tx0 rx0 d).
  { repeat split.
    - apply tbug11_verify_loop_skip.
    - apply tbug11_write_loop_skip.
    - apply write_ee_skip.
    - apply write_e_file_skip.
    - apply write_e_file_skip.
    - apply tru11_verify_loop_skip.
    - apply tru11_write_loop_skip. }
  split; [exact H|]. intros E.
  destruct H as (H1 & H2 & H3 & H4 & H5 & H6 & H7).
  rewrite H1, H2, H3, H4, H5, H6, H7, E. repeat split.
Qed.

(** ** The tallies of a file *)

Lemma count_ignored_config (arg_params : cl_my_params) (a0 i : Z) (n : nat) :
  verify_config arg_params = true ->
  count_from (ignored_at arg_params a0) i n = 0.
Proof.
  intros H. apply count_from_none. intros k _. unfold ignored_at.
  rewrite H. reflexivity.
Qed.

Lemma tally_ok_step (arg_params : cl_my_params) (T n cm ci : Z) (t : tally) :
  tally_ok (verify_config arg_params) T t ->
  0 <= n -> T + n < 4294967296 -> 0 <= T ->
  0 <= cm -> 0 <= ci -> cm + ci <= n ->
  (verify_config arg_params = true -> ci = 0) ->
  tally_ok (verify_config arg_params) (T + n)
    {| total_databytes := u32 (total_databytes t + n);
       mismatch_count := u32 (mismatch_count t + cm);
       ignore_count := u32 (ignore_count t + ci) |}.
Proof.
  intros (Ht & Hm & Hi & Hsum & Hc) Hn HT HT0 Hcm Hci Hle Hcfg.
  unfold tally_ok. cbn [total_databytes mismatch_count ignore_count].
  rewrite !u32_small by lia. repeat split; try lia.
  intros E. rewrite (Hc E), (Hcfg E). reflexivity.
Qed.

Section TallyFacts.
Context {port : Type} {SC : serial_com port}.

Lemma tru11_txrx_chunk_write_length (arg_params : cl_my_params)
  (txbuf : list Z) (arg_is_prog : bool) (fuel : nat) :
  1 <= serial_txbuf_size arg_params -> 1 <= serial_prog_txbuf_size arg_params ->
  1 <= serial_rxbuf_size arg_params ->
  forall (rxbuf : list Z) (p rp N : Z) (d d' : port) (evs : list event)
         (rxbuf' : list Z),
    0 <= N <= Z.of_nat fuel -> 0 <= rp -> rp + N <= Z.of_nat (length rxbuf) ->
    Tru11.txrx_chunk_write fuel arg_params txbuf p rxbuf rp N arg_is_prog d
    = (d', evs, Done rxbuf') ->
    length rxbuf' = length rxbuf.
Proof.
  intros HT HP HR. induction fuel as [|fuel IH];
    intros rxbuf p rp N d d' evs rxbuf' HN Hrp Hlen H.
  - assert (N = 0) by lia. subst N. cbn in H. inversion H. reflexivity.
  - cbn [Tru11.txrx_chunk_write] in H. destruct (Z.eqb_spec N 0) as [->|HN0].
    + inversion H. reflexivity.
    + set (c := if arg_is_prog
                then if N >? serial_prog_txbuf_size arg_params
                     then serial_prog_txbuf_size arg_params else N
                else if N >? serial_txbuf_size arg_params
                     then serial_txbuf_size arg_params else N) in *.
      assert (Hc : 1 <= c <= N).
      { subst c. destruct arg_is_prog.
        - pose proof (chunklen_range N _ HP ltac:(lia)). lia.
        - pose proof (chunklen_range N _ HT ltac:(lia)). lia. }
      clearbody c.
      apply bind_done in H. destruct H as (d1 & e1 & x & e2 & _ & H & _).
      destruct (negb (u32 x =? c)); [discriminate|].
      apply bind_done in H. destruct H as (d2 & e3 & rx1 & e4 & H1 & H & _).
      apply rx_chunk_length in H1; try lia.
      apply IH in H; lia.
Qed.

Lemma tru11_write_line_done (fuel : nat) (arg_params : cl_my_params)
  (arg_write_cmd_code : Z) (line_str : string) (txbuf rxbuf : list Z)
  (t : tally) (T : Z) (d d' : port) (evs : list event)
  (tx' rx' : list Z) (t' : tally) :
  1 <= serial_txbuf_size arg_params -> 1 <= serial_prog_txbuf_size arg_params ->
  1 <= serial_rxbuf_size arg_params ->
  (256 <= fuel)%nat -> (256 <= length txbuf)%nat -> (256 <= length rxbuf)%nat ->
  Tru11.writemem_file_line fuel arg_params arg_write_cmd_code line_str
    txbuf rxbuf t d = (d', evs, Done (tx', rx', t')) ->
  length tx' = length txbuf /\ length rx' = length rxbuf /\
  (tally_ok (verify_config arg_params) T t -> 0 <= T ->
   T + line_count line_str < 4294967296 ->
   tally_ok (verify_config arg_params) (T + line_count line_str) t').
Proof.
  intros HT HP HR Hfuel Htx Hrx H.
  unfold line_count, accepted in *. unfold Tru11.writemem_file_line in H.
  destruct (Z.geb_spec (size line_str) 8) as [Hsz|Hsz]; cbn [andb] in *.
  2:{ inversion H; subst. rewrite Z.add_0_r. auto. }
  destruct (is_S1 line_str) eqn:HS1.
  2:{ inversion H; subst. rewrite Z.add_0_r. auto. }
  pose proof (srec_count_range line_str) as Hn.
  rewrite !substr_some, !bind_lift_done in H by lia.
  cbv beta zeta in H.
  change (Z.to_nat 2) with 2%nat in H. change (Z.to_nat 4) with 4%nat in H.
  fold (srec_count line_str) in H. fold (srec_address line_str) in H.
  set (n := srec_count line_str) in *. set (a := srec_address line_str) in *.
  set (tx1 := poke txbuf 0 arg_write_cmd_code) in *.
  set (tx2 := poke (poke (poke tx1 0 (u8 n)) 1 (u8 (Z.land (Z.shiftr a 8) 255)))
                2 (u8 (Z.land a 255))) in *.
  assert (Hl2 : length tx2 = length txbuf).
  { subst tx2 tx1. rewrite !length_poke. reflexivity. }
  apply bind_done in H. destruct H as (d1 & e1 & rx1 & e2 & H1 & H & _).
  apply tru11_txrx_chunk_length in H1; try assumption; try lia.
  apply bind_done in H. destruct H as (d2 & e3 & [] & e4 & _ & H & _).
  apply bind_done in H. destruct H as (d3 & e5 & tx3 & e6 & H3 & H & _).
  apply lift_inv in H3. destruct H3 as (_ & _ & H3).
  pose proof (write_fill_loop_cases line_str (Z.to_nat n) 0 tx2
                ltac:(lia) ltac:(lia)) as Hfill.
  rewrite <- H3 in Hfill. destruct Hfill as (Hl3 & _ & _).
  apply bind_done in H. destruct H as (d4 & e7 & rx2 & e8 & H4 & H & _).
  apply tru11_txrx_chunk_write_length in H4; try assumption; try lia.
  destruct (Tru11.write_check_loop (Z.to_nat n) arg_params tx3 rx2 0
              (a, (0, 0), (mismatch_count t, ignore_count t)))
    as [[a' lc] [m' ig']] eqn:Ew.
  apply ret_inv in H. destruct H as (_ & _ & H).
  inversion H; subst tx' rx' t'.
  split; [lia|]. split; [lia|]. intros Ht HT0 Hsum.
  destruct Ht as (Ht1 & Ht2 & Ht3 & Ht4 & Ht5).
  pose proof (write_check_loop_spec arg_params tx3 rx2 a (Z.to_nat n)
                0 0 0 (mismatch_count t) (ignore_count t) u32_0 u32_0
                ltac:(apply u32_small; lia) ltac:(apply u32_small; lia)) as Hw.
  rewrite Z.add_0_r in Hw. unfold a in Hw at 1. unfold srec_address in Hw at 1.
  rewrite u16_idem in Hw. fold (srec_address line_str) in Hw. fold a in Hw.
  rewrite Hw in Ew. inversion Ew; subst a' lc m' ig'.
  pose proof (count_from_range (mismatch_at arg_params a (write_differs tx3 rx2))
                0 (Z.to_nat n)).
  pose proof (count_from_range (ignored_at arg_params a) 0 (Z.to_nat n)).
  pose proof (count_from_disjoint arg_params a (write_differs tx3 rx2)
                (Z.to_nat n) 0).
  apply tally_ok_step; try lia.
  - repeat split; assumption.
  - intros E. apply count_ignored_config. exact E.
Qed.


Lemma accepted_count_cons (l : string) (rest : list string) :
  accepted_count (l :: rest)
  = (if accepted l then 1 else 0) + accepted_count rest.
Proof.
  unfold accepted_count. cbn [filter]. destruct (accepted l); cbn [length]; lia.
Qed.

Lemma accepted_count_nonneg (in_file : list string) : 0 <= accepted_count in_file.
Proof. unfold accepted_count. lia. Qed.

Lemma file_count_cons (l : string) (rest : list string) :
  file_count (l :: rest) = line_count l + file_count rest.
Proof. reflexivity. Qed.

Lemma Moves_tru11_write_any_line (fuel : nat) (arg_params : cl_my_params)
  (arg_write_cmd_code : Z) (line_str : string) (txbuf rxbuf : list Z)
  (t : tally) :
  1 <= serial_txbuf_size arg_params -> 1 <= serial_prog_txbuf_size arg_params ->
  1 <= serial_rxbuf_size arg_params ->
  (256 <= fuel)%nat -> (256 <= length txbuf)%nat -> (256 <= length rxbuf)%nat ->
  Moves (Tru11.writemem_file_line fuel arg_params arg_write_cmd_code line_str
           txbuf rxbuf t)
    (write_line_image arg_write_cmd_code line_str)
    ((if accepted line_str then 1 else 0) + line_count line_str).
Proof.
  intros HT HP HR Hfuel Htx Hrx. unfold write_line_image, line_count.
  destruct (accepted line_str) eqn:E.
  - unfold accepted in E. apply andb_prop in E. destruct E as [E8 ES].
    apply Z.geb_le in E8.
    apply Moves_tru11_write_line; try assumption. lia.
  - unfold Tru11.writemem_file_line. unfold accepted in E.
    destruct (size line_str >=? 8); [cbn in E; rewrite E|];
      apply (Moves_ret (txbuf, rxbuf, t)).
Qed.

Lemma Moves_tru11_write_loop (fuel : nat) (arg_params : cl_my_params)
  (arg_write_cmd_code : Z) (in_file : list string) :
  1 <= serial_txbuf_size arg_params -> 1 <= serial_prog_txbuf_size arg_params ->
  1 <= serial_rxbuf_size arg_params -> (256 <= fuel)%nat ->
  forall (txbuf rxbuf : list Z) (t : tally),
    (256 <= length txbuf)%nat -> (256 <= length rxbuf)%nat ->
    Moves (Tru11.writemem_file_loop fuel arg_params arg_write_cmd_code in_file
             txbuf rxbuf t)
      (write_image arg_write_cmd_code in_file)
      (accepted_count in_file + file_count in_file).
Proof.
  intros HT HP HR Hfuel.
  induction in_file as [|l rest IH]; intros txbuf rxbuf t Htx Hrx.
  - apply (Moves_ret t).
  - cbn [Tru11.writemem_file_loop]. unfold write_image. cbn [flat_map].
    pose proof (file_count_nonneg rest) as Hfc.
    pose proof (accepted_count_nonneg rest) as Hac.
    eapply Moves_eq; [|reflexivity|].
    + apply (Moves_bind_post
               (fun st => (256 <= length (fst (fst st)))%nat /\
                          (256 <= length (snd (fst st)))%nat) _ _
               (write_line_image arg_write_cmd_code l)
               (flat_map (write_line_image arg_write_cmd_code) rest)
               ((if accepted l then 1 else 0) + line_count l)
               (accepted_count rest + file_count rest)); [lia| | |].
      * now apply Moves_tru11_write_any_line.
      * intros d d' evs [[tx' rx'] t'] H.
        destruct (tru11_write_line_done fuel arg_params arg_write_cmd_code l
                    txbuf rxbuf t 0 d d' evs tx' rx' t' HT HP HR Hfuel Htx Hrx H)
          as (H1 & H2 & _).
        cbn [fst snd]. lia.
      * intros [[tx' rx'] t'] [H1 H2]. cbn [fst snd] in *. now apply IH.
    + rewrite accepted_count_cons, file_count_cons. lia.
Qed.

Lemma tru11_write_loop_tally (fuel : nat) (arg_params : cl_my_params)
  (arg_write_cmd_code : Z) (in_file : list string) :
  1 <= serial_txbuf_size arg_params -> 1 <= serial_prog_txbuf_size arg_params ->
  1 <= serial_rxbuf_size arg_params -> (256 <= fuel)%nat ->
  forall (txbuf rxbuf : list Z) (t : tally) (T : Z) (d d' : port)
         (evs : list event) (t' : tally),
    (256 <= length txbuf)%nat -> (256 <= length rxbuf)%nat ->
    tally_ok (verify_config arg_params) T t -> 0 <= T ->
    T + file_count in_file < 4294967296 ->
    Tru11.writemem_file_loop fuel arg_params arg_write_cmd_code in_file
      txbuf rxbuf t d = (d', evs, Done t') ->
    tally_ok (verify_config arg_params) (T + file_count in_file) t'.
Proof.
  intros HT HP HR Hfuel.
  induction in_file as [|l rest IH];
    intros txbuf rxbuf t T d d' evs t' Htx Hrx Ht HT0 Hsum H.
  - apply ret_inv in H. destruct H as (_ & _ & H). inversion H; subst.
    change (file_count []) with 0. rewrite Z.add_0_r. exact Ht.
  - cbn [Tru11.writemem_file_loop] in H. rewrite file_count_cons in *.
    pose proof (file_count_nonneg rest) as Hfc.
    pose proof (line_count_range l) as Hlc.
    apply bind_done in H.
    destruct H as (d1 & e1 & [[tx1 rx1] t1] & e2 & H1 & H & _).
    destruct (tru11_write_line_done fuel arg_params arg_write_cmd_code l
                txbuf rxbuf t T d d1 e1 tx1 rx1 t1 HT HP HR Hfuel Htx Hrx H1)
      as (Hl1 & Hl2 & Hok).
    rewrite Z.add_assoc.
    apply (IH tx1 rx1 t1 (T + line_count l) d1 d' e2 t'); try lia.
    + apply Hok; [assumption|lia|lia].
    + exact H.
Qed.


Lemma verify_line_tally (arg_params : cl_my_params) (line_str : string)
  (rxbuf : list Z) (t : tally) (T : Z) (st : Z * Z * (Z * Z) * (Z * Z)) :
  Tru11.verify_data_loop (Z.to_nat (srec_count line_str)) arg_params line_str
    rxbuf 0 (srec_address line_str, 0, (0, 0),
             (mismatch_count t, ignore_count t)) = Done st ->
  tally_ok (verify_config arg_params) T t -> 0 <= T ->
  T + srec_count line_str < 4294967296 ->
  tally_ok (verify_config arg_params) (T + srec_count line_str)
    {| total_databytes := u32 (total_databytes t + srec_count line_str);
       mismatch_count := fst (snd st);
       ignore_count := snd (snd st) |}.
Proof.
  intros E (Ht1 & Ht2 & Ht3 & Ht4 & Ht5) HT0 Hsum.
  pose proof (srec_count_range line_str) as Hn.
  set (n := srec_count line_str) in *. set (a := srec_address line_str) in *.
  pose proof (verify_data_loop_cases arg_params line_str rxbuf a (Z.to_nat n)
                0 0 0 (mismatch_count t) (ignore_count t) ltac:(lia) u32_0 u32_0
                ltac:(apply u32_small; lia) ltac:(apply u32_small; lia)) as Hv.
  rewrite Z.add_0_r in Hv. unfold a in Hv at 1. unfold srec_address in Hv at 1.
  rewrite u16_idem in Hv. fold (srec_address line_str) in Hv. fold a in Hv.
  rewrite E in Hv. destruct st as [[[a' rp'] [lm' li']] [m' ig']].
  destruct Hv as (_ & _ & _ & -> & _ & ->). cbn [fst snd].
  pose proof (count_from_range (mismatch_at arg_params a
                                  (verify_differs line_str rxbuf)) 0 (Z.to_nat n)).
  pose proof (count_from_range (ignored_at arg_params a) 0 (Z.to_nat n)).
  pose proof (count_from_disjoint arg_params a (verify_differs line_str rxbuf)
                (Z.to_nat n) 0).
  apply tally_ok_step; try lia.
  - repeat split; assumption.
  - intros Ec. apply count_ignored_config. exact Ec.
Qed.

Lemma tru11_verify_line_done (fuel : nat) (arg_params : cl_my_params)
  (line_str : string) (txbuf rxbuf : list Z)
  (t : tally) (T : Z) (d d' : port) (evs : list event)
  (tx' rx' : list Z) (t' : tally) :
  1 <= serial_txbuf_size arg_params -> 1 <= serial_rxbuf_size arg_params ->
  (256 <= fuel)%nat -> (256 <= length txbuf)%nat -> (256 <= length rxbuf)%nat ->
  Tru11.readmem_verify_line fuel arg_params line_str txbuf rxbuf t d
  = (d', evs, Done (tx', rx', t')) ->
  length tx' = length txbuf /\ length rx' = length rxbuf /\
  (tally_ok (verify_config arg_params) T t -> 0 <= T ->
   T + line_count line_str < 4294967296 ->
   tally_ok (verify_config arg_params) (T + line_count line_str) t').
Proof.
  intros HT HR Hfuel Htx Hrx H.
  unfold line_count, accepted in *. unfold Tru11.readmem_verify_line in H.
  destruct (Z.geb_spec (size line_str) 8) as [Hsz|Hsz]; cbn [andb] in *.
  2:{ inversion H; subst. rewrite Z.add_0_r. auto. }
  destruct (is_S1 line_str) eqn:HS1.
  2:{ inversion H; subst. rewrite Z.add_0_r. auto. }
  pose proof (srec_count_range line_str) as Hn.
  rewrite !substr_some, !bind_lift_done in H by lia.
  cbv beta zeta in H.
  change (Z.to_nat 2) with 2%nat in H. change (Z.to_nat 4) with 4%nat in H.
  fold (srec_count line_str) in H. fold (srec_address line_str) in H.
  apply bind_done in H. destruct H as (d1 & e1 & rx1 & e2 & H1 & H & _).
  apply tru11_txrx_chunk_length in H1; try assumption; try lia.
  apply bind_done in H. destruct H as (d2 & e3 & [] & e4 & _ & H & _).
  apply bind_done in H. destruct H as (d3 & e5 & rx2 & e6 & H3 & H & _).
  apply rx_chunk_length in H3; try assumption; try lia.
  apply bind_done in H. destruct H as (d4 & e7 & st & e8 & H4 & H & _).
  apply lift_inv in H4. destruct H4 as (_ & _ & H4).
  pose proof (verify_line_tally arg_params line_str rx2 t T st (eq_sym H4))
    as Hok.
  destruct st as [[[a' rp'] lc] [m' ig']].
  apply ret_inv in H. destruct H as (_ & _ & H).
  inversion H; subst tx' rx' t'.
  rewrite !length_poke. split; [reflexivity|]. split; [lia|]. exact Hok.
Qed.

Lemma tbug11_verify_line_done (fuel : nat) (arg_params : cl_my_params)
  (line_str : string) (txbuf rxbuf : list Z)
  (t : tally) (T : Z) (d d' : port) (evs : list event)
  (tx' rx' : list Z) (t' : tally) :
  1 <= serial_txbuf_size arg_params -> 1 <= serial_rxbuf_size arg_params ->
  (256 <= fuel)%nat -> (256 <= length txbuf)%nat -> (256 <= length rxbuf)%nat ->
  TBug11.readmem_verify_line fuel arg_params line_str txbuf rxbuf t d
  = (d', evs, Done (tx', rx', t')) ->
  length tx' = length txbuf /\ length rx' = length rxbuf /\
  (tally_ok (verify_config arg_params) T t -> 0 <= T ->
   T + line_count line_str < 4294967296 ->
   tally_ok (verify_config arg_params) (T + line_count line_str) t').
Proof.
  intros HT HR Hfuel Htx Hrx H.
  unfold line_count, accepted in *. unfold TBug11.readmem_verify_line in H.
  destruct (Z.geb_spec (size line_str) 8) as [Hsz|Hsz]; cbn [andb] in *.
  2:{ inversion H; subst. rewrite Z.add_0_r. auto. }
  destruct (is_S1 line_str) eqn:HS1.
  2:{ inversion H; subst. rewrite Z.add_0_r. auto. }
  pose proof (srec_count_range line_str) as Hn.
  rewrite !substr_some, !bind_lift_done in H by lia.
  cbv beta zeta in H.
  change (Z.to_nat 2) with 2%nat in H. change (Z.to_nat 4) with 4%nat in H.
  fold (srec_count line_str) in H. fold (srec_address line_str) in H.
  apply bind_done in H. destruct H as (d1 & e1 & rx1 & e2 & H1 & H & _).
  apply tbug11_txrx_chunk_length in H1; try assumption; try lia.
  apply bind_done in H. destruct H as (d2 & e3 & [] & e4 & _ & H & _).
  apply bind_done in H. destruct H as (d3 & e5 & rx2 & e6 & H3 & H & _).
  apply tbug11_txrx_chunk_length in H3; try assumption; try lia.
  apply bind_done in H. destruct H as (d4 & e7 & st & e8 & H4 & H & _).
  apply lift_inv in H4. destruct H4 as (_ & _ & H4).
  rewrite verify_data_loop_same in H4.
  pose proof (verify_line_tally arg_params line_str rx2 t T st (eq_sym H4))
    as Hok.
  destruct st as [[[a' rp'] lc] [m' ig']].
  apply ret_inv in H. destruct H as (_ & _ & H).
  inversion H; subst tx' rx' t'.
  rewrite !length_poke. split; [reflexivity|]. split; [lia|]. exact Hok.
Qed.

Lemma Moves_tru11_verify_any_line (fuel : nat) (arg_params : cl_my_params)
  (line_str : string) (txbuf rxbuf : list Z) (t : tally) :
  1 <= serial_txbuf_size arg_params -> 1 <= serial_rxbuf_size arg_params ->
  (256 <= fuel)%nat -> (256 <= length txbuf)%nat -> (256 <= length rxbuf)%nat ->
  Moves (Tru11.readmem_verify_line fuel arg_params line_str txbuf rxbuf t)
    (verify_line_image line_str)
    ((if accepted line_str then 1 else 0) + line_count line_str).
Proof.
  intros HT HR Hfuel Htx Hrx. unfold verify_line_image, line_count.
  destruct (accepted line_str) eqn:E.
  - unfold accepted in E. apply andb_prop in E. destruct E as [E8 ES].
    apply Z.geb_le in E8.
    apply Moves_tru11_verify_line; try assumption; lia.
  - unfold Tru11.readmem_verify_line. unfold accepted in E.
    destruct (size line_str >=? 8); [cbn in E; rewrite E|];
      apply (Moves_ret (txbuf, rxbuf, t)).
Qed.

Lemma Moves_tru11_verify_loop (fuel : nat) (arg_params : cl_my_params)
  (in_file : list string) :
  1 <= serial_txbuf_size arg_params -> 1 <= serial_rxbuf_size arg_params ->
  (256 <= fuel)%nat ->
  forall (txbuf rxbuf : list Z) (t : tally),
    (256 <= length txbuf)%nat -> (256 <= length rxbuf)%nat ->
    Moves (Tru11.readmem_verify_loop fuel arg_params in_file txbuf rxbuf t)
      (verify_image in_file)
      (accepted_count in_file + file_count in_file).
Proof.
  intros HT HR Hfuel.
  induction in_file as [|l rest IH]; intros txbuf rxbuf t Htx Hrx.
  - apply (Moves_ret t).
  - cbn [Tru11.readmem_verify_loop]. unfold verify_image. cbn [flat_map].
    pose proof (file_count_nonneg rest) as Hfc.
    pose proof (accepted_count_nonneg rest) as Hac.
    eapply Moves_eq; [|reflexivity|].
    + apply (Moves_bind_post
               (fun st => (256 <= length (fst (fst st)))%nat /\
                          (256 <= length (snd (fst st)))%nat) _ _
               (verify_line_image l) (flat_map verify_line_image rest)
               ((if accepted l then 1 else 0) + line_count l)
               (accepted_count rest + file_count rest)); [lia| | |].
      * now apply Moves_tru11_verify_any_line.
      * intros d d' evs [[tx' rx'] t'] H.
        destruct (tru11_verify_line_done fuel arg_params l
                    txbuf rxbuf t 0 d d' evs tx' rx' t' HT HR Hfuel Htx Hrx H)
          as (H1 & H2 & _).
        cbn [fst snd]. lia.
      * intros [[tx' rx'] t'] [H1 H2]. cbn [fst snd] in *. now apply IH.
    + rewrite accepted_count_cons, file_count_cons. lia.
Qed.

Lemma tru11_verify_loop_tally (fuel : nat) (arg_params : cl_my_params)
  (in_file : list string) :
  1 <= serial_txbuf_size arg_params -> 1 <= serial_rxbuf_size arg_params ->
  (256 <= fuel)%nat ->
  forall (txbuf rxbuf : list Z) (t : tally) (T : Z) (d d' : port)
         (evs : list event) (t' : tally),
    (256 <= length txbuf)%nat -> (256 <= length rxbuf)%nat ->
    tally_ok (verify_config arg_params) T t -> 0 <= T ->
    T + file_count in_file < 4294967296 ->
    Tru11.readmem_verify_loop fuel arg_params in_file txbuf rxbuf t d
    = (d', evs, Done t') ->
    tally_ok (verify_config arg_params) (T + file_count in_file) t'.
Proof.
  intros HT HR Hfuel.
  induction in_file as [|l rest IH];
    intros txbuf rxbuf t T d d' evs t' Htx Hrx Ht HT0 Hsum H.
  - apply ret_inv in H. destruct H as (_ & _ & H). inversion H; subst.
    change (file_count []) with 0. rewrite Z.add_0_r. exact Ht.
  - cbn [Tru11.readmem_verify_loop] in H. rewrite file_count_cons in *.
    pose proof (file_count_nonneg rest) as Hfc.
    pose proof (line_count_range l) as Hlc.
    apply bind_done in H.
    destruct H as (d1 & e1 & [[tx1 rx1] t1] & e2 & H1 & H & _).
    destruct (tru11_verify_line_done fuel arg_params l
                txbuf rxbuf t T d d1 e1 tx1 rx1 t1 HT HR Hfuel Htx Hrx H1)
      as (Hl1 & Hl2 & Hok).
    rewrite Z.add_assoc.
    apply (IH tx1 rx1 t1 (T + line_count l) d1 d' e2 t'); try lia.
    + apply Hok; [assumption|lia|lia].
    + exact H.
Qed.

Lemma tbug11_verify_loop_tally (fuel : nat) (arg_params : cl_my_params)
  (in_file : list string) :
  1 <= serial_txbuf_size arg_params -> 1 <= serial_rxbuf_size arg_params ->
  (256 <= fuel)%nat ->
  forall (txbuf rxbuf : list Z) (t : tally) (T : Z) (d d' : port)
         (evs : list event) (t' : tally),
    (256 <= length txbuf)%nat -> (256 <= length rxbuf)%nat ->
    tally_ok (verify_config arg_params) T t -> 0 <= T ->
    T + file_count in_file < 4294967296 ->
    TBug11.readmem_verify_loop fuel arg_params in_file txbuf rxbuf t d
    = (d', evs, Done t') ->
    tally_ok (verify_config arg_params) (T + file_count in_file) t'.
Proof.
  intros HT HR Hfuel.
  induction in_file as [|l rest IH];
    intros txbuf rxbuf t T d d' evs t' Htx Hrx Ht HT0 Hsum H.
  - apply ret_inv in H. destruct H as (_ & _ & H). inversion H; subst.
    change (file_count []) with 0. rewrite Z.add_0_r. exact Ht.
  - cbn [TBug11.readmem_verify_loop] in H. rewrite file_count_cons in *.
    pose proof (file_count_nonneg rest) as Hfc.
    pose proof (line_count_range l) as Hlc.
    apply bind_done in H.
    destruct H as (d1 & e1 & [[tx1 rx1] t1] & e2 & H1 & H & _).
    destruct (tbug11_verify_line_done fuel arg_params l
                txbuf rxbuf t T d d1 e1 tx1 rx1 t1 HT HR Hfuel Htx Hrx H1)
      as (Hl1 & Hl2 & Hok).
    rewrite Z.add_assoc.
    apply (IH tx1 rx1 t1 (T + line_count l) d1 d' e2 t'); try lia.
    + apply Hok; [assumption|lia|lia].
    + exact H.
Qed.


Lemma Runs_tbug11_verify_loop (fuel : nat) (arg_params : cl_my_params)
  (in_file : list string) :
  1 <= serial_txbuf_size arg_params -> 1 <= serial_rxbuf_size arg_params ->
  (256 <= fuel)%nat ->
  forall (txbuf rxbuf : list Z) (t : tally),
    (256 <= length txbuf)%nat -> (256 <= length rxbuf)%nat ->
    Runs (TBug11.readmem_verify_loop fuel arg_params in_file txbuf rxbuf t).
Proof.
  intros HT HR Hfuel.
  induction in_file as [|l rest IH]; intros txbuf rxbuf t Htx Hrx.
  - apply Runs_ret.
  - cbn [TBug11.readmem_verify_loop].
    apply (Runs_bind_post
             (fun st => (256 <= length (fst (fst st)))%nat /\
                        (256 <= length (snd (fst st)))%nat)).
    + destruct (accepted l) eqn:E.
      * unfold accepted in E. apply andb_prop in E. destruct E as [E8 ES].
        apply Z.geb_le in E8.
        destruct (Moves_tbug11_verify_line fuel arg_params l txbuf rxbuf t
                    HT HR Hfuel ltac:(lia) Hrx ltac:(lia) ES) as (f & _ & Hm).
        exact (Moves_Runs _ _ _ Hm).
      * unfold TBug11.readmem_verify_line. unfold accepted in E.
        destruct (size l >=? 8); [cbn in E; rewrite E|]; apply Runs_ret.
    + intros d d' evs [[tx' rx'] t'] H.
      destruct (tbug11_verify_line_done fuel arg_params l
                  txbuf rxbuf t 0 d d' evs tx' rx' t' HT HR Hfuel Htx Hrx H)
        as (H1 & H2 & _).
      cbn [fst snd]. lia.
    + intros [[tx' rx'] t'] [H1 H2]. cbn [fst snd] in *. now apply IH.
Qed.

End TallyFacts.

Lemma tally_ok_zero (vc : bool) :
  tally_ok vc 0 {| total_databytes := 0; mismatch_count := 0; ignore_count := 0 |}.
Proof. unfold tally_ok. cbn. repeat split; lia. Qed.

(** X8.  [writemem_file] of tru11 on a whole file: it writes, for each line
    it accepts in turn, the write command, the count, the address and the
    data bytes of the line, and asks for the echo of each command and of
    each data byte; what is written is a prefix of that image and all of it
    on return.  The tallies it returns are sound: the total is the number of
    data bytes of the file, the mismatches and the ignored bytes together
    are at most the total, and no byte is ignored when [verify_config] is
    on. *)
Theorem tru11_writemem_file_whole {port : Type} {SC : serial_com port}
  (fuel : nat) (arg_params : cl_my_params) (arg_write_cmd_code : Z)
  (in_file : list string) (tx0 rx0 : list Z) (d d' : port)
  (evs : list event) (r : outcome tally) :
  1 <= serial_txbuf_size arg_params -> 1 <= serial_prog_txbuf_size arg_params ->
  1 <= serial_rxbuf_size arg_params -> (256 <= fuel)%nat ->
  Tru11.writemem_file fuel arg_params arg_write_cmd_code in_file tx0 rx0 d
  = (d', evs, r) ->
  moves (write_image arg_write_cmd_code in_file)
    (accepted_count in_file + file_count in_file) evs r /\
  (forall t, r = Done t -> file_count in_file < 4294967296 ->
     total_databytes t = file_count in_file /\
     0 <= mismatch_count t /\ 0 <= ignore_count t /\
     mismatch_count t + ignore_count t <= file_count in_file /\
     (verify_config arg_params = true -> ignore_count t = 0)).
Proof.
  intros HT HP HR Hfuel H. unfold Tru11.writemem_file in H.
  pose proof (alloc_size tx0 (serial_txbuf_size arg_params)) as Htx.
  pose proof (alloc_size rx0 (serial_rxbuf_size arg_params)) as Hrx.
  split.
  - exact (Moves_tru11_write_loop fuel arg_params arg_write_cmd_code in_file
             HT HP HR Hfuel _ _ _ Htx Hrx _ _ _ _ H).
  - intros t -> Hsum.
    exact (tru11_write_loop_tally fuel arg_params arg_write_cmd_code in_file
             HT HP HR Hfuel _ _ _ 0 _ _ _ _ Htx Hrx
             (tally_ok_zero _) ltac:(lia) Hsum H).
Qed.

(** A record of two bytes, of which the device gives back the first
    only. *)
Lemma tru11_writemem_file_whole_witness :
  1 <= serial_txbuf_size default_params /\
  1 <= serial_prog_txbuf_size default_params /\
  1 <= serial_rxbuf_size default_params /\ (256 <= 256)%nat /\
  snd tru11_write_run
  = Done {| total_databytes := 2; mismatch_count := 1; ignore_count := 0 |} /\
  written (snd (fst tru11_write_run)) = [0x02; 2; 0x10; 0x00; 0xaa; 0xbb] /\
  requested (snd (fst tru11_write_run)) = 3.
Proof.
  assert (H1 : 1 <= serial_txbuf_size default_params) by (simpl; lia).
  assert (H2 : 1 <= serial_prog_txbuf_size default_params) by (simpl; lia).
  assert (H3 : 1 <= serial_rxbuf_size default_params) by (simpl; lia).
  assert (H4 : (256 <= 256)%nat) by lia.
  assert (Hr : snd tru11_write_run
               = Done {| total_databytes := 2; mismatch_count := 1;
                         ignore_count := 0 |}) by (vm_compute; reflexivity).
  assert (Hrun : Tru11.writemem_file 256 default_params Tru11.TALKER_WRITE_CMD
                   ["S1051000AABB85"%string] [] []
                   (Scripted [] [Ret [0x02]; Ret [0xaa; 0x00]])
                 = (fst (fst tru11_write_run), snd (fst tru11_write_run),
                    snd tru11_write_run))
    by (vm_compute; reflexivity).
  repeat (split; [assumption|]).
  destruct (tru11_writemem_file_whole 256 default_params Tru11.TALKER_WRITE_CMD
              ["S1051000AABB85"%string] [] [] _ _ _ _ H1 H2 H3 H4 Hrun)
    as ((_ & _ & _ & Hd & _) & _).
  destruct (Hd (ex_intro _ _ Hr)) as [Hw Hq].
  split; [rewrite Hw|rewrite Hq]; vm_compute; reflexivity.
Defined.

(** X9.  [readmem_verify] on a whole file.  tru11 writes, for each line it
    accepts in turn, the read command, the count and the address, and asks
    for the echo of each command and for each data byte; what is written is
    a prefix of that image and all of it on return.  tbug11 does not run
    out of fuel.  The tallies that either returns are sound: the total is
    the number of data bytes of the file, the mismatches and the ignored
    bytes together are at most the total, and no byte is ignored when
    [verify_config] is on. *)
Theorem readmem_verify_whole {port : Type} {SC : serial_com port}
  (fuel : nat) (arg_params : cl_my_params)
  (in_file : list string) (tx0 rx0 : list Z) (d d' : port)
  (evs : list event) (r : outcome tally) :
  1 <= serial_txbuf_size arg_params -> 1 <= serial_rxbuf_size arg_params ->
  (256 <= fuel)%nat ->
  let sound t :=
    total_databytes t = file_count in_file /\
    0 <= mismatch_count t /\ 0 <= ignore_count t /\
    mismatch_count t + ignore_count t <= file_count in_file /\
    (verify_config arg_params = true -> ignore_count t = 0) in
  (Tru11.readmem_verify fuel arg_params in_file tx0 rx0 d = (d', evs, r) ->
   moves (verify_image in_file) (accepted_count in_file + file_count in_file)
     evs r /\
   (forall t, r = Done t -> file_count in_file < 4294967296 -> sound t)) /\
  (TBug11.readmem_verify fuel arg_params in_file tx0 rx0 d = (d', evs, r) ->
   r <> OutOfFuel /\
   (forall t, r = Done t -> file_count in_file < 4294967296 -> sound t)).
Proof.
  intros HT HR Hfuel sound. subst sound. cbv beta.
  pose proof (alloc_size tx0 (serial_txbuf_size arg_params)) as Htx.
  pose proof (alloc_size rx0 (serial_rxbuf_size arg_params)) as Hrx.
  split; intros H.
  - unfold Tru11.readmem_verify in H. split.
    + exact (Moves_tru11_verify_loop fuel arg_params in_file
               HT HR Hfuel _ _ _ Htx Hrx _ _ _ _ H).
    + intros t -> Hsum.
      exact (tru11_verify_loop_tally fuel arg_params in_file
               HT HR Hfuel _ _ _ 0 _ _ _ _ Htx Hrx
               (tally_ok_zero _) ltac:(lia) Hsum H).
  - unfold TBug11.readmem_verify in H. split.
    + exact (Runs_tbug11_verify_loop fuel arg_params in_file
               HT HR Hfuel _ _ _ Htx Hrx _ _ _ _ H).
    + intros t -> Hsum.
      exact (tbug11_verify_loop_tally fuel arg_params in_file
               HT HR Hfuel _ _ _ 0 _ _ _ _ Htx Hrx
               (tally_ok_zero _) ltac:(lia) Hsum H).
Qed.

(** A record of two bytes, of which the device holds the first only. *)
Lemma readmem_verify_whole_witness :
  1 <= serial_txbuf_size default_params /\
  1 <= serial_rxbuf_size default_params /\ (256 <= 256)%nat /\
  snd tru11_verify_run
  = Done {| total_databytes := 2; mismatch_count := 1; ignore_count := 0 |} /\
  written (snd (fst tru11_verify_run)) = [0x01; 2; 0x10; 0x00] /\
  requested (snd (fst tru11_verify_run)) = 3.
Proof.
  assert (H1 : 1 <= serial_txbuf_size default_params) by (simpl; lia).
  assert (H3 : 1 <= serial_rxbuf_size default_params) by (simpl; lia).
  assert (H4 : (256 <= 256)%nat) by lia.
  assert (Hr : snd tru11_verify_run
               = Done {| total_databytes := 2; mismatch_count := 1;
                         ignore_count := 0 |}) by (vm_compute; reflexivity).
  assert (Hrun : Tru11.readmem_verify 256 default_params
                   ["S1051000AABB85"%string] [] []
                   (Scripted [] [Ret [0x01]; Ret [0xaa; 0x00]])
                 = (fst (fst tru11_verify_run), snd (fst tru11_verify_run),
                    snd tru11_verify_run))
    by (vm_compute; reflexivity).
  repeat (split; [assumption|]).
  destruct (proj1 (readmem_verify_whole 256 default_params
                     ["S1051000AABB85"%string] [] [] _ _ _ _ H1 H3 H4) Hrun)
    as ((_ & _ & _ & Hd & _) & _).
  destruct (Hd (ex_intro _ _ Hr)) as [Hw Hq].
  split; [rewrite Hw|rewrite Hq]; vm_compute; reflexivity.
Defined.

(** ** [txrx_chunk_write] *)

Lemma in_step_app (e1 e2 : list event) :
  forall w q,
    in_step w q (e1 ++ e2)
    = in_step w q e1
      && in_step (w + Z.of_nat (length (written e1))) (q + requested e1) e2.
Proof.
  induction e1 as [|[bs rep|len rep|ms] e1 IH]; intros w q; cbn [app in_step written requested].
  - rewrite !Z.add_0_r. reflexivity.
  - rewrite IH, length_app, Nat2Z.inj_add, Z.add_assoc, andb_assoc. reflexivity.
  - rewrite IH, Z.add_assoc. reflexivity.
  - apply IH.
Qed.

Lemma in_step_reads (evs : list event) :
  forallb is_read evs = true -> forall w q, in_step w q evs = true.
Proof.
  induction evs as [|[bs rep|len rep|ms] evs IH]; intros H w q;
    cbn in *; try discriminate; auto.
Qed.

Lemma write_sizes_app (e1 e2 : list event) :
  write_sizes (e1 ++ e2) = write_sizes e1 ++ write_sizes e2.
Proof. unfold write_sizes. rewrite filter_app, map_app. reflexivity. Qed.

Lemma write_sizes_reads (evs : list event) :
  forallb is_read evs = true -> write_sizes evs = [].
Proof.
  induction evs as [|[bs rep|len rep|ms] evs IH]; intros H;
    cbn in *; try discriminate; auto.
Qed.

Lemma reads_written_nil (evs : list event) :
  forallb is_read evs = true -> written evs = [].
Proof.
  induction evs as [|[bs rep|len rep|ms] evs IH]; intros H;
    cbn in *; try discriminate; auto.
Qed.

Section WriteFacts.
Context {port : Type} {SC : serial_com port}.

(** One round of a transfer with echo: the write of a chunk, the read of
    its echo, and [next]. *)
Lemma round_in_step {A} (fuel : nat) (B c : Z) (txbuf rxbuf : list Z) (p rp : Z)
  (next : list Z -> M port A) (sizes : list Z)
  (d d' : port) (evs : list event) (r : outcome A) :
  1 <= B -> 0 <= c <= Z.of_nat fuel -> 0 <= rp ->
  rp + c <= Z.of_nat (length rxbuf) ->
  (forall rx1 d1 d2 evs2 r2, length rx1 = length rxbuf ->
     next rx1 d1 = (d2, evs2, r2) ->
     (forall w, in_step w w evs2 = true) /\
     exists rest, sizes = write_sizes evs2 ++ rest /\
                  ((exists a, r2 = Done a) -> rest = [])) ->
  bind (port_write (slice txbuf p c))
    (fun count =>
       if negb (u32 count =? c)
       then throw (APP_ERROR_TX_FAIL c (u32 count))
       else bind (rx_chunk fuel B rxbuf rp c) next) d = (d', evs, r) ->
  (forall w, in_step w w evs = true) /\
  exists rest, c :: sizes = write_sizes evs ++ rest /\
               ((exists a, r = Done a) -> rest = []).
Proof.
  intros HB Hc Hrp Hlen Hnext H.
  assert (Hsl : Z.of_nat (length (slice txbuf p c)) = c)
    by (rewrite length_slice; lia).
  assert (Hone : forall rep (r0 : outcome A), (forall a, r0 <> Done a) ->
            (forall w, in_step w w [EvWrite (slice txbuf p c) rep] = true) /\
            exists rest, c :: sizes
                         = write_sizes [EvWrite (slice txbuf p c) rep] ++ rest /\
                         ((exists a, r0 = Done a) -> rest = [])).
  { intros rep r0 Hr0. split.
    - intros w. cbn. rewrite Z.eqb_refl. reflexivity.
    - exists sizes. split; [cbn; rewrite Hsl; reflexivity|].
      intros [a Ha]. destruct (Hr0 a Ha). }
  apply bind_inv in H.
  destruct H as [(d1 & e1 & x & e2 & H1 & H & ->)|[(e & H1 & ->)|[H1 ->]]];
    apply port_write_inv in H1; destruct H1 as (rep & -> & Hx);
    try (apply Hone; discriminate).
  destruct (negb (u32 x =? c)).
  { inversion H; subst. rewrite app_nil_r. apply Hone. discriminate. }
  assert (Hrx : forall d2 e3 r3 (r0 : outcome A),
            rx_chunk fuel B rxbuf rp c d1 = (d2, e3, r3) ->
            (forall a, r0 <> Done a) ->
            (forall w, in_step w w ([EvWrite (slice txbuf p c) rep] ++ e3) = true) /\
            exists rest, c :: sizes
              = write_sizes ([EvWrite (slice txbuf p c) rep] ++ e3) ++ rest /\
              ((exists a, r0 = Done a) -> rest = [])).
  { intros d2 e3 r3 r0 H3 Hr0.
    destruct (rx_chunk_run fuel B HB rxbuf rp c d1 d2 e3 r3 Hc Hrp Hlen H3)
      as (Hreads & _).
    split.
    - intros w. cbn [app in_step]. rewrite Z.eqb_refl.
      apply in_step_reads. exact Hreads.
    - exists sizes. split.
      + rewrite write_sizes_app, (write_sizes_reads e3 Hreads).
        cbn. rewrite Hsl. reflexivity.
      + intros [a Ha]. destruct (Hr0 a Ha). }
  apply bind_inv in H.
  destruct H as [(d2 & e3 & rx1 & e4 & H3 & H & ->)|[(e & H3 & ->)|[H3 ->]]].
  - destruct (rx_chunk_run fuel B HB rxbuf rp c d1 d2 e3 (Done rx1) Hc Hrp Hlen H3)
      as (Hreads & _ & _ & Hd & _).
    destruct (Hd rx1 eq_refl) as (_ & Hq & _ & Hl1 & _).
    destruct (Hnext _ _ _ _ _ Hl1 H) as (Hin & rest & Hs & Hd0).
    split.
    + intros w. cbn [app in_step]. rewrite Z.eqb_refl. cbn [andb].
      rewrite in_step_app, (in_step_reads e3 Hreads).
      rewrite (reads_written_nil e3 Hreads), Hq, Hsl. cbn [length andb].
      rewrite Z.add_0_r. apply Hin.
    + exists rest. split; [|exact Hd0].
      rewrite !write_sizes_app, (write_sizes_reads e3 Hreads), Hs.
      cbn. rewrite Hsl. reflexivity.
  - apply (Hrx _ _ _ _ H3). discriminate.
  - apply (Hrx _ _ _ _ H3). discriminate.
Qed.


Lemma chunk_sizes_step (fuel : nat) (N B c : Z) :
  N <> 0 -> 0 <= N -> c = (if N >? B then B else N) ->
  chunk_sizes (S fuel) N B = c :: chunk_sizes fuel (N - c) B.
Proof.
  intros H0 HN ->. cbn [chunk_sizes].
  destruct (Z.leb_spec N 0); [lia|]. reflexivity.
Qed.

Lemma chunk_sizes_zero (fuel : nat) (B : Z) : chunk_sizes fuel 0 B = [].
Proof. destruct fuel; reflexivity. Qed.

Lemma txrx_chunk_write_steps (arg_params : cl_my_params) (txbuf : list Z)
  (arg_is_prog : bool) (fuel : nat) :
  1 <= serial_txbuf_size arg_params -> 1 <= serial_prog_txbuf_size arg_params ->
  1 <= serial_rxbuf_size arg_params ->
  forall (rxbuf : list Z) (p rp N : Z) (d d' : port) (evs : list event)
         (r : outcome (list Z)),
    0 <= N <= Z.of_nat fuel -> 0 <= rp -> rp + N <= Z.of_nat (length rxbuf) ->
    Tru11.txrx_chunk_write fuel arg_params txbuf p rxbuf rp N arg_is_prog d
    = (d', evs, r) ->
    (forall w, in_step w w evs = true) /\
    exists rest,
      chunk_sizes fuel N (if arg_is_prog then serial_prog_txbuf_size arg_params
                          else serial_txbuf_size arg_params)
      = write_sizes evs ++ rest /\
      ((exists a, r = Done a) -> rest = []).
Proof.
  intros HT HP HR.
  set (B := if arg_is_prog then serial_prog_txbuf_size arg_params
            else serial_txbuf_size arg_params).
  assert (HB : 1 <= B) by (subst B; destruct arg_is_prog; assumption).
  induction fuel as [|fuel IH]; intros rxbuf p rp N d d' evs r HN Hrp Hlen H.
  - assert (N = 0) by lia. subst N. cbn in H. inversion H; subst.
    split; [reflexivity|]. exists []. split; reflexivity.
  - cbn [Tru11.txrx_chunk_write] in H. destruct (Z.eqb_spec N 0) as [->|HN0].
    + inversion H; subst. split; [reflexivity|]. exists [].
      split; reflexivity.
    + assert (Ec : (if arg_is_prog
                    then if N >? serial_prog_txbuf_size arg_params
                         then serial_prog_txbuf_size arg_params else N
                    else if N >? serial_txbuf_size arg_params
                         then serial_txbuf_size arg_params else N)
                   = (if N >? B then B else N))
        by (subst B; destruct arg_is_prog; reflexivity).
      rewrite Ec in H.
      pose proof (chunklen_range N B HB ltac:(lia)) as Hc.
      rewrite (chunk_sizes_step fuel N B _ HN0 ltac:(lia) eq_refl).
      set (c := if N >? B then B else N) in *. clearbody c.
      refine (round_in_step (S fuel) (serial_rxbuf_size arg_params) c txbuf rxbuf
                p rp _ (chunk_sizes fuel (N - c) B) d d' evs r HR
                ltac:(lia) Hrp ltac:(lia) _ H).
      intros rx1 d1 d2 evs2 r2 Hl1 H2.
      apply IH in H2; [exact H2|lia|lia|lia].
Qed.

Lemma txrx_chunk_write_errors (arg_params : cl_my_params) (txbuf : list Z)
  (arg_is_prog : bool) (fuel : nat) :
  forall (rxbuf : list Z) (p rp N : Z) (d d' : port) (evs : list event)
         (a b : Z),
    Tru11.txrx_chunk_write fuel arg_params txbuf p rxbuf rp N arg_is_prog d
    <> (d', evs, Throw (APP_ERROR_ECHO a b)).
Proof.
  assert (Hrx : forall fuel B rxbuf rp N d d' evs a b,
            rx_chunk fuel B rxbuf rp N d <> (d', evs, Throw (APP_ERROR_ECHO a b))).
  { clear. induction fuel as [|fuel IH]; intros B rxbuf rp N d d' evs a b H.
    - cbn in H. destruct (N =? 0); discriminate.
    - cbn [rx_chunk] in H. destruct (N =? 0); [discriminate|].
      apply bind_inv in H.
      destruct H as [(d1 & e1 & x & e2 & H1 & H & ->)|[(e & H1 & E)|[H1 E]]].
      + destruct (negb _); [discriminate|]. exact (IH _ _ _ _ _ _ _ _ _ H).
      + apply port_read_inv in H1. destruct H1 as (rep & _ & H1).
        destruct rep; [discriminate|]. congruence.
      + discriminate. }
  induction fuel as [|fuel IH]; intros rxbuf p rp N d d' evs a b H.
  - cbn in H. destruct (N =? 0); discriminate.
  - cbn [Tru11.txrx_chunk_write] in H. destruct (N =? 0); [discriminate|].
    apply bind_inv in H.
    destruct H as [(d1 & e1 & x & e2 & H1 & H & ->)|[(e & H1 & E)|[H1 E]]].
    + destruct (negb _); [discriminate|].
      apply bind_inv in H.
      destruct H as [(d2 & e3 & rx1 & e4 & H3 & H & ->)|[(e & H3 & E)|[H3 E]]].
      * exact (IH _ _ _ _ _ _ _ _ _ H).
      * inversion E; subst e. exact (Hrx _ _ _ _ _ _ _ _ _ _ H3).
      * discriminate.
    + apply port_write_inv in H1. destruct H1 as (rep & _ & H1).
      destruct rep; [discriminate|]. congruence.
    + discriminate.
Qed.

Lemma txrx_chunk_write_done (arg_params : cl_my_params) (txbuf : list Z)
  (arg_is_prog : bool) (fuel : nat) :
  1 <= serial_txbuf_size arg_params -> 1 <= serial_prog_txbuf_size arg_params ->
  1 <= serial_rxbuf_size arg_params ->
  forall (rxbuf : list Z) (p rp N : Z) (d d' : port) (evs : list event)
         (rxbuf' : list Z),
    0 <= N <= Z.of_nat fuel -> 0 <= rp -> rp + N <= Z.of_nat (length rxbuf) ->
    Tru11.txrx_chunk_write fuel arg_params txbuf p rxbuf rp N arg_is_prog d
    = (d', evs, Done rxbuf') ->
    Z.of_nat (length (received evs)) = N /\
    rxbuf' = store rxbuf rp (received evs).
Proof.
  intros HT HP HR. induction fuel as [|fuel IH];
    intros rxbuf p rp N d d' evs rxbuf' HN Hrp Hlen H.
  - assert (N = 0) by lia. subst N. cbn in H. inversion H; subst.
    cbn [received length]. split; [reflexivity|]. symmetry. apply store_nil. lia.
  - cbn [Tru11.txrx_chunk_write] in H. destruct (Z.eqb_spec N 0) as [->|HN0].
    + inversion H; subst. cbn [received length]. split; [reflexivity|].
      symmetry. apply store_nil. lia.
    + set (c := if arg_is_prog
                then if N >? serial_prog_txbuf_size arg_params
                     then serial_prog_txbuf_size arg_params else N
                else if N >? serial_txbuf_size arg_params
                     then serial_txbuf_size arg_params else N) in *.
      assert (Hc : 1 <= c <= N).
      { subst c. destruct arg_is_prog.
        - pose proof (chunklen_range N _ HP ltac:(lia)). lia.
        - pose proof (chunklen_range N _ HT ltac:(lia)). lia. }
      clearbody c.
      apply bind_done in H. destruct H as (d1 & e1 & x & e2 & H1 & H & ->).
      apply port_write_inv in H1. destruct H1 as (rep & -> & _).
      destruct (negb (u32 x =? c)); [discriminate|].
      apply bind_done in H. destruct H as (d2 & e3 & rx1 & e4 & H3 & H & ->).
      destruct (rx_chunk_received (serial_rxbuf_size arg_params) (S fuel) rxbuf rp c
                  d1 d2 e3 rx1 HR ltac:(lia) Hrp ltac:(lia) H3)
        as (Hl1 & Hst1).
      assert (Hlen1 : length rx1 = length rxbuf).
      { eapply rx_chunk_length; [| | | |exact H3]; lia. }
      apply IH in H; [|lia|lia|lia]. destruct H as (Hl2 & Hst2).
      cbn [app received]. rewrite received_app, length_app.
      split; [lia|].
      rewrite Hst2, Hst1, <- Hl1. apply store_store; lia.
Qed.


Lemma lift_next_steps {A} (o : outcome unit) (next : M port A)
  (sizes : list Z) (d1 d2 : port) (evs2 : list event) (r2 : outcome A) :
  (forall d d' evs r, next d = (d', evs, r) ->
     (forall w, in_step w w evs = true) /\
     exists rest, sizes = write_sizes evs ++ rest /\
                  ((exists a, r = Done a) -> rest = [])) ->
  bind (lift o) (fun _ => next) d1 = (d2, evs2, r2) ->
  (forall w, in_step w w evs2 = true) /\
  exists rest, sizes = write_sizes evs2 ++ rest /\
               ((exists a, r2 = Done a) -> rest = []).
Proof.
  intros Hnext H. destruct o as [[]|e|].
  - rewrite bind_lift_done in H. exact (Hnext _ _ _ _ H).
  - inversion H; subst. split; [reflexivity|]. exists sizes.
    split; [reflexivity|]. intros [a Ha]. discriminate.
  - inversion H; subst. split; [reflexivity|]. exists sizes.
    split; [reflexivity|]. intros [a Ha]. discriminate.
Qed.

Lemma tbug11_txrx_chunk_steps (arg_params : cl_my_params) (txbuf : list Z)
  (policy : TBug11.talker_echo_e) (fuel : nat) :
  1 <= serial_txbuf_size arg_params -> 1 <= serial_rxbuf_size arg_params ->
  forall (rxbuf : list Z) (p rp N : Z) (d d' : port) (evs : list event)
         (r : outcome (list Z)),
    0 <= N <= Z.of_nat fuel -> 0 <= rp -> rp + N <= Z.of_nat (length rxbuf) ->
    TBug11.txrx_chunk fuel arg_params txbuf p rxbuf rp N policy d = (d', evs, r) ->
    (forall w, in_step w w evs = true) /\
    exists rest,
      chunk_sizes fuel N (serial_txbuf_size arg_params) = write_sizes evs ++ rest /\
      ((exists a, r = Done a) -> rest = []).
Proof.
  intros HT HR.
  induction fuel as [|fuel IH]; intros rxbuf p rp N d d' evs r HN Hrp Hlen H.
  - assert (N = 0) by lia. subst N. cbn in H. inversion H; subst.
    split; [reflexivity|]. exists []. split; reflexivity.
  - cbn [TBug11.txrx_chunk] in H. destruct (Z.eqb_spec N 0) as [->|HN0].
    + inversion H; subst. split; [reflexivity|]. exists [].
      split; reflexivity.
    + pose proof (chunklen_range N _ HT ltac:(lia)) as Hc.
      rewrite (chunk_sizes_step fuel N _ _ HN0 ltac:(lia) eq_refl).
      set (c := if N >? serial_txbuf_size arg_params
                then serial_txbuf_size arg_params else N) in *. clearbody c.
      refine (round_in_step (S fuel) (serial_rxbuf_size arg_params) c txbuf rxbuf
                p rp _ (chunk_sizes fuel (N - c) (serial_txbuf_size arg_params))
                d d' evs r HR ltac:(lia) Hrp ltac:(lia) _ H).
      intros rx1 d1 d2 evs2 r2 Hl1 H2.
      refine (lift_next_steps _ _ _ _ _ _ _ _ H2).
      intros d3 d4 evs3 r3 H3.
      apply IH in H3; [exact H3|lia|lia|lia].
Qed.

Lemma tru11_txrx_chunk_steps (arg_params : cl_my_params) (txbuf : list Z)
  (arg_verify_echo : bool) (fuel : nat) :
  1 <= serial_txbuf_size arg_params -> 1 <= serial_rxbuf_size arg_params ->
  forall (rxbuf : list Z) (p rp N : Z) (d d' : port) (evs : list event)
         (r : outcome (list Z)),
    0 <= N <= Z.of_nat fuel -> 0 <= rp -> rp + N <= Z.of_nat (length rxbuf) ->
    Tru11.txrx_chunk fuel arg_params txbuf p rxbuf rp N arg_verify_echo d
    = (d', evs, r) ->
    (forall w, in_step w w evs = true) /\
    exists rest,
      chunk_sizes fuel N (serial_txbuf_size arg_params) = write_sizes evs ++ rest /\
      ((exists a, r = Done a) -> rest = []).
Proof.
  intros HT HR.
  induction fuel as [|fuel IH]; intros rxbuf p rp N d d' evs r HN Hrp Hlen H.
  - assert (N = 0) by lia. subst N. cbn in H. inversion H; subst.
    split; [reflexivity|]. exists []. split; reflexivity.
  - cbn [Tru11.txrx_chunk] in H. destruct (Z.eqb_spec N 0) as [->|HN0].
    + inversion H; subst. split; [reflexivity|]. exists [].
      split; reflexivity.
    + pose proof (chunklen_range N _ HT ltac:(lia)) as Hc.
      rewrite (chunk_sizes_step fuel N _ _ HN0 ltac:(lia) eq_refl).
      set (c := if N >? serial_txbuf_size arg_params
                then serial_txbuf_size arg_params else N) in *. clearbody c.
      refine (round_in_step (S fuel) (serial_rxbuf_size arg_params) c txbuf rxbuf
                p rp _ (chunk_sizes fuel (N - c) (serial_txbuf_size arg_params))
                d d' evs r HR ltac:(lia) Hrp ltac:(lia) _ H).
      intros rx1 d1 d2 evs2 r2 Hl1 H2.
      refine (lift_next_steps _ _ _ _ _ _ _ _ H2).
      intros d3 d4 evs3 r3 H3.
      apply IH in H3; [exact H3|lia|lia|lia].
Qed.

End WriteFacts.

(** X10.  The transfers with echo go chunk by chunk.  In a run of
    [txrx_chunk_write] of tru11 and of [txrx_chunk] of both programs, at
    every write the echo of all bytes written before has been asked for.
    The writes of [txrx_chunk_write] have the sizes of the chunks of
    [serial_prog_txbuf_size] when it programs and of [serial_txbuf_size]
    otherwise, those of [txrx_chunk] the sizes of the chunks of
    [serial_txbuf_size]: a prefix of them, and all of them on return.
    [txrx_chunk_write] writes a prefix of its bytes, never fails for an
    echo that differs, and on return the receive buffer holds the bytes
    received at the offset. *)
Theorem transfers_in_step {port : Type} {SC : serial_com port}
  (fuel : nat) (arg_params : cl_my_params) (txbuf rxbuf : list Z) (p rp N : Z)
  (d d' : port) (evs : list event) (r : outcome (list Z)) :
  1 <= serial_txbuf_size arg_params -> 1 <= serial_prog_txbuf_size arg_params ->
  1 <= serial_rxbuf_size arg_params ->
  0 <= N <= Z.of_nat fuel -> 0 <= rp -> rp + N <= Z.of_nat (length rxbuf) ->
  let steps B :=
    in_step 0 0 evs = true /\
    (exists rest, chunk_sizes fuel N B = write_sizes evs ++ rest) /\
    ((exists rxbuf', r = Done rxbuf') -> write_sizes evs = chunk_sizes fuel N B) in
  (forall arg_is_prog,
     Tru11.txrx_chunk_write fuel arg_params txbuf p rxbuf rp N arg_is_prog d
     = (d', evs, r) ->
     steps (if arg_is_prog then serial_prog_txbuf_size arg_params
            else serial_txbuf_size arg_params) /\
     moves (slice txbuf p N) N evs r /\
     (forall a b, r <> Throw (APP_ERROR_ECHO a b)) /\
     (forall rxbuf', r = Done rxbuf' -> rxbuf' = store rxbuf rp (received evs))) /\
  (forall arg_verify_echo,
     Tru11.txrx_chunk fuel arg_params txbuf p rxbuf rp N arg_verify_echo d
     = (d', evs, r) -> steps (serial_txbuf_size arg_params)) /\
  (forall policy,
     TBug11.txrx_chunk fuel arg_params txbuf p rxbuf rp N policy d = (d', evs, r) ->
     steps (serial_txbuf_size arg_params)).
Proof.
  intros HT HP HR HN Hrp Hlen steps. subst steps. cbv beta.
  assert (Hsteps : forall B,
            ((forall w, in_step w w evs = true) /\
             exists rest, chunk_sizes fuel N B = write_sizes evs ++ rest /\
                          ((exists a, r = Done a) -> rest = [])) ->
            in_step 0 0 evs = true /\
            (exists rest, chunk_sizes fuel N B = write_sizes evs ++ rest) /\
            ((exists rxbuf', r = Done rxbuf') ->
             write_sizes evs = chunk_sizes fuel N B)).
  { intros B (Hin & rest & Hs & Hd). split; [apply Hin|].
    split; [exists rest; exact Hs|].
    intros Hr. rewrite Hs, (Hd Hr), app_nil_r. reflexivity. }
  split; [|split].
  - intros arg_is_prog H. split; [|split; [|split]].
    + apply Hsteps.
      exact (txrx_chunk_write_steps arg_params txbuf arg_is_prog fuel HT HP HR
               rxbuf p rp N d d' evs r HN Hrp Hlen H).
    + exact (Moves_tru11_txrx_chunk_write arg_params txbuf arg_is_prog fuel
               HT HP HR rxbuf p rp N HN Hrp Hlen _ _ _ _ H).
    + intros a b E. rewrite E in H.
      exact (txrx_chunk_write_errors arg_params txbuf arg_is_prog fuel
               rxbuf p rp N d d' evs a b H).
    + intros rxbuf' E. rewrite E in H.
      exact (proj2 (txrx_chunk_write_done arg_params txbuf arg_is_prog fuel
                      HT HP HR rxbuf p rp N d d' evs rxbuf' HN Hrp Hlen H)).
  - intros b H. apply Hsteps.
    exact (tru11_txrx_chunk_steps arg_params txbuf b fuel HT HR
             rxbuf p rp N d d' evs r HN Hrp Hlen H).
  - intros policy H. apply Hsteps.
    exact (tbug11_txrx_chunk_steps arg_params txbuf policy fuel HT HR
             rxbuf p rp N d d' evs r HN Hrp Hlen H).
Qed.

(** Five bytes in programming chunks of two: the writes have the sizes 2,
    2 and 1, each followed by the read of its echo. *)
Lemma transfers_in_step_witness :
  1 <= serial_txbuf_size default_params /\
  1 <= serial_prog_txbuf_size default_params /\
  1 <= serial_rxbuf_size default_params /\
  0 <= 5 <= Z.of_nat 5 /\ 0 <= 0 /\ 0 + 5 <= Z.of_nat (length [0; 0; 0; 0; 0]) /\
  prog_write_run
  = (Scripted [] [],
     [EvWrite [1; 2] (Ret 2); EvRead 2 (Ret [1; 2]);
      EvWrite [3; 4] (Ret 2); EvRead 2 (Ret [3; 4]);
      EvWrite [5] (Ret 1); EvRead 1 (Ret [5])],
     Done [1; 2; 3; 4; 5]) /\
  in_step 0 0 (snd (fst prog_write_run)) = true /\
  write_sizes (snd (fst prog_write_run)) = [2; 2; 1].
Proof.
  assert (H1 : 1 <= serial_txbuf_size default_params) by (simpl; lia).
  assert (H2 : 1 <= serial_prog_txbuf_size default_params) by (simpl; lia).
  assert (H3 : 1 <= serial_rxbuf_size default_params) by (simpl; lia).
  assert (H4 : 0 <= 5 <= Z.of_nat 5) by (simpl; lia).
  assert (H5 : 0 <= 0) by lia.
  assert (H6 : 0 + 5 <= Z.of_nat (length [0; 0; 0; 0; 0])) by (simpl; lia).
  assert (Hrun : prog_write_run
                 = (Scripted [] [],
                    [EvWrite [1; 2] (Ret 2); EvRead 2 (Ret [1; 2]);
                     EvWrite [3; 4] (Ret 2); EvRead 2 (Ret [3; 4]);
                     EvWrite [5] (Ret 1); EvRead 1 (Ret [5])],
                    Done [1; 2; 3; 4; 5])) by (vm_compute; reflexivity).
  repeat (split; [assumption|]).
  destruct (proj1 (transfers_in_step 5 default_params [1; 2; 3; 4; 5]
                     [0; 0; 0; 0; 0] 0 0 5 _ _ _ _ H1 H2 H3 H4 H5 H6)
              true Hrun) as ((Hin & _ & Hd) & _).
  rewrite Hrun. cbn [fst snd]. split; [exact Hin|].
  rewrite (Hd (ex_intro _ _ eq_refl)). vm_compute. reflexivity.
Defined.

(** ** The commands of [readmem] *)

Lemma u16_add_l (x y : Z) : u16 (u16 x + y) = u16 (x + y).
Proof. unfold u16. Z.to_euclidean_division_equations; lia. Qed.

Lemma readmem_data_loop_addr (n : nat) :
  forall (arg_params : cl_my_params) (rxbuf : list Z) (e : srec_writer)
         (addr rxbuf_p : Z),
    snd (fst (Tru11.readmem_data_loop (S n) arg_params rxbuf e addr rxbuf_p))
    = u16 (addr + Z.of_nat (S n)).
Proof.
  induction n as [|n IH]; intros arg_params rxbuf e addr rxbuf_p.
  - reflexivity.
  - change (Tru11.readmem_data_loop (S (S n)) arg_params rxbuf e addr rxbuf_p)
      with (Tru11.readmem_data_loop (S n) arg_params rxbuf
              (if size (full_file_name arg_params) >? 0
               then srec_byte arg_params addr (peek rxbuf rxbuf_p) e else e)
              (u16 (addr + 1)) (rxbuf_p + 1)).
    rewrite IH, u16_add_l. f_equal. lia.
Qed.

Lemma read_rounds_step (remaining : Z) :
  1 <= remaining ->
  read_rounds remaining = 1 + read_rounds (remaining - Z.min remaining 256).
Proof.
  intros H. unfold read_rounds. destruct (Z.le_gt_cases remaining 256).
  - rewrite Z.min_l by lia. replace (remaining - remaining + 255) with 255 by lia.
    change (255 / 256) with 0.
    assert (1 <= (remaining + 255) / 256) by (apply Z.div_le_lower_bound; lia).
    assert ((remaining + 255) / 256 < 2) by (apply Z.div_lt_upper_bound; lia).
    lia.
  - rewrite Z.min_r by lia.
    replace (remaining + 255) with (remaining - 256 + 255 + 1 * 256) by lia.
    rewrite Z.div_add by lia. lia.
Qed.

Lemma read_rounds_nonneg (remaining : Z) :
  0 <= remaining -> 0 <= read_rounds remaining.
Proof. intros H. unfold read_rounds. apply Z.div_pos; lia. Qed.

Section ReadFacts.
Context {port : Type} {SC : serial_com port}.

Lemma Moves_tru11_readmem_loop (arg_params : cl_my_params) (fuel : nat) :
  1 <= serial_txbuf_size arg_params -> 1 <= serial_rxbuf_size arg_params ->
  forall (e : srec_writer) (addr remaining : Z) (txbuf rxbuf : list Z),
    (3 <= length txbuf)%nat -> (256 <= length rxbuf)%nat -> 0 <= remaining ->
    read_rounds remaining + 256 <= Z.of_nat fuel ->
    Moves (Tru11.readmem_loop fuel arg_params e addr remaining txbuf rxbuf)
      (read_image fuel addr remaining)
      (read_rounds remaining + remaining).
Proof.
  intros HT HR. induction fuel as [|fuel IH];
    intros e addr remaining txbuf rxbuf Htx Hrx Hrem Hfuel.
  - exfalso. pose proof (read_rounds_nonneg remaining Hrem). lia.
  - cbn [Tru11.readmem_loop read_image].
    destruct (Z.eqb_spec remaining 0) as [->|Hne].
    + apply (Moves_ret e).
    + destruct (Z.leb_spec remaining 0) as [Hle|Hgt]; [lia|].
      rewrite min_chunk. rewrite (read_rounds_step remaining) in * by lia.
      set (c := Z.min remaining 256) in *.
      assert (Hc : 1 <= c <= 256) by (subst c; lia).
      assert (Hc' : c <= remaining) by (subst c; lia).
      clearbody c.
      pose proof (read_rounds_nonneg (remaining - c) ltac:(lia)) as Hrr.
      set (tx1 := poke txbuf 0 Tru11.TALKER_READ_CMD).
      set (tx2 := poke (poke (poke tx1 0 (u8 c)) 1
                          (u8 (Z.land (Z.shiftr addr 8) 255)))
                    2 (u8 (Z.land addr 255))).
      assert (Hl2 : length tx2 = length txbuf).
      { subst tx2 tx1. rewrite !length_poke. reflexivity. }
      set (rest := read_image fuel (u16 (addr + c)) (remaining - c)).
      eapply Moves_eq.
      * apply (Moves_bind_post (fun rx1 => length rx1 = length rxbuf) _ _
                 (slice tx1 0 1) (slice tx2 0 3 ++ [] ++ rest)
                 1 (0 + (c + (read_rounds (remaining - c) + (remaining - c)))));
          [lia| | |].
        -- apply Moves_tru11_txrx_chunk; try assumption; lia.
        -- intros d d' evs rx1 H.
           apply tru11_txrx_chunk_length in H; try assumption; lia.
        -- intros rx1 Hrx1.
           apply (Moves_bind _ _ (slice tx2 0 3) ([] ++ rest) 0
                    (c + (read_rounds (remaining - c) + (remaining - c))));
             [lia|apply Moves_tx_chunk; [assumption|lia]|].
           intros _.
           apply (Moves_bind_post (fun rx2 => length rx2 = length rxbuf) _ _
                    [] rest c (read_rounds (remaining - c) + (remaining - c)));
             [lia| | |].
           ++ apply Moves_rx_chunk; try assumption; lia.
           ++ intros d d' evs rx2 H.
              apply rx_chunk_length in H; try assumption; lia.
           ++ intros rx2 Hrx2.
              pose proof (readmem_data_loop_addr (Z.to_nat c - 1) arg_params rx2
                            e addr 0) as Ha.
              replace (S (Z.to_nat c - 1)) with (Z.to_nat c) in Ha by lia.
              rewrite Z2Nat.id in Ha by lia.
              destruct (Tru11.readmem_data_loop _ _ _ _ _ _) as [[e1 addr1] p1].
              cbn [fst snd] in Ha. subst addr1. subst rest.
              apply IH; lia.
      * subst tx1. rewrite command_slice by lia.
        unfold tx2. rewrite params_slice_3 by (rewrite length_poke; lia).
        reflexivity.
      * lia.
Qed.

End ReadFacts.

(** X11.  [readmem] of tru11 for the range from [from_addr] to [to_addr]
    reads [N = (to_addr - from_addr + 1) mod 2^32] bytes in rounds of 256
    bytes at most: for each round it writes the read command, the count of
    the round as one byte (0 for 256) and the address of the round, which
    is the start address plus the bytes of the rounds before, modulo 2^16,
    and asks for the echo of the command and for the bytes of the round.
    What is written is a prefix of that image and all of it on return.  A
    range whose end is below its start is not rejected: it stands for
    nearly 2^32 bytes. *)
Theorem tru11_readmem_commands {port : Type} {SC : serial_com port}
  (fuel : nat) (arg_params : cl_my_params) (tx0 rx0 : list Z)
  (d d' : port) (evs : list event) (r : outcome (list string)) :
  1 <= serial_txbuf_size arg_params -> 1 <= serial_rxbuf_size arg_params ->
  let N := u32 (to_addr arg_params - from_addr arg_params + 1) in
  read_rounds N + 256 <= Z.of_nat fuel ->
  Tru11.readmem fuel arg_params tx0 rx0 d = (d', evs, r) ->
  moves (read_image fuel (u16 (from_addr arg_params)) N) (read_rounds N + N)
    evs r /\
  (0 <= from_addr arg_params <= to_addr arg_params ->
   to_addr arg_params - from_addr arg_params + 1 < 4294967296 ->
   N = to_addr arg_params - from_addr arg_params + 1) /\
  (0 <= to_addr arg_params -> from_addr arg_params < 4294967296 ->
   to_addr arg_params + 1 < from_addr arg_params ->
   N = 4294967296 - (from_addr arg_params - to_addr arg_params - 1)).
Proof.
  intros HT HR N Hfuel H.
  assert (HN : 0 <= N < 4294967296) by (apply Z.mod_pos_bound; lia).
  split; [|split].
  - unfold Tru11.readmem in H. cbv zeta in H. fold N in H.
    pose proof (alloc_size tx0 (serial_txbuf_size arg_params)) as Htx.
    pose proof (alloc_size rx0 (serial_rxbuf_size arg_params)) as Hrx.
    revert d d' evs r H.
    eapply Moves_eq.
    + apply (Moves_bind _ _ (read_image fuel (u16 (from_addr arg_params)) N) []
               (read_rounds N + N) 0); [lia| |].
      * apply Moves_tru11_readmem_loop; try assumption; lia.
      * intros e. apply Moves_ret.
    + apply app_nil_r.
    + lia.
  - intros H1 H2. unfold N. apply u32_small. lia.
  - intros H1 H2 H3. unfold N, u32.
    replace (to_addr arg_params - from_addr arg_params + 1)
      with (4294967296 - (from_addr arg_params - to_addr arg_params - 1)
            + (-1) * 4294967296) by lia.
    rewrite Z.mod_add by lia. apply Z.mod_small. lia.
Qed.

(** Reading 0x00FF to 0x0200: a round of 256 bytes at 0x00FF, with the count
    byte 0, and a round of 2 bytes at 0x01FF. *)
Lemma tru11_readmem_commands_witness :
  1 <= serial_txbuf_size (read_params 0x00ff 0x0200 "") /\
  1 <= serial_rxbuf_size (read_params 0x00ff 0x0200 "") /\
  read_rounds (u32 (0x0200 - 0x00ff + 1)) + 256 <= Z.of_nat 258 /\
  snd read_two_rounds = Done [("S0030000FC" ++ CRLF)%string] /\
  written (snd (fst read_two_rounds))
  = [0x01; 0; 0x00; 0xff; 0x01; 2; 0x01; 0xff] /\
  requested (snd (fst read_two_rounds)) = 260.
Proof.
  assert (H1 : 1 <= serial_txbuf_size (read_params 0x00ff 0x0200 ""))
    by (simpl; lia).
  assert (H2 : 1 <= serial_rxbuf_size (read_params 0x00ff 0x0200 ""))
    by (simpl; lia).
  assert (H3 : read_rounds (u32 (0x0200 - 0x00ff + 1)) + 256 <= Z.of_nat 258)
    by (vm_compute; discriminate).
  assert (Hr : snd read_two_rounds = Done [("S0030000FC" ++ CRLF)%string])
    by (vm_compute; reflexivity).
  assert (Hrun : Tru11.readmem 258 (read_params 0x00ff 0x0200 "") [] []
                   (Scripted [] [Ret [0x01]; Ret (repeat 0 256); Ret [0x01];
                                 Ret [0; 0]])
                 = (fst (fst read_two_rounds), snd (fst read_two_rounds),
                    snd read_two_rounds))
    by (vm_compute; reflexivity).
  repeat (split; [assumption|]).
  destruct (tru11_readmem_commands 258 (read_params 0x00ff 0x0200 "") [] []
              _ _ _ _ H1 H2 H3 Hrun) as ((_ & _ & _ & Hd & _) & _).
  destruct (Hd (ex_intro _ _ Hr)) as [Hw Hq].
  split; [rewrite Hw|rewrite Hq]; vm_compute; reflexivity.
Defined.

(** ** The exceptions of the operations *)

Lemma verify_echo_throws (tx : list Z) (tp : Z) (rx : list Z) (rp len : Z)
  (e : tru_exception) :
  verify_echo tx tp rx rp len = Throw e -> is_tru_exception e = true.
Proof.
  intros H. destruct (verify_echo_cases tx tp rx rp len)
    as [[E _]|(j & _ & _ & _ & E)]; rewrite E in H; inversion H; reflexivity.
Qed.

Lemma verify_echo_com_throws (tx : list Z) (tp : Z) (rx : list Z) (rp len : Z)
  (e : tru_exception) :
  TBug11.verify_echo_com tx tp rx rp len = Throw e -> is_tru_exception e = true.
Proof.
  intros H. destruct (verify_echo_com_cases tx tp rx rp len)
    as [[E _]|(j & _ & _ & _ & E)]; rewrite E in H; inversion H; reflexivity.
Qed.

Section CatchFacts.
Context {port : Type} {SC : serial_com port}.

Lemma Catchable_ret {A} (a : A) : Catchable (ret a : M port A).
Proof. intros d d' evs e H. inversion H. Qed.

Lemma Catchable_throw {A} (e : tru_exception) :
  is_tru_exception e = true -> Catchable (throw e : M port A).
Proof. intros He d d' evs e' H. inversion H; subst. exact He. Qed.

Lemma Catchable_lift {A} (o : outcome A) :
  (forall e, o = Throw e -> is_tru_exception e = true) ->
  Catchable (lift o : M port A).
Proof. intros Ho d d' evs e H. inversion H; subst. apply Ho. reflexivity. Qed.

Lemma Catchable_bind {A B} (m : M port A) (k : A -> M port B) :
  Catchable m -> (forall a, Catchable (k a)) -> Catchable (bind m k).
Proof.
  intros Hm Hk d d' evs e H. apply bind_inv in H.
  destruct H as [(d1 & e1 & a & e2 & _ & H & _)|[(e0 & H & E)|[_ E]]].
  - exact (Hk a _ _ _ _ H).
  - inversion E; subst. exact (Hm _ _ _ _ H).
  - discriminate.
Qed.

Lemma Catchable_port_write (bs : list Z) : Catchable (port_write bs).
Proof.
  intros d d' evs e H. apply port_write_inv in H.
  destruct H as ([n|c] & _ & H); inversion H; reflexivity.
Qed.

Lemma Catchable_port_read (len : Z) : Catchable (port_read len).
Proof.
  intros d d' evs e H. apply port_read_inv in H.
  destruct H as ([n|c] & _ & H); inversion H; reflexivity.
Qed.

Lemma Catchable_out_of_fuel {A} : Catchable (out_of_fuel : M port A).
Proof. intros d d' evs e H. inversion H. Qed.

Lemma Catchable_sleep (ms : Z) : Catchable (sleep ms : M port unit).
Proof. intros d d' evs e H. inversion H. Qed.

Lemma Catchable_tx_chunk (fuel : nat) (B : Z) (txbuf : list Z) :
  forall p N, Catchable (tx_chunk fuel B txbuf p N).
Proof.
  induction fuel as [|fuel IH]; intros p N; cbn [tx_chunk];
    destruct (N =? 0); try apply Catchable_ret; try apply Catchable_out_of_fuel.
  apply Catchable_bind; [apply Catchable_port_write|]. intros x.
  destruct (negb _); [now apply Catchable_throw|apply IH].
Qed.

Lemma Catchable_rx_chunk (fuel : nat) (B : Z) :
  forall rxbuf p N, Catchable (rx_chunk fuel B rxbuf p N).
Proof.
  induction fuel as [|fuel IH]; intros rxbuf p N; cbn [rx_chunk];
    destruct (N =? 0); try apply Catchable_ret; try apply Catchable_out_of_fuel.
  apply Catchable_bind; [apply Catchable_port_read|]. intros x.
  destruct (negb _); [now apply Catchable_throw|apply IH].
Qed.

Lemma Catchable_tbug11_txrx_chunk (fuel : nat) (arg_params : cl_my_params)
  (txbuf : list Z) (policy : TBug11.talker_echo_e) :
  forall p rxbuf rp N,
    Catchable (TBug11.txrx_chunk fuel arg_params txbuf p rxbuf rp N policy).
Proof.
  induction fuel as [|fuel IH]; intros p rxbuf rp N; cbn [TBug11.txrx_chunk];
    destruct (N =? 0); try apply Catchable_ret; try apply Catchable_out_of_fuel.
  apply Catchable_bind; [apply Catchable_port_write|]. intros x.
  destruct (negb _); [now apply Catchable_throw|].
  apply Catchable_bind; [apply Catchable_rx_chunk|]. intros rx1.
  apply Catchable_bind; [|intros _; apply IH].
  apply Catchable_lift. intros e.
  destruct policy;
    first [apply verify_echo_throws|apply verify_echo_com_throws|discriminate].
Qed.

Lemma Catchable_tru11_txrx_chunk (fuel : nat) (arg_params : cl_my_params)
  (txbuf : list Z) (arg_verify_echo : bool) :
  forall p rxbuf rp N,
    Catchable (Tru11.txrx_chunk fuel arg_params txbuf p rxbuf rp N
                 arg_verify_echo).
Proof.
  induction fuel as [|fuel IH]; intros p rxbuf rp N; cbn [Tru11.txrx_chunk];
    destruct (N =? 0); try apply Catchable_ret; try apply Catchable_out_of_fuel.
  apply Catchable_bind; [apply Catchable_port_write|]. intros x.
  destruct (negb _); [now apply Catchable_throw|].
  apply Catchable_bind; [apply Catchable_rx_chunk|]. intros rx1.
  apply Catchable_bind; [|intros _; apply IH].
  apply Catchable_lift. intros e. destruct arg_verify_echo.
  - apply verify_echo_throws.
  - discriminate.
Qed.

Lemma Catchable_txrx_chunk_write (fuel : nat) (arg_params : cl_my_params)
  (txbuf : list Z) (arg_is_prog : bool) :
  forall p rxbuf rp N,
    Catchable (Tru11.txrx_chunk_write fuel arg_params txbuf p rxbuf rp N
                 arg_is_prog).
Proof.
  induction fuel as [|fuel IH]; intros p rxbuf rp N;
    cbn [Tru11.txrx_chunk_write];
    destruct (N =? 0); try apply Catchable_ret; try apply Catchable_out_of_fuel.
  apply Catchable_bind; [apply Catchable_port_write|]. intros x.
  destruct (negb _); [now apply Catchable_throw|].
  apply Catchable_bind; [apply Catchable_rx_chunk|]. intros rx1. apply IH.
Qed.

Lemma Catchable_rxtx_chunk (fuel : nat) (arg_params : cl_my_params)
  (txbuf : list Z) :
  forall rxbuf rp tp N,
    Catchable (TBug11Ops.rxtx_chunk fuel arg_params rxbuf rp txbuf tp N).
Proof.
  induction fuel as [|fuel IH]; intros rxbuf rp tp N;
    cbn [TBug11Ops.rxtx_chunk];
    destruct (N =? 0); try apply Catchable_ret; try apply Catchable_out_of_fuel.
  apply Catchable_bind; [apply Catchable_port_read|]. intros x.
  destruct (negb _); [now apply Catchable_throw|].
  apply Catchable_bind; [apply Catchable_tx_chunk|]. intros _. apply IH.
Qed.

Lemma Catchable_writemem_byte (fuel : nat) (arg_params : cl_my_params)
  (addr value : Z) :
  Catchable (TBug11.writemem_byte fuel arg_params addr value).
Proof.
  unfold TBug11.writemem_byte.
  apply Catchable_bind; [apply Catchable_tbug11_txrx_chunk|]. intros rx1.
  apply Catchable_bind; [apply Catchable_tx_chunk|]. intros _.
  apply Catchable_bind; [apply Catchable_tbug11_txrx_chunk|]. intros rx2.
  apply Catchable_ret.
Qed.

Lemma Catchable_erase_prog_delay : Catchable (TBug11.erase_prog_delay (port := port)).
Proof.
  unfold TBug11.erase_prog_delay.
  destruct (negb _); try apply Catchable_ret; try apply Catchable_sleep.
Qed.

Lemma Catchable_sequence (fuel : nat) (arg_params : cl_my_params)
  (reg c1 c2 addr byte : Z) :
  Catchable (bind (TBug11.writemem_byte fuel arg_params reg c1) (fun _ =>
             bind (TBug11.writemem_byte fuel arg_params addr byte) (fun _ =>
             bind (TBug11.writemem_byte fuel arg_params reg c2) (fun _ =>
             bind TBug11.erase_prog_delay (fun _ =>
             TBug11.writemem_byte fuel arg_params reg 0x00))))).
Proof.
  repeat (apply Catchable_bind;
          [first [apply Catchable_writemem_byte|apply Catchable_erase_prog_delay]
          |intros _]).
  apply Catchable_writemem_byte.
Qed.


Lemma Catchable_lift_done {A B} (a : A) (k : A -> M port B) :
  Catchable (k a) -> Catchable (bind (lift (Done a)) k).
Proof. intros H d d' evs e E. rewrite bind_lift_done in E. exact (H _ _ _ _ E). Qed.

Lemma Catchable_write_ee_data_loop (fuel : nat) (arg_params : cl_my_params)
  (line_str : string) (n : nat) :
  forall i srec_addr,
    0 <= i -> n = 0%nat \/ 2 * (i + Z.of_nat n) + 6 <= size line_str ->
    Catchable (TBug11.write_ee_data_loop n fuel arg_params line_str i srec_addr).
Proof.
  induction n as [|n IH]; intros i srec_addr Hi Hn;
    cbn [TBug11.write_ee_data_loop]; [apply Catchable_ret|].
  destruct Hn as [Hn|Hn]; [discriminate|].
  rewrite substr_some by lia. apply Catchable_lift_done.
  apply Catchable_bind.
  - destruct (_ =? _); apply Catchable_sequence.
  - intros _. apply Catchable_bind; [apply Catchable_sequence|]. intros _.
    apply IH; [lia|]. destruct n; [left; reflexivity|right; lia].
Qed.

Lemma Catchable_write_e_data_loop (prog : Z -> Z -> M port unit)
  (line_str : string) (n : nat) :
  (forall addr byte, Catchable (prog addr byte)) ->
  forall i srec_addr,
    0 <= i -> n = 0%nat \/ 2 * (i + Z.of_nat n) + 6 <= size line_str ->
    Catchable (TBug11Ops.write_e_data_loop prog n line_str i srec_addr).
Proof.
  intros Hprog. induction n as [|n IH]; intros i srec_addr Hi Hn;
    cbn [TBug11Ops.write_e_data_loop]; [apply Catchable_ret|].
  destruct Hn as [Hn|Hn]; [discriminate|].
  rewrite substr_some by lia. apply Catchable_lift_done.
  apply Catchable_bind; [apply Hprog|]. intros _.
  apply IH; [lia|]. destruct n; [left; reflexivity|right; lia].
Qed.

Lemma whole_line_cases (line_str : string) :
  whole_line line_str = true ->
  accepted line_str = false \/
  (size line_str >= 8 /\ is_S1 line_str = true /\
   (Z.to_nat (srec_count line_str) = 0%nat \/
    2 * (0 + Z.of_nat (Z.to_nat (srec_count line_str))) + 6 <= size line_str)).
Proof.
  unfold whole_line. intros H. pose proof (srec_count_range line_str) as Hn.
  destruct (accepted line_str) eqn:E; [right|left; reflexivity].
  unfold accepted in E. apply andb_prop in E. destruct E as [E8 ES].
  apply Z.geb_le in E8. split; [lia|]. split; [exact ES|].
  cbn [negb orb] in H. apply orb_prop in H. destruct H as [H|H].
  - apply Z.eqb_eq in H. left. rewrite H. reflexivity.
  - apply Z.leb_le in H. right. rewrite Z2Nat.id by lia. lia.
Qed.

Lemma rejected_line (line_str : string) :
  accepted line_str = false ->
  (size line_str >=? 8) = false \/
  ((size line_str >=? 8) = true /\ is_S1 line_str = false).
Proof.
  unfold accepted. destruct (size line_str >=? 8); cbn; auto.
Qed.

Lemma Catchable_write_ee_line (fuel : nat) (arg_params : cl_my_params)
  (line_str : string) :
  whole_line line_str = true ->
  Catchable (TBug11.write_ee_line fuel arg_params line_str).
Proof.
  intros H. unfold TBug11.write_ee_line.
  destruct (whole_line_cases line_str H) as [E|(Hsz & HS1 & Hn)].
  - destruct (rejected_line line_str E) as [->|[-> ->]]; apply Catchable_ret.
  - destruct (accepted_line line_str Hsz) as (E8 & E4 & E2).
    rewrite E8, HS1, E4, E2. do 2 apply Catchable_lift_done.
    apply Catchable_write_ee_data_loop; [lia|exact Hn].
Qed.

Lemma Catchable_write_ee (fuel : nat) (arg_params : cl_my_params)
  (in_file : list string) :
  forallb whole_line in_file = true ->
  Catchable (TBug11.write_ee fuel arg_params in_file).
Proof.
  induction in_file as [|l rest IH]; intros H; cbn [TBug11.write_ee];
    [apply Catchable_ret|].
  cbn in H. apply andb_prop in H. destruct H as [Hl Hrest].
  apply Catchable_bind; [now apply Catchable_write_ee_line|].
  intros _. now apply IH.
Qed.

Lemma Catchable_write_e_file (prog : Z -> Z -> M port unit)
  (in_file : list string) :
  (forall addr byte, Catchable (prog addr byte)) ->
  forallb whole_line in_file = true ->
  Catchable (TBug11Ops.write_e_file prog in_file).
Proof.
  intros Hprog.
  induction in_file as [|l rest IH]; intros H; cbn [TBug11Ops.write_e_file];
    [apply Catchable_ret|].
  cbn in H. apply andb_prop in H. destruct H as [Hl Hrest].
  apply Catchable_bind; [|intros _; now apply IH].
  unfold TBug11Ops.write_e_line.
  destruct (whole_line_cases l Hl) as [E|(Hsz & HS1 & Hn)].
  - destruct (rejected_line l E) as [->|[-> ->]]; apply Catchable_ret.
  - destruct (accepted_line l Hsz) as (E8 & E4 & E2).
    rewrite E8, HS1, E4, E2. do 2 apply Catchable_lift_done.
    apply Catchable_write_e_data_loop; [exact Hprog|lia|exact Hn].
Qed.

End CatchFacts.

Lemma write_fill_loop_whole (line_str : string) (n : nat) :
  forall (i : Z) (txbuf : list Z) (p : Z) (e : tru_exception),
    0 <= i -> n = 0%nat \/ 2 * (i + Z.of_nat n) + 6 <= size line_str ->
    Tru11.write_fill_loop n line_str i txbuf p <> Throw e.
Proof.
  induction n as [|n IH]; intros i txbuf p e Hi Hn;
    cbn [Tru11.write_fill_loop]; [discriminate|].
  destruct Hn as [Hn|Hn]; [discriminate|].
  rewrite substr_some by lia.
  apply IH; [lia|]. destruct n; [left; reflexivity|right; lia].
Qed.

Lemma verify_data_loop_whole (arg_params : cl_my_params) (line_str : string)
  (rxbuf : list Z) (n : nat) :
  forall (i : Z) (st : Z * Z * (Z * Z) * (Z * Z)) (e : tru_exception),
    0 <= i -> n = 0%nat \/ 2 * (i + Z.of_nat n) + 6 <= size line_str ->
    Tru11.verify_data_loop n arg_params line_str rxbuf i st <> Throw e.
Proof.
  induction n as [|n IH]; intros i [[[a rp] [lm li]] [m ig]] e Hi Hn;
    cbn [Tru11.verify_data_loop]; [discriminate|].
  destruct Hn as [Hn|Hn]; [discriminate|].
  assert (Hnext : n = 0%nat \/ 2 * (i + 1 + Z.of_nat n) + 6 <= size line_str)
    by (destruct n; [left; reflexivity|right; lia]).
  destruct (negb (verify_config arg_params) && (a =? HC11_CONFIG_ADDR));
    [apply IH; [lia|exact Hnext]|].
  rewrite substr_some by lia.
  destruct (negb _); apply IH; try lia; exact Hnext.
Qed.

Section CatchFiles.
Context {port : Type} {SC : serial_com port}.

Lemma Catchable_tru11_write_line (fuel : nat) (arg_params : cl_my_params)
  (arg_write_cmd_code : Z) (line_str : string) (txbuf rxbuf : list Z)
  (t : tally) :
  whole_line line_str = true ->
  Catchable (Tru11.writemem_file_line fuel arg_params arg_write_cmd_code
               line_str txbuf rxbuf t).
Proof.
  intros H. unfold Tru11.writemem_file_line.
  destruct (whole_line_cases line_str H) as [E|(Hsz & HS1 & Hn)].
  - destruct (rejected_line line_str E) as [->|[-> ->]]; apply Catchable_ret.
  - destruct (accepted_line line_str Hsz) as (E8 & E4 & E2).
    rewrite E8, HS1, E4, E2. do 2 apply Catchable_lift_done. cbv beta zeta.
    fold (srec_count line_str).
    apply Catchable_bind; [apply Catchable_tru11_txrx_chunk|]. intros rx1.
    apply Catchable_bind; [apply Catchable_tx_chunk|]. intros _.
    apply Catchable_bind.
    + apply Catchable_lift. intros e He. exfalso.
      exact (write_fill_loop_whole line_str _ 0 _ 0 e ltac:(lia) Hn He).
    + intros tx3.
      apply Catchable_bind; [apply Catchable_txrx_chunk_write|]. intros rx2.
      destruct (Tru11.write_check_loop _ _ _ _ _ _) as [[a' lc] [m ig]].
      apply Catchable_ret.
Qed.

Lemma Catchable_tru11_write_loop (fuel : nat) (arg_params : cl_my_params)
  (arg_write_cmd_code : Z) (in_file : list string) :
  forallb whole_line in_file = true ->
  forall txbuf rxbuf t,
    Catchable (Tru11.writemem_file_loop fuel arg_params arg_write_cmd_code
                 in_file txbuf rxbuf t).
Proof.
  induction in_file as [|l rest IH]; intros H txbuf rxbuf t;
    cbn [Tru11.writemem_file_loop]; [apply Catchable_ret|].
  cbn in H. apply andb_prop in H. destruct H as [Hl Hrest].
  apply Catchable_bind; [now apply Catchable_tru11_write_line|].
  intros [[tx1 rx1] t1]. now apply IH.
Qed.

Lemma Catchable_tru11_verify_line (fuel : nat) (arg_params : cl_my_params)
  (line_str : string) (txbuf rxbuf : list Z) (t : tally) :
  whole_line line_str = true ->
  Catchable (Tru11.readmem_verify_line fuel arg_params line_str txbuf rxbuf t).
Proof.
  intros H. unfold Tru11.readmem_verify_line.
  destruct (whole_line_cases line_str H) as [E|(Hsz & HS1 & Hn)].
  - destruct (rejected_line line_str E) as [->|[-> ->]]; apply Catchable_ret.
  - destruct (accepted_line line_str Hsz) as (E8 & E4 & E2).
    rewrite E8, HS1, E4, E2. do 2 apply Catchable_lift_done. cbv beta zeta.
    fold (srec_count line_str).
    apply Catchable_bind; [apply Catchable_tru11_txrx_chunk|]. intros rx1.
    apply Catchable_bind; [apply Catchable_tx_chunk|]. intros _.
    apply Catchable_bind; [apply Catchable_rx_chunk|]. intros rx2.
    apply Catchable_bind.
    + apply Catchable_lift. intros e He. exfalso.
      exact (verify_data_loop_whole arg_params line_str _ _ 0 _ e ltac:(lia)
               Hn He).
    + intros [[[a' rp'] lc] [m ig]]. apply Catchable_ret.
Qed.

Lemma Catchable_tbug11_verify_line (fuel : nat) (arg_params : cl_my_params)
  (line_str : string) (txbuf rxbuf : list Z) (t : tally) :
  whole_line line_str = true ->
  Catchable (TBug11.readmem_verify_line fuel arg_params line_str txbuf rxbuf t).
Proof.
  intros H. unfold TBug11.readmem_verify_line.
  destruct (whole_line_cases line_str H) as [E|(Hsz & HS1 & Hn)].
  - destruct (rejected_line line_str E) as [->|[-> ->]]; apply Catchable_ret.
  - destruct (accepted_line line_str Hsz) as (E8 & E4 & E2).
    rewrite E8, HS1, E4, E2. do 2 apply Catchable_lift_done. cbv beta zeta.
    fold (srec_count line_str).
    apply Catchable_bind; [apply Catchable_tbug11_txrx_chunk|]. intros rx1.
    apply Catchable_bind; [apply Catchable_tx_chunk|]. intros _.
    apply Catchable_bind; [apply Catchable_tbug11_txrx_chunk|]. intros rx2.
    apply Catchable_bind.
    + apply Catchable_lift. intros e He. exfalso.
      rewrite verify_data_loop_same in He.
      exact (verify_data_loop_whole arg_params line_str _ _ 0 _ e ltac:(lia)
               Hn He).
    + intros [[[a' rp'] lc] [m ig]]. apply Catchable_ret.
Qed.

Lemma Catchable_tru11_verify_loop (fuel : nat) (arg_params : cl_my_params)
  (in_file : list string) :
  forallb whole_line in_file = true ->
  forall txbuf rxbuf t,
    Catchable (Tru11.readmem_verify_loop fuel arg_params in_file txbuf rxbuf t).
Proof.
  induction in_file as [|l rest IH]; intros H txbuf rxbuf t;
    cbn [Tru11.readmem_verify_loop]; [apply Catchable_ret|].
  cbn in H. apply andb_prop in H. destruct H as [Hl Hrest].
  apply Catchable_bind; [now apply Catchable_tru11_verify_line|].
  intros [[tx1 rx1] t1]. now apply IH.
Qed.

Lemma Catchable_tbug11_verify_loop (fuel : nat) (arg_params : cl_my_params)
  (in_file : list string) :
  forallb whole_line in_file = true ->
  forall txbuf rxbuf t,
    Catchable (TBug11.readmem_verify_loop fuel arg_params in_file txbuf rxbuf t).
Proof.
  induction in_file as [|l rest IH]; intros H txbuf rxbuf t;
    cbn [TBug11.readmem_verify_loop]; [apply Catchable_ret|].
  cbn in H. apply andb_prop in H. destruct H as [Hl Hrest].
  apply Catchable_bind; [now apply Catchable_tbug11_verify_line|].
  intros [[tx1 rx1] t1]. now apply IH.
Qed.

Lemma Catchable_tbug11_write_loop (fuel : nat) (arg_params : cl_my_params)
  (in_file : list string) :
  forall txbuf rxbuf,
    Catchable (TBug11Ops.writemem_file_loop fuel arg_params in_file txbuf rxbuf).
Proof.
  induction in_file as [|l rest IH]; intros txbuf rxbuf;
    cbn [TBug11Ops.writemem_file_loop]; [apply Catchable_ret|].
  apply Catchable_bind; [|intros [tx1 rx1]; apply IH].
  unfold TBug11Ops.writemem_file_line.
  destruct (Z.geb_spec (size l) 8) as [Hsz|Hsz]; [|apply Catchable_ret].
  destruct (is_S1 l); [|apply Catchable_ret].
  rewrite !substr_some by lia. do 2 apply Catchable_lift_done. cbv beta zeta.
  apply Catchable_bind; [apply Catchable_tbug11_txrx_chunk|]. intros rx1.
  apply Catchable_bind; [apply Catchable_tx_chunk|]. intros _.
  apply Catchable_bind; [apply Catchable_tbug11_txrx_chunk|]. intros rx2.
  apply Catchable_ret.
Qed.

Lemma Catchable_tru11_readmem_loop (fuel : nat) (arg_params : cl_my_params) :
  forall e addr remaining txbuf rxbuf,
    Catchable (Tru11.readmem_loop fuel arg_params e addr remaining txbuf rxbuf).
Proof.
  induction fuel as [|fuel IH]; intros e addr remaining txbuf rxbuf;
    cbn [Tru11.readmem_loop]; destruct (remaining =? 0);
    try apply Catchable_ret; try apply Catchable_out_of_fuel.
  apply Catchable_bind; [apply Catchable_tru11_txrx_chunk|]. intros rx1.
  apply Catchable_bind; [apply Catchable_tx_chunk|]. intros _.
  apply Catchable_bind; [apply Catchable_rx_chunk|]. intros rx2.
  destruct (Tru11.readmem_data_loop _ _ _ _ _ _) as [[e1 a1] p1]. apply IH.
Qed.

Lemma Catchable_tbug11_readmem_loop (fuel : nat) (arg_params : cl_my_params)
  (n : nat) :
  forall e addr chunklen remaining txbuf rxbuf rxbuf_p,
    Catchable (TBug11.readmem_loop n fuel arg_params e addr chunklen remaining
                 txbuf rxbuf rxbuf_p).
Proof.
  induction n as [|n IH]; intros e addr chunklen remaining txbuf rxbuf rxbuf_p;
    cbn [TBug11.readmem_loop]; [apply Catchable_ret|].
  apply Catchable_bind.
  - destruct (chunklen =? 0); [|apply Catchable_ret].
    unfold TBug11.readmem_command.
    apply Catchable_bind; [apply Catchable_tbug11_txrx_chunk|]. intros rx1.
    apply Catchable_bind; [apply Catchable_tx_chunk|]. intros _.
    apply Catchable_bind; [apply Catchable_tbug11_txrx_chunk|]. intros rx2.
    apply Catchable_ret.
  - intros [[[[c1 r1] tx1] rx1] p1]. apply IH.
Qed.

End CatchFiles.

(** X12.  The exceptions [main] reports.  The transfers ([tx_chunk],
    [rx_chunk], [txrx_chunk], [txrx_chunk_write], [rxtx_chunk]), the writes
    of a byte and of the registers ([writemem_byte], [test_mode],
    [bprot_off], [bprot_on]), the erase and programming sequences,
    [readmem] and [writemem_file] of tbug11 end, when they fail, with a
    [tru_exception], which [main] catches: never with [std::out_of_range].
    So do the other operations on an S-record file when every line they
    accept holds the characters of all the data bytes its count
    announces. *)
Theorem exceptions_are_reported {port : Type} {SC : serial_com port}
  (fuel : nat) (arg_params : cl_my_params) (arg_write_cmd_code : Z)
  (in_file : list string) (txbuf rxbuf tx0 rx0 : list Z) (p rp N addr byte : Z) :
  (Catchable (tx_chunk fuel (serial_txbuf_size arg_params) txbuf p N) /\
   Catchable (rx_chunk fuel (serial_rxbuf_size arg_params) rxbuf rp N) /\
   (forall policy,
      Catchable (TBug11.txrx_chunk fuel arg_params txbuf p rxbuf rp N policy)) /\
   (forall arg_verify_echo,
      Catchable (Tru11.txrx_chunk fuel arg_params txbuf p rxbuf rp N
                   arg_verify_echo)) /\
   (forall arg_is_prog,
      Catchable (Tru11.txrx_chunk_write fuel arg_params txbuf p rxbuf rp N
                   arg_is_prog)) /\
   Catchable (TBug11Ops.rxtx_chunk fuel arg_params rxbuf rp txbuf p N)) /\
  (Catchable (TBug11.writemem_byte fuel arg_params addr byte) /\
   Catchable (TBug11Ops.test_mode fuel arg_params) /\
   Catchable (TBug11Ops.bprot_off fuel arg_params) /\
   Catchable (TBug11Ops.bprot_on fuel arg_params) /\
   Catchable (TBug11.eeprom_prog_byte fuel arg_params addr byte) /\
   Catchable (TBug11.eeprom_bulk_erase fuel arg_params addr byte) /\
   Catchable (TBug11Ops.eeprom_row_erase fuel arg_params addr byte) /\
   Catchable (TBug11.eeprom_byte_erase fuel arg_params addr byte) /\
   Catchable (TBug11Ops.eprom_prog_byte fuel arg_params addr byte) /\
   Catchable (TBug11Ops.eprom_prog_e20_byte fuel arg_params addr byte)) /\
  (Catchable (TBug11.readmem fuel arg_params tx0 rx0) /\
   Catchable (Tru11.readmem fuel arg_params tx0 rx0) /\
   Catchable (TBug11Ops.writemem_file fuel arg_params in_file tx0 rx0)) /\
  (forallb whole_line in_file = true ->
   Catchable (TBug11.readmem_verify fuel arg_params in_file tx0 rx0) /\
   Catchable (TBug11.write_ee fuel arg_params in_file) /\
   Catchable (TBug11Ops.write_e fuel arg_params in_file) /\
   Catchable (TBug11Ops.write_e20 fuel arg_params in_file) /\
   Catchable (Tru11.readmem_verify fuel arg_params in_file tx0 rx0) /\
   Catchable (Tru11.writemem_file fuel arg_params arg_write_cmd_code in_file
                tx0 rx0)).
Proof.
  split; [|split; [|split]].
  - repeat split; intros.
    + apply Catchable_tx_chunk.
    + apply Catchable_rx_chunk.
    + apply Catchable_tbug11_txrx_chunk.
    + apply Catchable_tru11_txrx_chunk.
    + apply Catchable_txrx_chunk_write.
    + apply Catchable_rxtx_chunk.
  - repeat split;
      first [apply Catchable_writemem_byte|apply Catchable_sequence].
  - repeat split.
    + unfold TBug11.readmem.
      apply Catchable_bind; [apply Catchable_tbug11_readmem_loop|].
      intros e. apply Catchable_ret.
    + unfold Tru11.readmem.
      apply Catchable_bind; [apply Catchable_tru11_readmem_loop|].
      intros e. apply Catchable_ret.
    + apply Catchable_tbug11_write_loop.
  - intros H. repeat split.
    + now apply Catchable_tbug11_verify_loop.
    + now apply Catchable_write_ee.
    + apply Catchable_write_e_file; [|exact H]. intros a b.
      apply Catchable_sequence.
    + apply Catchable_write_e_file; [|exact H]. intros a b.
      apply Catchable_sequence.
    + now apply Catchable_tru11_verify_loop.
    + now apply Catchable_tru11_write_loop.
Qed.

(** ** A record cut short *)

Lemma avail_spec (line_str : string) (i : Z) :
  2 * i + 8 <= size line_str <-> i < srec_avail line_str.
Proof. unfold srec_avail. Z.to_euclidean_division_equations. lia. Qed.

Lemma cut_line_cases (line_str : string) :
  cut_line line_str = true ->
  size line_str >= 8 /\ is_S1 line_str = true /\
  1 <= srec_avail line_str < srec_count line_str.
Proof.
  unfold cut_line, accepted. intros H.
  apply andb_prop in H. destruct H as [H Hc].
  apply andb_prop in H. destruct H as [H8 HS].
  apply Z.geb_le in H8. apply Z.ltb_lt in Hc.
  split; [lia|]. split; [exact HS|]. split; [|exact Hc].
  unfold srec_avail. Z.to_euclidean_division_equations. lia.
Qed.

Lemma write_fill_loop_cut (line_str : string) (n : nat) :
  forall (i : Z) (txbuf : list Z) (p : Z),
    0 <= i <= srec_avail line_str -> srec_avail line_str < i + Z.of_nat n ->
    Tru11.write_fill_loop n line_str i txbuf p = Throw STD_OUT_OF_RANGE.
Proof.
  induction n as [|n IH]; intros i txbuf p Hi Hn; [lia|].
  cbn [Tru11.write_fill_loop].
  destruct (Z.eq_dec i (srec_avail line_str)) as [E|Hne].
  - rewrite substr_none; [reflexivity|].
    pose proof (avail_spec line_str i). lia.
  - rewrite substr_some by (apply avail_spec; lia). apply IH; lia.
Qed.

Section CutFacts.
Context {port : Type} {SC : serial_com port}.

Lemma bind_assoc {A B C} (m : M port A) (k : A -> M port B) (h : B -> M port C)
  (d : port) :
  bind (bind m k) h d = bind m (fun x => bind (k x) h) d.
Proof.
  unfold bind. destruct (m d) as [[d1 e1] [a|e|]]; try reflexivity.
  destruct (k a d1) as [[d2 e2] [b|e|]]; try reflexivity.
  destruct (h b d2) as [[d3 e3] r]. rewrite app_assoc. reflexivity.
Qed.


Lemma Moves_cut_ee_data_loop (fuel : nat) (arg_params : cl_my_params)
  (line_str : string) (n : nat) :
  1 <= serial_txbuf_size arg_params -> 1 <= serial_rxbuf_size arg_params ->
  (3 <= fuel)%nat ->
  forall i, 0 <= i <= srec_avail line_str ->
    srec_avail line_str < i + Z.of_nat n ->
    Moves (TBug11.write_ee_data_loop n fuel arg_params line_str i
             (u16 (srec_address line_str + i)))
      (flat_map (fun k => ee_byte_image line_str (i + Z.of_nat k))
         (seq 0 (Z.to_nat (srec_avail line_str - i))))
      (16 * (srec_avail line_str - i)).
Proof.
  intros HT HR Hfuel. remember (srec_avail line_str) as K eqn:EK.
  assert (Hav : forall i, 2 * i + 8 <= size line_str <-> i < K)
    by (intros; rewrite EK; apply avail_spec).
  induction n as [|n IH]; intros i Hi Hn; [lia|].
  cbn [TBug11.write_ee_data_loop]. intros d d' evs r H.
  destruct (Z.eq_dec i K) as [->|Hne].
  - rewrite substr_none, bind_lift_throw in H
      by (pose proof (Hav K); lia).
    inversion H; subst. rewrite Z.sub_diag. apply moves_nothing. lia.
  - rewrite substr_some, bind_lift_done in H
      by (apply Hav; lia).
    replace (Z.to_nat (K - i)) with (S (Z.to_nat (K - (i + 1)))) by lia.
    rewrite (flat_map_seq_S (ee_byte_image line_str)).
    assert (Hm : Moves
              (TBug11.write_ee_data_loop n fuel arg_params line_str (i + 1)
                 (u16 (u16 (srec_address line_str + i) + 1)))
              (flat_map (fun k => ee_byte_image line_str (i + 1 + Z.of_nat k))
                 (seq 0 (Z.to_nat (K - (i + 1))))) (16 * (K - (i + 1)))).
    { rewrite u16_succ. replace (srec_address line_str + i + 1)
        with (srec_address line_str + (i + 1)) by lia. apply IH; lia. }
    pose proof (Moves_ee_byte fuel arg_params
                  (u16 (srec_address line_str + i))
                  (srec_data_byte line_str i) _ _ (16 * (K - (i + 1))) HT HR Hfuel
                  ltac:(lia) Hm) as Hb.
    apply Hb in H. unfold ee_byte_image at 1.
    replace (16 * (K - i)) with (16 + 16 * (K - (i + 1))) by lia.
    exact H.
Qed.

Lemma cut_ee_data_loop_fails (fuel : nat) (arg_params : cl_my_params)
  (line_str : string) (n : nat) :
  forall i srec_addr (d d' : port) (evs : list event) (r : outcome unit),
    0 <= i <= srec_avail line_str -> srec_avail line_str < i + Z.of_nat n ->
    TBug11.write_ee_data_loop n fuel arg_params line_str i srec_addr d
    = (d', evs, r) ->
    r <> Done tt.
Proof.
  remember (srec_avail line_str) as K eqn:EK.
  assert (Hav : forall i, 2 * i + 8 <= size line_str <-> i < K)
    by (intros; rewrite EK; apply avail_spec).
  induction n as [|n IH]; intros i a d d' evs r Hi Hn H; [lia|].
  cbn [TBug11.write_ee_data_loop] in H.
  destruct (Z.eq_dec i K) as [->|Hne].
  - rewrite substr_none, bind_lift_throw in H
      by (pose proof (Hav K); lia).
    inversion H; subst. discriminate.
  - rewrite substr_some, bind_lift_done in H
      by (apply Hav; lia).
    intros E. rewrite E in H.
    apply bind_done in H. destruct H as (d1 & e1 & [] & e2 & _ & H & _).
    apply bind_done in H. destruct H as (d2 & e3 & [] & e4 & _ & H & _).
    apply IH in H; [congruence|lia|lia].
Qed.

Lemma Catchable_ee_erase (fuel : nat) (arg_params : cl_my_params)
  (addr byte : Z) :
  Catchable (if addr =? HC11_CONFIG_ADDR
             then TBug11.eeprom_bulk_erase fuel arg_params addr byte
             else TBug11.eeprom_byte_erase fuel arg_params addr byte
             : M port unit).
Proof. destruct (addr =? _); apply Catchable_sequence. Qed.

Lemma Moves_ee_erase (fuel : nat) (arg_params : cl_my_params) (addr byte : Z) :
  1 <= serial_txbuf_size arg_params -> 1 <= serial_rxbuf_size arg_params ->
  (3 <= fuel)%nat ->
  Moves (if addr =? HC11_CONFIG_ADDR
         then TBug11.eeprom_bulk_erase fuel arg_params addr byte
         else TBug11.eeprom_byte_erase fuel arg_params addr byte)
    (ee_erase addr byte) 8.
Proof.
  intros HT HR Hfuel. unfold ee_erase.
  destruct (addr =? _); now apply Moves_ee_sequence.
Qed.

Lemma cut_ee_data_loop_range (fuel : nat) (arg_params : cl_my_params)
  (line_str : string) (n : nat) :
  1 <= serial_txbuf_size arg_params -> 1 <= serial_rxbuf_size arg_params ->
  (3 <= fuel)%nat ->
  forall i (d d' : port) (evs : list event),
    0 <= i <= srec_avail line_str -> srec_avail line_str < i + Z.of_nat n ->
    TBug11.write_ee_data_loop n fuel arg_params line_str i
      (u16 (srec_address line_str + i)) d = (d', evs, Throw STD_OUT_OF_RANGE) ->
    written evs
    = flat_map (fun k => ee_byte_image line_str (i + Z.of_nat k))
        (seq 0 (Z.to_nat (srec_avail line_str - i))) /\
    requested evs = 16 * (srec_avail line_str - i).
Proof.
  intros HT HR Hfuel. remember (srec_avail line_str) as K eqn:EK.
  assert (Hav : forall i, 2 * i + 8 <= size line_str <-> i < K)
    by (intros; rewrite EK; apply avail_spec).
  induction n as [|n IH]; intros i d d' evs Hi Hn H; [lia|].
  cbn [TBug11.write_ee_data_loop] in H.
  destruct (Z.eq_dec i K) as [->|Hne].
  - rewrite substr_none, bind_lift_throw in H
      by (pose proof (Hav K); lia).
    inversion H; subst. rewrite Z.sub_diag. split; reflexivity.
  - rewrite substr_some, bind_lift_done in H
      by (apply Hav; lia).
    change (Z.to_nat 2) with 2%nat in H.
    fold (srec_data_byte line_str i) in H.
    set (a := u16 (srec_address line_str + i)) in *.
    set (b := srec_data_byte line_str i) in *.
    apply bind_inv in H.
    destruct H as [(d1 & e1 & [] & e2 & H1 & H & ->)|[(e & H1 & E)|[_ E]]];
      [| |discriminate].
    2:{ inversion E; subst e.
        pose proof (Catchable_ee_erase fuel arg_params a b _ _ _ _ H1).
        discriminate. }
    destruct (Moves_ee_erase fuel arg_params a b HT HR Hfuel _ _ _ _ H1)
      as (_ & _ & _ & Hd1 & _).
    destruct (Hd1 (ex_intro _ tt eq_refl)) as [Hw1 Hq1].
    apply bind_inv in H.
    destruct H as [(d2 & e3 & [] & e4 & H2 & H & ->)|[(e & H2 & E)|[_ E]]];
      [| |discriminate].
    2:{ inversion E; subst e.
        pose proof (Catchable_sequence fuel arg_params 0x103b 0x02 0x03 a b
                      _ _ _ _ H2).
        discriminate. }
    destruct (Moves_ee_sequence fuel arg_params 0x02 0x03 a b HT HR Hfuel
                _ _ _ _ H2) as (_ & _ & _ & Hd2 & _).
    destruct (Hd2 (ex_intro _ tt eq_refl)) as [Hw2 Hq2].
    unfold a in H. rewrite u16_succ in H.
    replace (srec_address line_str + i + 1)
      with (srec_address line_str + (i + 1)) in H by lia.
    apply IH in H; [|lia|lia]. destruct H as [Hw3 Hq3].
    replace (Z.to_nat (K - i)) with (S (Z.to_nat (K - (i + 1)))) by lia.
    rewrite (flat_map_seq_S (ee_byte_image line_str)).
    rewrite !written_app, !requested_app, Hw1, Hw2, Hw3, Hq1, Hq2, Hq3.
    split; [|lia].
    change (ee_byte_image line_str i) with (ee_erase a b ++ ee_program a b).
    unfold ee_program. rewrite <- app_assoc. reflexivity.
Qed.


Lemma cut_write_ee_line (fuel : nat) (arg_params : cl_my_params)
  (line_str : string) (d d' : port) (evs : list event) (r : outcome unit) :
  1 <= serial_txbuf_size arg_params -> 1 <= serial_rxbuf_size arg_params ->
  (3 <= fuel)%nat -> cut_line line_str = true ->
  TBug11.write_ee_line fuel arg_params line_str d = (d', evs, r) ->
  moves (ee_bytes_image line_str (srec_avail line_str))
    (16 * srec_avail line_str) evs r /\
  r <> Done tt /\
  (r = Throw STD_OUT_OF_RANGE ->
   written evs = ee_bytes_image line_str (srec_avail line_str) /\
   requested evs = 16 * srec_avail line_str).
Proof.
  intros HT HR Hfuel Hcut H.
  destruct (cut_line_cases line_str Hcut) as (Hsz & HS1 & HK).
  destruct (accepted_line line_str Hsz) as (E8 & E4 & E2).
  pose proof (srec_count_range line_str) as Hc.
  unfold TBug11.write_ee_line in H. rewrite E8, HS1, E4, E2 in H.
  rewrite !bind_lift_done in H. fold (srec_count line_str) in H.
  fold (srec_address line_str) in H.
  replace (srec_address line_str) with (u16 (srec_address line_str + 0)) in H
    by (rewrite Z.add_0_r; apply u16_idem).
  unfold ee_bytes_image.
  assert (Hi : 0 <= 0 <= srec_avail line_str) by lia.
  assert (Hn : srec_avail line_str < 0 + Z.of_nat (Z.to_nat (srec_count line_str)))
    by lia.
  pose proof (Moves_cut_ee_data_loop fuel arg_params line_str
                (Z.to_nat (srec_count line_str)) HT HR Hfuel 0 Hi Hn
                _ _ _ _ H) as Hm.
  rewrite Z.sub_0_r in Hm. split; [exact Hm|]. split.
  - exact (cut_ee_data_loop_fails fuel arg_params line_str _ 0 _ _ _ _ _
             Hi Hn H).
  - intros E. rewrite E in H.
    pose proof (cut_ee_data_loop_range fuel arg_params line_str _ HT HR Hfuel
                  0 _ _ _ Hi Hn H) as Hr.
    rewrite Z.sub_0_r in Hr. exact Hr.
Qed.

Lemma cut_write_ee_file (fuel : nat) (arg_params : cl_my_params)
  (line_str : string) (after : list string) (before : list string) :
  1 <= serial_txbuf_size arg_params -> 1 <= serial_rxbuf_size arg_params ->
  (3 <= fuel)%nat -> cut_line line_str = true ->
  forallb whole_line before = true ->
  forall (d d' : port) (evs : list event) (r : outcome unit),
    TBug11.write_ee fuel arg_params (before ++ line_str :: after) d
    = (d', evs, r) ->
    moves (ee_image before ++ ee_bytes_image line_str (srec_avail line_str))
      (16 * (file_count before + srec_avail line_str)) evs r /\
    r <> Done tt /\
    (r = Throw STD_OUT_OF_RANGE ->
     written evs
     = ee_image before ++ ee_bytes_image line_str (srec_avail line_str) /\
     requested evs = 16 * (file_count before + srec_avail line_str)).
Proof.
  intros HT HR Hfuel Hcut.
  destruct (cut_line_cases line_str Hcut) as (_ & _ & HK).
  assert (Hcutm : Moves (TBug11.write_ee fuel arg_params (line_str :: after))
                    (ee_bytes_image line_str (srec_avail line_str))
                    (16 * srec_avail line_str)).
  { cbn [TBug11.write_ee]. intros d d' evs r H.
    apply bind_inv in H.
    destruct H as [(d1 & e1 & [] & e2 & H1 & _ & _)|[(e & H1 & ->)|[H1 ->]]].
    - destruct (cut_write_ee_line fuel arg_params line_str _ _ _ _ HT HR
                  Hfuel Hcut H1) as (_ & Hnd & _). congruence.
    - exact (proj1 (cut_write_ee_line fuel arg_params line_str _ _ _ _ HT HR
                      Hfuel Hcut H1)).
    - exact (proj1 (cut_write_ee_line fuel arg_params line_str _ _ _ _ HT HR
                      Hfuel Hcut H1)). }
  induction before as [|x rest IH]; intros Hwhole d d' evs r H.
  - cbn [app] in H. change (ee_image []) with (@nil Z). cbn [app].
    change (file_count []) with 0. rewrite Z.add_0_l.
    split; [exact (Hcutm _ _ _ _ H)|].
    cbn [TBug11.write_ee] in H. apply bind_inv in H.
    destruct H as [(d1 & e1 & [] & e2 & H1 & _ & _)|[(e & H1 & ->)|[H1 ->]]].
    + destruct (cut_write_ee_line fuel arg_params line_str _ _ _ _ HT HR
                  Hfuel Hcut H1) as (_ & Hnd & _). congruence.
    + split; [discriminate|].
      exact (proj2 (proj2 (cut_write_ee_line fuel arg_params line_str _ _ _ _
                             HT HR Hfuel Hcut H1))).
    + split; discriminate.
  - cbn in Hwhole. apply andb_prop in Hwhole. destruct Hwhole as [Hx Hrest].
    specialize (IH Hrest). cbn [app TBug11.write_ee] in H.
    pose proof (file_count_nonneg rest) as Hfc.
    pose proof (line_count_range x) as Hlc.
    assert (Him : ee_image (x :: rest) = ee_line_image x ++ ee_image rest)
      by reflexivity.
    rewrite Him, file_count_cons, <- app_assoc.
    split; [|split].
    + revert d d' evs r H. eapply Moves_eq; [|reflexivity|].
      * apply (Moves_bind _ _ (ee_line_image x)
                 (ee_image rest ++ ee_bytes_image line_str (srec_avail line_str))
                 (16 * line_count x)
                 (16 * (file_count rest + srec_avail line_str))); [lia| |].
        -- now apply Moves_write_ee_line.
        -- intros _ d d' evs r H. exact (proj1 (IH _ _ _ _ H)).
      * lia.
    + intros E. rewrite E in H. apply bind_done in H.
      destruct H as (d1 & e1 & [] & e2 & _ & H & _).
      exact (proj1 (proj2 (IH _ _ _ _ H)) eq_refl).
    + intros E. rewrite E in H. apply bind_inv in H.
      destruct H as [(d1 & e1 & [] & e2 & H1 & H & ->)|[(e & H1 & E')|[_ E']]];
        [| |discriminate].
      * destruct (Moves_write_ee_line fuel arg_params x HT HR Hfuel _ _ _ _ H1)
          as (_ & _ & _ & Hd & _).
        destruct (Hd (ex_intro _ tt eq_refl)) as [Hw1 Hq1].
        destruct (proj2 (proj2 (IH _ _ _ _ H)) eq_refl) as [Hw2 Hq2].
        rewrite written_app, requested_app, Hw1, Hw2, Hq1, Hq2.
        split; [reflexivity|lia].
      * inversion E'; subst e.
        pose proof (Catchable_write_ee_line fuel arg_params x Hx _ _ _ _ H1).
        discriminate.
Qed.


Lemma cut_tru11_write_line (fuel : nat) (arg_params : cl_my_params)
  (arg_write_cmd_code : Z) (line_str : string) (txbuf rxbuf : list Z)
  (t : tally) (d d' : port) (evs : list event)
  (r : outcome (list Z * list Z * tally)) :
  1 <= serial_txbuf_size arg_params -> 1 <= serial_rxbuf_size arg_params ->
  (3 <= fuel)%nat -> (3 <= length txbuf)%nat -> (1 <= length rxbuf)%nat ->
  cut_line line_str = true ->
  Tru11.writemem_file_line fuel arg_params arg_write_cmd_code line_str
    txbuf rxbuf t d = (d', evs, r) ->
  let X := arg_write_cmd_code
             :: command_params (srec_count line_str) (srec_address line_str) in
  moves X 1 evs r /\
  (forall a, r <> Done a) /\
  (r = Throw STD_OUT_OF_RANGE -> written evs = X /\ requested evs = 1).
Proof.
  intros HT HR Hfuel Htx Hrx Hcut H X.
  destruct (cut_line_cases line_str Hcut) as (Hsz & HS1 & HK).
  destruct (accepted_line line_str Hsz) as (E8 & E4 & E2).
  pose proof (srec_count_range line_str) as Hc.
  unfold Tru11.writemem_file_line in H. rewrite E8, HS1, E4, E2 in H.
  rewrite !bind_lift_done in H. cbv beta zeta in H.
  fold (srec_count line_str) in H. fold (srec_address line_str) in H.
  set (n := srec_count line_str) in *. set (a := srec_address line_str) in *.
  set (tx1 := poke txbuf 0 arg_write_cmd_code) in *.
  set (tx2 := poke (poke (poke tx1 0 (u8 n)) 1 (u8 (Z.land (Z.shiftr a 8) 255)))
                2 (u8 (Z.land a 255))) in *.
  rewrite (write_fill_loop_cut line_str (Z.to_nat n) 0 tx2 0) in H by lia.
  assert (HX : X = slice tx1 0 1 ++ slice tx2 0 3 ++ []).
  { subst X tx1. rewrite command_slice by lia.
    unfold tx2. rewrite params_slice_3 by (rewrite length_poke; lia).
    rewrite app_nil_r. reflexivity. }
  assert (Hm : Moves
            (bind (Tru11.txrx_chunk fuel arg_params tx1 0 rxbuf 0 1 true)
               (fun _ => bind (tx_chunk fuel (serial_txbuf_size arg_params)
                                 tx2 0 3)
                  (fun _ => lift (Throw STD_OUT_OF_RANGE
                                  : outcome (list Z * list Z * tally)))))
            X 1).
  { eapply Moves_eq; [|symmetry; exact HX|reflexivity].
    apply (Moves_bind _ _ (slice tx1 0 1) (slice tx2 0 3 ++ []) 1 0); [lia| |].
    - apply Moves_tru11_txrx_chunk; try assumption; lia.
    - intros _. apply (Moves_bind _ _ (slice tx2 0 3) [] 0 0); [lia| |].
      + apply Moves_tx_chunk; [assumption|lia].
      + intros _. apply Moves_lift. discriminate. }
  assert (Heq : forall dd,
            bind (Tru11.txrx_chunk fuel arg_params tx1 0 rxbuf 0 1 true)
              (fun rxbuf0 =>
                 bind (tx_chunk fuel (serial_txbuf_size arg_params) tx2 0 3)
                   (fun _ =>
                      bind (lift (Throw STD_OUT_OF_RANGE))
                        (fun txbuf0 =>
                           bind (Tru11.txrx_chunk_write fuel arg_params txbuf0 0
                                   rxbuf0 0 n
                                   (negb (arg_write_cmd_code
                                          =? Tru11.TALKER_WRITE_CMD)))
                             (fun rxbuf1 =>
                                let '(_, _, (mismatch_count, ignore_count)) :=
                                  Tru11.write_check_loop (Z.to_nat n) arg_params
                                    txbuf0 rxbuf1 0
                                    (a, (0, 0),
                                     (mismatch_count t, ignore_count t)) in
                                ret (txbuf0, rxbuf1,
                                     {| total_databytes :=
                                          u32 (total_databytes t + n);
                                        mismatch_count := mismatch_count;
                                        ignore_count := ignore_count |}))))) dd
            = bind (Tru11.txrx_chunk fuel arg_params tx1 0 rxbuf 0 1 true)
                (fun _ => bind (tx_chunk fuel (serial_txbuf_size arg_params)
                                  tx2 0 3)
                   (fun _ => lift (Throw STD_OUT_OF_RANGE))) dd).
  { intros dd. apply bind_ext. intros rx1 d1. apply bind_ext. intros [] d2.
    reflexivity. }
  rewrite Heq in H. clear Heq.
  split; [exact (Hm _ _ _ _ H)|]. split.
  - intros st E. rewrite E in H.
    apply bind_done in H. destruct H as (d1 & e1 & rx1 & e2 & _ & H & _).
    apply bind_done in H. destruct H as (d2 & e3 & [] & e4 & _ & H & _).
    discriminate.
  - intros E. rewrite E in H. apply bind_inv in H.
    destruct H as [(d1 & e1 & rx1 & e2 & H1 & H & ->)|[(e & H1 & E')|[_ E']]];
      [| |discriminate].
    2:{ inversion E'; subst e.
        pose proof (Catchable_tru11_txrx_chunk fuel arg_params tx1 true
                      0 rxbuf 0 1 _ _ _ _ H1). discriminate. }
    destruct (Moves_tru11_txrx_chunk arg_params tx1 true fuel HT HR rxbuf 0 0 1
                ltac:(lia) ltac:(lia) ltac:(lia) _ _ _ _ H1)
      as (_ & _ & _ & Hd1 & _).
    destruct (Hd1 (ex_intro _ _ eq_refl)) as [Hw1 Hq1].
    apply bind_inv in H.
    destruct H as [(d2 & e3 & [] & e4 & H2 & H & ->)|[(e & H2 & E')|[_ E']]];
      [| |discriminate].
    2:{ inversion E'; subst e.
        pose proof (Catchable_tx_chunk fuel _ tx2 0 3 _ _ _ _ H2).
        discriminate. }
    destruct (tx_chunk_done fuel _ tx2 0 3 _ _ _ HT ltac:(lia) H2)
      as (Hw2 & Hq2 & _).
    inversion H; subst.
    rewrite !written_app, !requested_app, Hw1, Hw2, Hq1, Hq2, HX.
    cbn [written requested]. split; [reflexivity|lia].
Qed.


Lemma cut_tru11_write_loop (fuel : nat) (arg_params : cl_my_params)
  (arg_write_cmd_code : Z) (line_str : string) (after before : list string) :
  1 <= serial_txbuf_size arg_params -> 1 <= serial_prog_txbuf_size arg_params ->
  1 <= serial_rxbuf_size arg_params -> (256 <= fuel)%nat ->
  cut_line line_str = true -> forallb whole_line before = true ->
  forall (txbuf rxbuf : list Z) (t : tally) (d d' : port) (evs : list event)
         (r : outcome tally),
    (256 <= length txbuf)%nat -> (256 <= length rxbuf)%nat ->
    Tru11.writemem_file_loop fuel arg_params arg_write_cmd_code
      (before ++ line_str :: after) txbuf rxbuf t d = (d', evs, r) ->
    let X := write_image arg_write_cmd_code before
             ++ arg_write_cmd_code
                :: command_params (srec_count line_str) (srec_address line_str) in
    let n := accepted_count before + file_count before + 1 in
    moves X n evs r /\
    (forall a, r <> Done a) /\
    (r = Throw STD_OUT_OF_RANGE -> written evs = X /\ requested evs = n).
Proof.
  intros HT HP HR Hfuel Hcut.
  induction before as [|x rest IH];
    intros Hwhole txbuf rxbuf t d d' evs r Htx Hrx H X n.
  - subst X n. cbn [app] in *.
    change (write_image arg_write_cmd_code []) with (@nil Z). cbn [app].
    change (accepted_count [] + file_count [] + 1) with 1.
    cbn [Tru11.writemem_file_loop] in H. apply bind_inv in H.
    destruct H as [(d1 & e1 & st & e2 & H1 & _ & _)|[(e & H1 & ->)|[H1 ->]]].
    + destruct (cut_tru11_write_line fuel arg_params arg_write_cmd_code
                  line_str txbuf rxbuf t _ _ _ _ HT HR ltac:(lia) ltac:(lia)
                  ltac:(lia) Hcut H1) as (_ & Hnd & _).
      destruct (Hnd st eq_refl).
    + destruct (cut_tru11_write_line fuel arg_params arg_write_cmd_code
                  line_str txbuf rxbuf t _ _ _ _ HT HR ltac:(lia) ltac:(lia)
                  ltac:(lia) Hcut H1) as (Hm & _ & Hr).
      split; [|split; [discriminate|]].
      * destruct Hm as (_ & Hp & Hq & _ & Hio).
        split; [discriminate|]. split; [exact Hp|]. split; [exact Hq|].
        split; [intros [a Ha]; discriminate|exact Hio].
      * intros E. inversion E; subst e. apply Hr. reflexivity.
    + destruct (cut_tru11_write_line fuel arg_params arg_write_cmd_code
                  line_str txbuf rxbuf t _ _ _ _ HT HR ltac:(lia) ltac:(lia)
                  ltac:(lia) Hcut H1) as (Hm & _ & _).
      destruct Hm as (Hf & _). congruence.
  - cbn in Hwhole. apply andb_prop in Hwhole. destruct Hwhole as [Hx Hrest].
    specialize (IH Hrest). cbn [app Tru11.writemem_file_loop] in H.
    pose proof (file_count_nonneg rest) as Hfc.
    pose proof (accepted_count_nonneg rest) as Hac.
    pose proof (line_count_range x) as Hlc.
    set (Y := write_image arg_write_cmd_code rest
              ++ arg_write_cmd_code
                 :: command_params (srec_count line_str)
                      (srec_address line_str)) in *.
    assert (HX : X = write_line_image arg_write_cmd_code x ++ Y).
    { subst X Y. unfold write_image. cbn [flat_map].
      rewrite <- app_assoc. reflexivity. }
    assert (Hn : n = ((if accepted x then 1 else 0) + line_count x)
                     + (accepted_count rest + file_count rest + 1)).
    { subst n. rewrite accepted_count_cons, file_count_cons. lia. }
    assert (Hlen : forall d d' evs tx' rx' t',
              Tru11.writemem_file_line fuel arg_params arg_write_cmd_code x
                txbuf rxbuf t d = (d', evs, Done (tx', rx', t')) ->
              (256 <= length tx')%nat /\ (256 <= length rx')%nat).
    { intros d0 d0' evs0 tx' rx' t' H0.
      destruct (tru11_write_line_done fuel arg_params arg_write_cmd_code x
                  txbuf rxbuf t 0 d0 d0' evs0 tx' rx' t' HT HP HR Hfuel Htx Hrx H0)
        as (H1 & H2 & _). lia. }
    rewrite HX, Hn. split; [|split].
    + revert d d' evs r H.
      apply (Moves_bind_post
               (fun st => (256 <= length (fst (fst st)))%nat /\
                          (256 <= length (snd (fst st)))%nat)); [lia| | |].
      * now apply Moves_tru11_write_any_line.
      * intros d d' evs [[tx' rx'] t'] H. cbn [fst snd].
        exact (Hlen _ _ _ _ _ _ H).
      * intros [[tx' rx'] t'] [H1 H2] d d' evs r H. cbn [fst snd] in *.
        exact (proj1 (IH tx' rx' t' _ _ _ _ H1 H2 H)).
    + intros a E. rewrite E in H. apply bind_done in H.
      destruct H as (d1 & e1 & [[tx' rx'] t'] & e2 & H1 & H & _).
      destruct (Hlen _ _ _ _ _ _ H1) as [Hl1 Hl2].
      exact (proj1 (proj2 (IH tx' rx' t' _ _ _ _ Hl1 Hl2 H)) a eq_refl).
    + intros E. rewrite E in H. apply bind_inv in H.
      destruct H as [(d1 & e1 & [[tx' rx'] t'] & e2 & H1 & H & ->)
                    |[(e & H1 & E')|[_ E']]]; [| |discriminate].
      * destruct (Hlen _ _ _ _ _ _ H1) as [Hl1 Hl2].
        destruct (Moves_tru11_write_any_line fuel arg_params arg_write_cmd_code
                    x txbuf rxbuf t HT HP HR Hfuel Htx Hrx _ _ _ _ H1)
          as (_ & _ & _ & Hd & _).
        destruct (Hd (ex_intro _ _ eq_refl)) as [Hw1 Hq1].
        destruct (proj2 (proj2 (IH tx' rx' t' _ _ _ _ Hl1 Hl2 H)) eq_refl)
          as [Hw2 Hq2].
        rewrite written_app, requested_app, Hw1, Hw2, Hq1, Hq2.
        split; reflexivity.
      * inversion E'; subst e.
        pose proof (Catchable_tru11_write_line fuel arg_params
                      arg_write_cmd_code x txbuf rxbuf t Hx _ _ _ _ H1).
        discriminate.
Qed.

End CutFacts.

(** X13.  A record cut short.  When a file holds, after lines that are
    whole, an accepted line that announces more data bytes than it can
    give, [write_ee] of tbug11 erases and programs the bytes of the lines
    before and the bytes the line can give (a pair of characters cut by the
    end of the line gives a byte too), and [writemem_file] of tru11 writes
    the lines before and then the command, the count and the address of the
    line, and no data byte of it.  Neither returns: the operation ends with
    an exception, and when that is [std::out_of_range], which [main] does
    not catch, all of this has been written.  The lines after are never
    read. *)
Theorem record_cut_short {port : Type} {SC : serial_com port}
  (fuel : nat) (arg_params : cl_my_params) (arg_write_cmd_code : Z)
  (before after : list string) (line_str : string) (tx0 rx0 : list Z)
  (d : port) :
  1 <= serial_txbuf_size arg_params -> 1 <= serial_prog_txbuf_size arg_params ->
  1 <= serial_rxbuf_size arg_params -> (256 <= fuel)%nat ->
  forallb whole_line before = true -> cut_line line_str = true ->
  let in_file := before ++ line_str :: after in
  let cut {A} (X : list Z) (n : Z) (run : port * list event * outcome A) :=
    let '(_, evs, r) := run in
    moves X n evs r /\ (forall a, r <> Done a) /\
    (r = Throw STD_OUT_OF_RANGE -> written evs = X /\ requested evs = n) in
  cut (ee_image before ++ ee_bytes_image line_str (srec_avail line_str))
      (16 * (file_count before + srec_avail line_str))
      (TBug11.write_ee fuel arg_params in_file d) /\
  cut (write_image arg_write_cmd_code before
       ++ arg_write_cmd_code
          :: command_params (srec_count line_str) (srec_address line_str))
      (accepted_count before + file_count before + 1)
      (Tru11.writemem_file fuel arg_params arg_write_cmd_code in_file tx0 rx0 d).
Proof.
  intros HT HP HR Hfuel Hwhole Hcut in_file cut. subst in_file cut. cbv beta.
  split.
  - destruct (TBug11.write_ee _ _ _ d) as [[d' evs] r] eqn:E.
    destruct (cut_write_ee_file fuel arg_params line_str after before
                HT HR ltac:(lia) Hcut Hwhole _ _ _ _ E) as (Hm & Hnd & Hr).
    split; [exact Hm|]. split; [|exact Hr]. intros []. exact Hnd.
  - destruct (Tru11.writemem_file _ _ _ _ _ _ d) as [[d' evs] r] eqn:E.
    unfold Tru11.writemem_file in E.
    exact (cut_tru11_write_loop fuel arg_params arg_write_cmd_code line_str
             after before HT HP HR Hfuel Hcut Hwhole _ _ _ _ _ _ _
             (alloc_size tx0 _) (alloc_size rx0 _) E).
Qed.

(** A record that announces sixteen bytes and ends after its address:
    tbug11 erases and programs the byte at 0x1000 with 0x00, tru11 sends
    the command and the parameters; both end with [std::out_of_range]. *)
Lemma record_cut_short_witness :
  1 <= serial_txbuf_size default_params /\
  1 <= serial_prog_txbuf_size default_params /\
  1 <= serial_rxbuf_size default_params /\ (256 <= 256)%nat /\
  forallb whole_line [] = true /\ cut_line "S1131000" = true /\
  snd cut_write_ee = Throw STD_OUT_OF_RANGE /\
  written (snd (fst cut_write_ee))
  = [0x41; 1; 0x10; 0x3b; 0x16; 0x41; 1; 0x10; 0x00; 0x00;
     0x41; 1; 0x10; 0x3b; 0x17; 0x41; 1; 0x10; 0x3b; 0x00;
     0x41; 1; 0x10; 0x3b; 0x02; 0x41; 1; 0x10; 0x00; 0x00;
     0x41; 1; 0x10; 0x3b; 0x03; 0x41; 1; 0x10; 0x3b; 0x00] /\
  snd cut_tru11_write = Throw STD_OUT_OF_RANGE /\
  written (snd (fst cut_tru11_write)) = [0x02; 16; 0x10; 0x00].
Proof.
  assert (H1 : 1 <= serial_txbuf_size default_params) by (simpl; lia).
  assert (H2 : 1 <= serial_prog_txbuf_size default_params) by (simpl; lia).
  assert (H3 : 1 <= serial_rxbuf_size default_params) by (simpl; lia).
  assert (H4 : (256 <= 256)%nat) by lia.
  assert (H5 : forallb whole_line [] = true) by reflexivity.
  assert (H6 : cut_line "S1131000" = true) by (vm_compute; reflexivity).
  assert (Hr1 : snd cut_write_ee = Throw STD_OUT_OF_RANGE)
    by (vm_compute; reflexivity).
  assert (Hr2 : snd cut_tru11_write = Throw STD_OUT_OF_RANGE)
    by (vm_compute; reflexivity).
  repeat (split; [assumption|]).
  pose proof (record_cut_short 256 default_params Tru11.TALKER_WRITE_CMD
                [] [] "S1131000" [] []
                (Scripted [] [Ret [0x02]]) H1 H2 H3 H4 H5 H6) as [_ Hb].
  assert (Hrun : Tru11.writemem_file 256 default_params Tru11.TALKER_WRITE_CMD
                   ([] ++ ["S1131000"%string]) [] [] (Scripted [] [Ret [0x02]])
                 = (fst (fst cut_tru11_write), snd (fst cut_tru11_write),
                    snd cut_tru11_write)) by (vm_compute; reflexivity).
  rewrite Hrun in Hb. destruct Hb as (_ & _ & Hw).
  split; [vm_compute; reflexivity|]. split; [exact Hr2|].
  rewrite (proj1 (Hw Hr2)). vm_compute. reflexivity.
Defined.

(** ** The command line of tbug11 *)

Lemma substring_all (s : string) :
  String.substring 0 (String.length s) s = s.
Proof. induction s as [|c s IH]; cbn; [reflexivity|]. rewrite IH. reflexivity. Qed.

Lemma length_substring_le (s : string) :
  forall n, (String.length (String.substring 0 n s) <= String.length s)%nat.
Proof.
  induction s as [|c s IH]; intros [|n]; cbn; try lia.
  specialize (IH n). lia.
Qed.

Lemma substring_same_length (s : string) :
  forall n, String.length s = n -> String.substring 0 n s = s.
Proof. intros n <-. apply substring_all. Qed.

Lemma parse_param_exist_eqb (param key : string) :
  CmdLine.parse_param_exist param key = String.eqb param key.
Proof.
  unfold CmdLine.parse_param_exist, CmdLine.compare_key, size.
  destruct (Z.eqb_spec (Z.of_nat (String.length param))
              (Z.of_nat (String.length key))) as [E|E].
  - rewrite (substring_same_length param (String.length key)) by lia.
    destruct (String.eqb param key); reflexivity.
  - destruct (String.eqb_spec param key) as [->|_]; [lia|reflexivity].
Qed.

Lemma parse_params_search_frame (ULONG_MAX : Z) (cmdl_param : string)
  (p : CmdLine.cl_my_params) :
  let p' := snd (CmdLine.parse_params_search ULONG_MAX cmdl_param p) in
  CmdLine.serial_rxbuf_size p' = CmdLine.serial_rxbuf_size p /\
  CmdLine.serial_txbuf_size p' = CmdLine.serial_txbuf_size p /\
  CmdLine.srec_datalen p' = CmdLine.srec_datalen p /\
  CmdLine.verify_config p' = CmdLine.verify_config p /\
  CmdLine.cmd p'
  = match word_cmd cmdl_param with Some c => c | None => CmdLine.cmd p end.
Proof.
  unfold CmdLine.parse_params_search, word_cmd.
  rewrite !parse_param_exist_eqb.
  repeat (match goal with
          | |- context [String.eqb cmdl_param ?k] =>
              destruct (String.eqb cmdl_param k);
              [cbn; repeat split; reflexivity|]
          end).
  repeat (match goal with
          | |- context [let (_, _) := ?x in _] =>
              destruct x as [[|] ?v]; [cbn; repeat split; reflexivity|]
          end).
  cbn. repeat split; reflexivity.
Qed.

(** X14.  No argument of the command line of tbug11 changes the sizes of
    the chunks, the length of the records written, or [verify_config]:
    after [parse_params] they are what they were, which is 256, 256, 16 and
    off after the constructor.  The command is the one of the last command
    word, and a command word is one of [uptalker], [read], [verify],
    [writehex], [write], [write_ee], [write_e] and [write_e20] exactly:
    another argument leaves the command as it was. *)
Theorem parse_params_frame (ULONG_MAX : Z) (arg_v : list string)
  (p : CmdLine.cl_my_params) :
  let p' := CmdLine.parse_params ULONG_MAX arg_v p in
  (CmdLine.serial_rxbuf_size p' = CmdLine.serial_rxbuf_size p /\
   CmdLine.serial_txbuf_size p' = CmdLine.serial_txbuf_size p /\
   CmdLine.srec_datalen p' = CmdLine.srec_datalen p /\
   CmdLine.verify_config p' = CmdLine.verify_config p /\
   CmdLine.cmd p' = last_cmd arg_v (CmdLine.cmd p)) /\
  (p = CmdLine.new_params ->
   CmdLine.serial_rxbuf_size p' = 256 /\ CmdLine.serial_txbuf_size p' = 256 /\
   CmdLine.srec_datalen p' = 16 /\ CmdLine.verify_config p' = false) /\
  (forall word c,
     word_cmd word = Some c <->
     In (word, c)
        [("uptalker"%string, CmdLine.CMD_UPTALKER); ("read"%string, CmdLine.CMD_READ);
         ("verify"%string, CmdLine.CMD_READ_VERIFY);
         ("writehex"%string, CmdLine.CMD_WRITEHEXSTR);
         ("write"%string, CmdLine.CMD_WRITE);
         ("write_ee"%string, CmdLine.CMD_WRITE_EEPROM);
         ("write_e"%string, CmdLine.CMD_WRITE_EPROM);
         ("write_e20"%string, CmdLine.CMD_WRITE_EPROM_E20)]).
Proof.
  intros p'. subst p'.
  assert (H : CmdLine.serial_rxbuf_size (CmdLine.parse_params ULONG_MAX arg_v p)
              = CmdLine.serial_rxbuf_size p /\
              CmdLine.serial_txbuf_size (CmdLine.parse_params ULONG_MAX arg_v p)
              = CmdLine.serial_txbuf_size p /\
              CmdLine.srec_datalen (CmdLine.parse_params ULONG_MAX arg_v p)
              = CmdLine.srec_datalen p /\
              CmdLine.verify_config (CmdLine.parse_params ULONG_MAX arg_v p)
              = CmdLine.verify_config p /\
              CmdLine.cmd (CmdLine.parse_params ULONG_MAX arg_v p)
              = last_cmd arg_v (CmdLine.cmd p)).
  { revert p. induction arg_v as [|a rest IH]; intros p.
    - cbn. repeat split; reflexivity.
    - cbn [CmdLine.parse_params]. unfold last_cmd. cbn [fold_left].
      fold (last_cmd rest).
      destruct (parse_params_search_frame ULONG_MAX a p)
        as (H1 & H2 & H3 & H4 & H5).
      destruct (IH (snd (CmdLine.parse_params_search ULONG_MAX a p)))
        as (G1 & G2 & G3 & G4 & G5).
      rewrite G1, G2, G3, G4, G5, H1, H2, H3, H4, H5. repeat split; reflexivity. }
  split; [exact H|]. split.
  - intros ->. destruct H as (H1 & H2 & H3 & H4 & _).
    rewrite H1, H2, H3, H4. repeat split; reflexivity.
  - intros word c. unfold word_cmd. split.
    + repeat (match goal with
              | |- context [String.eqb word ?k] =>
                  destruct (String.eqb_spec word k) as [->|?];
                  [intros E; inversion E; subst; cbn; tauto|]
              end).
      discriminate.
    + cbn [In]. intros H0.
      repeat (destruct H0 as [H0|H0]; [inversion H0; subst; reflexivity|]).
      destruct H0.
Qed.

Lemma substring_app_l (key w : string) :
  String.substring 0 (String.length key) (key ++ w) = key.
Proof. induction key as [|c key IH]; cbn; [destruct w; reflexivity|]. rewrite IH. reflexivity. Qed.

Lemma substring_app_r (key w : string) :
  forall n, (String.length w <= n)%nat ->
    String.substring (String.length key) n (key ++ w) = w.
Proof.
  induction key as [|c key IH]; intros n Hn; cbn.
  - revert n Hn. induction w as [|c w IHw]; intros [|n] Hn; cbn in *;
      try reflexivity; try lia.
    rewrite IHw by lia. reflexivity.
  - apply IH. exact Hn.
Qed.

Lemma length_append (a b : string) :
  String.length (a ++ b) = (String.length a + String.length b)%nat.
Proof. induction a as [|c a IH]; cbn; [reflexivity|]. rewrite IH. reflexivity. Qed.

Lemma compare_key_app (key w : string) : CmdLine.compare_key (key ++ w) key = true.
Proof. unfold CmdLine.compare_key. rewrite substring_app_l. apply String.eqb_refl. Qed.

Lemma value_of_app (key w : string) : CmdLine.value_of (key ++ w) key = w.
Proof.
  unfold CmdLine.value_of. apply substring_app_r. rewrite length_append. lia.
Qed.

Lemma size_key_value (key : string) (c : ascii) (w : string) :
  (size (key ++ String c w) >=? size key + 1) = true.
Proof.
  unfold size. rewrite length_append. cbn [String.length].
  apply Z.geb_le. lia.
Qed.

Lemma parse_param_str_key (key : string) (c : ascii) (w old : string) :
  CmdLine.parse_param_str (key ++ String c w) key old = (true, String c w).
Proof.
  unfold CmdLine.parse_param_str.
  rewrite size_key_value, compare_key_app, value_of_app. reflexivity.
Qed.

Lemma parse_param_str_other (param key old : string) :
  CmdLine.compare_key param key = false ->
  CmdLine.parse_param_str param key old = (false, old).
Proof.
  intros H. unfold CmdLine.parse_param_str. rewrite H.
  destruct (_ >=? _); reflexivity.
Qed.

Lemma parse_param_yn_key (key : string) (c : ascii) (w : string) (old : bool) :
  CmdLine.parse_param_yn (key ++ String c w) key old = (true, Ascii.eqb c "y").
Proof.
  unfold CmdLine.parse_param_yn.
  rewrite size_key_value, compare_key_app.
  replace (String.substring (String.length key) 1 (key ++ String c w))
    with (String c "").
  - cbn. destruct (Ascii.eqb c "y"); reflexivity.
  - clear. induction key as [|k key IH]; cbn; [destruct w; reflexivity|exact IH].
Qed.

Lemma parse_param_yn_other (param key : string) (old : bool) :
  CmdLine.compare_key param key = false ->
  CmdLine.parse_param_yn param key old = (false, old).
Proof.
  intros H. unfold CmdLine.parse_param_yn. rewrite H.
  destruct (_ >=? _); reflexivity.
Qed.

Lemma parse_param_val_uint_key (ULONG_MAX : Z) (key : string) (c : ascii)
  (w : string) (old : Z) :
  CmdLine.parse_param_val_uint ULONG_MAX (key ++ String c w) key old
  = (true, u32 (CmdLine.strtoul0 ULONG_MAX (String c w))).
Proof.
  unfold CmdLine.parse_param_val_uint.
  rewrite size_key_value, compare_key_app, value_of_app.
  replace (size (String c w) =? 0) with false; [reflexivity|].
  symmetry. apply Z.eqb_neq. unfold size. cbn. lia.
Qed.

Lemma parse_param_val_uint_other (ULONG_MAX : Z) (param key : string) (old : Z) :
  CmdLine.compare_key param key = false ->
  CmdLine.parse_param_val_uint ULONG_MAX param key old = (false, old).
Proof.
  intros H. unfold CmdLine.parse_param_val_uint. rewrite H.
  destruct (_ >=? _); reflexivity.
Qed.

Lemma compare_key_short (param key : string) :
  (size param >=? size key + 1) = false ->
  String.eqb param key = false ->
  CmdLine.parse_param_exist param key = false.
Proof. intros _ H. rewrite parse_param_exist_eqb. exact H. Qed.

Lemma parse_param_str_false (param key old v : string) :
  CmdLine.parse_param_str param key old = (false, v) -> v = old.
Proof.
  unfold CmdLine.parse_param_str.
  destruct (_ >=? _); [destruct (CmdLine.compare_key _ _)|];
    intros H; inversion H; reflexivity.
Qed.

Lemma parse_param_yn_false (param key : string) (old v : bool) :
  CmdLine.parse_param_yn param key old = (false, v) -> v = old.
Proof.
  unfold CmdLine.parse_param_yn.
  destruct (_ >=? _); [destruct (CmdLine.compare_key _ _);
                       [destruct (String.eqb _ _)|]|];
    intros H; inversion H; reflexivity.
Qed.

Lemma parse_param_val_uint_false (ULONG_MAX : Z) (param key : string)
  (old v : Z) :
  CmdLine.parse_param_val_uint ULONG_MAX param key old = (false, v) -> v = old.
Proof.
  unfold CmdLine.parse_param_val_uint.
  destruct (_ >=? _); [destruct (CmdLine.compare_key _ _);
                       [destruct (negb _)|]|];
    intros H; inversion H; reflexivity.
Qed.

Lemma parse_params_search_false (ULONG_MAX : Z) (a : string)
  (p : CmdLine.cl_my_params) :
  fst (CmdLine.parse_params_search ULONG_MAX a p) = false ->
  snd (CmdLine.parse_params_search ULONG_MAX a p) = p.
Proof.
  destruct p. unfold CmdLine.parse_params_search.
  repeat (match goal with
          | |- context [CmdLine.parse_param_exist a ?k] =>
              destruct (CmdLine.parse_param_exist a k);
              [cbn; discriminate|]
          end).
  cbn [CmdLine.dev_path CmdLine.timeoutms CmdLine.talker_filename
       CmdLine.use_fast CmdLine.from_addr CmdLine.to_addr
       CmdLine.full_file_name CmdLine.data].
  repeat (match goal with
          | |- context [let (_, _) := ?x in _] =>
              let E := fresh "E" in
              destruct x as [[|] ?v] eqn:E; [cbn; discriminate|];
              first [apply parse_param_str_false in E
                    |apply parse_param_yn_false in E
                    |apply parse_param_val_uint_false in E];
              subst; cbn
          end).
  reflexivity.
Qed.

Ltac skip_key :=
  first [rewrite parse_param_str_other by reflexivity
        |rewrite parse_param_val_uint_other by reflexivity
        |rewrite parse_param_yn_other by reflexivity].

Ltac take_key :=
  first [rewrite parse_param_str_key
        |rewrite parse_param_val_uint_key
        |rewrite parse_param_yn_key].

Ltac search_key :=
  unfold CmdLine.parse_params_search; rewrite !parse_param_exist_eqb;
  repeat (match goal with
          | |- context [String.eqb ?a ?b] => change (String.eqb a b) with false
          end);
  cbv beta iota;
  repeat (skip_key; cbv beta iota); take_key; reflexivity.

(** X15.  The arguments of the form key and value.  An argument that is one
    of [path=], [timeout=], [talker=], [fast=], [from_addr=], [to_addr=],
    [file=] and [hex=] followed by at least one character sets the member
    of that key and no other: the text after the key for a string, whether
    its first character is [y] for [fast=], and the number that
    [strtoul(_, NULL, 0)] reads in it, as a [uint32_t], for a number.  A key
    with nothing after it is not accepted, and an argument that is not
    accepted changes nothing. *)
Theorem key_value_arguments (ULONG_MAX : Z) (c : ascii) (w : string)
  (p : CmdLine.cl_my_params) :
  let v := String c w in
  let search a := CmdLine.parse_params_search ULONG_MAX a p in
  let number := u32 (CmdLine.strtoul0 ULONG_MAX v) in
  search ("path=" ++ v)%string = (true, CmdLine.set_dev_path v p) /\
  search ("timeout=" ++ v)%string = (true, CmdLine.set_timeoutms number p) /\
  search ("talker=" ++ v)%string = (true, CmdLine.set_talker_filename v p) /\
  search ("fast=" ++ v)%string
  = (true, CmdLine.set_use_fast (Ascii.eqb c "y") p) /\
  search ("from_addr=" ++ v)%string = (true, CmdLine.set_from_addr number p) /\
  search ("to_addr=" ++ v)%string = (true, CmdLine.set_to_addr number p) /\
  search ("file=" ++ v)%string = (true, CmdLine.set_full_file_name v p) /\
  search ("hex=" ++ v)%string = (true, CmdLine.set_data v p) /\
  (forall key,
     In key ["path="; "timeout="; "talker="; "fast="; "from_addr="; "to_addr=";
             "file="; "hex="]%string ->
     search key = (false, p)) /\
  (forall a, fst (search a) = false -> snd (search a) = p).
Proof.
  intros v search number. subst v search number. cbv beta.
  destruct p.
  repeat (split; [search_key|]).
  split.
  - intros key Hk. cbn [In] in Hk.
    repeat (destruct Hk as [<-|Hk]; [vm_compute; reflexivity|]).
    destruct Hk.
  - intros a. apply parse_params_search_false.
Qed.

Section ProcessFacts.

Context {port : Type} {SC : serial_com port} {CT : serial_ctl port}.

Lemma data_of_app (t1 t2 : list action) :
  data_of (t1 ++ t2) = data_of t1 ++ data_of t2.
Proof. unfold data_of. apply flat_map_app. Qed.

Lemma calls_of_app (t1 t2 : list action) :
  calls_of (t1 ++ t2) = calls_of t1 ++ calls_of t2.
Proof. unfold calls_of. apply flat_map_app. Qed.

Lemma data_of_Data (evs : list event) : data_of (map Data evs) = evs.
Proof. induction evs as [|ev evs IH]; simpl; [|rewrite IH]; reflexivity. Qed.

Lemma calls_of_Data (evs : list event) : calls_of (map Data evs) = [].
Proof. induction evs as [|ev evs IH]; simpl; [|rewrite IH]; reflexivity. Qed.

Lemma pbind_inv {A B} (m : P port A) (k : A -> P port B)
  (d d' : port) (t : list action) (r : outcome B) :
  pbind m k d = (d', t, r) ->
  (exists d1 t1 a t2,
     m d = (d1, t1, Done a) /\ k a d1 = (d', t2, r) /\ t = t1 ++ t2)
  \/ (exists e, m d = (d', t, Throw e) /\ r = Throw e)
  \/ (m d = (d', t, OutOfFuel) /\ r = OutOfFuel).
Proof.
  unfold pbind. destruct (m d) as [[d1 t1] [a|e|]].
  - destruct (k a d1) as [[d2 t2] r2] eqn:E. intros H. injection H as <- <- <-.
    left. exists d1, t1, a, t2. repeat split; assumption.
  - intros H. injection H as <- <- <-. right. left. exists e. split; reflexivity.
  - intros H. injection H as <- <- <-. right. right. split; reflexivity.
Qed.

Lemma serial_call_inv (c : call) (d d' : port) (t : list action)
  (r : outcome unit) :
  serial_call c d = (d', t, r) ->
  (t = [Control c (Ret tt)] /\ r = Done tt)
  \/ (exists code, t = [Control c (Raise code)]
                   /\ r = Throw (SERIAL_COM_ERROR code)).
Proof.
  unfold serial_call. destruct (control d c) as [d1 [[]|code]].
  - intros H. injection H as <- <- <-. left. split; reflexivity.
  - intros H. injection H as <- <- <-. right. exists code. split; reflexivity.
Qed.

Lemma transfer_inv {A} (m : M port A) (d d' : port) (t : list action)
  (r : outcome A) :
  transfer m d = (d', t, r) ->
  exists evs, m d = (d', evs, r) /\ t = map Data evs.
Proof.
  unfold transfer. destruct (m d) as [[d1 evs] r1]. intros H.
  injection H as <- <- <-. exists evs. split; reflexivity.
Qed.

(** A call, then a computation: the call is the first action, and when it
    raises it is the last. *)
Lemma call_then_inv {B} (c : call) (body : P port B)
  (d d' : port) (t : list action) (r : outcome B) :
  pbind (serial_call c) (fun _ => body) d = (d', t, r) ->
  exists rep rest,
    t = Control c rep :: rest /\
    ((exists code, rep = Raise code /\ rest = []
                   /\ r = Throw (SERIAL_COM_ERROR code))
     \/ (rep = Ret tt /\ exists d1, body d1 = (d', rest, r))).
Proof.
  intros H. apply pbind_inv in H.
  destruct H as [(d1 & t1 & a & t2 & H1 & H2 & ->)|[(e & H1 & ->)|(H1 & ->)]];
    apply serial_call_inv in H1;
    destruct H1 as [(-> & Hr)|(code & -> & Hr)]; try discriminate.
  - exists (Ret tt), t2. split; [reflexivity|]. right.
    split; [reflexivity|]. exists d1. assumption.
  - injection Hr as ->. exists (Raise code), []. split; [reflexivity|]. left.
    exists code. repeat split.
Qed.

(** The three calls that open the port, then a computation. *)
Lemma open_then_inv {B} (path : string) (timeout_ms : Z) (body : P port B)
  (d d' : port) (t : list action) (r : outcome B) :
  pbind (serial_call (OpenHandle path)) (fun _ =>
  pbind (serial_call (SetTimeout timeout_ms)) (fun _ =>
  pbind (serial_call Purge) (fun _ => body))) d = (d', t, r) ->
  (exists code k,
     (k < 3)%nat /\ r = Throw (SERIAL_COM_ERROR code) /\ data_of t = [] /\
     calls_of t = firstn (S k) [OpenHandle path; SetTimeout timeout_ms; Purge])
  \/ (exists d1 rest, t = opened path timeout_ms ++ rest
                      /\ body d1 = (d', rest, r)).
Proof.
  intros H.
  apply call_then_inv in H.
  destruct H as (rep1 & rest1 & -> & [(code & -> & -> & ->)|(-> & d1 & H)]).
  { left. exists code, 0%nat. repeat split. lia. }
  apply call_then_inv in H.
  destruct H as (rep2 & rest2 & -> & [(code & -> & -> & ->)|(-> & d2 & H)]).
  { left. exists code, 1%nat. repeat split. lia. }
  apply call_then_inv in H.
  destruct H as (rep3 & rest3 & -> & [(code & -> & -> & ->)|(-> & d3 & H)]).
  { left. exists code, 2%nat. repeat split. lia. }
  right. exists d3, rest3. split; [reflexivity|assumption].
Qed.

Lemma Quiet_pret {A} (a : A) : Quiet (pret a : P port A).
Proof. intros d d' t r H. injection H as <- <- <-. reflexivity. Qed.

Lemma Quiet_transfer {A} (m : M port A) : Quiet (transfer m).
Proof.
  intros d d' t r H. apply transfer_inv in H. destruct H as (evs & _ & ->).
  apply calls_of_Data.
Qed.

Lemma Quiet_pbind {A B} (m : P port A) (k : A -> P port B) :
  Quiet m -> (forall a, Quiet (k a)) -> Quiet (pbind m k).
Proof.
  intros Hm Hk d d' t r H. apply pbind_inv in H.
  destruct H as [(d1 & t1 & a & t2 & H1 & H2 & ->)|[(e & H1 & ->)|(H1 & ->)]].
  - rewrite calls_of_app, (Hm _ _ _ _ H1), (Hk _ _ _ _ _ H2). reflexivity.
  - exact (Hm _ _ _ _ H1).
  - exact (Hm _ _ _ _ H1).
Qed.

Lemma Sets_Quiet {A} (again : bool) (m : P port A) : Quiet m -> Sets again m.
Proof. intros HQ d d' t r H. left. exact (HQ _ _ _ _ H). Qed.

Lemma Sets_call {A} (body : P port A) :
  Quiet body ->
  Sets true (pbind (serial_call (SetParams 9600 8 NOPARITY ONESTOPBIT false))
               (fun _ => body)).
Proof.
  intros HQ d d' t r H. apply call_then_inv in H.
  destruct H as (rep & rest' & -> & [(code & -> & -> & ->)|(-> & d1 & H)]).
  - right. split; reflexivity.
  - right. split; [reflexivity|]. cbn [calls_of flat_map app].
    change (flat_map _ rest') with (calls_of rest').
    rewrite (HQ _ _ _ _ H). reflexivity.
Qed.

Lemma Sets_pbind {A B} (again : bool) (m : P port A) (k : A -> P port B) :
  Quiet m -> (forall a, Sets again (k a)) -> Sets again (pbind m k).
Proof.
  intros Hm Hk d d' t r H. apply pbind_inv in H.
  destruct H as [(d1 & t1 & a & t2 & H1 & H2 & ->)|[(e & H1 & ->)|(H1 & ->)]].
  - rewrite calls_of_app, (Hm _ _ _ _ H1). exact (Hk _ _ _ _ _ H2).
  - left. exact (Hm _ _ _ _ H1).
  - left. exact (Hm _ _ _ _ H1).
Qed.

(** The line is set, then the rest runs. *)
Lemma line_then {B} (path : string) (timeout_ms : Z) (first : call)
  (again : bool) (body : P port B) (done : B)
  (d d' : port) (rest : list action) (r : outcome B) :
  Sets again body ->
  pbind (serial_call first) (fun _ => body) d = (d', rest, r) ->
  set_up path timeout_ms true first again (opened path timeout_ms ++ rest) r done.
Proof.
  intros HQ H. right. exists rest. split; [reflexivity|].
  apply call_then_inv in H.
  destruct H as (rep & rest' & -> & [(code & -> & -> & ->)|(-> & d1 & H)]).
  - exists (Raise code), []. split; [reflexivity|]. split.
    + intros c Hc. injection Hc as <-. split; reflexivity.
    + left. reflexivity.
  - exists (Ret tt), rest'. split; [reflexivity|]. split.
    + intros c Hc. discriminate.
    + exact (HQ _ _ _ _ H).
Qed.

Lemma tbug11_prompt (c : CmdLine.cmd_type) (stdin : option string) :
  TBug11Main.prog_prompt_write c stdin = confirms stdin.
Proof.
  destruct stdin as [[|a s]|]; try reflexivity.
  simpl. destruct (Ascii.eqb a "y"); reflexivity.
Qed.

Lemma tru11_prompt (c : Z) (stdin : option string) :
  Tru11Main.prog_prompt_write c stdin = confirms stdin.
Proof.
  destruct stdin as [[|a s]|]; try reflexivity.
  simpl. destruct (Ascii.eqb a "y"); reflexivity.
Qed.

Lemma boot_call (b : bool) :
  (if b then serial_call (SetParams 7618 8 NOPARITY ONESTOPBIT false)
   else serial_call (SetParams 1200 8 NOPARITY ONESTOPBIT false))
  = (serial_call (boot_settings b) : P port unit).
Proof. destruct b; reflexivity. Qed.

Lemma no_run {B} (path : string) (timeout_ms : Z) (first : call) (again : bool)
  (done : B) (d d' : port) (rest : list action) (r : outcome B) :
  pret done d = (d', rest, r) ->
  set_up path timeout_ms false first again (opened path timeout_ms ++ rest) r done.
Proof.
  intros H. injection H as <- <- <-. right. exists []. repeat split.
Qed.

End ProcessFacts.

Ltac quiet :=
  repeat first [apply Quiet_pret | apply Quiet_transfer
               | apply Quiet_pbind; [|intros ?]].

(** X16.  Every run of [process_cmd_line], of tbug11 and of tru11, begins by
    opening the port at [dev_path], giving it the timeout [timeoutms] and
    purging it; when one of these calls raises, the run ends there with
    the exception of [serial_com] and nothing is transferred.  Without a
    command, and for a command that asks for a confirmation when the
    answer does not begin with a small y, nothing more happens: the line
    is not set, nothing is transferred, and the function returns true.
    Every other command sets the line before it transfers anything, to
    9600 baud, 8 bits, no parity, one stop bit, no flow control; only
    [uptalker] sets it first to 7618 baud (with [fast]) or 1200 baud, and
    to 9600 baud later.  Nothing is transferred when that call raises. *)
Theorem port_set_up {port : Type} {SC : serial_com port} {CT : serial_ctl port}
  (fuel : nat) (talker_file in_file : list string) (stdin : option string)
  (tx0 rx0 : list Z) (d d' : port) (t : list action)
  (r : outcome (bool * list string)) :
  (forall p : CmdLine.cl_my_params,
     TBug11Main.process_cmd_line fuel p talker_file in_file stdin tx0 rx0 d
     = (d', t, r) ->
     let uptalker :=
       match CmdLine.cmd p with CmdLine.CMD_UPTALKER => true | _ => false end in
     set_up (CmdLine.dev_path p) (CmdLine.timeoutms p)
       (tbug11_runs (CmdLine.cmd p) stdin)
       (if uptalker then boot_settings (CmdLine.use_fast p) else talker_settings)
       uptalker t r (true, [])) /\
  (forall p : Tru11Main.cl_my_params,
     Tru11Main.process_cmd_line fuel p talker_file in_file stdin tx0 rx0 d
     = (d', t, r) ->
     let uptalker :=
       match Tru11Main.cmd p with Tru11Main.CMD_UPTALKER => true | _ => false end in
     set_up (Tru11Main.dev_path p) (Tru11Main.timeoutms p)
       (tru11_runs (Tru11Main.cmd p) stdin)
       (if uptalker then boot_settings (Tru11Main.use_fast p) else talker_settings)
       uptalker t r (true, [])) /\
  (confirms stdin = true <-> exists rest, stdin = Some (String "y" rest)) /\
  (forall c, tbug11_asks c = true <->
             In c [CmdLine.CMD_WRITE_EEPROM; CmdLine.CMD_WRITE_EPROM;
                   CmdLine.CMD_WRITE_EPROM_E20]) /\
  (forall c, tru11_asks c = true <->
             In c [Tru11Main.CMD_WRITE_EE_HEXSTR; Tru11Main.CMD_WRITE_EE;
                   Tru11Main.CMD_WRITE_E; Tru11Main.CMD_WRITE_E20]).
Proof.
  split; [|split; [|split; [|split]]].
  - intros p H uptalker. subst uptalker.
    unfold TBug11Main.process_cmd_line in H. cbv zeta in H.
    apply open_then_inv in H.
    destruct H as [H|(d1 & rest & -> & H)]; [left; exact H|].
    rewrite ?tbug11_prompt, ?boot_call in H.
    destruct (CmdLine.cmd p); cbn [tbug11_runs tbug11_asks negb orb];
      try match goal with
          | |- context [confirms stdin] => destruct (confirms stdin)
          end;
      first [ exact (no_run _ _ _ _ _ _ _ _ _ H)
            | refine (line_then _ _ _ _ _ _ _ _ _ _ _ H) ].
    all: try solve [apply Sets_Quiet; quiet].
    apply Sets_pbind; [quiet|intros _]. apply Sets_call. quiet.
  - intros p H uptalker. subst uptalker.
    unfold Tru11Main.process_cmd_line in H.
    apply open_then_inv in H.
    destruct H as [H|(d1 & rest & -> & H)]; [left; exact H|].
    rewrite ?tru11_prompt, ?boot_call in H.
    destruct (Tru11Main.cmd p); cbn [tru11_runs tru11_asks negb orb];
      try match goal with
          | |- context [confirms stdin] => destruct (confirms stdin)
          end;
      first [ exact (no_run _ _ _ _ _ _ _ _ _ H)
            | refine (line_then _ _ _ _ _ _ _ _ _ _ _ H) ].
    all: try solve [apply Sets_Quiet; quiet].
    apply Sets_pbind; [quiet|intros _]. apply Sets_pbind; [quiet|intros _].
    apply Sets_call. quiet.
  - unfold confirms. split.
    + destruct stdin as [[|a s]|]; try discriminate.
      intros H. apply Ascii.eqb_eq in H. subst a. exists s. reflexivity.
    + intros (rest & ->). reflexivity.
  - intros c. destruct c; simpl; split; intros H; try discriminate;
      try reflexivity; try tauto;
      repeat (destruct H as [H|H]; try discriminate H); contradiction.
  - intros c. destruct c; simpl; split; intros H; try discriminate;
      try reflexivity; try tauto;
      repeat (destruct H as [H|H]; try discriminate H); contradiction.
Qed.

Section UptalkerFacts.

Context {port : Type} {SC : serial_com port} {CT : serial_ctl port}.

Lemma data_of_opened (path : string) (timeout_ms : Z) (rest : list action) :
  data_of (opened path timeout_ms ++ rest) = data_of rest.
Proof. reflexivity. Qed.






End UptalkerFacts.



Section DispatchFacts.

Context {port : Type} {SC : serial_com port} {CT : serial_ctl port}.

Lemma data_run_pbind {A B} (m : P port A) (k : A -> P port B) (d : port) :
  data_run (pbind m k) d = bind (data_run m) (fun a => data_run (k a)) d.
Proof.
  unfold data_run, pbind, bind. destruct (m d) as [[d1 t1] [a|e|]]; try reflexivity.
  destruct (k a d1) as [[d2 t2] r2]. rewrite data_of_app. reflexivity.
Qed.

Lemma Moves_data_pret {A} (a : A) : Moves (data_run (pret a : P port A)) [] 0.
Proof. exact (Moves_ret a). Qed.

Lemma Moves_data_call (c : call) : Moves (data_run (serial_call c)) [] 0.
Proof.
  intros d d' evs r. unfold data_run, serial_call.
  destruct (control d c) as [d1 [[]|code]]; intros H; injection H as <- <- <-.
  - exact (Moves_ret tt d d [] _ eq_refl).
  - exact (Moves_lift (Throw (SERIAL_COM_ERROR code)) ltac:(discriminate)
             d d [] _ eq_refl).
Qed.

Lemma Moves_data_transfer {A} (m : M port A) (X : list Z) (n : Z) :
  Moves m X n -> Moves (data_run (transfer m)) X n.
Proof.
  intros Hm d d' evs r. unfold data_run, transfer.
  destruct (m d) as [[d1 evs1] r1] eqn:E. rewrite data_of_Data.
  intros H. injection H as <- <- <-. exact (Hm _ _ _ _ E).
Qed.

Lemma Moves_data_pbind {A B} (m : P port A) (k : A -> P port B)
  (X Y : list Z) (n1 n2 : Z) :
  0 <= n2 ->
  Moves (data_run m) X n1 -> (forall a, Moves (data_run (k a)) Y n2) ->
  Moves (data_run (pbind m k)) (X ++ Y) (n1 + n2).
Proof.
  intros Hn Hm Hk d d' evs r H. rewrite data_run_pbind in H.
  exact (Moves_bind _ _ X Y n1 n2 Hn Hm Hk _ _ _ _ H).
Qed.

(** A call before a computation adds nothing to what it moves. *)
Lemma Moves_data_after {B} (c : call) (body : P port B) (X : list Z) (n : Z) :
  0 <= n ->
  Moves (data_run body) X n ->
  Moves (data_run (pbind (serial_call c) (fun _ => body))) X n.
Proof.
  intros Hn Hb.
  apply (Moves_eq _ ([] ++ X) X (0 + n) n); [|reflexivity|lia].
  apply Moves_data_pbind; [assumption|apply Moves_data_call|intros _; assumption].
Qed.

(** A transfer and then the return of [process_cmd_line]. *)
Lemma Moves_data_last {A B} (m : M port A) (f : A -> B) (X : list Z) (n : Z) :
  Moves m X n ->
  Moves (data_run (pbind (transfer m) (fun a => pret (f a)))) X n.
Proof.
  intros Hm.
  apply (Moves_eq _ (X ++ []) X (n + 0) n); [|apply app_nil_r|lia].
  apply Moves_data_pbind; [lia|now apply Moves_data_transfer|].
  intros a. apply Moves_data_pret.
Qed.

Lemma data_run_moves {A} (m : P port A) (X : list Z) (n : Z)
  (d d' : port) (t : list action) (r : outcome A) :
  Moves (data_run m) X n -> m d = (d', t, r) -> moves X n (data_of t) r.
Proof.
  intros Hm H. apply (Hm d d'). unfold data_run. rewrite H. reflexivity.
Qed.

Lemma moves_count_nonneg {A} (X : list Z) (n : Z) (evs : list event)
  (r : outcome A) : moves X n evs r -> 0 <= n.
Proof. intros (_ & _ & H & _). lia. Qed.

Lemma Moves_tru11_writemem_file (fuel : nat) (arg_params : cl_my_params)
  (arg_write_cmd_code : Z) (in_file : list string) (tx0 rx0 : list Z) :
  1 <= serial_txbuf_size arg_params -> 1 <= serial_prog_txbuf_size arg_params ->
  1 <= serial_rxbuf_size arg_params -> (256 <= fuel)%nat ->
  Moves (Tru11.writemem_file fuel arg_params arg_write_cmd_code in_file tx0 rx0)
    (write_image arg_write_cmd_code in_file)
    (accepted_count in_file + file_count in_file).
Proof.
  intros HT HP HR Hfuel. unfold Tru11.writemem_file.
  apply Moves_tru11_write_loop; try assumption; apply alloc_size.
Qed.

Lemma Moves_tru11_readmem_verify (fuel : nat) (arg_params : cl_my_params)
  (in_file : list string) (tx0 rx0 : list Z) :
  1 <= serial_txbuf_size arg_params -> 1 <= serial_rxbuf_size arg_params ->
  (256 <= fuel)%nat ->
  Moves (Tru11.readmem_verify fuel arg_params in_file tx0 rx0)
    (verify_image in_file) (accepted_count in_file + file_count in_file).
Proof.
  intros HT HR Hfuel. unfold Tru11.readmem_verify.
  apply Moves_tru11_verify_loop; try assumption; apply alloc_size.
Qed.

Lemma Moves_tru11_readmem (fuel : nat) (arg_params : cl_my_params)
  (tx0 rx0 : list Z) :
  1 <= serial_txbuf_size arg_params -> 1 <= serial_rxbuf_size arg_params ->
  let N := u32 (to_addr arg_params - from_addr arg_params + 1) in
  read_rounds N + 256 <= Z.of_nat fuel ->
  Moves (Tru11.readmem fuel arg_params tx0 rx0)
    (read_image fuel (u16 (from_addr arg_params)) N) (read_rounds N + N).
Proof.
  intros HT HR N Hfuel.
  assert (HN : 0 <= N < 4294967296) by (apply Z.mod_pos_bound; lia).
  unfold Tru11.readmem. cbv zeta. fold N.
  pose proof (alloc_size tx0 (serial_txbuf_size arg_params)) as Htx.
  pose proof (alloc_size rx0 (serial_rxbuf_size arg_params)) as Hrx.
  eapply Moves_eq.
  - apply (Moves_bind _ _ (read_image fuel (u16 (from_addr arg_params)) N) []
             (read_rounds N + N) 0); [lia| |].
    + apply Moves_tru11_readmem_loop; try assumption; lia.
    + intros e. apply Moves_ret.
  - apply app_nil_r.
  - lia.
Qed.

(** The facts on the length of a hexadecimal string of 1 to 510
    characters. *)
Lemma hexstr_facts (data : string) :
  1 <= size data <= 510 ->
  let n := (size data + 1) / 2 in
  size (TBug11Ops.hexstr_even data) / 2 = n /\
  2 * n <= size (TBug11Ops.hexstr_even data) + 2 /\
  1 <= n <= 255 /\
  hexstr_bytes (TBug11Ops.hexstr_even data)
  = map (fun k => hexstr_byte (TBug11Ops.hexstr_even data) (Z.of_nat k))
      (seq 0 (Z.to_nat n)).
Proof.
  intros Hsz n.
  pose proof (size_hexstr_even data) as He.
  assert (Hn : size (TBug11Ops.hexstr_even data) / 2 = n).
  { rewrite He. unfold n.
    pose proof (Z.mod_pos_bound (size data) 2 ltac:(lia)).
    Z.to_euclidean_division_equations. lia. }
  split; [assumption|]. split.
  { rewrite <- Hn. Z.to_euclidean_division_equations. lia. }
  split.
  { unfold n. Z.to_euclidean_division_equations. lia. }
  unfold hexstr_bytes. rewrite Hn. reflexivity.
Qed.

Lemma Moves_tbug11_writemem_hexstr (fuel : nat) (arg_params : cl_my_params)
  (data : string) (tx0 rx0 : list Z) :
  1 <= serial_txbuf_size arg_params -> 1 <= serial_rxbuf_size arg_params ->
  (255 <= fuel)%nat -> 0 <= from_addr arg_params < 65536 ->
  1 <= size data <= 510 ->
  Moves (TBug11Ops.writemem_hexstr fuel arg_params data tx0 rx0)
    (TBug11.TALKER_WRITE_CMD
       :: command_params ((size data + 1) / 2) (from_addr arg_params)
       ++ hexstr_bytes (TBug11Ops.hexstr_even data))
    (1 + (size data + 1) / 2).
Proof.
  intros HT HR Hfuel Ha Hsz.
  destruct (hexstr_facts data Hsz) as (Hn & Hn2 & Hr & Hb).
  assert (Hpos : (size data >? 0) = true) by (apply Z.gtb_lt; lia).
  pose proof (alloc_size tx0 (serial_txbuf_size arg_params)) as Htx.
  pose proof (alloc_size rx0 (serial_rxbuf_size arg_params)) as Hrx.
  intros d d' evs r E.
  unfold TBug11Ops.writemem_hexstr in E. rewrite Hpos in E. cbv zeta in E.
  rewrite Hn, (u32_small ((size data + 1) / 2)),
    (u16_small (from_addr arg_params)) in E by lia.
  rewrite Hb.
  exact (Moves_tbug11_hexstr_loop fuel arg_params _ _ _ _ HT HR Hfuel Hr Hn2
           Htx Hrx _ _ _ _ E).
Qed.

Lemma Moves_tru11_writemem_hexstr (fuel : nat) (arg_params : cl_my_params)
  (arg_write_cmd_code : Z) (data : string) (tx0 rx0 : list Z) :
  1 <= serial_txbuf_size arg_params -> 1 <= serial_rxbuf_size arg_params ->
  (255 <= fuel)%nat -> 0 <= from_addr arg_params < 65536 ->
  1 <= size data <= 510 ->
  Moves (Tru11Ops.writemem_hexstr fuel arg_params arg_write_cmd_code data
           tx0 rx0)
    (arg_write_cmd_code
       :: command_params ((size data + 1) / 2) (from_addr arg_params)
       ++ hexstr_bytes (TBug11Ops.hexstr_even data))
    (1 + (size data + 1) / 2).
Proof.
  intros HT HR Hfuel Ha Hsz.
  destruct (hexstr_facts data Hsz) as (Hn & Hn2 & Hr & Hb).
  assert (Hpos : (size data >? 0) = true) by (apply Z.gtb_lt; lia).
  pose proof (alloc_size tx0 (serial_txbuf_size arg_params)) as Htx.
  pose proof (alloc_size rx0 (serial_rxbuf_size arg_params)) as Hrx.
  intros d d' evs r E.
  unfold Tru11Ops.writemem_hexstr in E. rewrite Hpos in E. cbv zeta in E.
  rewrite Hn, (u32_small ((size data + 1) / 2)),
    (u16_small (from_addr arg_params)) in E by lia.
  rewrite Hb.
  exact (Moves_tru11_hexstr_loop fuel arg_params arg_write_cmd_code _ _ _ _
           HT HR Hfuel Hr Hn2 Htx Hrx _ _ _ _ E).
Qed.

End DispatchFacts.

(** The set-up is passed, and the line is set: what is left to show is
    what the command itself moves. *)
Ltac dispatched H :=
  refine (data_run_moves _ _ _ _ _ _ _ _ H);
  repeat (apply Moves_data_after; [lia|]).

(** X18.  What the commands of tru11 move over the line, with chunk sizes
    of at least 1: the set-up adds nothing to the operation of the command,
    and the command selects the code sent with each record.  The command
    that writes a file to normal memory sends every accepted record with
    the code 0x02, the ones for the EEPROM, the EPROM and the EPROM of the
    E20, once confirmed, with 0x03, 0x04 and 0x05; writing a hexadecimal
    string of 1 to 510 characters sends one block with 0x02, or 0x03 for
    the EEPROM once confirmed; verifying sends the read command of every
    accepted record, and reading the read commands of its rounds.  In each
    case a prefix is written when the run fails, and all of it on
    return. *)
Theorem tru11_commands {port : Type} {SC : serial_com port}
  {CT : serial_ctl port}
  (fuel : nat) (p : Tru11Main.cl_my_params)
  (talker_file in_file : list string) (stdin : option string)
  (tx0 rx0 : list Z) (d d' : port) (t : list action)
  (r : outcome (bool * list string)) :
  1 <= serial_txbuf_size (Tru11Main.engine p) ->
  1 <= serial_prog_txbuf_size (Tru11Main.engine p) ->
  1 <= serial_rxbuf_size (Tru11Main.engine p) ->
  (256 <= fuel)%nat ->
  Tru11Main.process_cmd_line fuel p talker_file in_file stdin tx0 rx0 d
  = (d', t, r) ->
  let sent X n := moves X n (data_of t) r in
  let lines := accepted_count in_file + file_count in_file in
  let from := from_addr (Tru11Main.engine p) in
  let k := (size (Tru11Main.data p) + 1) / 2 in
  let block code :=
    code :: command_params k from
         ++ hexstr_bytes (TBug11Ops.hexstr_even (Tru11Main.data p)) in
  let N := u32 (to_addr (Tru11Main.engine p) - from + 1) in
  (Tru11Main.cmd p = Tru11Main.CMD_WRITE_NORMAL ->
   sent (write_image 0x02 in_file) lines) /\
  (confirms stdin = true ->
   (Tru11Main.cmd p = Tru11Main.CMD_WRITE_EE ->
    sent (write_image 0x03 in_file) lines) /\
   (Tru11Main.cmd p = Tru11Main.CMD_WRITE_E ->
    sent (write_image 0x04 in_file) lines) /\
   (Tru11Main.cmd p = Tru11Main.CMD_WRITE_E20 ->
    sent (write_image 0x05 in_file) lines)) /\
  (1 <= size (Tru11Main.data p) <= 510 -> 0 <= from < 65536 ->
   (Tru11Main.cmd p = Tru11Main.CMD_WRITE_NORMAL_HEXSTR ->
    sent (block 0x02) (1 + k)) /\
   (Tru11Main.cmd p = Tru11Main.CMD_WRITE_EE_HEXSTR -> confirms stdin = true ->
    sent (block 0x03) (1 + k))) /\
  (Tru11Main.cmd p = Tru11Main.CMD_READ_VERIFY ->
   sent (verify_image in_file) lines) /\
  (Tru11Main.cmd p = Tru11Main.CMD_READ ->
   read_rounds N + 256 <= Z.of_nat fuel ->
   sent (read_image fuel (u16 from) N) (read_rounds N + N)).
Proof.
  intros HT HP HR Hfuel H sent lines from k block N.
  subst sent lines block. cbv beta.
  pose proof (accepted_count_nonneg in_file) as Ha.
  pose proof (file_count_nonneg in_file) as Hc.
  assert (Hk : 0 <= k) by (apply Z.div_pos; unfold size; lia).
  assert (HN : 0 <= N) by (apply Z.mod_pos_bound; lia).
  pose proof (read_rounds_nonneg N HN) as Hrn.
  unfold Tru11Main.process_cmd_line in H. rewrite !tru11_prompt in H.
  split; [|split; [|split; [|split]]].
  - intros Hcmd. rewrite Hcmd in H. dispatched H.
    apply Moves_data_last. now apply Moves_tru11_writemem_file.
  - intros Hy. rewrite Hy in H.
    split; [|split]; intros Hcmd; rewrite Hcmd in H; dispatched H;
      apply Moves_data_last; now apply Moves_tru11_writemem_file.
  - intros Hsz Hfrom.
    split; [intros Hcmd|intros Hcmd Hy; rewrite Hy in H]; rewrite Hcmd in H;
      dispatched H; apply Moves_data_last;
      apply Moves_tru11_writemem_hexstr; try assumption; lia.
  - intros Hcmd. rewrite Hcmd in H. dispatched H.
    apply Moves_data_last. now apply Moves_tru11_readmem_verify.
  - intros Hcmd Hf. rewrite Hcmd in H. dispatched H.
    apply (Moves_data_last _ (fun out_file => (true, out_file))).
    now apply Moves_tru11_readmem.
Qed.

(** One record of two bytes written to the EEPROM with tru11. *)
Lemma tru11_commands_witness :
  1 <= serial_txbuf_size (Tru11Main.engine tru11_write_ee_params) /\
  1 <= serial_prog_txbuf_size (Tru11Main.engine tru11_write_ee_params) /\
  1 <= serial_rxbuf_size (Tru11Main.engine tru11_write_ee_params) /\
  (256 <= 256)%nat /\
  snd tru11_write_ee_run = Done (true, []) /\
  written (data_of (snd (fst tru11_write_ee_run)))
  = [0x03; 2; 0x10; 0x00; 0xaa; 0xbb] /\
  requested (data_of (snd (fst tru11_write_ee_run))) = 3.
Proof.
  assert (H1 : 1 <= serial_txbuf_size (Tru11Main.engine tru11_write_ee_params))
    by (simpl; lia).
  assert (H2 : 1 <= serial_prog_txbuf_size
                      (Tru11Main.engine tru11_write_ee_params)) by (simpl; lia).
  assert (H3 : 1 <= serial_rxbuf_size (Tru11Main.engine tru11_write_ee_params))
    by (simpl; lia).
  assert (H4 : (256 <= 256)%nat) by lia.
  assert (Hr : snd tru11_write_ee_run = Done (true, []))
    by (vm_compute; reflexivity).
  assert (Hrun : Tru11Main.process_cmd_line 256 tru11_write_ee_params []
                   ["S1051000AABB85"%string] (Some "y"%string) [] []
                   (Scripted [] [Ret [0x03]; Ret [0xaa; 0xbb]])
                 = (fst (fst tru11_write_ee_run), snd (fst tru11_write_ee_run),
                    snd tru11_write_ee_run))
    by (vm_compute; reflexivity).
  repeat (split; [assumption|]).
  destruct (tru11_commands 256 tru11_write_ee_params [] ["S1051000AABB85"%string]
              (Some "y"%string) [] [] _ _ _ _ H1 H2 H3 H4 Hrun)
    as (_ & Hee & _).
  destruct (Hee eq_refl) as ((_ & _ & _ & Hd & _) & _); [reflexivity|].
  destruct (Hd (ex_intro _ _ Hr)) as [Hw Hq].
  split; [rewrite Hw|rewrite Hq]; vm_compute; reflexivity.
Defined.

(** X19.  What the commands of tbug11 that write move over the line, with
    chunk sizes of at least 1.  Writing the EEPROM, once confirmed, stores
    0x00 at 0x1035 to take the block protection off, erases and programs
    every data byte of the file, and stores 0x1F at 0x1035 only after all
    of them: whatever the outcome, what was written is a prefix of these
    bytes, of which the five that set the protection again are the last.
    Writing the EPROM,
    once confirmed, programs every data byte through the register at
    0x103B, for the E20 through the one at 0x1036, and touches no
    protection.  Writing a hexadecimal string of 1 to 510 characters sends
    one block.  Writing a file to normal memory ends, when it returns, with
    the five bytes that store 0x1F at 0x1035. *)
Theorem tbug11_commands {port : Type} {SC : serial_com port}
  {CT : serial_ctl port}
  (fuel : nat) (p : CmdLine.cl_my_params)
  (talker_file in_file : list string) (stdin : option string)
  (tx0 rx0 : list Z) (d d' : port) (t : list action)
  (r : outcome (bool * list string)) :
  1 <= CmdLine.serial_txbuf_size p -> 1 <= CmdLine.serial_rxbuf_size p ->
  (255 <= fuel)%nat ->
  TBug11Main.process_cmd_line fuel p talker_file in_file stdin tx0 rx0 d
  = (d', t, r) ->
  let sent X n := moves X n (data_of t) r in
  let protect v := [0x41; 1; 0x10; 0x35; v] in
  let k := (size (CmdLine.data p) + 1) / 2 in
  (confirms stdin = true ->
   (CmdLine.cmd p = CmdLine.CMD_WRITE_EEPROM ->
    sent (protect 0x00 ++ ee_image in_file ++ protect 0x1f)
      (4 + 16 * file_count in_file)) /\
   (CmdLine.cmd p = CmdLine.CMD_WRITE_EPROM ->
    sent (e_image 0x103b in_file) (8 * file_count in_file)) /\
   (CmdLine.cmd p = CmdLine.CMD_WRITE_EPROM_E20 ->
    sent (e_image 0x1036 in_file) (8 * file_count in_file))) /\
  (CmdLine.cmd p = CmdLine.CMD_WRITEHEXSTR ->
   1 <= size (CmdLine.data p) <= 510 -> 0 <= CmdLine.from_addr p < 65536 ->
   sent (0x41 :: command_params k (CmdLine.from_addr p)
              ++ hexstr_bytes (TBug11Ops.hexstr_even (CmdLine.data p)))
     (1 + k)) /\
  (CmdLine.cmd p = CmdLine.CMD_WRITE ->
   forall res, r = Done res ->
     exists d1 d2 evs1 evs2,
       TBug11Ops.writemem_file fuel (TBug11Main.engine_params p) in_file
         tx0 rx0 d1 = (d2, evs1, Done tt) /\
       data_of t = evs1 ++ evs2 /\
       written evs2 = protect 0x1f /\ requested evs2 = 2 /\ res = (true, [])).
Proof.
  intros HT HR Hfuel H sent protect k. subst sent protect. cbv beta.
  pose proof (file_count_nonneg in_file) as Hc.
  assert (Hk : 0 <= k) by (apply Z.div_pos; unfold size; lia).
  unfold TBug11Main.process_cmd_line in H. cbv zeta in H.
  rewrite !tbug11_prompt in H.
  set (engine := TBug11Main.engine_params p) in *.
  assert (HT' : 1 <= serial_txbuf_size engine) by exact HT.
  assert (HR' : 1 <= serial_rxbuf_size engine) by exact HR.
  assert (Hprot : forall v,
            Moves (data_run (transfer (TBug11.writemem_byte fuel engine 0x1035 v)))
              [0x41; 1; 0x10; 0x35; v] 2).
  { intros v. apply Moves_data_transfer.
    apply (Moves_writemem_byte fuel engine 0x1035 v HT' HR'). lia. }
  split; [|split].
  - intros Hy. rewrite Hy in H. split; [|split]; intros Hcmd; rewrite Hcmd in H.
    + dispatched H.
      eapply Moves_eq; [|reflexivity|].
      2: instantiate (1 := 2 + (16 * file_count in_file + 2)); lia.
      apply (Moves_data_pbind _ _ _ _ 2 (16 * file_count in_file + 2));
        [lia|apply Hprot|intros _].
      apply (Moves_data_pbind _ _ _ _ (16 * file_count in_file) 2);
        [lia| |intros _].
      * apply Moves_data_transfer. apply Moves_write_ee; try assumption. lia.
      * apply (Moves_data_last _ (fun _ => (true, []))).
        apply (Moves_writemem_byte fuel engine 0x1035 0x1f HT' HR'). lia.
    + dispatched H. apply Moves_data_last.
      apply (Moves_write_e_file (TBug11Ops.eprom_prog_byte fuel engine) 0x103b).
      intros addr byte. apply Moves_e_sequence; try assumption. lia.
    + dispatched H. apply Moves_data_last.
      apply (Moves_write_e_file (TBug11Ops.eprom_prog_e20_byte fuel engine) 0x1036).
      intros addr byte. apply Moves_e_sequence; try assumption. lia.
  - intros Hcmd Hsz Hfrom. rewrite Hcmd in H. dispatched H.
    apply Moves_data_last.
    apply (Moves_tbug11_writemem_hexstr fuel engine); assumption.
  - intros Hcmd res ->. rewrite Hcmd in H.
    apply open_then_inv in H.
    destruct H as [(code & n & _ & Hr & _)|(d1 & rest & -> & H)];
      [discriminate|].
    apply call_then_inv in H.
    destruct H as (rep & rest1 & -> & [(code & _ & _ & Hr)|(-> & d2 & H)]);
      [discriminate|].
    apply pbind_inv in H.
    destruct H as [(d3 & t1 & [] & t2 & H1 & H & ->)
                  |[(e & _ & Hr)|(_ & Hr)]]; try discriminate.
    apply transfer_inv in H1. destruct H1 as (evs1 & H1 & ->).
    apply pbind_inv in H.
    destruct H as [(d4 & t3 & [] & t4 & H2 & H & ->)
                  |[(e & _ & Hr)|(_ & Hr)]]; try discriminate.
    apply transfer_inv in H2. destruct H2 as (evs2 & H2 & ->).
    injection H as <- <- <-.
    pose proof (Moves_writemem_byte fuel engine 0x1035 0x1f HT' HR'
                  ltac:(lia) _ _ _ _ H2) as (_ & _ & _ & Hd & _).
    destruct (Hd (ex_intro _ tt eq_refl)) as [Hw Hq].
    exists d2, d3, evs1, evs2. split; [exact H1|].
    split; [|repeat split; assumption].
    rewrite data_of_opened.
    change (data_of (Control ?c ?a :: ?l)) with (data_of l).
    rewrite !data_of_app, !data_of_Data. cbn [data_of flat_map].
    rewrite app_nil_r. reflexivity.
Qed.

(** The command line [write_ee file=prog.s19], confirmed, for one byte. *)
Lemma tbug11_commands_witness :
  1 <= CmdLine.serial_txbuf_size tbug11_write_ee_params /\
  1 <= CmdLine.serial_rxbuf_size tbug11_write_ee_params /\
  (255 <= 255)%nat /\
  confirms (Some "yes"%string) = true /\
  CmdLine.cmd tbug11_write_ee_params = CmdLine.CMD_WRITE_EEPROM /\
  snd tbug11_write_ee_run = Done (true, []) /\
  written (data_of (snd (fst tbug11_write_ee_run)))
  = [0x41; 1; 0x10; 0x35; 0x00]
    ++ ee_image ["S1041000AA41"%string] ++ [0x41; 1; 0x10; 0x35; 0x1f] /\
  requested (data_of (snd (fst tbug11_write_ee_run))) = 20.
Proof.
  set (p := tbug11_write_ee_params).
  assert (H1 : 1 <= CmdLine.serial_txbuf_size p) by (vm_compute; discriminate).
  assert (H2 : 1 <= CmdLine.serial_rxbuf_size p) by (vm_compute; discriminate).
  assert (H3 : (255 <= 255)%nat) by lia.
  assert (Hy : confirms (Some "yes"%string) = true) by reflexivity.
  assert (Hc : CmdLine.cmd p = CmdLine.CMD_WRITE_EEPROM)
    by (vm_compute; reflexivity).
  assert (Hr : snd tbug11_write_ee_run = Done (true, []))
    by (vm_compute; reflexivity).
  assert (Hrun : TBug11Main.process_cmd_line 255 p [] ["S1041000AA41"%string]
                   (Some "yes"%string) [] []
                   (ee_talker [0x00; 0x16; 0xaa; 0x17; 0x00; 0x02; 0xaa; 0x03;
                               0x00; 0x1f])
                 = (fst (fst tbug11_write_ee_run), snd (fst tbug11_write_ee_run),
                    snd tbug11_write_ee_run))
    by (vm_compute; reflexivity).
  repeat (split; [assumption|]).
  destruct (tbug11_commands 255 p [] ["S1041000AA41"%string]
              (Some "yes"%string) [] [] _ _ _ _ H1 H2 H3 Hrun) as (Hee & _).
  destruct (Hee Hy) as (Hee1 & _).
  destruct (Hee1 Hc) as (_ & _ & _ & Hd & _).
  destruct (Hd (ex_intro _ _ Hr)) as [Hw Hq].
  split; [rewrite Hw|rewrite Hq]; vm_compute; reflexivity.
Defined.

Lemma tail_kept_refl (buf0 : list Z) : tail_kept buf0 buf0.
Proof. split; [reflexivity|]. intros k _. reflexivity. Qed.

(** The four stores of a command leave the tail of the buffer. *)
Lemma tail_kept_params (buf0 txbuf : list Z) (cmd x y z : Z) :
  (3 <= length txbuf)%nat ->
  tail_kept buf0 txbuf ->
  tail_kept buf0 (poke (poke (poke (poke txbuf 0 cmd) 0 x) 1 y) 2 z).
Proof.
  intros Hl [Hlen Hk]. split; [rewrite !length_poke; assumption|].
  intros k H3.
  rewrite !peek_poke_other by (rewrite ?length_poke; lia).
  apply Hk. assumption.
Qed.

Lemma filler_slice (buf0 txbuf : list Z) (cmd n addr : Z) :
  (3 <= length txbuf)%nat -> tail_kept buf0 txbuf -> 0 <= n ->
  slice (poke (poke (poke (poke txbuf 0 cmd) 0 (u8 n)) 1
                  (u8 (Z.land (Z.shiftr addr 8) 255)))
           2 (u8 (Z.land addr 255))) 0 n
  = read_filler buf0 n addr.
Proof.
  intros Hl [Hlen Hk] Hn. unfold slice, read_filler.
  apply map_ext_in. intros k Hin. apply in_seq in Hin.
  rewrite Z.add_0_l.
  destruct k as [|[|[|k]]].
  - change (Z.of_nat 0) with 0.
    rewrite !peek_poke_other by (rewrite ?length_poke; lia).
    rewrite peek_poke_same by (rewrite ?length_poke; lia). reflexivity.
  - change (Z.of_nat 1) with 1.
    rewrite peek_poke_other by (rewrite ?length_poke; lia).
    rewrite peek_poke_same by (rewrite ?length_poke; lia). reflexivity.
  - change (Z.of_nat 2) with 2.
    rewrite peek_poke_same by (rewrite ?length_poke; lia). reflexivity.
  - rewrite !peek_poke_other by (rewrite ?length_poke; lia).
    cbn [nth command_params]. destruct k; apply Hk; lia.
Qed.

Section FillerFacts.

Context {port : Type} {SC : serial_com port}.

Lemma Moves_tbug11_verify_line_filler (fuel : nat) (arg_params : cl_my_params)
  (buf0 : list Z) (line_str : string) (txbuf rxbuf : list Z) (t : tally) :
  1 <= serial_txbuf_size arg_params -> 1 <= serial_rxbuf_size arg_params ->
  (256 <= fuel)%nat -> (3 <= length txbuf)%nat -> (256 <= length rxbuf)%nat ->
  tail_kept buf0 txbuf ->
  Moves (TBug11.readmem_verify_line fuel arg_params line_str txbuf rxbuf t)
    (tbug11_verify_line_image buf0 line_str)
    ((if accepted line_str then 1 else 0) + line_count line_str).
Proof.
  intros HT HR Hfuel Htx Hrx Hkept.
  unfold tbug11_verify_line_image, line_count.
  destruct (accepted line_str) eqn:E.
  2:{ unfold TBug11.readmem_verify_line. unfold accepted in E.
      destruct (size line_str >=? 8); [cbn in E; rewrite E|];
        apply (Moves_ret (txbuf, rxbuf, t)). }
  unfold accepted in E. apply andb_prop in E. destruct E as [E8' HS1].
  apply Z.geb_le in E8'.
  assert (Hsz : size line_str >= 8) by lia.
  destruct (accepted_line line_str Hsz) as (E8 & E4 & E2).
  pose proof (srec_count_range line_str) as Hn.
  unfold TBug11.readmem_verify_line. rewrite E8, HS1, E4, E2.
  fold (srec_count line_str). fold (srec_address line_str).
  set (n := srec_count line_str) in *. set (a := srec_address line_str).
  set (tx1 := poke txbuf 0 TBug11.TALKER_READ_CMD).
  set (tx2 := poke (poke (poke tx1 0 (u8 n)) 1 (u8 (Z.land (Z.shiftr a 8) 255)))
                2 (u8 (Z.land a 255))).
  assert (Hf : slice tx2 0 n = read_filler buf0 n a).
  { subst tx2 tx1. apply filler_slice; [assumption|assumption|lia]. }
  apply Moves_lift_done. cbv beta zeta. apply Moves_lift_done. cbv beta zeta.
  fold (srec_count line_str). fold (srec_address line_str).
  fold n a tx1 tx2.
  eapply Moves_eq.
  - apply (Moves_bind_post (fun rx1 => length rx1 = length rxbuf) _ _
             (slice tx1 0 1) (slice tx2 0 3 ++ slice tx2 0 n ++ [] ++ [])
             1 (0 + (n + (0 + 0)))); [lia| | |].
    + apply Moves_tbug11_txrx_chunk; try assumption; lia.
    + intros d d' evs rx1 H.
      apply tbug11_txrx_chunk_length in H; try assumption; lia.
    + intros rx1 Hrx1.
      apply (Moves_bind _ _ (slice tx2 0 3) (slice tx2 0 n ++ [] ++ []) 0
               (n + (0 + 0)));
        [lia|apply Moves_tx_chunk; [assumption|lia]|].
      intros _.
      apply (Moves_bind _ _ (slice tx2 0 n) ([] ++ []) n (0 + 0));
        [lia|apply Moves_tbug11_txrx_chunk; try assumption; lia|].
      intros rx2.
      apply (Moves_bind _ _ [] [] 0 0); [lia| |].
      * apply Moves_lift. rewrite verify_data_loop_same.
        apply verify_data_loop_fuel.
      * intros [[[a' rp'] lc] [m ig]]. apply Moves_ret.
  - subst tx1. rewrite command_slice by lia. rewrite Hf.
    unfold tx2. rewrite params_slice_3 by (rewrite length_poke; lia).
    rewrite !app_nil_r. reflexivity.
  - lia.
Qed.

Lemma tbug11_verify_line_kept (fuel : nat) (arg_params : cl_my_params)
  (buf0 : list Z) (line_str : string) (txbuf rxbuf : list Z)
  (t : tally) (d d' : port) (evs : list event)
  (tx' rx' : list Z) (t' : tally) :
  (3 <= length txbuf)%nat -> tail_kept buf0 txbuf ->
  TBug11.readmem_verify_line fuel arg_params line_str txbuf rxbuf t d
  = (d', evs, Done (tx', rx', t')) ->
  tail_kept buf0 tx'.
Proof.
  intros Htx Hkept H. unfold TBug11.readmem_verify_line in H.
  destruct (Z.geb_spec (size line_str) 8) as [Hsz|Hsz].
  2:{ inversion H; subst. assumption. }
  destruct (is_S1 line_str) eqn:HS1.
  2:{ inversion H; subst. assumption. }
  rewrite !substr_some, !bind_lift_done in H by lia.
  cbv beta zeta in H.
  apply bind_done in H. destruct H as (d1 & e1 & rx1 & e2 & H1 & H & _).
  apply bind_done in H. destruct H as (d2 & e3 & [] & e4 & _ & H & _).
  apply bind_done in H. destruct H as (d3 & e5 & rx2 & e6 & H3 & H & _).
  apply bind_done in H. destruct H as (d4 & e7 & st & e8 & H4 & H & _).
  destruct st as [[[a' rp'] lc] [m' ig']].
  apply ret_inv in H. destruct H as (_ & _ & H).
  inversion H; subst tx' rx' t'.
  apply tail_kept_params; assumption.
Qed.

Lemma Moves_tbug11_verify_loop (fuel : nat) (arg_params : cl_my_params)
  (buf0 : list Z) (in_file : list string) :
  1 <= serial_txbuf_size arg_params -> 1 <= serial_rxbuf_size arg_params ->
  (256 <= fuel)%nat ->
  forall (txbuf rxbuf : list Z) (t : tally),
    (256 <= length txbuf)%nat -> (256 <= length rxbuf)%nat ->
    tail_kept buf0 txbuf ->
    Moves (TBug11.readmem_verify_loop fuel arg_params in_file txbuf rxbuf t)
      (tbug11_verify_image buf0 in_file)
      (accepted_count in_file + file_count in_file).
Proof.
  intros HT HR Hfuel.
  induction in_file as [|l rest IH]; intros txbuf rxbuf t Htx Hrx Hkept.
  - apply (Moves_ret t).
  - cbn [TBug11.readmem_verify_loop]. unfold tbug11_verify_image.
    cbn [flat_map].
    pose proof (file_count_nonneg rest) as Hfc.
    pose proof (accepted_count_nonneg rest) as Hac.
    eapply Moves_eq; [|reflexivity|].
    + apply (Moves_bind_post
               (fun st => (256 <= length (fst (fst st)))%nat /\
                          (256 <= length (snd (fst st)))%nat /\
                          tail_kept buf0 (fst (fst st))) _ _
               (tbug11_verify_line_image buf0 l)
               (flat_map (tbug11_verify_line_image buf0) rest)
               ((if accepted l then 1 else 0) + line_count l)
               (accepted_count rest + file_count rest)); [lia| | |].
      * apply Moves_tbug11_verify_line_filler; try assumption; lia.
      * intros d d' evs [[tx' rx'] t'] H.
        destruct (tbug11_verify_line_done fuel arg_params l
                    txbuf rxbuf t 0 d d' evs tx' rx' t' HT HR Hfuel Htx Hrx H)
          as (H1 & H2 & _).
        cbn [fst snd]. split; [lia|]. split; [lia|].
        apply (tbug11_verify_line_kept fuel arg_params buf0 l txbuf rxbuf t
                 d d' evs tx' rx' t'); [lia|assumption|assumption].
      * intros [[tx' rx'] t'] (H1 & H2 & H3). cbn [fst snd] in *.
        now apply IH.
    + rewrite accepted_count_cons, file_count_cons. lia.
Qed.

Lemma Moves_tbug11_readmem_command (fuel : nat) (arg_params : cl_my_params)
  (buf0 : list Z) (addr remaining : Z) (txbuf rxbuf : list Z) :
  1 <= serial_txbuf_size arg_params -> 1 <= serial_rxbuf_size arg_params ->
  (256 <= fuel)%nat -> (3 <= length txbuf)%nat -> (256 <= length rxbuf)%nat ->
  tail_kept buf0 txbuf -> 1 <= remaining ->
  let c := Z.min remaining 256 in
  Moves (TBug11.readmem_command fuel arg_params addr remaining txbuf rxbuf)
    (TBug11.TALKER_READ_CMD :: command_params c addr ++ read_filler buf0 c addr)
    (1 + c) /\
  forall d d' evs st,
    TBug11.readmem_command fuel arg_params addr remaining txbuf rxbuf d
    = (d', evs, Done st) ->
    let '(chunklen', remaining', txbuf', rxbuf', _) := st in
    chunklen' = c /\ remaining' = remaining - c /\
    (3 <= length txbuf')%nat /\ tail_kept buf0 txbuf' /\
    (256 <= length rxbuf')%nat.
Proof.
  intros HT HR Hfuel Htx Hrx Hkept Hrem c.
  unfold TBug11.readmem_command. rewrite min_chunk. fold c.
  assert (Hc : 1 <= c <= 256) by (subst c; lia).
  clearbody c.
  set (tx1 := poke txbuf 0 TBug11.TALKER_READ_CMD).
  set (tx2 := poke (poke (poke tx1 0 (u8 c)) 1
                      (u8 (Z.land (Z.shiftr addr 8) 255)))
                2 (u8 (Z.land addr 255))).
  assert (Hf : slice tx2 0 c = read_filler buf0 c addr).
  { subst tx2 tx1. apply filler_slice; [assumption|assumption|lia]. }
  assert (Hk2 : tail_kept buf0 tx2).
  { subst tx2 tx1. apply tail_kept_params; assumption. }
  assert (Hl2 : length tx2 = length txbuf).
  { subst tx2 tx1. rewrite !length_poke. reflexivity. }
  split.
  - eapply Moves_eq.
    + apply (Moves_bind_post (fun rx1 => length rx1 = length rxbuf) _ _
               (slice tx1 0 1) (slice tx2 0 3 ++ slice tx2 0 c ++ [])
               1 (0 + (c + 0))); [lia| | |].
      * apply Moves_tbug11_txrx_chunk; try assumption; lia.
      * intros d d' evs rx1 H.
        apply tbug11_txrx_chunk_length in H; try assumption; lia.
      * intros rx1 Hrx1.
        apply (Moves_bind _ _ (slice tx2 0 3) (slice tx2 0 c ++ []) 0 (c + 0));
          [lia|apply Moves_tx_chunk; [assumption|lia]|].
        intros _.
        apply (Moves_bind _ _ (slice tx2 0 c) [] c 0);
          [lia|apply Moves_tbug11_txrx_chunk; try assumption; lia|].
        intros rx2. apply Moves_ret.
    + subst tx1. rewrite command_slice by lia. rewrite Hf.
      unfold tx2. rewrite params_slice_3 by (rewrite length_poke; lia).
      rewrite !app_nil_r. reflexivity.
    + lia.
  - intros d d' evs st H.
    apply bind_done in H. destruct H as (d1 & e1 & rx1 & e2 & H1 & H & _).
    apply tbug11_txrx_chunk_length in H1; try assumption; try lia.
    apply bind_done in H. destruct H as (d2 & e3 & [] & e4 & _ & H & _).
    apply bind_done in H. destruct H as (d3 & e5 & rx2 & e6 & H2 & H & _).
    apply tbug11_txrx_chunk_length in H2; try assumption; try lia.
    apply ret_inv in H. destruct H as (_ & _ & H). inversion H; subst.
    fold tx1. fold tx2.
    repeat split; try apply Hk2; try lia.
Qed.

Lemma tbug11_read_image_0 (buf0 : list Z) (rounds : nat) (addr : Z) :
  tbug11_read_image buf0 rounds addr 0 = [].
Proof. destruct rounds; reflexivity. Qed.

Lemma Moves_tbug11_readmem_loop (fuel : nat) (arg_params : cl_my_params)
  (buf0 : list Z) (n : nat) :
  1 <= serial_txbuf_size arg_params -> 1 <= serial_rxbuf_size arg_params ->
  (256 <= fuel)%nat ->
  forall (rounds : nat) (e : srec_writer) (addr chunklen remaining : Z)
         (txbuf rxbuf : list Z) (rxbuf_p : Z),
    (3 <= length txbuf)%nat -> (256 <= length rxbuf)%nat ->
    tail_kept buf0 txbuf -> 0 <= addr < 65536 ->
    0 <= remaining -> 0 <= chunklen <= 256 ->
    Z.of_nat n = chunklen + remaining ->
    read_rounds remaining <= Z.of_nat rounds ->
    Moves (TBug11.readmem_loop n fuel arg_params e addr chunklen remaining
             txbuf rxbuf rxbuf_p)
      (tbug11_read_image buf0 rounds (u16 (addr + chunklen)) remaining)
      (read_rounds remaining + remaining).
Proof.
  intros HT HR Hfuel. induction n as [|n IH];
    intros rounds e addr chunklen remaining txbuf rxbuf rxbuf_p
           Htx Hrx Hkept Haddr Hrem Hchunk Hn Hrounds.
  - assert (remaining = 0) by lia. subst remaining.
    rewrite tbug11_read_image_0. apply (Moves_ret e).
  - cbn [TBug11.readmem_loop].
    destruct (Z.eqb_spec chunklen 0) as [->|Hne].
    + assert (Hr1 : 1 <= remaining) by lia.
      rewrite (read_rounds_step remaining Hr1) in *.
      set (c := Z.min remaining 256) in *.
      assert (Hc : 1 <= c <= 256) by (subst c; lia).
      assert (Hc' : c <= remaining) by (subst c; lia).
      pose proof (read_rounds_nonneg (remaining - c) ltac:(lia)) as Hrr.
      destruct rounds as [|rounds]; [lia|].
      cbn [tbug11_read_image].
      destruct (Z.leb_spec remaining 0) as [Hle|Hgt]; [lia|].
      fold c. rewrite Z.add_0_r, (u16_small addr Haddr).
      destruct (Moves_tbug11_readmem_command fuel arg_params buf0 addr remaining
                  txbuf rxbuf HT HR Hfuel Htx Hrx Hkept Hr1) as [Hm Hpost].
      fold c in Hm, Hpost.
      eapply Moves_eq.
      * apply (Moves_bind_post
                 (fun st : Z * Z * list Z * list Z * Z =>
                    let '(chunklen', remaining', txbuf', rxbuf', _) := st in
                    chunklen' = c /\ remaining' = remaining - c /\
                    (3 <= length txbuf')%nat /\ tail_kept buf0 txbuf' /\
                    (256 <= length rxbuf')%nat) _ _
                 (TBug11.TALKER_READ_CMD
                    :: command_params c addr ++ read_filler buf0 c addr)
                 (tbug11_read_image buf0 rounds (u16 (addr + c)) (remaining - c))
                 (1 + c) (read_rounds (remaining - c) + (remaining - c)));
          [lia|exact Hm|exact Hpost|].
        intros [[[[c1 r1] t1] rx1] p1] (-> & -> & Ht1 & Hk1 & Hrx1).
        replace (u16 (addr + c)) with (u16 (u16 (addr + 1) + u32 (c - 1))).
        2:{ rewrite u16_add_l, u32_small by lia. f_equal. lia. }
        apply IH; try assumption; try lia; try apply u16_range;
          rewrite u32_small; lia.
      * cbn [app]. rewrite <- app_assoc. reflexivity.
      * lia.
    + intros d d' evs r H. rewrite bind_ret in H.
      replace (u16 (addr + chunklen))
        with (u16 (u16 (addr + 1) + u32 (chunklen - 1))).
      2:{ rewrite u16_add_l, u32_small by lia. f_equal. lia. }
      refine (IH rounds _ (u16 (addr + 1)) (u32 (chunklen - 1)) remaining
                txbuf rxbuf (rxbuf_p + 1) Htx Hrx Hkept _ Hrem _ _ Hrounds
                d d' evs r H);
        try apply u16_range; rewrite u32_small; lia.
Qed.

End FillerFacts.

Lemma peek_alloc_buf (tx0 : list Z) (B k : Z) :
  0 <= k < Z.of_nat (length tx0) -> k < B ->
  peek (alloc_buf tx0 B) k = nth (Z.to_nat k) tx0 0.
Proof.
  intros Hk HB. unfold peek, alloc_buf.
  rewrite nth_firstn.
  destruct (Nat.ltb_spec (Z.to_nat k) (Z.to_nat B)) as [_|H]; [|lia].
  apply app_nth1. lia.
Qed.

Lemma length_read_filler (buf0 : list Z) (n addr : Z) :
  length (read_filler buf0 n addr) = Z.to_nat n.
Proof. unfold read_filler. rewrite length_map, length_seq. reflexivity. Qed.

Lemma nth_read_filler (buf0 : list Z) (n addr : Z) (k : nat) :
  (k < Z.to_nat n)%nat ->
  nth k (read_filler buf0 n addr) 0
  = nth k (command_params n addr) (peek buf0 (Z.of_nat k)).
Proof.
  intros Hk. unfold read_filler.
  set (f := fun j => nth j (command_params n addr) (peek buf0 (Z.of_nat j))).
  rewrite (nth_indep _ 0 (f 0%nat))
    by (rewrite length_map, length_seq; assumption).
  rewrite (map_nth f), seq_nth by assumption. reflexivity.
Qed.

Lemma read_filler_params (buf0 : list Z) (n addr : Z) :
  firstn 3 (read_filler buf0 n addr)
  = firstn (Z.to_nat n) (command_params n addr).
Proof.
  apply (nth_ext _ _ 0 0).
  - rewrite !length_firstn, length_read_filler. cbn [length command_params]. lia.
  - intros k Hk. rewrite length_firstn, length_read_filler in Hk.
    rewrite !nth_firstn.
    destruct (Nat.ltb_spec k 3) as [H3|H3]; [|lia].
    destruct (Nat.ltb_spec k (Z.to_nat n)) as [Hn|Hn]; [|lia].
    rewrite nth_read_filler by assumption.
    apply nth_indep. cbn [length command_params]. lia.
Qed.

(** X20.  To read, tbug11 writes as many bytes as it asks for.  With chunk
    sizes of at least 1, [readmem_verify] of tbug11 writes for every
    accepted record the read command, the count and the address, and then
    one byte of its transmit buffer for each byte to read; [readmem] of
    tbug11 does the same for each round of 256 bytes at most.  These bytes
    are the three parameters again and, from the fourth on, what the
    buffer held when it was allocated: the program never sets them.  A
    prefix is written when the run fails and all of it on return. *)
Theorem tbug11_reads_with_fillers {port : Type} {SC : serial_com port}
  (fuel : nat) (arg_params : cl_my_params) (in_file : list string)
  (tx0 rx0 : list Z) (d d' : port) :
  1 <= serial_txbuf_size arg_params -> 1 <= serial_rxbuf_size arg_params ->
  (256 <= fuel)%nat ->
  let buf0 :=
    alloc_buf tx0 (if serial_txbuf_size arg_params >? 256
                   then serial_txbuf_size arg_params else 256) in
  let N := u32 (to_addr arg_params - from_addr arg_params + 1) in
  (forall evs (r : outcome tally),
     TBug11.readmem_verify fuel arg_params in_file tx0 rx0 d = (d', evs, r) ->
     moves (tbug11_verify_image buf0 in_file)
       (accepted_count in_file + file_count in_file) evs r) /\
  (forall evs (r : outcome (list string)),
     TBug11.readmem fuel arg_params tx0 rx0 d = (d', evs, r) ->
     moves (tbug11_read_image buf0 (Z.to_nat (read_rounds N))
              (u16 (from_addr arg_params)) N)
       (read_rounds N + N) evs r) /\
  (forall n addr,
     length (read_filler buf0 n addr) = Z.to_nat n /\
     firstn 3 (read_filler buf0 n addr)
     = firstn (Z.to_nat n) (command_params n addr) /\
     forall k, 3 <= k < n ->
       nth (Z.to_nat k) (read_filler buf0 n addr) 0 = peek buf0 k) /\
  (forall k, 0 <= k < Z.of_nat (length tx0) -> k < 256 ->
     peek buf0 k = nth (Z.to_nat k) tx0 0).
Proof.
  intros HT HR Hfuel buf0 N.
  pose proof (alloc_size tx0 (serial_txbuf_size arg_params)) as Htx.
  pose proof (alloc_size rx0 (serial_rxbuf_size arg_params)) as Hrx.
  change BOOTLOADER_MAX_BYTE_COUNT with 256 in Htx. fold buf0 in Htx.
  assert (HN : 0 <= N < 4294967296) by (apply Z.mod_pos_bound; lia).
  split; [|split; [|split]].
  - intros evs r H. unfold TBug11.readmem_verify in H.
    refine (Moves_tbug11_verify_loop fuel arg_params buf0 in_file HT HR Hfuel
              _ _ _ Htx Hrx (tail_kept_refl buf0) _ _ _ _ H).
  - intros evs r H. unfold TBug11.readmem in H. cbv zeta in H.
    fold N in H.
    pose proof (read_rounds_nonneg N ltac:(lia)) as Hrr.
    revert H. revert evs r.
    cut (Moves (e <- TBug11.readmem_loop (Z.to_nat N) fuel arg_params
                       (srec_begin arg_params) (u16 (from_addr arg_params)) 0 N
                       buf0 (alloc_buf rx0
                               (if serial_rxbuf_size arg_params
                                   >? BOOTLOADER_MAX_BYTE_COUNT
                                then serial_rxbuf_size arg_params
                                else BOOTLOADER_MAX_BYTE_COUNT)) 0 ;;
                ret (if size (full_file_name arg_params) >? 0
                     then srec_end e else out_file e))
              (tbug11_read_image buf0 (Z.to_nat (read_rounds N))
                 (u16 (from_addr arg_params)) N) (read_rounds N + N)).
    { intros Hm evs r H. exact (Hm d d' evs r H). }
    eapply Moves_eq.
    + apply (Moves_bind _ _
               (tbug11_read_image buf0 (Z.to_nat (read_rounds N))
                  (u16 (from_addr arg_params)) N)
               [] (read_rounds N + N) 0); [lia| |].
      * pose proof (Moves_tbug11_readmem_loop fuel arg_params buf0 (Z.to_nat N)
                      HT HR Hfuel (Z.to_nat (read_rounds N))
                      (srec_begin arg_params) (u16 (from_addr arg_params)) 0 N
                      buf0 (alloc_buf rx0
                              (if serial_rxbuf_size arg_params
                                  >? BOOTLOADER_MAX_BYTE_COUNT
                               then serial_rxbuf_size arg_params
                               else BOOTLOADER_MAX_BYTE_COUNT)) 0
                      ltac:(lia) Hrx (tail_kept_refl buf0) (u16_range _)
                      ltac:(lia) ltac:(lia) ltac:(lia) ltac:(lia)) as Hm.
        rewrite Z.add_0_r, u16_idem in Hm. exact Hm.
      * intros e. apply Moves_ret.
    + apply app_nil_r.
    + lia.
  - intros n addr. split; [apply length_read_filler|].
    split; [apply read_filler_params|].
    intros k Hk. rewrite nth_read_filler by lia.
    rewrite Z2Nat.id by lia.
    destruct (Z.to_nat k) as [|[|[|j]]] eqn:E; try lia.
    cbn [nth command_params]. destruct j; reflexivity.
  - intros k Hk H256. apply peek_alloc_buf; [assumption|].
    destruct (serial_txbuf_size arg_params >? 256) eqn:E; [|lia].
    apply Z.gtb_lt in E. lia.
Qed.

(** A record of five bytes, and a transmit buffer that held 0xE0 to 0xE7:
    the fourth and the fifth filler are 0xE3 and 0xE4. *)
Lemma tbug11_reads_with_fillers_witness :
  1 <= serial_txbuf_size default_params /\
  1 <= serial_rxbuf_size default_params /\ (256 <= 256)%nat /\
  (exists t, snd tbug11_verify_run = Done t) /\
  written (snd (fst tbug11_verify_run))
  = [0x01; 5; 0x10; 0x00; 5; 0x10; 0x00; 0xe3; 0xe4] /\
  requested (snd (fst tbug11_verify_run)) = 6.
Proof.
  assert (H1 : 1 <= serial_txbuf_size default_params) by (simpl; lia).
  assert (H2 : 1 <= serial_rxbuf_size default_params) by (simpl; lia).
  assert (H3 : (256 <= 256)%nat) by lia.
  assert (Hr : exists t, snd tbug11_verify_run = Done t)
    by (eexists; vm_compute; reflexivity).
  assert (Hrun : TBug11.readmem_verify 256 default_params
                   ["S1081000000000000000E7"%string]
                   [0xe0; 0xe1; 0xe2; 0xe3; 0xe4; 0xe5; 0xe6; 0xe7] []
                   (Scripted [] [Ret [0xfe]; Ret [0; 0; 0; 0; 0]])
                 = (fst (fst tbug11_verify_run), snd (fst tbug11_verify_run),
                    snd tbug11_verify_run))
    by (vm_compute; reflexivity).
  repeat (split; [assumption|]).
  destruct (tbug11_reads_with_fillers 256 default_params
              ["S1081000000000000000E7"%string]
              [0xe0; 0xe1; 0xe2; 0xe3; 0xe4; 0xe5; 0xe6; 0xe7] []
              (Scripted [] [Ret [0xfe]; Ret [0; 0; 0; 0; 0]])
              (fst (fst tbug11_verify_run)) H1 H2 H3) as (Hv & _).
  destruct (Hv _ _ Hrun) as (_ & _ & _ & Hd & _).
  destruct Hr as [t Hr].
  destruct (Hd (ex_intro _ t Hr)) as [Hw Hq].
  split; [rewrite Hw|rewrite Hq]; vm_compute; reflexivity.
Defined.

Lemma length_string_of_list (l : list ascii) :
  String.length (string_of_list_ascii l) = length l.
Proof. induction l as [|a l IH]; simpl; [|rewrite IH]; reflexivity. Qed.

Lemma hex_str_loop_spec (param : string) (key_size : Z) (n : nat) :
  forall (j : nat) (value : string),
    0 <= key_size ->
    key_size + 2 * (Z.of_nat j + Z.of_nat n) <= size param + 2 ->
    CmdLine.hex_str_loop n param key_size (2 * Z.of_nat j) value
    = Done (value ++ string_of_list_ascii
                       (map (pair_char param key_size) (seq j n)))%string.
Proof.
  induction n as [|n IH]; intros j value Hk Hb.
  - simpl. rewrite string_app_nil_r. reflexivity.
  - cbn [CmdLine.hex_str_loop].
    rewrite substr_some by lia.
    replace (2 * Z.of_nat j + 2) with (2 * Z.of_nat (S j)) by lia.
    rewrite IH by lia.
    cbn [seq map string_of_list_ascii].
    rewrite string_app_assoc. reflexivity.
Qed.

(** X21.  [parse_param_hex_str] never throws: it returns for every
    argument.  It returns true exactly when the argument is longer than the
    key and begins with it; the value is then one character for every two
    characters after the key, a last single character counting as a pair,
    each the byte that [strtoul(_, NULL, 16)] reads in the pair.  When it
    returns false, the value is empty, whatever it held before the call. *)
Theorem parse_param_hex_str_total (param key value : string) :
  let L := size param - size key in
  exists b v,
    CmdLine.parse_param_hex_str param key value = Done (b, v) /\
    (b = true <-> 1 <= L /\ CmdLine.compare_key param key = true) /\
    (b = false -> v = ""%string) /\
    (b = true ->
     v = pair_chars param (size key) (Z.to_nat ((L + 1) / 2)) /\
     size v = (L + 1) / 2).
Proof.
  intros L. unfold CmdLine.parse_param_hex_str.
  destruct (Z.geb_spec (size param) (size key + 1)) as [Hge|Hlt].
  2:{ exists false, ""%string. split; [reflexivity|]. split.
      - split; [discriminate|]. intros [H _]. unfold L in H. lia.
      - split; [reflexivity|discriminate]. }
  destruct (CmdLine.compare_key param key) eqn:Hc.
  2:{ exists false, ""%string. split; [reflexivity|]. split.
      - split; [discriminate|]. intros [_ H]. discriminate.
      - split; [reflexivity|discriminate]. }
  assert (HL : 1 <= L) by (unfold L; lia).
  assert (Hn : 0 <= (L + 1) / 2) by (apply Z.div_pos; lia).
  pose proof (hex_str_loop_spec param (size key) (Z.to_nat ((L + 1) / 2)) 0 ""
                ltac:(unfold size; lia)) as Hloop.
  change (2 * Z.of_nat 0) with 0 in Hloop.
  replace (size param - size key + 1) with (L + 1) by (unfold L; lia).
  rewrite Hloop.
  2:{ rewrite Z2Nat.id by lia. unfold L in *.
      Z.to_euclidean_division_equations. lia. }
  exists true, (pair_chars param (size key) (Z.to_nat ((L + 1) / 2))).
  split; [reflexivity|]. split; [split; [intros _; split; [assumption|reflexivity]|reflexivity]|].
  split; [discriminate|]. intros _. split; [reflexivity|].
  unfold size at 1, pair_chars.
  rewrite length_string_of_list, length_map, length_seq. lia.
Qed.

Section FarFacts.

Context {port : Type} {SC : serial_com port}.

(** Two transfers and then [std::out_of_range]: the run never returns, and
    when it ends with this exception both transfers are complete. *)
Lemma cut_after_two {A B C} (m1 : M port A) (m2 : A -> M port B)
  (k : A -> B -> M port C) (X1 X2 : list Z) (n1 n2 : Z)
  (d d' : port) (evs : list event) (r : outcome C) :
  0 <= n2 ->
  Moves m1 X1 n1 -> Catchable m1 ->
  (forall a, Moves (m2 a) X2 n2) -> (forall a, Catchable (m2 a)) ->
  (forall a b d1, k a b d1 = (d1, [], Throw STD_OUT_OF_RANGE)) ->
  bind m1 (fun a => bind (m2 a) (fun b => k a b)) d = (d', evs, r) ->
  moves (X1 ++ X2) (n1 + n2) evs r /\
  (forall c, r <> Done c) /\
  (r = Throw STD_OUT_OF_RANGE ->
   written evs = X1 ++ X2 /\ requested evs = n1 + n2).
Proof.
  intros Hn2 Hm1 Hc1 Hm2 Hc2 Hk H.
  assert (Hm : Moves (bind m1 (fun a => bind (m2 a) (fun b =>
                        lift (Throw STD_OUT_OF_RANGE : outcome C))))
                 (X1 ++ X2) (n1 + n2)).
  { apply (Moves_eq _ (X1 ++ X2 ++ []) _ (n1 + (n2 + 0)));
      [|rewrite app_nil_r; reflexivity|lia].
    apply (Moves_bind _ _ X1 (X2 ++ []) n1 (n2 + 0)); [lia|exact Hm1|].
    intros a. apply (Moves_bind _ _ X2 [] n2 0); [lia|apply Hm2|].
    intros b. apply Moves_lift. discriminate. }
  assert (Heq : bind m1 (fun a => bind (m2 a) (fun b => k a b)) d
                = bind m1 (fun a => bind (m2 a) (fun b =>
                     lift (Throw STD_OUT_OF_RANGE))) d).
  { apply bind_ext. intros a d1. apply bind_ext. intros b d2. apply Hk. }
  rewrite Heq in H. clear Heq.
  split; [exact (Hm _ _ _ _ H)|]. split.
  - intros c E. rewrite E in H.
    apply bind_done in H. destruct H as (d1 & e1 & a & e2 & _ & H & _).
    apply bind_done in H. destruct H as (d2 & e3 & b & e4 & _ & H & _).
    discriminate.
  - intros E. rewrite E in H. apply bind_inv in H.
    destruct H as [(d1 & e1 & a & e2 & H1 & H & ->)|[(e & H1 & E')|[_ E']]];
      [| |discriminate].
    2:{ inversion E'; subst e. pose proof (Hc1 _ _ _ _ H1). discriminate. }
    destruct (Hm1 _ _ _ _ H1) as (_ & _ & _ & Hd1 & _).
    destruct (Hd1 (ex_intro _ _ eq_refl)) as [Hw1 Hq1].
    apply bind_inv in H.
    destruct H as [(d2 & e3 & b & e4 & H2 & H & ->)|[(e & H2 & E')|[_ E']]];
      [| |discriminate].
    2:{ inversion E'; subst e. pose proof (Hc2 a _ _ _ _ H2). discriminate. }
    destruct (Hm2 a _ _ _ _ H2) as (_ & _ & _ & Hd2 & _).
    destruct (Hd2 (ex_intro _ _ eq_refl)) as [Hw2 Hq2].
    unfold lift in H. injection H as <- <-.
    rewrite !written_app, !requested_app, Hw1, Hw2, Hq1, Hq2.
    cbn [written requested]. rewrite !app_nil_r. split; [reflexivity|lia].
Qed.

(** The first byte of the string is looked for beyond its end. *)
Lemma hexstr_fill_far (arg_params : cl_my_params) (data : string) (n : nat)
  (txbuf : list Z) :
  65536 <= from_addr arg_params < 2147483648 -> size data < 131072 ->
  TBug11Ops.hexstr_fill_loop (S n) arg_params data
    (u16 (from_addr arg_params)) 0 txbuf
  = Throw STD_OUT_OF_RANGE.
Proof.
  intros Hfrom Hsz. cbn [TBug11Ops.hexstr_fill_loop].
  rewrite substr_none; [reflexivity|].
  unfold u32, u16.
  pose proof (Z.mod_pos_bound (from_addr arg_params) 65536 ltac:(lia)) as Hm.
  pose proof (Z.div_mod (from_addr arg_params) 65536 ltac:(lia)) as Hdm.
  set (q := from_addr arg_params / 65536) in *.
  set (a := from_addr arg_params mod 65536) in *.
  assert (Hq : 1 <= q < 32768) by lia.
  replace (2 * (a - from_addr arg_params + 0))
    with (4294967296 - 131072 * q + (-1) * 4294967296) by lia.
  rewrite Z.mod_add by lia. rewrite Z.mod_small by lia. lia.
Qed.

Lemma far_tbug11_hexstr_loop (fuel : nat) (arg_params : cl_my_params)
  (data : string) (n : Z) (txbuf rxbuf : list Z)
  (d d' : port) (evs : list event) (r : outcome unit) :
  1 <= serial_txbuf_size arg_params -> 1 <= serial_rxbuf_size arg_params ->
  (3 <= fuel)%nat -> 1 <= n <= 255 ->
  65536 <= from_addr arg_params < 2147483648 -> size data < 131072 ->
  (3 <= length txbuf)%nat -> (1 <= length rxbuf)%nat ->
  TBug11Ops.writemem_hexstr_loop fuel arg_params data
    (u16 (from_addr arg_params)) n txbuf rxbuf d = (d', evs, r) ->
  let X := TBug11.TALKER_WRITE_CMD
             :: command_params n (u16 (from_addr arg_params)) in
  moves X 1 evs r /\ (forall c, r <> Done c) /\
  (r = Throw STD_OUT_OF_RANGE -> written evs = X /\ requested evs = 1).
Proof.
  intros HT HR Hfuel Hn Hfrom Hsz Htx Hrx H X.
  destruct fuel as [|fuel]; [lia|].
  cbn [TBug11Ops.writemem_hexstr_loop] in H.
  destruct (Z.eqb_spec n 0); [lia|].
  rewrite small_chunklen in H by lia. cbv zeta in H.
  set (a := u16 (from_addr arg_params)) in *.
  set (tx1 := poke txbuf 0 TBug11.TALKER_WRITE_CMD) in *.
  set (tx2 := poke (poke (poke tx1 0 (u8 n)) 1 (u8 (Z.land (Z.shiftr a 8) 255)))
                2 (u8 (Z.land a 255))) in *.
  assert (HX : X = slice tx1 0 1 ++ slice tx2 0 3).
  { subst X tx1. rewrite command_slice by lia.
    unfold tx2. rewrite params_slice_3 by (rewrite length_poke; lia).
    reflexivity. }
  rewrite HX. change 1 with (1 + 0) at 1 4.
  refine (cut_after_two _ (fun _ => _) (fun rx1 (_ : unit) => _) _ _ 1 0
            _ _ _ _ (Z.le_refl 0) _ _ _ _ _ H).
  - apply Moves_tbug11_txrx_chunk; try assumption; lia.
  - apply Catchable_tbug11_txrx_chunk.
  - intros _. apply Moves_tx_chunk; [assumption|lia].
  - intros _. apply Catchable_tx_chunk.
  - intros rx1 [] d1.
    replace (Z.to_nat n) with (S (Z.to_nat n - 1)) by lia.
    unfold a. rewrite hexstr_fill_far by assumption.
    apply bind_lift_throw.
Qed.

Lemma far_tru11_hexstr_loop (fuel : nat) (arg_params : cl_my_params)
  (arg_write_cmd_code : Z) (data : string) (n : Z) (txbuf rxbuf : list Z)
  (d d' : port) (evs : list event) (r : outcome unit) :
  1 <= serial_txbuf_size arg_params -> 1 <= serial_rxbuf_size arg_params ->
  (3 <= fuel)%nat -> 1 <= n <= 255 ->
  65536 <= from_addr arg_params < 2147483648 -> size data < 131072 ->
  (3 <= length txbuf)%nat -> (1 <= length rxbuf)%nat ->
  Tru11Ops.writemem_hexstr_loop fuel arg_params arg_write_cmd_code data
    (u16 (from_addr arg_params)) n txbuf rxbuf d = (d', evs, r) ->
  let X := arg_write_cmd_code
             :: command_params n (u16 (from_addr arg_params)) in
  moves X 1 evs r /\ (forall c, r <> Done c) /\
  (r = Throw STD_OUT_OF_RANGE -> written evs = X /\ requested evs = 1).
Proof.
  intros HT HR Hfuel Hn Hfrom Hsz Htx Hrx H X.
  destruct fuel as [|fuel]; [lia|].
  cbn [Tru11Ops.writemem_hexstr_loop] in H.
  destruct (Z.eqb_spec n 0); [lia|].
  rewrite small_chunklen in H by lia. cbv zeta in H.
  set (a := u16 (from_addr arg_params)) in *.
  set (tx1 := poke txbuf 0 arg_write_cmd_code) in *.
  set (tx2 := poke (poke (poke tx1 0 (u8 n)) 1 (u8 (Z.land (Z.shiftr a 8) 255)))
                2 (u8 (Z.land a 255))) in *.
  assert (HX : X = slice tx1 0 1 ++ slice tx2 0 3).
  { subst X tx1. rewrite command_slice by lia.
    unfold tx2. rewrite params_slice_3 by (rewrite length_poke; lia).
    reflexivity. }
  rewrite HX. change 1 with (1 + 0) at 1 4.
  refine (cut_after_two _ (fun _ => _) (fun rx1 (_ : unit) => _) _ _ 1 0
            _ _ _ _ (Z.le_refl 0) _ _ _ _ _ H).
  - apply Moves_tru11_txrx_chunk; try assumption; lia.
  - apply Catchable_tru11_txrx_chunk.
  - intros _. apply Moves_tx_chunk; [assumption|lia].
  - intros _. apply Catchable_tx_chunk.
  - intros rx1 [] d1.
    replace (Z.to_nat n) with (S (Z.to_nat n - 1)) by lia.
    unfold a. rewrite hexstr_fill_far by assumption.
    apply bind_lift_throw.
Qed.

End FarFacts.

(** X22.  A start address that does not fit 16 bits.  With [from_addr]
    from 0x10000 to 0x7FFFFFFF and a string of 1 to 510 characters,
    [writemem_hexstr] of both programs never returns: it sends the command,
    the count and the low 16 bits of the address, and then looks for the
    first byte of the string far beyond its end, which raises
    [std::out_of_range], an exception that [main] does not catch.  No byte
    of the string is written; a failed transfer ends the run before. *)
Theorem hexstr_address_beyond_16_bits {port : Type} {SC : serial_com port}
  (fuel : nat) (arg_params : cl_my_params) (arg_write_cmd_code : Z)
  (data : string) (tx0 rx0 : list Z) (d : port) :
  1 <= serial_txbuf_size arg_params -> 1 <= serial_rxbuf_size arg_params ->
  (3 <= fuel)%nat ->
  65536 <= from_addr arg_params < 2147483648 ->
  1 <= size data <= 510 ->
  let n := (size data + 1) / 2 in
  let low := u16 (from_addr arg_params) in
  let cut (X : list Z) (run : port * list event * outcome unit) :=
    let '(_, evs, r) := run in
    moves X 1 evs r /\ (forall c, r <> Done c) /\
    (r = Throw STD_OUT_OF_RANGE -> written evs = X /\ requested evs = 1) in
  cut (0x41 :: command_params n low)
      (TBug11Ops.writemem_hexstr fuel arg_params data tx0 rx0 d) /\
  cut (arg_write_cmd_code :: command_params n low)
      (Tru11Ops.writemem_hexstr fuel arg_params arg_write_cmd_code data
         tx0 rx0 d) /\
  is_tru_exception STD_OUT_OF_RANGE = false.
Proof.
  intros HT HR Hfuel Hfrom Hsz n low cut. subst cut. cbv beta.
  destruct (hexstr_facts data Hsz) as (Hn & Hn2 & Hr & _). fold n in Hn, Hn2, Hr.
  pose proof (size_hexstr_even data) as He.
  assert (Hlt : size (TBug11Ops.hexstr_even data) < 131072).
  { rewrite He. pose proof (Z.mod_pos_bound (size data) 2 ltac:(lia)). lia. }
  assert (Hpos : (size data >? 0) = true) by (apply Z.gtb_lt; lia).
  pose proof (alloc_size tx0 (serial_txbuf_size arg_params)) as Htx.
  pose proof (alloc_size rx0 (serial_rxbuf_size arg_params)) as Hrx.
  split; [|split; [|reflexivity]].
  - destruct (TBug11Ops.writemem_hexstr _ _ _ _ _ d) as [[d' evs] r] eqn:E.
    unfold TBug11Ops.writemem_hexstr in E. rewrite Hpos in E. cbv zeta in E.
    rewrite Hn, (u32_small n) in E by lia.
    refine (far_tbug11_hexstr_loop fuel arg_params _ n _ _ _ _ _ _
              HT HR Hfuel Hr Hfrom Hlt _ _ E); lia.
  - destruct (Tru11Ops.writemem_hexstr _ _ _ _ _ _ d) as [[d' evs] r] eqn:E.
    unfold Tru11Ops.writemem_hexstr in E. rewrite Hpos in E. cbv zeta in E.
    rewrite Hn, (u32_small n) in E by lia.
    refine (far_tru11_hexstr_loop fuel arg_params arg_write_cmd_code _ n _ _
              _ _ _ _ HT HR Hfuel Hr Hfrom Hlt _ _ E); lia.
Qed.

(** The characters AB written at 0x10000 with tbug11. *)
Lemma hexstr_address_beyond_16_bits_witness :
  1 <= serial_txbuf_size (read_params 0x10000 0 "") /\
  1 <= serial_rxbuf_size (read_params 0x10000 0 "") /\
  (3 <= 255)%nat /\
  65536 <= from_addr (read_params 0x10000 0 "") < 2147483648 /\
  1 <= size "AB" <= 510 /\
  snd hexstr_far_run = Throw STD_OUT_OF_RANGE /\
  written (snd (fst hexstr_far_run)) = [0x41; 1; 0x00; 0x00].
Proof.
  assert (H1 : 1 <= serial_txbuf_size (read_params 0x10000 0 ""))
    by (simpl; lia).
  assert (H2 : 1 <= serial_rxbuf_size (read_params 0x10000 0 ""))
    by (simpl; lia).
  assert (H3 : (3 <= 255)%nat) by lia.
  assert (H4 : 65536 <= from_addr (read_params 0x10000 0 "") < 2147483648)
    by (simpl; lia).
  assert (H5 : 1 <= size "AB" <= 510) by (vm_compute; split; discriminate).
  assert (Hr : snd hexstr_far_run = Throw STD_OUT_OF_RANGE)
    by (vm_compute; reflexivity).
  repeat (split; [assumption|]).
  pose proof (proj1 (hexstr_address_beyond_16_bits 255
                       (read_params 0x10000 0 "") 0 "AB" [] []
                       (Scripted [] [Ret [0xbe]]) H1 H2 H3 H4 H5)) as Hcut.
  change (TBug11Ops.writemem_hexstr 255 (read_params 0x10000 0 "") "AB" [] []
            (Scripted [] [Ret [0xbe]])) with hexstr_far_run in Hcut.
  destruct hexstr_far_run as [[d' evs] r]. simpl in Hr. simpl.
  destruct Hcut as (_ & _ & Hw).
  destruct (Hw Hr) as [Hw' _]. rewrite Hw'. vm_compute. reflexivity.
Defined.
